(** * markdownlint rule catalog (lib/rules.js): shallow embedding and properties

    The development follows the layout of [lib/rules.js]:
    - JavaScript strings, whitespace and the regular expressions the rules use;
    - tokens, parameters and the helper traversals ([forEachLine],
      [forEachHeading], [flattenLists]);
    - the rule catalog, one definition per rule;
    - the properties of the traversals and of the rules. *)

From Stdlib Require Import String Ascii List ZArith NArith Bool Lia Sorted
  Permutation.
Import ListNotations.

Local Open Scope Z_scope.

(** ** JavaScript strings *)

(** A JavaScript string is a sequence of UTF-16 code units. *)
Definition char := N.
Definition jsstring := list char.

Definition code (a : ascii) : char := N_of_ascii a.

(** [lit "abc"] is the JavaScript string literal ["abc"]. *)
Definition lit (s : string) : jsstring := map code (list_ascii_of_string s).

Fixpoint jsstring_eqb (a b : jsstring) : bool :=
  match a, b with
  | [], [] => true
  | x :: a', y :: b' => N.eqb x y && jsstring_eqb a' b'
  | _, _ => false
  end.

(** ECMAScript [LineTerminator]: LF, CR, LS, PS. *)
Definition isLineTerminator (c : char) : bool :=
  (N.eqb c 10 || N.eqb c 13 || N.eqb c 8232 || N.eqb c 8233)%bool.

(** ECMAScript [WhiteSpace]: TAB, VT, FF, SP, NBSP, BOM and the Unicode
    space separators. *)
Definition isWhiteSpace (c : char) : bool :=
  (N.eqb c 9 || N.eqb c 11 || N.eqb c 12 || N.eqb c 32 || N.eqb c 160
   || N.eqb c 5760 || (N.leb 8192 c && N.leb c 8202)
   || N.eqb c 8239 || N.eqb c 8287 || N.eqb c 12288 || N.eqb c 65279)%bool.

(** The class [\s], which is also what [trim] and [trimLeft] strip. *)
Definition isSpace (c : char) : bool :=
  (isWhiteSpace c || isLineTerminator c)%bool.

Fixpoint trimLeft (s : jsstring) : jsstring :=
  match s with
  | c :: s' => if isSpace c then trimLeft s' else s
  | [] => []
  end.

Definition trimRight (s : jsstring) : jsstring := rev (trimLeft (rev s)).

Definition trim (s : jsstring) : jsstring := trimRight (trimLeft s).

(** [s.substr(0, 1)] *)
Definition substr01 (s : jsstring) : jsstring := firstn 1 s.

(** [String(n)] for a non-negative integer: its decimal digits. *)
Fixpoint digitsFuel (fuel : nat) (n : N) (acc : jsstring) : jsstring :=
  match fuel with
  | O => acc
  | S fuel' =>
      let acc' := (48 + N.modulo n 10)%N :: acc in
      if N.ltb n 10 then acc' else digitsFuel fuel' (N.div n 10) acc'
  end.

Definition String_ (n : N) : jsstring := digitsFuel (S (N.to_nat (N.log2 n))) n [].

(** ** Regular expressions *)

(** The fragment of the RegExp syntax that the rules use.  A character class
    is a predicate on code units. *)
Inductive regex : Type :=
| Never : regex
| Eps : regex
| Chr (p : char -> bool) : regex
| Cat (r1 r2 : regex) : regex
| Alt (r1 r2 : regex) : regex
| Star (r : regex) : regex.

(** [r+] and [r{n}] *)
Definition Plus (r : regex) : regex := Cat r (Star r).

Fixpoint Repeat (n : nat) (r : regex) : regex :=
  match n with
  | O => Eps
  | S n' => Cat r (Repeat n' r)
  end.

(** The strings a regular expression matches in full. *)
Inductive Lang : regex -> jsstring -> Prop :=
| LEps : Lang Eps []
| LChr p c : p c = true -> Lang (Chr p) [c]
| LCat r1 r2 s1 s2 : Lang r1 s1 -> Lang r2 s2 -> Lang (Cat r1 r2) (s1 ++ s2)
| LAltL r1 r2 s : Lang r1 s -> Lang (Alt r1 r2) s
| LAltR r1 r2 s : Lang r2 s -> Lang (Alt r1 r2) s
| LStarNil r : Lang (Star r) []
| LStarCons r s1 s2 : Lang r s1 -> Lang (Star r) s2 -> Lang (Star r) (s1 ++ s2).

(** Matching by derivatives. *)
Fixpoint nullable (r : regex) : bool :=
  match r with
  | Never => false
  | Eps => true
  | Chr _ => false
  | Cat r1 r2 => nullable r1 && nullable r2
  | Alt r1 r2 => nullable r1 || nullable r2
  | Star _ => true
  end.

Fixpoint deriv (c : char) (r : regex) : regex :=
  match r with
  | Never => Never
  | Eps => Never
  | Chr p => if p c then Eps else Never
  | Cat r1 r2 =>
      if nullable r1 then Alt (Cat (deriv c r1) r2) (deriv c r2)
      else Cat (deriv c r1) r2
  | Alt r1 r2 => Alt (deriv c r1) (deriv c r2)
  | Star r1 => Cat (deriv c r1) (Star r1)
  end.

Fixpoint matches (r : regex) (s : jsstring) : bool :=
  match s with
  | [] => nullable r
  | c :: s' => matches (deriv c r) s'
  end.

(** Character classes. *)
Definition anyChar : char -> bool := fun _ => true.
(** [.] matches anything but a line terminator. *)
Definition dot : char -> bool := fun c => negb (isLineTerminator c).
Definition isChar (a : ascii) : char -> bool := fun c => N.eqb c (code a).
Definition isNot (a : ascii) : char -> bool := fun c => negb (N.eqb c (code a)).
Definition oneOf (s : jsstring) : char -> bool := fun c => existsb (N.eqb c) s.
Definition notSpace : char -> bool := fun c => negb (isSpace c).
Definition isDigit : char -> bool := fun c => (N.leb 48 c && N.leb c 57)%bool.

(** The literal text [s] as a pattern. *)
Fixpoint Text (s : jsstring) : regex :=
  match s with
  | [] => Eps
  | c :: s' => Cat (Chr (N.eqb c)) (Text s')
  end.

(** A pattern is a body with an optional [^] in front and an optional [$]
    behind; none of the patterns of the rules has flags. *)
Record pattern : Type := mkPattern {
  p_bol : bool;
  p_body : regex;
  p_eol : bool
}.

(** [re.test(s)]: some substring of [s] (a prefix under [^], a suffix under
    [$]) matches the body. *)
Definition test (re : pattern) (s : jsstring) : bool :=
  matches
    (Cat (if p_bol re then Eps else Star (Chr anyChar))
         (Cat (p_body re) (if p_eol re then Eps else Star (Chr anyChar))))
    s.

(** ** Exceptions *)

(** A rule either returns or throws a [TypeError] (a property read on
    [undefined] or [null]). *)
Inductive result (A : Type) : Type :=
| Ok (a : A) : result A
| TypeError : result A.
Arguments Ok {A} a.
Arguments TypeError {A}.

Definition bind {A B : Type} (m : result A) (f : A -> result B) : result B :=
  match m with
  | Ok a => f a
  | TypeError => TypeError
  end.

Notation "x <- m ;; k" := (bind m (fun x => k))
  (at level 61, m at next level, right associativity).

(** [xs.forEach(f)] where [f] updates a state and may throw. *)
Fixpoint foldM {A St : Type} (f : St -> A -> result St) (xs : list A) (s : St)
  : result St :=
  match xs with
  | [] => Ok s
  | x :: xs' => s' <- f s x ;; foldM f xs' s'
  end.

(** [xs.forEach(f)] for [f(element, index)], indices from [i]. *)
Fixpoint foldMi {A St : Type} (f : St -> A -> Z -> result St) (xs : list A)
  (i : Z) (s : St) : result St :=
  match xs with
  | [] => Ok s
  | x :: xs' => s' <- f s x i ;; foldMi f xs' (i + 1) s'
  end.

(** ** Tokens and parameters *)

(** An inline child span: [child.type] and [child.content]. *)
Module Child.
Record t : Type := mk {
  type : string;
  content : jsstring
}.
End Child.

(** A token as the rules see it.  [lines] is the half-open range
    [[start, end]] of 0-based line indices and is absent on some tokens (the
    code tests [token.lines]); [line] and [lineNumber] are the text and the
    1-based number of the line the token starts on; [content] is the empty
    string on a token that carries none. *)
Module Token.
Record t : Type := mk {
  type : string;
  lines : option (Z * Z);
  line : jsstring;
  lineNumber : Z;
  hLevel : Z;
  content : jsstring;
  children : list Child.t
}.
End Token.

(** [params.options]: the configuration of one rule, already validated (a
    number is a non-negative integer); [None] is an absent option. *)
Module Options.
Record t : Type := mk {
  style : option string;
  indent : option N;
  line_length : option N;
  punctuation : option jsstring;
  ul_single : option N;
  ol_single : option N;
  ul_multi : option N;
  ol_multi : option N
}.
Definition none : t := mk None None None None None None None None.
End Options.

Module Params.
Record t : Type := mk {
  tokens : list Token.t;
  lines : list jsstring;
  options : Options.t
}.
End Params.

(** [x || d] on an optional number: [undefined] and [0] are falsy. *)
Definition orNum (x : option N) (d : N) : N :=
  match x with
  | Some n => if N.eqb n 0 then d else n
  | None => d
  end.

(** [x || d] on an optional string: [undefined] and the empty string are falsy. *)
Definition orStr (x : option string) (d : string) : string :=
  match x with
  | Some EmptyString => d
  | Some s => s
  | None => d
  end.

Definition orJsstring (x : option jsstring) (d : jsstring) : jsstring :=
  match x with
  | Some [] => d
  | Some s => s
  | None => d
  end.

(** [token.lines[0]] and [token.lines[1]] *)
Definition lines0 (token : Token.t) : result Z :=
  match Token.lines token with
  | Some (a, _) => Ok a
  | None => TypeError
  end.

Definition lines1 (token : Token.t) : result Z :=
  match Token.lines token with
  | Some (_, b) => Ok b
  | None => TypeError
  end.

(** [errors.push(n)] *)
Definition push {A : Type} (xs : list A) (x : A) : list A := xs ++ [x].

(** ** Helpers of lib/rules.js *)

(** Returns the indent for a token *)
Definition indentFor (token : Token.t) : Z :=
  Z.of_nat (length (Token.line token))
  - Z.of_nat (length (trimLeft (Token.line token))).

(** [/#\s*$/] *)
Definition re_closedHash : pattern :=
  mkPattern false (Cat (Chr (isChar "#")) (Star (Chr isSpace))) true.

(** Returns the heading style for a heading token *)
Definition headingStyleFor (token : Token.t) : result string :=
  l1 <- lines1 token ;;
  l0 <- lines0 token ;;
  if Z.eqb (l1 - l0) 1 then
    if test re_closedHash (Token.line token) then Ok "atx_closed"%string
    else Ok "atx"%string
  else Ok "setext"%string.

(** Returns the unordered list style for a list item token *)
Definition unorderedListStyleFor (token : Token.t) : string :=
  let c := substr01 (trimLeft (Token.line token)) in
  if jsstring_eqb c (lit "-") then "dash"
  else if jsstring_eqb c (lit "+") then "plus"
  else "asterisk".

(** Things that carry a [type] tag: tokens and inline children. *)
Class HasType (A : Type) : Type := typeOf : A -> string.
#[export] Instance Token_HasType : HasType Token.t := Token.type.
#[export] Instance Child_HasType : HasType Child.t := Child.type.

(** Filters a list of tokens by type; [typeB] may be omitted. *)
Definition filterTokens {A : Type} `{HasType A} (tokens : list A)
  (typeA : string) (typeB : option string) : list A :=
  filter (fun token =>
            String.eqb (typeOf token) typeA
            || match typeB with
               | Some b => String.eqb (typeOf token) b
               | None => false
               end)%bool
         tokens.

(** [/^(```|~~~)/] *)
Definition re_fence : pattern :=
  mkPattern true (Alt (Text (lit "```")) (Text (lit "~~~"))) false.

(** The indices [a], [a+1], ..., [b-1] of a code block. *)
Definition lineRange (a b : Z) : list Z :=
  map (fun k => a + Z.of_nat k) (seq 0 (Z.to_nat (b - a))).

(** Identify lines in code blocks *)
Definition codeLinesOf (tokens : list Token.t) : result (list Z) :=
  foldM (fun codeLines token =>
           match Token.lines token with
           | Some (a, b) => Ok (codeLines ++ lineRange a b)
           | None => TypeError
           end)
        (filterTokens tokens "code_block" None) [].

(** [codeLines.indexOf(lineIndex) !== -1] *)
Definition inCodeLines (codeLines : list Z) (lineIndex : Z) : bool :=
  existsb (Z.eqb lineIndex) codeLines.

Section ForEachLine.
Context {St : Type}.
(** [callback(line, lineIndex, inCode, onFence)], acting on the state of
    the calling rule. *)
Variable callback : St -> jsstring -> Z -> bool -> bool -> St.
Variable codeLines : list Z.

(** The loop over [params.lines], from index [lineIndex] with fence state
    [inFence]. *)
Fixpoint forLines (ls : list jsstring) (lineIndex : Z) (inFence : bool)
  (s : St) : St :=
  match ls with
  | [] => s
  | line :: rest =>
      let onFence := test re_fence line in
      let inFence := if onFence then negb inFence else inFence in
      let inCodeBlock := inCodeLines codeLines lineIndex in
      forLines rest (lineIndex + 1) inFence
        (callback s line lineIndex (inFence || inCodeBlock)%bool onFence)
  end.
End ForEachLine.

(** Calls the provided function for each line (with context) *)
Definition forEachLine {St : Type} (params : Params.t)
  (callback : St -> jsstring -> Z -> bool -> bool -> St) (s : St)
  : result St :=
  codeLines <- codeLinesOf (Params.tokens params) ;;
  Ok (forLines callback codeLines (Params.lines params) 0 false s).

(** Calls the provided function for each heading's content.  The state of the
    loop is the current heading and the state of the callback. *)
Definition forEachHeading {St : Type} (params : Params.t)
  (callback : St -> Token.t -> jsstring -> St) (s : St) : St :=
  snd (fold_left
         (fun (st : option Token.t * St) token =>
            let '(heading, s) := st in
            if String.eqb (Token.type token) "heading_open" then (Some token, s)
            else if String.eqb (Token.type token) "heading_close" then (None, s)
            else if String.eqb (Token.type token) "inline" then
              match heading with
              | Some h => (heading, callback s h (Token.content token))
              | None => st
              end
            else st)
         (Params.tokens params) (None, s)).

(** A list descriptor of [flattenLists].  [insert] is removed ([None]) once
    the descriptor is in the output. *)
Module ListDesc.
Record t : Type := mk {
  ordered : bool;
  open : Token.t;
  items : list Token.t;
  nesting : Z;
  lastLineIndex : Z;
  insert : option nat
}.
End ListDesc.

(** [lists.splice(i, 0, x)] *)
Definition splice {A : Type} (i : nat) (x : A) (l : list A) : list A :=
  firstn i l ++ x :: skipn i l.

(** The variables of [flattenLists]; the top of [stack] is its head, [null]
    is [None]. *)
Record FlatState : Type := mkFlat {
  fl_lists : list ListDesc.t;
  fl_stack : list (option ListDesc.t);
  fl_current : option ListDesc.t;
  fl_lastWithLines : option Token.t
}.

Definition isListOpen (token : Token.t) : bool :=
  (String.eqb (Token.type token) "bullet_list_open"
   || String.eqb (Token.type token) "ordered_list_open")%bool.

Definition isListClose (token : Token.t) : bool :=
  (String.eqb (Token.type token) "bullet_list_close"
   || String.eqb (Token.type token) "ordered_list_close")%bool.

(** [(filterBy === undefined) || (filterBy === current.ordered)] *)
Definition keeps (filterBy : option bool) (ordered : bool) : bool :=
  match filterBy with
  | None => true
  | Some b => Bool.eqb b ordered
  end.

(** The body of the loop of [flattenLists]. *)
Definition flattenStep (filterBy : option bool) (st : FlatState)
  (token : Token.t) : result FlatState :=
  let '(mkFlat lists stack current lastWithLines) := st in
  if isListOpen token then
    (* Save current context and start a new one *)
    let stack := current :: stack in
    Ok (mkFlat lists stack
          (Some (ListDesc.mk
                   (String.eqb (Token.type token) "ordered_list_open")
                   token [] (Z.of_nat (length stack) - 1) (-1)
                   (Some (length lists))))
          lastWithLines)
  else if isListClose token then
    (* Finalize current context and restore previous *)
    match current, lastWithLines with
    | Some cur, Some lastTok =>
        l1 <- lines1 lastTok ;;
        let lists :=
          if keeps filterBy (ListDesc.ordered cur) then
            splice (match ListDesc.insert cur with Some i => i | None => O end)
              (ListDesc.mk (ListDesc.ordered cur) (ListDesc.open cur)
                 (ListDesc.items cur) (ListDesc.nesting cur) l1 None)
              lists
          else lists in
        Ok (mkFlat lists (tl stack)
              (match stack with top :: _ => top | [] => None end)
              lastWithLines)
    | _, _ => TypeError
    end
  else if String.eqb (Token.type token) "list_item_open" then
    (* Add list item *)
    match current with
    | Some cur =>
        Ok (mkFlat lists stack
              (Some (ListDesc.mk (ListDesc.ordered cur) (ListDesc.open cur)
                       (push (ListDesc.items cur) token) (ListDesc.nesting cur)
                       (ListDesc.lastLineIndex cur) (ListDesc.insert cur)))
              lastWithLines)
    | None => TypeError
    end
  else
    match Token.lines token with
    | Some _ =>
        (* Track last token with lines *)
        Ok (mkFlat lists stack current (Some token))
    | None => Ok st
    end.

Definition flattenRun (filterBy : option bool) (tokens : list Token.t)
  : result FlatState :=
  foldM (flattenStep filterBy) tokens (mkFlat [] [] None None).

(** Returns (nested) lists as a flat array (in order) *)
Definition flattenLists (tokens : list Token.t) (filterBy : option bool)
  : result (list ListDesc.t) :=
  st <- flattenRun filterBy tokens ;;
  Ok (fl_lists st).

(** [xs.forEach(f)] for a callback [f(element, index)] that cannot throw. *)
Fixpoint foldi {A St : Type} (f : St -> A -> Z -> St) (xs : list A) (i : Z)
  (s : St) : St :=
  match xs with
  | [] => s
  | x :: xs' => foldi f xs' (i + 1) (f s x i)
  end.

(** [push] under a condition. *)
Definition pushIf (b : bool) (errors : list Z) (n : Z) : list Z :=
  if b then push errors n else errors.

(** ** The rules *)

(** A rule maps its parameters to the line numbers it pushes onto [errors],
    in the order of the pushes, or throws. *)
Definition rule : Type := Params.t -> result (list Z).

(** [/\s$/] *)
Definition re_trailingSpace : pattern := mkPattern false (Chr isSpace) true.

(** [/\t/] *)
Definition re_tab : pattern := mkPattern false (Chr (fun c => N.eqb c 9)) false.

(** [/\([^)]+\)\[[^\]]+\]/] *)
Definition re_reversedLink : pattern :=
  mkPattern false
    (Cat (Chr (fun c => N.eqb c 40))
       (Cat (Plus (Chr (fun c => negb (N.eqb c 41))))
          (Cat (Chr (fun c => N.eqb c 41))
             (Cat (Chr (fun c => N.eqb c 91))
                (Cat (Plus (Chr (fun c => negb (N.eqb c 93))))
                   (Chr (fun c => N.eqb c 93)))))))
    false.

(** [new RegExp("^.{" + lineLength + "}.*\\s")] *)
Definition re_lineLength (lineLength : N) : pattern :=
  mkPattern true
    (Cat (Repeat (N.to_nat lineLength) (Chr dot))
       (Cat (Star (Chr dot)) (Chr isSpace)))
    false.

(** [/^\$\s/] *)
Definition re_dollar : pattern :=
  mkPattern true (Cat (Chr (isChar "$")) (Chr isSpace)) false.

(** The class [[^#\s]] *)
Definition notHashNorSpace : char -> bool :=
  fun c => negb (isChar "#" c || isSpace c).

(** [/^#+[^#\s]/] *)
Definition re_hashNoSpace : pattern :=
  mkPattern true (Cat (Plus (Chr (isChar "#"))) (Chr notHashNorSpace)) false.

(** [/#$/] *)
Definition re_endHash : pattern := mkPattern false (Chr (isChar "#")) true.

(** [/^#+\s\s/] *)
Definition re_hashTwoSpaces : pattern :=
  mkPattern true
    (Cat (Plus (Chr (isChar "#"))) (Cat (Chr isSpace) (Chr isSpace))) false.

(** [/^#+[^#]*[^\\]#+$/] *)
Definition re_closedAtx : pattern :=
  mkPattern true
    (Cat (Plus (Chr (isChar "#")))
       (Cat (Star (Chr (isNot "#")))
          (Cat (Chr (fun c => negb (N.eqb c 92))) (Plus (Chr (isChar "#"))))))
    true.

(** [/[^#\s]#+$/] *)
Definition re_noSpaceHashEnd : pattern :=
  mkPattern false (Cat (Chr notHashNorSpace) (Plus (Chr (isChar "#")))) true.

(** [/\s\s#+$/] *)
Definition re_twoSpacesHashEnd : pattern :=
  mkPattern false
    (Cat (Chr isSpace) (Cat (Chr isSpace) (Plus (Chr (isChar "#"))))) true.

(** [/^(-+|=+)\s*$/] *)
Definition re_underline : pattern :=
  mkPattern true
    (Cat (Alt (Plus (Chr (isChar "-"))) (Plus (Chr (isChar "="))))
       (Star (Chr isSpace)))
    true.

(** [/^\s/] *)
Definition re_leadingSpace : pattern := mkPattern true (Chr isSpace) false.

(** [/^$/] *)
Definition re_empty : pattern := mkPattern true Eps true.

(** [/^($|\s)/.test(s)]: the alternation is taken apart, [s] is empty or
    starts with whitespace. *)
Definition test_emptyOrLeadingSpace (s : jsstring) : bool :=
  (test re_empty s || test re_leadingSpace s)%bool.

(** [new RegExp("[" + punctuation + "]$")] for a [punctuation] whose
    characters all stand for themselves inside a class.  The constructor
    reads a punctuation with a backslash, a closing bracket, a caret or a
    hyphen as class syntax, or throws a [SyntaxError] on it; that is outside
    this model, which is why what MD026 reports is characterised for the
    other punctuations only. *)
Definition re_punctuation (punctuation : jsstring) : pattern :=
  mkPattern false (Chr (oneOf punctuation)) true.

(** [/^\s*>\s\s/] *)
Definition re_quoteTwoSpaces : pattern :=
  mkPattern true
    (Cat (Star (Chr isSpace))
       (Cat (Chr (isChar ">")) (Cat (Chr isSpace) (Chr isSpace))))
    false.

(** [new RegExp("^\\s*" + String(number) + "\\. ")] *)
Definition re_itemPrefix (number : N) : pattern :=
  mkPattern true
    (Cat (Star (Chr isSpace))
       (Cat (Text (String_ number))
          (Cat (Chr (isChar ".")) (Chr (isChar " ")))))
    false.

(** [/^([\*\+\-]|(\d+\.))\s/] *)
Definition re_listMarker : pattern :=
  mkPattern true
    (Cat (Alt (Chr (oneOf (lit "*+-")))
              (Cat (Plus (Chr isDigit)) (Chr (isChar "."))))
       (Chr isSpace))
    false.

Fixpoint dropWhile (p : char -> bool) (s : jsstring) : jsstring :=
  match s with
  | c :: s' => if p c then dropWhile p s' else s
  | [] => []
  end.

(** [/^\s*\S+(\s+)/.exec(line)]: [None] for [null], otherwise the length of
    group 1.  [\s] and [\S] are complementary, so each of the three greedy
    runs is maximal and no backtracking can succeed. *)
Definition execMarkerSpaces (line : jsstring) : option Z :=
  let afterIndent := trimLeft line in
  let afterMarker := dropWhile notSpace afterIndent in
  if Nat.eqb (List.length afterIndent) (List.length afterMarker) then None
  else
    let spaces := (List.length afterMarker - List.length (trimLeft afterMarker))%nat in
    if Nat.eqb spaces 0 then None else Some (Z.of_nat spaces).

Section Rules.
(** [s.split(shared.newLineRe)]: [lib/shared.js] is a separate module, so
    the rules are parametric in it. *)
Variable splitNewLine : jsstring -> list jsstring.

Definition isHeadingOpen (token : Token.t) : bool :=
  String.eqb (Token.type token) "heading_open".

(** MD001: Header levels should only increment by one level at a time *)
Definition MD001 : rule := fun params =>
  Ok (snd (fold_left
             (fun (st : Z * list Z) token =>
                let '(prevLevel, errors) := st in
                (Token.hLevel token,
                 pushIf (negb (Z.eqb prevLevel 0)
                         && (Token.hLevel token >? prevLevel + 1))%bool
                   errors (Token.lineNumber token)))
             (filterTokens (Params.tokens params) "heading_open" None)
             (0, []))).

(** MD002: First header should be a h1 header.  [every] stops at the first
    heading. *)
Definition MD002 : rule := fun params =>
  Ok (match find isHeadingOpen (Params.tokens params) with
      | Some token =>
          pushIf (negb (Z.eqb (Token.hLevel token) 1)) []
            (Token.lineNumber token)
      | None => []
      end).

(** MD003: Header style *)
Definition MD003 : rule := fun params =>
  let style := orStr (Options.style (Params.options params)) "consistent" in
  let headings := filterTokens (Params.tokens params) "heading_open" None in
  style <- match headings with
           | h :: _ =>
               if String.eqb style "consistent" then headingStyleFor h
               else Ok style
           | [] => Ok style
           end ;;
  foldM (fun errors token =>
           s <- headingStyleFor token ;;
           Ok (pushIf (negb (String.eqb s style)) errors
                 (Token.lineNumber token)))
        headings [].

(** [list.items[0]] handed to a function that reads [token.line] *)
Definition firstItem (lst : ListDesc.t) : result Token.t :=
  match ListDesc.items lst with
  | item :: _ => Ok item
  | [] => TypeError
  end.

(** MD004: Unordered list style *)
Definition MD004 : rule := fun params =>
  let style := orStr (Options.style (Params.options params)) "consistent" in
  lists <- flattenLists (Params.tokens params) (Some false) ;;
  st <- foldM
          (fun (st : string * list Z) lst =>
             let '(style, errors) := st in
             style <- (if String.eqb style "consistent" then
                         item <- firstItem lst ;;
                         Ok (unorderedListStyleFor item)
                       else Ok style) ;;
             Ok (style,
                 fold_left
                   (fun errors item =>
                      pushIf (negb (String.eqb (unorderedListStyleFor item)
                                      style))
                        errors (Token.lineNumber item))
                   (ListDesc.items lst) errors))
          lists (style, []) ;;
  Ok (snd st).

(** MD005: Inconsistent indentation for list items at the same level *)
Definition MD005 : rule := fun params =>
  lists <- flattenLists (Params.tokens params) None ;;
  foldM (fun errors lst =>
           item <- firstItem lst ;;
           let indent := indentFor item in
           Ok (fold_left
                 (fun errors item =>
                    pushIf (negb (Z.eqb (indentFor item) indent)) errors
                      (Token.lineNumber item))
                 (ListDesc.items lst) errors))
        lists [].

(** MD006: Consider starting bulleted lists at the beginning of the line *)
Definition MD006 : rule := fun params =>
  lists <- flattenLists (Params.tokens params) (Some false) ;;
  Ok (fold_left
        (fun errors lst =>
           pushIf (Z.eqb (ListDesc.nesting lst) 0
                   && negb (Z.eqb (indentFor (ListDesc.open lst)) 0))%bool
             errors (Token.lineNumber (ListDesc.open lst)))
        lists []).

(** MD007: Unordered list indentation *)
Definition MD007 : rule := fun params =>
  let optionsIndent := orNum (Options.indent (Params.options params)) 2 in
  lists <- flattenLists (Params.tokens params) (Some false) ;;
  Ok (snd (fold_left
             (fun (st : Z * list Z) lst =>
                let '(prevIndent, errors) := st in
                let indent := indentFor (ListDesc.open lst) in
                (indent,
                 pushIf ((indent >? prevIndent)
                         && negb (Z.eqb (indent - prevIndent)
                                    (Z.of_N optionsIndent)))%bool
                   errors (Token.lineNumber (ListDesc.open lst))))
             lists (0, []))).

(** The rules that test each line against one pattern. *)
Definition eachLineMatching (re : pattern) : rule := fun params =>
  Ok (foldi (fun errors line lineIndex =>
               pushIf (test re line) errors (lineIndex + 1))
            (Params.lines params) 0 []).

(** MD009: Trailing spaces *)
Definition MD009 : rule := eachLineMatching re_trailingSpace.

(** MD010: Hard tabs *)
Definition MD010 : rule := eachLineMatching re_tab.

(** MD011: Reversed link syntax *)
Definition MD011 : rule := fun params =>
  Ok (fold_left
        (fun errors token =>
           fold_left
             (fun errors child =>
                pushIf (test re_reversedLink (Child.content child)) errors
                  (Token.lineNumber token))
             (filterTokens (Token.children token) "text" None) errors)
        (filterTokens (Params.tokens params) "inline" None) []).

(** MD012: Multiple consecutive blank lines *)
Definition MD012 : rule := fun params =>
  st <- forEachLine params
          (fun (st : jsstring * list Z) line lineIndex inCode _ =>
             let '(prevLine, errors) := st in
             let line := trim line in
             (line,
              pushIf (negb inCode && Nat.eqb (List.length line) 0
                      && Nat.eqb (List.length prevLine) 0)%bool
                errors (lineIndex + 1)))
          (lit "-", []) ;;
  Ok (snd st).

(** MD013: Line length *)
Definition MD013 : rule := fun params =>
  let lineLength :=
    orNum (Options.line_length (Params.options params)) 80 in
  eachLineMatching (re_lineLength lineLength) params.

(** MD014: Dollar signs used before commands without showing output *)
Definition MD014 : rule := fun params =>
  Ok (fold_left
        (fun errors token =>
           pushIf (negb (Nat.eqb (List.length (Token.content token)) 0)
                   && forallb (test re_dollar)
                        (filter (fun line =>
                                   negb (Nat.eqb (List.length line) 0))
                           (splitNewLine (Token.content token))))%bool
             errors (Token.lineNumber token))
        (filterTokens (Params.tokens params) "code_block" (Some "fence"%string))
        []).

(** MD018: No space after hash on atx style header *)
Definition MD018 : rule := fun params =>
  forEachLine params
    (fun errors line lineIndex inCode _ =>
       pushIf (negb inCode && test re_hashNoSpace line
               && negb (test re_endHash line))%bool
         errors (lineIndex + 1))
    [].

(** The rules that look at each heading token, its style and its line. *)
Definition eachHeading (flags : string -> jsstring -> bool) : rule :=
  fun params =>
    foldM (fun errors token =>
             s <- headingStyleFor token ;;
             Ok (pushIf (flags s (Token.line token)) errors
                   (Token.lineNumber token)))
          (filterTokens (Params.tokens params) "heading_open" None) [].

(** MD019: Multiple spaces after hash on atx style header *)
Definition MD019 : rule :=
  eachHeading (fun s line =>
                 String.eqb s "atx" && test re_hashTwoSpaces line)%bool.

(** MD020: No space inside hashes on closed atx style header *)
Definition MD020 : rule := fun params =>
  forEachLine params
    (fun errors line lineIndex inCode _ =>
       pushIf (negb inCode && test re_closedAtx line
               && (test re_hashNoSpace line || test re_noSpaceHashEnd line))%bool
         errors (lineIndex + 1))
    [].

(** MD021: Multiple spaces inside hashes on closed atx style header *)
Definition MD021 : rule :=
  eachHeading (fun s line =>
                 String.eqb s "atx_closed"
                 && (test re_hashTwoSpaces line
                     || test re_twoSpacesHashEnd line))%bool.

(** The variables of MD022. *)
Record MD022State : Type := mkMD022 {
  prevHeadingLineNumber : Z;
  prevMaxLineIndex : Z;
  needBlankLine : bool;
  errors22 : list Z
}.

(** MD022: Headers should be surrounded by blank lines *)
Definition MD022_step (st : MD022State) (token : Token.t)
  : result MD022State :=
  let '(mkMD022 prevHeading prevMax needBlank errors) := st in
  st1 <-
    (if String.eqb (Token.type token) "heading_open" then
       l0 <- lines0 token ;;
       Ok (mkMD022 (Token.lineNumber token) prevMax needBlank
             (pushIf (Z.eqb (l0 - prevMax) 0) errors (Token.lineNumber token)))
     else if String.eqb (Token.type token) "heading_close" then
       Ok (mkMD022 prevHeading prevMax true errors)
     else if String.eqb (Token.type token) "inline" then
       errors <- foldMi
                   (fun errors line offset =>
                      if test re_underline line then
                        l0 <- lines0 token ;;
                        Ok (push errors (l0 + offset))
                      else Ok errors)
                   (splitNewLine (Token.content token)) 0 errors ;;
       Ok (mkMD022 prevHeading prevMax needBlank errors)
     else Ok st) ;;
  let '(mkMD022 prevHeading prevMax needBlank errors) := st1 in
  match Token.lines token with
  | Some (l0, l1) =>
      if needBlank then
        Ok (mkMD022 prevHeading (Z.max prevMax l1) false
              (pushIf (Z.eqb (l0 - prevMax) 0) errors prevHeading))
      else Ok (mkMD022 prevHeading (Z.max prevMax l1) needBlank errors)
  | None => Ok st1
  end.

Definition MD022 : rule := fun params =>
  st <- foldM MD022_step (Params.tokens params) (mkMD022 0 (-1) false []) ;;
  Ok (errors22 st).

(** MD023: Headers must start at the beginning of the line *)
Definition MD023 : rule := fun params =>
  Ok (fold_left
        (fun errors token =>
           pushIf (test re_leadingSpace (Token.line token)) errors
             (Token.lineNumber token))
        (filterTokens (Params.tokens params) "heading_open" None) []).

(** MD024: Multiple headers with the same content *)
Definition MD024 : rule := fun params =>
  Ok (snd (forEachHeading params
             (fun (st : list jsstring * list Z) heading content =>
                let '(knownContent, errors) := st in
                if negb (existsb (jsstring_eqb content) knownContent) then
                  (push knownContent content, errors)
                else (knownContent, push errors (Token.lineNumber heading)))
             ([], []))).

(** MD025: Multiple top level headers in the same document *)
Definition MD025 : rule := fun params =>
  Ok (snd (fold_left
             (fun (st : bool * list Z) token =>
                let '(hasTopLevelHeading, errors) := st in
                if Z.eqb (Token.hLevel token) 1 then
                  if hasTopLevelHeading then
                    (hasTopLevelHeading, push errors (Token.lineNumber token))
                  else if Z.eqb (Token.lineNumber token) 1 then (true, errors)
                  else st
                else st)
             (filterTokens (Params.tokens params) "heading_open" None)
             (false, []))).

(** MD026: Trailing punctuation in header.  The pattern is that of
    [re_punctuation]; the source builds it before it reads a token. *)
Definition MD026 : rule := fun params =>
  let punctuation :=
    orJsstring (Options.punctuation (Params.options params)) (lit ".,;:!?") in
  let re := re_punctuation punctuation in
  Ok (forEachHeading params
        (fun errors heading content =>
           pushIf (test re content) errors (Token.lineNumber heading))
        []).

(** MD027: Multiple spaces after blockquote symbol *)
Definition MD027 : rule := fun params =>
  Ok (snd (fold_left
             (fun (st : bool * list Z) token =>
                let '(inBlockquote, errors) := st in
                if String.eqb (Token.type token) "blockquote_open" then
                  (true, errors)
                else if String.eqb (Token.type token) "blockquote_close" then
                  (false, errors)
                else if (String.eqb (Token.type token) "inline"
                         && inBlockquote)%bool then
                  (inBlockquote,
                   foldi (fun errors line offset =>
                            pushIf (test re_leadingSpace line
                                    || (Z.eqb offset 0
                                        && test re_quoteTwoSpaces
                                             (Token.line token)))%bool
                              errors (Token.lineNumber token + offset))
                         (splitNewLine (Token.content token)) 0 errors)
                else st)
             (Params.tokens params) (false, []))).

(** MD028: Blank line inside blockquote.  [prevToken] starts as [{}], whose
    [type] is [undefined]. *)
Definition MD028 : rule := fun params =>
  Ok (snd (fold_left
             (fun (st : option string * list Z) token =>
                let '(prevType, errors) := st in
                (Some (Token.type token),
                 pushIf (String.eqb (Token.type token) "blockquote_open"
                         && match prevType with
                            | Some ty => String.eqb ty "blockquote_close"
                            | None => false
                            end)%bool
                   errors (Token.lineNumber token - 1)))
             (Params.tokens params) (None, []))).

(** MD029: Ordered list item prefix *)
Definition MD029 : rule := fun params =>
  let style := orStr (Options.style (Params.options params)) "one" in
  lists <- flattenLists (Params.tokens params) (Some true) ;;
  Ok (fold_left
        (fun errors lst =>
           snd (fold_left
                  (fun (st : N * list Z) item =>
                     let '(number, errors) := st in
                     let re := re_itemPrefix number in
                     (if String.eqb style "ordered" then (number + 1)%N
                      else number,
                      pushIf (negb (test re (Token.line item))) errors
                        (Token.lineNumber item)))
                  (ListDesc.items lst) (1%N, errors)))
        lists []).

(** MD030: Spaces after list markers *)
Definition MD030 : rule := fun params =>
  let ulSingle := orNum (Options.ul_single (Params.options params)) 1 in
  let olSingle := orNum (Options.ol_single (Params.options params)) 1 in
  let ulMulti := orNum (Options.ul_multi (Params.options params)) 1 in
  let olMulti := orNum (Options.ol_multi (Params.options params)) 1 in
  lists <- flattenLists (Params.tokens params) None ;;
  foldM (fun errors lst =>
           l0 <- lines0 (ListDesc.open lst) ;;
           let lineCount := ListDesc.lastLineIndex lst - l0 in
           let allSingle :=
             Z.eqb lineCount (Z.of_nat (List.length (ListDesc.items lst))) in
           let expectedSpaces :=
             if ListDesc.ordered lst then
               (if allSingle then olSingle else olMulti)
             else
               (if allSingle then ulSingle else ulMulti) in
           foldM (fun errors item =>
                    match execMarkerSpaces (Token.line item) with
                    | Some spaces =>
                        Ok (pushIf (negb (Z.eqb spaces (Z.of_N expectedSpaces)))
                              errors (Token.lineNumber item))
                    | None => TypeError
                    end)
                 (ListDesc.items lst) errors)
        lists [].

(** [params.lines[i].length] as a condition; every use is behind a bounds
    test on [i]. *)
Definition lineNonEmptyAt (lines : list jsstring) (i : Z) : bool :=
  match nth_error lines (Z.to_nat i) with
  | Some line => negb (Nat.eqb (List.length line) 0)
  | None => false
  end.

(** MD031: Fenced code blocks should be surrounded by blank lines *)
Definition MD031 : rule := fun params =>
  forEachLine params
    (fun errors line lineIndex inCode onFence =>
       pushIf (onFence
               && ((inCode && (lineIndex - 1 >=? 0)
                    && lineNonEmptyAt (Params.lines params) (lineIndex - 1))
                   || (negb inCode
                       && (lineIndex + 1
                           <? Z.of_nat (List.length (Params.lines params)))
                       && lineNonEmptyAt (Params.lines params)
                            (lineIndex + 1))))%bool
         errors (lineIndex + 1))
    [].

(** The variables of MD032. *)
Record MD032State : Type := mkMD032 {
  inList : bool;
  prevLine32 : jsstring;
  errors32 : list Z
}.

(** MD032: Lists should be surrounded by blank lines *)
Definition MD032 : rule := fun params =>
  st <- forEachLine params
          (fun st line lineIndex inCode onFence =>
             let '(mkMD032 inList prevLine errors) := st in
             let '(inList, errors) :=
               if (negb inCode || onFence)%bool then
                 let listMarker := test re_listMarker (trim line) in
                 (listMarker,
                  if (listMarker && negb inList
                      && negb (test_emptyOrLeadingSpace prevLine))%bool then
                    push errors (lineIndex + 1)
                  else if (negb listMarker && inList
                           && negb (test_emptyOrLeadingSpace line))%bool then
                    push errors lineIndex
                  else errors)
               else (inList, errors) in
             mkMD032 (inList && negb onFence)%bool line errors)
          (mkMD032 false [] []) ;;
  Ok (errors32 st).

(** [module.exports]: the catalog, by name. *)
Definition rules : list (string * rule) :=
  [ ("MD001", MD001); ("MD002", MD002); ("MD003", MD003); ("MD004", MD004);
    ("MD005", MD005); ("MD006", MD006); ("MD007", MD007); ("MD009", MD009);
    ("MD010", MD010); ("MD011", MD011); ("MD012", MD012); ("MD013", MD013);
    ("MD014", MD014); ("MD018", MD018); ("MD019", MD019); ("MD020", MD020);
    ("MD021", MD021); ("MD022", MD022); ("MD023", MD023); ("MD024", MD024);
    ("MD025", MD025); ("MD026", MD026); ("MD027", MD027); ("MD028", MD028);
    ("MD029", MD029); ("MD030", MD030); ("MD031", MD031); ("MD032", MD032)
  ]%string.
End Rules.

(** Modelled from the spec: [shared.newLineRe] lives in [lib/shared.js], which
    is outside [lib/rules.js]; the spec has the document "split on line
    boundaries", taken here as CR LF, CR or LF.  [splitLineBreaks s] is
    [s.split(shared.newLineRe)] under that reading, used to run the rules on
    concrete documents. *)
Fixpoint splitFrom (cur : jsstring) (s : jsstring) : list jsstring :=
  match s with
  | [] => [rev cur]
  | c :: s' =>
      if N.eqb c 13 then
        match s' with
        | d :: s'' =>
            if N.eqb d 10 then rev cur :: splitFrom [] s''
            else rev cur :: splitFrom [] s'
        | [] => rev cur :: splitFrom [] s'
        end
      else if N.eqb c 10 then rev cur :: splitFrom [] s'
      else splitFrom (c :: cur) s'
  end.

Definition splitLineBreaks (s : jsstring) : list jsstring := splitFrom [] s.

(** Builders for the tokens of concrete documents. *)
Definition blockToken (type : string) (l0 l1 : Z) (line : jsstring) : Token.t :=
  Token.mk type (Some (l0, l1)) line (l0 + 1) 0 [] [].

Definition closeToken (type : string) : Token.t :=
  Token.mk type None [] 0 0 [] [].

Definition headingToken (level : Z) (l0 l1 : Z) (line : jsstring) : Token.t :=
  Token.mk "heading_open" (Some (l0, l1)) line (l0 + 1) level [] [].

Definition inlineToken (l0 l1 : Z) (line content : jsstring) : Token.t :=
  Token.mk "inline" (Some (l0, l1)) line (l0 + 1) 0 content
    [Child.mk "text" content].

(** * Vocabulary of the properties *)

(** One call of the callback of [forEachLine]: its four arguments. *)
Record LineCtx : Type := mkCtx {
  lc_line : jsstring;
  lc_index : Z;
  lc_inCode : bool;
  lc_onFence : bool
}.

(** The calls [forEachLine] makes, in order. *)
Definition classification (params : Params.t) : result (list LineCtx) :=
  forEachLine params
    (fun calls line lineIndex inCode onFence =>
       push calls (mkCtx line lineIndex inCode onFence))
    [].

(** The same sequence, by recursion on the lines. *)
Fixpoint classify (codeLines : list Z) (ls : list jsstring) (lineIndex : Z)
  (inFence : bool) : list LineCtx :=
  match ls with
  | [] => []
  | line :: rest =>
      let onFence := test re_fence line in
      let inFence := if onFence then negb inFence else inFence in
      mkCtx line lineIndex (inFence || inCodeLines codeLines lineIndex) onFence
      :: classify codeLines rest (lineIndex + 1) inFence
  end.

Definition callWith {St : Type}
  (callback : St -> jsstring -> Z -> bool -> bool -> St) (s : St) (c : LineCtx)
  : St :=
  callback s (lc_line c) (lc_index c) (lc_inCode c) (lc_onFence c).

(** The number of fence-delimiter lines in [ls]. *)
Definition fenceCount (ls : list jsstring) : nat :=
  List.length (filter (test re_fence) ls).

(** Which lines the code-block tokens cover. *)
Definition coveredByCodeBlock (tokens : list Token.t) (i : Z) : Prop :=
  exists token a b,
    In token tokens /\ Token.type token = "code_block"%string
    /\ Token.lines token = Some (a, b) /\ a <= i < b.

(** Line [k] is a fence delimiter that opens a fenced block: an even number
    of fence delimiters precede it. *)
Definition opensFence (ls : list jsstring) (k : nat) : Prop :=
  exists line,
    nth_error ls k = Some line /\ test re_fence line = true
    /\ Nat.even (fenceCount (firstn k ls)) = true.

(** Line [k] is a fence delimiter that closes a fenced block: an odd number
    of fence delimiters precede it. *)
Definition closesFence (ls : list jsstring) (k : nat) : Prop :=
  exists line,
    nth_error ls k = Some line /\ test re_fence line = true
    /\ Nat.odd (fenceCount (firstn k ls)) = true.

(** The line numbers pushed by a callback that only tests its arguments. *)
Definition flagged (cond : jsstring -> Z -> bool -> bool -> bool)
  (calls : list LineCtx) : list Z :=
  map (fun c => lc_index c + 1)
    (filter (fun c => cond (lc_line c) (lc_index c) (lc_inCode c) (lc_onFence c))
       calls).

(** The line before line [k] exists and is not the empty string. *)
Definition prevLineNonEmpty (ls : list jsstring) (k : nat) : Prop :=
  exists p line, k = S p /\ nth_error ls p = Some line /\ line <> [].

(** The line after line [k] exists and is not the empty string. *)
Definition nextLineNonEmpty (ls : list jsstring) (k : nat) : Prop :=
  exists line, nth_error ls (S k) = Some line /\ line <> [].

(** Line [k] lies inside a code region: inside a fence (an odd number of
    fence delimiters up to and including line [k]) or covered by a code-block
    token. *)
Definition insideCode (params : Params.t) (k : nat) : Prop :=
  Nat.odd (fenceCount (firstn (S k) (Params.lines params))) = true
  \/ coveredByCodeBlock (Params.tokens params) (Z.of_nat k).

(** The line starts with one or more [#] immediately followed by a character
    that is neither [#] nor whitespace. *)
Definition hashesThenText (line : jsstring) : Prop :=
  exists hashes c rest,
    line = hashes ++ c :: rest /\ hashes <> []
    /\ Forall (fun h => h = code "#") hashes
    /\ c <> code "#" /\ isSpace c = false.

(** The line ends in [#]. *)
Definition endsInHash (line : jsstring) : Prop :=
  exists front, line = front ++ [code "#"].

(** The line has a whitespace character at a 0-based position [n] or later,
    with no line terminator before that character. *)
Definition spaceAtOrBeyond (n : N) (line : jsstring) : Prop :=
  exists front c rest,
    line = front ++ c :: rest /\ (N.to_nat n <= List.length front)%nat
    /\ isSpace c = true /\ Forall (fun d => isLineTerminator d = false) front.

(** An explicit [0] replaced by an absent option. *)
Definition zeroAsAbsent (x : option N) : option N :=
  match x with
  | Some n => if N.eqb n 0 then None else Some n
  | None => None
  end.

(** The options with every numeric option that is [0] removed. *)
Definition withoutZeros (o : Options.t) : Options.t :=
  Options.mk (Options.style o) (zeroAsAbsent (Options.indent o))
    (zeroAsAbsent (Options.line_length o)) (Options.punctuation o)
    (zeroAsAbsent (Options.ul_single o)) (zeroAsAbsent (Options.ol_single o))
    (zeroAsAbsent (Options.ul_multi o)) (zeroAsAbsent (Options.ol_multi o)).

(** Updates of one numeric option. *)
Definition withIndent (o : Options.t) (v : option N) : Options.t :=
  Options.mk (Options.style o) v (Options.line_length o)
    (Options.punctuation o) (Options.ul_single o) (Options.ol_single o)
    (Options.ul_multi o) (Options.ol_multi o).

Definition withLineLength (o : Options.t) (v : option N) : Options.t :=
  Options.mk (Options.style o) (Options.indent o) v
    (Options.punctuation o) (Options.ul_single o) (Options.ol_single o)
    (Options.ul_multi o) (Options.ol_multi o).

Definition withUlSingle (o : Options.t) (v : option N) : Options.t :=
  Options.mk (Options.style o) (Options.indent o) (Options.line_length o)
    (Options.punctuation o) v (Options.ol_single o)
    (Options.ul_multi o) (Options.ol_multi o).

Definition withOlSingle (o : Options.t) (v : option N) : Options.t :=
  Options.mk (Options.style o) (Options.indent o) (Options.line_length o)
    (Options.punctuation o) (Options.ul_single o) v
    (Options.ul_multi o) (Options.ol_multi o).

Definition withUlMulti (o : Options.t) (v : option N) : Options.t :=
  Options.mk (Options.style o) (Options.indent o) (Options.line_length o)
    (Options.punctuation o) (Options.ul_single o) (Options.ol_single o)
    v (Options.ol_multi o).

Definition withOlMulti (o : Options.t) (v : option N) : Options.t :=
  Options.mk (Options.style o) (Options.indent o) (Options.line_length o)
    (Options.punctuation o) (Options.ul_single o) (Options.ol_single o)
    (Options.ul_multi o) v.

(** A level-1 heading on line 1: the only kind that arms MD025. *)
Definition topLevelOnLine1 (token : Token.t) : Prop :=
  Token.hLevel token = 1 /\ Token.lineNumber token = 1.

(** The body of the loop of MD025. *)
Definition MD025_step (st : bool * list Z) (token : Token.t) : bool * list Z :=
  let '(hasTopLevelHeading, errors) := st in
  if Z.eqb (Token.hLevel token) 1 then
    if hasTopLevelHeading then
      (hasTopLevelHeading, push errors (Token.lineNumber token))
    else if Z.eqb (Token.lineNumber token) 1 then (true, errors)
    else st
  else st.

(** A blank line: nothing but whitespace. *)
Definition whitespaceOnly (line : jsstring) : Prop :=
  Forall (fun c => isSpace c = true) line.

(** The callback of MD012; its state is [prevLine] and [errors]. *)
Definition MD012_callback (st : jsstring * list Z) (line : jsstring)
  (lineIndex : Z) (inCode onFence : bool) : jsstring * list Z :=
  let '(prevLine, errors) := st in
  let line := trim line in
  (line,
   pushIf (negb inCode && Nat.eqb (List.length line) 0
           && Nat.eqb (List.length prevLine) 0)%bool
     errors (lineIndex + 1)).

(** Line number [n] (1-based) is blank and outside code. *)
Definition blankOutsideCode (params : Params.t) (n : nat) : Prop :=
  exists line,
    nth_error (Params.lines params) (pred n) = Some line
    /\ whitespaceOnly line /\ ~ insideCode params (pred n).

(** Line number [n] (1-based) exists and is not blank. *)
Definition nonBlank (params : Params.t) (n : nat) : Prop :=
  exists line,
    nth_error (Params.lines params) (pred n) = Some line
    /\ ~ whitespaceOnly line.

(** Thirteen lines, of which lines 10, 11 and 12 are empty. *)
Definition threeBlankLines : Params.t :=
  Params.mk []
    [lit "1"; lit "2"; lit "3"; lit "4"; lit "5"; lit "6"; lit "7"; lit "8";
     lit "9"; []; []; []; lit "13"]
    Options.none.

(** ** Vocabulary for [flattenLists] *)

Definition isOrderedOpen (token : Token.t) : bool :=
  String.eqb (Token.type token) "ordered_list_open".

(** A list-open token whose list passes the filter. *)
Definition keptOpen (filterBy : option bool) (token : Token.t) : bool :=
  (isListOpen token && keeps filterBy (isOrderedOpen token))%bool.

(** The nesting depth after [tokens], starting at depth [d]; [None] when a
    list is closed that was never opened. *)
Fixpoint listDepth (tokens : list Token.t) (d : nat) : option nat :=
  match tokens with
  | [] => Some d
  | token :: rest =>
      if isListOpen token then listDepth rest (S d)
      else if isListClose token then
        match d with
        | O => None
        | S d' => listDepth rest d'
        end
      else listDepth rest d
  end.

(** Every list that is opened is closed, as in the output of the tokenizer. *)
Definition listsClosed (tokens : list Token.t) : Prop :=
  listDepth tokens 0 = Some O.

Definition insertOf (d : ListDesc.t) : nat :=
  match ListDesc.insert d with
  | Some i => i
  | None => O
  end.

(** The descriptors still open in a state, innermost first. *)
Definition pending (st : FlatState) : list ListDesc.t :=
  flat_map (fun o => match o with Some d => [d] | None => [] end)
    (fl_current st :: fl_stack st).

(** The open tokens of the output if the pending lists were closed now, from
    the innermost outwards. *)
Fixpoint completeOpens (filterBy : option bool) (opens : list Token.t)
  (pend : list ListDesc.t) : list Token.t :=
  match pend with
  | [] => opens
  | p :: rest =>
      completeOpens filterBy
        (if keeps filterBy (ListDesc.ordered p)
         then splice (insertOf p) (ListDesc.open p) opens
         else opens)
        rest
  end.

(** Pending descriptors insert within the output and know their kind. *)
Definition pendingOk (st : FlatState) : Prop :=
  Forall (fun p =>
            (insertOf p <= List.length (fl_lists st))%nat
            /\ ListDesc.ordered p = isOrderedOpen (ListDesc.open p))
         (pending st).

(** The test a filter [b] applies to a descriptor. *)
Definition sameKind (b : bool) (d : ListDesc.t) : bool :=
  Bool.eqb b (ListDesc.ordered d).

(** A pending descriptor of the unfiltered run and its counterpart in the run
    filtered by [b]: they differ in [insert] only, which counts the kept
    descriptors before the unfiltered position. *)
Definition relDesc (b : bool) (listsN : list ListDesc.t)
  (dN dB : ListDesc.t) : Prop :=
  ListDesc.ordered dB = ListDesc.ordered dN
  /\ ListDesc.open dB = ListDesc.open dN
  /\ ListDesc.items dB = ListDesc.items dN
  /\ ListDesc.nesting dB = ListDesc.nesting dN
  /\ ListDesc.lastLineIndex dB = ListDesc.lastLineIndex dN
  /\ insertOf dB
     = List.length (filter (sameKind b) (firstn (insertOf dN) listsN)).

(** The contexts of the two runs, innermost first; [bound] limits the
    positions at which the contexts of the unfiltered run insert, which
    decrease outwards. *)
Inductive relStack (b : bool) (listsN : list ListDesc.t)
  : nat -> list (option ListDesc.t) -> list (option ListDesc.t) -> Prop :=
| rs_nil bound : relStack b listsN bound [] []
| rs_none bound sN sB :
    relStack b listsN bound sN sB ->
    relStack b listsN bound (None :: sN) (None :: sB)
| rs_some bound dN dB sN sB :
    relDesc b listsN dN dB ->
    (insertOf dN <= bound)%nat ->
    relStack b listsN (insertOf dN) sN sB ->
    relStack b listsN bound (Some dN :: sN) (Some dB :: sB).

(** The states of the unfiltered run and of the run filtered by [b]. *)
Definition relState (b : bool) (stN stB : FlatState) : Prop :=
  fl_lists stB = filter (sameKind b) (fl_lists stN)
  /\ fl_lastWithLines stB = fl_lastWithLines stN
  /\ relStack b (fl_lists stN) (List.length (fl_lists stN))
       (fl_current stN :: fl_stack stN) (fl_current stB :: fl_stack stB).

(** Two runs end alike: both throw, or both return related values. *)
Definition relResult {A B : Type} (R : A -> B -> Prop) (x : result A)
  (y : result B) : Prop :=
  match x, y with
  | Ok a, Ok b => R a b
  | TypeError, TypeError => True
  | _, _ => False
  end.

(** A bullet list with an ordered list nested in its first item, followed by
    a second bullet list:
<<
- a
  1. b
- c

* d
>>
*)
Definition nestedListsTokens : list Token.t :=
  [blockToken "bullet_list_open" 0 3 (lit "- a");
   blockToken "list_item_open" 0 2 (lit "- a");
   blockToken "paragraph_open" 0 1 (lit "- a");
   inlineToken 0 1 (lit "- a") (lit "a");
   closeToken "paragraph_close";
   blockToken "ordered_list_open" 1 2 (lit "  1. b");
   blockToken "list_item_open" 1 2 (lit "  1. b");
   blockToken "paragraph_open" 1 2 (lit "  1. b");
   inlineToken 1 2 (lit "  1. b") (lit "b");
   closeToken "paragraph_close";
   closeToken "list_item_close";
   closeToken "ordered_list_close";
   closeToken "list_item_close";
   blockToken "list_item_open" 2 3 (lit "- c");
   blockToken "paragraph_open" 2 3 (lit "- c");
   inlineToken 2 3 (lit "- c") (lit "c");
   closeToken "paragraph_close";
   closeToken "list_item_close";
   closeToken "bullet_list_close";
   blockToken "bullet_list_open" 4 5 (lit "* d");
   blockToken "list_item_open" 4 5 (lit "* d");
   blockToken "paragraph_open" 4 5 (lit "* d");
   inlineToken 4 5 (lit "* d") (lit "d");
   closeToken "paragraph_close";
   closeToken "list_item_close";
   closeToken "bullet_list_close"].

(** ** Vocabulary for the order of the results *)

(** Each line number is greater than or equal to the one before it. *)
Definition ascending (l : list Z) : Prop := Sorted Z.le l.

(** Ascending and bounded by [m]: the shape of [errors] during a scan that
    has reached line [m]. *)
Definition ascendingUpTo (m : Z) (l : list Z) : Prop :=
  StronglySorted Z.le l /\ Forall (fun x => x <= m) l.

(** The rules that scan [params.lines]. *)
Definition lineRules : list (string * rule) :=
  [ ("MD009", MD009); ("MD010", MD010); ("MD012", MD012); ("MD013", MD013);
    ("MD018", MD018); ("MD020", MD020); ("MD031", MD031); ("MD032", MD032)
  ]%string.

(** The rules that report the line number of the token they examine (a
    heading, a list opening, an inline, a code block or a blockquote), in
    token order. *)
Definition tokenRules (splitNewLine : jsstring -> list jsstring)
  : list (string * rule) :=
  [ ("MD001", MD001); ("MD002", MD002); ("MD003", MD003); ("MD006", MD006);
    ("MD007", MD007); ("MD011", MD011); ("MD014", MD014 splitNewLine);
    ("MD019", MD019); ("MD021", MD021); ("MD023", MD023); ("MD024", MD024);
    ("MD025", MD025); ("MD026", MD026); ("MD028", MD028)
  ]%string.

(** A paragraph followed at once by a heading whose text is an underline:
<<
text
# ===
>>
*)
Definition headingOfEquals : Params.t :=
  Params.mk
    [blockToken "paragraph_open" 0 1 (lit "text");
     inlineToken 0 1 (lit "text") (lit "text");
     closeToken "paragraph_close";
     headingToken 1 1 2 (lit "# ==="); inlineToken 1 2 (lit "# ===") (lit "===");
     closeToken "heading_close"]
    [lit "text"; lit "# ==="]
    Options.none.

(** An ordered list with a nested ordered list, numbered in sequence:
<<
1. a
   1. b
   2. c
2. d
>>
*)
Definition nestedOrderedLists : Params.t :=
  Params.mk
    [blockToken "ordered_list_open" 0 4 (lit "1. a");
     blockToken "list_item_open" 0 3 (lit "1. a");
     blockToken "paragraph_open" 0 1 (lit "1. a");
     inlineToken 0 1 (lit "1. a") (lit "a");
     closeToken "paragraph_close";
     blockToken "ordered_list_open" 1 3 (lit "   1. b");
     blockToken "list_item_open" 1 2 (lit "   1. b");
     blockToken "paragraph_open" 1 2 (lit "   1. b");
     inlineToken 1 2 (lit "   1. b") (lit "b");
     closeToken "paragraph_close";
     closeToken "list_item_close";
     blockToken "list_item_open" 2 3 (lit "   2. c");
     blockToken "paragraph_open" 2 3 (lit "   2. c");
     inlineToken 2 3 (lit "   2. c") (lit "c");
     closeToken "paragraph_close";
     closeToken "list_item_close";
     closeToken "ordered_list_close";
     closeToken "list_item_close";
     blockToken "list_item_open" 3 4 (lit "2. d");
     blockToken "paragraph_open" 3 4 (lit "2. d");
     inlineToken 3 4 (lit "2. d") (lit "d");
     closeToken "paragraph_close";
     closeToken "list_item_close";
     closeToken "ordered_list_close"]
    [lit "1. a"; lit "   1. b"; lit "   2. c"; lit "2. d"]
    Options.none.

(** The types of the tokens whose line number the token rules report. *)
Definition reportedTypes : list string :=
  [ "heading_open"; "bullet_list_open"; "ordered_list_open"; "inline";
    "code_block"; "fence"; "blockquote_open" ]%string.

Definition carriesLineNumber (token : Token.t) : bool :=
  existsb (String.eqb (Token.type token)) reportedTypes.

(** The line numbers of the tokens of the reported types, in token order. *)
Definition reportedLineNumbers (tokens : list Token.t) : list Z :=
  map Token.lineNumber (filter carriesLineNumber tokens).

Definition isBlockquoteOpen (token : Token.t) : bool :=
  String.eqb (Token.type token) "blockquote_open".

(** ** A degenerate list *)

(** A paragraph followed by a list whose only item is the bare marker [-]. *)
Definition listWithBareMarker : Params.t :=
  Params.mk
    [blockToken "paragraph_open" 0 1 (lit "text");
     inlineToken 0 1 (lit "text") (lit "text");
     closeToken "paragraph_close";
     blockToken "bullet_list_open" 2 3 (lit "-");
     blockToken "list_item_open" 2 3 (lit "-");
     closeToken "list_item_close";
     closeToken "bullet_list_close"]
    [lit "text"; []; lit "-"]
    Options.none.

(** The flat sequence of [nestedListsTokens]: the outer list, the nested
    ordered list, the second list. *)
Definition nestedListsFlat : list ListDesc.t :=
  Eval vm_compute in
    match flattenLists nestedListsTokens None with
    | Ok lists => lists
    | TypeError => []
    end.

Definition isInline (token : Token.t) : bool :=
  String.eqb (Token.type token) "inline".

(** Every inline token starts after the last content line of every inline
    token before it. *)
Definition inlinesInSequence (splitNewLine : jsstring -> list jsstring)
  (tokens : list Token.t) : Prop :=
  StronglySorted
    (fun a b =>
       Token.lineNumber a
       + Z.of_nat (List.length (splitNewLine (Token.content a)))
       <= Token.lineNumber b)
    (filter isInline tokens).

(** Every code-block token carries its line range, as the tokenizer emits
    it. *)
Definition codeBlocksHaveLines (tokens : list Token.t) : Prop :=
  forall t, In t tokens -> Token.type t = "code_block"%string ->
            Token.lines t <> None.

(** A blockquote of two lines, each with a space too many:
<<
>  a
>  b
>>
*)
Definition quoteWithSpaces : Params.t :=
  Params.mk
    [blockToken "blockquote_open" 0 2 (lit ">  a");
     blockToken "paragraph_open" 0 2 (lit ">  a");
     inlineToken 0 2 (lit ">  a") (lit " a" ++ [10%N] ++ lit " b");
     closeToken "paragraph_close";
     closeToken "blockquote_close"]
    [lit ">  a"; lit ">  b"]
    Options.none.

(** A fenced block directly between two paragraphs:
<<
text
```
code
```
more
>>
*)
Definition fencedBlockTight : Params.t :=
  Params.mk
    [blockToken "paragraph_open" 0 1 (lit "text");
     inlineToken 0 1 (lit "text") (lit "text");
     closeToken "paragraph_close";
     Token.mk "fence" (Some (1, 4)) (lit "```") 2 0 (lit "code" ++ [10%N]) [];
     blockToken "paragraph_open" 4 5 (lit "more");
     inlineToken 4 5 (lit "more") (lit "more");
     closeToken "paragraph_close"]
    [lit "text"; lit "```"; lit "code"; lit "```"; lit "more"]
    Options.none.

(** A fenced block with an empty line before and after it. *)
Definition fencedBlockSpaced : Params.t :=
  Params.mk
    [Token.mk "fence" (Some (1, 4)) (lit "```") 2 0 (lit "code" ++ [10%N]) []]
    [[]; lit "```"; lit "code"; lit "```"; []]
    Options.none.

(** * Vocabulary of the further properties *)

(** [line] begins with [prefix]. *)
Definition startsWith (prefix line : jsstring) : Prop :=
  exists rest, line = prefix ++ rest.

(** A fence delimiter: the line begins with three backticks or three
    tildes. *)
Definition fenceLine (line : jsstring) : Prop :=
  startsWith (lit "```") line \/ startsWith (lit "~~~") line.

(** The line ends in a whitespace character. *)
Definition endsInSpace (line : jsstring) : Prop :=
  exists front c, line = front ++ [c] /\ isSpace c = true.

(** The line begins with a whitespace character. *)
Definition startsWithSpace (line : jsstring) : Prop :=
  exists c rest, line = c :: rest /\ isSpace c = true.

(** A code-block token without a line range. *)
Definition codeBlockWithoutLines (tokens : list Token.t) : Prop :=
  exists t, In t tokens /\ Token.type t = "code_block"%string
            /\ Token.lines t = None.

(** The rules that go through [forEachLine]. *)
Definition classifiedLineRules : list (string * rule) :=
  [ ("MD012", MD012); ("MD018", MD018); ("MD020", MD020); ("MD031", MD031);
    ("MD032", MD032) ]%string.

(** The rules that test each line on its own. *)
Definition plainLineRules : list (string * rule) :=
  [ ("MD009", MD009); ("MD010", MD010); ("MD013", MD013) ]%string.

(** The line holds a tab character. *)
Definition hasTab (line : jsstring) : Prop := In 9%N line.

(** [rest] is empty or begins with a character that is not whitespace. *)
Definition noLeadingSpace (rest : jsstring) : Prop :=
  rest = [] \/ exists c r, rest = c :: r /\ isSpace c = false.

(** The line ends in a hash followed by whitespace only. *)
Definition closedHashLine (line : jsstring) : Prop :=
  exists front ws, line = front ++ code "#" :: ws /\ whitespaceOnly ws.

(** The heading-open tokens, in document order. *)
Definition headingsOf (params : Params.t) : list Token.t :=
  filterTokens (Params.tokens params) "heading_open" None.

(** The line starts with one or more [#] followed by two whitespace
    characters. *)
Definition hashesThenTwoSpaces (line : jsstring) : Prop :=
  exists hashes c1 c2 rest,
    line = hashes ++ c1 :: c2 :: rest /\ hashes <> []
    /\ Forall (fun h => h = code "#") hashes
    /\ isSpace c1 = true /\ isSpace c2 = true.

(** The line ends in two whitespace characters followed by one or more
    [#]. *)
Definition twoSpacesThenHashes (line : jsstring) : Prop :=
  exists front c1 c2 hashes,
    line = front ++ c1 :: c2 :: hashes /\ hashes <> []
    /\ Forall (fun h => h = code "#") hashes
    /\ isSpace c1 = true /\ isSpace c2 = true.

(** A heading-open token without a line range. *)
Definition headingWithoutLines (params : Params.t) : Prop :=
  exists h, In h (headingsOf params) /\ Token.lines h = None.

(** The rules that ask for the style of every heading. *)
Definition headingStyleRules : list (string * rule) :=
  [ ("MD003", MD003); ("MD019", MD019); ("MD021", MD021) ]%string.

(** The style MD003 holds the headings to: the configured one, or the style
    of the first heading when it is absent, empty or "consistent". *)
Definition effectiveHeadingStyle (params : Params.t) (first : Token.t)
  (style : string) : Prop :=
  let configured :=
    orStr (Options.style (Params.options params)) "consistent" in
  if String.eqb configured "consistent"
  then headingStyleFor first = Ok style
  else style = configured.

(** ** Vocabulary for [forEachHeading] *)

Definition isHeadingClose (token : Token.t) : bool :=
  String.eqb (Token.type token) "heading_close".

(** [t] is an inline token that comes after the heading-open token [h] with
    no heading boundary in between. *)
Definition inlineOfHeading (tokens : list Token.t) (h t : Token.t) : Prop :=
  exists pre mid post,
    tokens = pre ++ h :: mid ++ t :: post
    /\ isHeadingOpen h = true /\ isInline t = true
    /\ forall m, In m mid -> isHeadingOpen m = false /\ isHeadingClose m = false.

(** The pairs of heading and content that [forEachHeading] hands to its
    callback, in order, when the scan of [tokens] starts with [heading]. *)
Fixpoint headingCalls (heading : option Token.t) (tokens : list Token.t)
  : list (Token.t * jsstring) :=
  match tokens with
  | [] => []
  | token :: rest =>
      if isHeadingOpen token then headingCalls (Some token) rest
      else if isHeadingClose token then headingCalls None rest
      else if isInline token then
        match heading with
        | Some h => (h, Token.content token) :: headingCalls heading rest
        | None => headingCalls heading rest
        end
      else headingCalls heading rest
  end.

(** The content ends in one of the characters of [punctuation]. *)
Definition endsInOneOf (punctuation content : jsstring) : Prop :=
  exists front p, content = front ++ [p] /\ In p punctuation.

(** No character of [s] is special inside a character class. *)
Definition plainClass (s : jsstring) : Prop :=
  Forall (fun c => ~ In c (lit "\]^-")) s.

(** The punctuation MD026 looks for. *)
Definition punctuationOf (params : Params.t) : jsstring :=
  orJsstring (Options.punctuation (Params.options params)) (lit ".,;:!?").

(** ** Vocabulary for the content rules *)

(** The text holds a link written the wrong way round: a parenthesised part
    without closing parenthesis inside, directly followed by a bracketed part
    without closing bracket inside, both non-empty. *)
Definition reversedLink (text : jsstring) : Prop :=
  exists pre label target post,
    text = pre ++ code "(" :: label ++ code ")" :: code "[" :: target
               ++ code "]" :: post
    /\ label <> [] /\ ~ In (code ")") label
    /\ target <> [] /\ ~ In (code "]") target.

(** The line starts with a dollar sign followed by a whitespace character. *)
Definition dollarThenSpace (line : jsstring) : Prop :=
  exists c rest, line = code "$" :: c :: rest /\ isSpace c = true.

(** A code block, indented or fenced. *)
Definition isCode (token : Token.t) : bool :=
  (String.eqb (Token.type token) "code_block"
   || String.eqb (Token.type token) "fence")%bool.

(** ** Vocabulary for the lists *)

Definition isListItem (token : Token.t) : bool :=
  String.eqb (Token.type token) "list_item_open".

(** A token [flattenLists] remembers as the last one with lines: it is no
    list boundary and no list item, and it has a line range. *)
Definition tracksLines (token : Token.t) : bool :=
  (negb (isListOpen token) && negb (isListClose token)
   && negb (isListItem token)
   && match Token.lines token with Some _ => true | None => false end)%bool.

(** The contexts of a state are the open lists, innermost first, above the
    initial [null]. *)
Definition wellNested (st : FlatState) : Prop :=
  exists ds, fl_current st :: fl_stack st = map Some ds ++ [None].

(** The remembered token has a line range. *)
Definition linesKnown (st : FlatState) : Prop :=
  forall t, fl_lastWithLines st = Some t -> Token.lines t <> None.

(** A list is closed, or an item is met, while no list is open. *)
Definition outsideAnyList (tokens : list Token.t) : Prop :=
  exists pre t post,
    tokens = pre ++ t :: post
    /\ (isListClose t || isListItem t)%bool = true
    /\ listDepth pre 0 = Some O.

(** A list is closed before any token with a line range was met. *)
Definition closedBeforeAnyLines (tokens : list Token.t) : Prop :=
  exists pre t post,
    tokens = pre ++ t :: post
    /\ isListClose t = true
    /\ forall u, In u pre -> tracksLines u = false.

(** What identifies a descriptor in the output: its open token and its
    nesting. *)
Definition tagOf (d : ListDesc.t) : Token.t * Z :=
  (ListDesc.open d, ListDesc.nesting d).

(** The tags of the output if the pending lists were closed now. *)
Fixpoint completeTagged (filterBy : option bool) (tagged : list (Token.t * Z))
  (pend : list ListDesc.t) : list (Token.t * Z) :=
  match pend with
  | [] => tagged
  | p :: rest =>
      completeTagged filterBy
        (if keeps filterBy (ListDesc.ordered p)
         then splice (insertOf p) (tagOf p) tagged
         else tagged)
        rest
  end.

(** The list-open tokens that pass the filter, in document order, each with
    the number of lists open around it; the scan starts inside [d] lists. *)
Fixpoint opensWithDepth (filterBy : option bool) (tokens : list Token.t)
  (d : nat) : list (Token.t * Z) :=
  match tokens with
  | [] => []
  | t :: rest =>
      if isListOpen t then
        (if keeps filterBy (isOrderedOpen t) then [(t, Z.of_nat d)] else [])
        ++ opensWithDepth filterBy rest (S d)
      else if isListClose t then opensWithDepth filterBy rest (Nat.pred d)
      else opensWithDepth filterBy rest d
  end.

(** [t] opens a list inside [depth] open lists. *)
Definition opensAtDepth (tokens : list Token.t) (t : Token.t) (depth : nat)
  : Prop :=
  exists pre post,
    tokens = pre ++ t :: post /\ isListOpen t = true
    /\ listDepth pre 0 = Some depth.

(** What [flattenLists] has recorded of a list that is in its output, after
    the tokens [seen]. *)
Definition recorded (filterBy : option bool) (seen : list Token.t)
  (d : ListDesc.t) : Prop :=
  ListDesc.insert d = None
  /\ ListDesc.ordered d = isOrderedOpen (ListDesc.open d)
  /\ keeps filterBy (ListDesc.ordered d) = true
  /\ Forall (fun item => isListItem item = true) (ListDesc.items d)
  /\ exists t l0,
       In t seen /\ tracksLines t = true
       /\ Token.lines t = Some (l0, ListDesc.lastLineIndex d).

(** What is known of a list that is still open. *)
Definition recording (d : ListDesc.t) : Prop :=
  ListDesc.ordered d = isOrderedOpen (ListDesc.open d)
  /\ Forall (fun item => isListItem item = true) (ListDesc.items d).

(** The remembered token is one of [seen] and has a line range. *)
Definition remembered (seen : list Token.t) (st : FlatState) : Prop :=
  forall t, fl_lastWithLines st = Some t -> In t seen /\ tracksLines t = true.

(** ** Vocabulary for the list rules *)

(** The nested lists as the parameters of a rule. *)
Definition nestedLists : Params.t :=
  Params.mk nestedListsTokens [lit "- a"; lit "  1. b"; lit "- c"; []; lit "* d"]
    Options.none.

(** The style MD004 holds the items of all unordered lists to: the configured
    one, or the style of the first item of the first list when it is absent,
    empty or "consistent". *)
Definition effectiveListStyle (params : Params.t) (lists : list ListDesc.t)
  (style : string) : Prop :=
  let configured :=
    orStr (Options.style (Params.options params)) "consistent" in
  if String.eqb configured "consistent"
  then match lists with
       | [] => True
       | first :: _ =>
           exists item,
             hd_error (ListDesc.items first) = Some item
             /\ style = unorderedListStyleFor item
       end
  else style = configured.

(** The list-open tokens of the unordered lists, in document order. *)
Definition bulletOpens (tokens : list Token.t) : list Token.t :=
  filter (keptOpen (Some false)) tokens.

(** The unordered lists of [nestedListsTokens]. *)
Definition nestedListsBullets : list ListDesc.t :=
  Eval vm_compute in filter (sameKind false) nestedListsFlat.

(** A paragraph, then an unordered list indented by one space with a nested
    list indented by three:
<<
text
 - a
   - b
>>
*)
Definition indentedLists : Params.t :=
  Params.mk
    [blockToken "paragraph_open" 0 1 (lit "text");
     inlineToken 0 1 (lit "text") (lit "text");
     closeToken "paragraph_close";
     blockToken "bullet_list_open" 1 3 (lit " - a");
     blockToken "list_item_open" 1 3 (lit " - a");
     blockToken "paragraph_open" 1 2 (lit " - a");
     inlineToken 1 2 (lit " - a") (lit "a");
     closeToken "paragraph_close";
     blockToken "bullet_list_open" 2 3 (lit "   - b");
     blockToken "list_item_open" 2 3 (lit "   - b");
     blockToken "paragraph_open" 2 3 (lit "   - b");
     inlineToken 2 3 (lit "   - b") (lit "b");
     closeToken "paragraph_close";
     closeToken "list_item_close";
     closeToken "bullet_list_close";
     closeToken "list_item_close";
     closeToken "bullet_list_close"]
    [lit "text"; lit " - a"; lit "   - b"]
    Options.none.

(** The line starts, after optional whitespace, with the decimal digits of
    [number], a dot and a space. *)
Definition itemPrefix (number : N) (line : jsstring) : Prop :=
  exists ws rest,
    line = ws ++ String_ number ++ code "." :: code " " :: rest
    /\ whitespaceOnly ws.

(** The number MD029 expects in front of the item of index [k] of a list:
    one more than the index under the style "ordered", and one under any
    other style. *)
Definition expectedNumber (params : Params.t) (k : nat) : N :=
  if String.eqb (orStr (Options.style (Params.options params)) "one") "ordered"
  then (1 + N.of_nat k)%N
  else 1%N.

(** An ordered list numbered 1, 2 inside a paragraph-led document:
<<
text

1. a
2. b
>>
*)
Definition numberedList : Params.t :=
  Params.mk
    [blockToken "paragraph_open" 0 1 (lit "text");
     inlineToken 0 1 (lit "text") (lit "text");
     closeToken "paragraph_close";
     blockToken "ordered_list_open" 2 4 (lit "1. a");
     blockToken "list_item_open" 2 3 (lit "1. a");
     blockToken "paragraph_open" 2 3 (lit "1. a");
     inlineToken 2 3 (lit "1. a") (lit "a");
     closeToken "paragraph_close";
     closeToken "list_item_close";
     blockToken "list_item_open" 3 4 (lit "2. b");
     blockToken "paragraph_open" 3 4 (lit "2. b");
     inlineToken 3 4 (lit "2. b") (lit "b");
     closeToken "paragraph_close";
     closeToken "list_item_close";
     closeToken "ordered_list_close"]
    [lit "text"; []; lit "1. a"; lit "2. b"]
    Options.none.

(** The flat sequence of [numberedList]. *)
Definition numberedListFlat : list ListDesc.t :=
  Eval vm_compute in
    match flattenLists (Params.tokens numberedList) (Some true) with
    | Ok lists => lists
    | TypeError => []
    end.

(** [/^\s*\S+(\s+)/], the pattern MD030 runs on the line of an item. *)
Definition re_markerSpaces : pattern :=
  mkPattern true
    (Cat (Star (Chr isSpace)) (Cat (Plus (Chr notSpace)) (Plus (Chr isSpace))))
    false.

(** The line is optional whitespace, a marker without whitespace, and then a
    run of exactly [n] whitespace characters, one at least. *)
Definition markerThenSpaces (n : Z) (line : jsstring) : Prop :=
  exists ws marker spaces rest,
    line = ws ++ marker ++ spaces ++ rest
    /\ whitespaceOnly ws
    /\ marker <> [] /\ Forall (fun c => isSpace c = false) marker
    /\ spaces <> [] /\ whitespaceOnly spaces
    /\ noLeadingSpace rest
    /\ n = Z.of_nat (List.length spaces).

(** The number of spaces MD030 expects after the markers of a list. *)
Definition expectedSpaces (params : Params.t) (lst : ListDesc.t) : N :=
  let options := Params.options params in
  let l0 := match Token.lines (ListDesc.open lst) with
            | Some (l0, _) => l0
            | None => 0
            end in
  let allSingle :=
    Z.eqb (ListDesc.lastLineIndex lst - l0)
      (Z.of_nat (List.length (ListDesc.items lst))) in
  if ListDesc.ordered lst then
    (if allSingle then orNum (Options.ol_single options) 1
     else orNum (Options.ol_multi options) 1)
  else
    (if allSingle then orNum (Options.ul_single options) 1
     else orNum (Options.ul_multi options) 1).

(** The flat sequence of [indentedLists]. *)
Definition indentedListsFlat : list ListDesc.t :=
  Eval vm_compute in
    match flattenLists (Params.tokens indentedLists) None with
    | Ok lists => lists
    | TypeError => []
    end.

(** ** Vocabulary for MD032 *)

(** The callback of MD032. *)
Definition MD032_callback (st : MD032State) (line : jsstring) (lineIndex : Z)
  (inCode onFence : bool) : MD032State :=
  let '(mkMD032 inList prevLine errors) := st in
  let '(inList, errors) :=
    if (negb inCode || onFence)%bool then
      let listMarker := test re_listMarker (trim line) in
      (listMarker,
       if (listMarker && negb inList
           && negb (test_emptyOrLeadingSpace prevLine))%bool then
         push errors (lineIndex + 1)
       else if (negb listMarker && inList
                && negb (test_emptyOrLeadingSpace line))%bool then
         push errors lineIndex
       else errors)
    else (inList, errors) in
  mkMD032 (inList && negb onFence)%bool line errors.

(** The text starts with a list marker: one of [*], [+], [-], or digits and
    a dot, followed by a whitespace character. *)
Definition listMarker (text : jsstring) : Prop :=
  exists marker c rest,
    text = marker ++ c :: rest /\ isSpace c = true
    /\ ((exists b, marker = [b] /\ In b (lit "*+-"))
        \/ exists digits,
             marker = digits ++ [code "."] /\ digits <> []
             /\ Forall (fun d => isDigit d = true) digits).

(** A list item between two lines of text, without blank lines. *)
Definition listAfterText : Params.t :=
  Params.mk [] [lit "text"; lit "- a"; lit "more"] Options.none.

(** ** Vocabulary for MD027 *)

Definition isBlockquoteClose (token : Token.t) : bool :=
  String.eqb (Token.type token) "blockquote_close".

(** [t] is an inline token of [tokens] with no blockquote boundary in front
    of it. *)
Definition inlineAhead (tokens : list Token.t) (t : Token.t) : Prop :=
  exists mid post,
    tokens = mid ++ t :: post /\ isInline t = true
    /\ forall m, In m mid ->
                 isBlockquoteOpen m = false /\ isBlockquoteClose m = false.

(** [t] is an inline token that comes after a blockquote-open token with no
    blockquote boundary in between. *)
Definition inlineInQuote (tokens : list Token.t) (t : Token.t) : Prop :=
  exists pre q post,
    tokens = pre ++ q :: post /\ isBlockquoteOpen q = true
    /\ inlineAhead post t.

(** The inline tokens MD027 looks at, in order, when the scan of [tokens]
    starts with the flag [inBlockquote]. *)
Fixpoint quotedInlines (inBlockquote : bool) (tokens : list Token.t)
  : list Token.t :=
  match tokens with
  | [] => []
  | token :: rest =>
      if isBlockquoteOpen token then quotedInlines true rest
      else if isBlockquoteClose token then quotedInlines false rest
      else if (isInline token && inBlockquote)%bool
           then token :: quotedInlines inBlockquote rest
           else quotedInlines inBlockquote rest
  end.

(** The line has, after optional whitespace, a [>] followed by two
    whitespace characters. *)
Definition quoteThenTwoSpaces (line : jsstring) : Prop :=
  exists ws c1 c2 rest,
    line = ws ++ code ">" :: c1 :: c2 :: rest
    /\ whitespaceOnly ws /\ isSpace c1 = true /\ isSpace c2 = true.

(** ** Vocabulary for MD022 *)

(** The line is a run of [-] or a run of [=], followed by whitespace only. *)
Definition underlineLine (line : jsstring) : Prop :=
  exists marks ws,
    line = marks ++ ws /\ marks <> []
    /\ (Forall (fun c => c = code "-") marks
        \/ Forall (fun c => c = code "=") marks)
    /\ whitespaceOnly ws.

(** A token without a line range on which MD022 reads [token.lines[0]]: a
    heading-open token, or an inline token with an underline in its
    content. *)
Definition needsLines (splitNewLine : jsstring -> list jsstring)
  (t : Token.t) : Prop :=
  Token.lines t = None
  /\ (isHeadingOpen t = true
      \/ (isInline t = true
          /\ exists line,
               In line (splitNewLine (Token.content t))
               /\ underlineLine line)).

(** ** Vocabulary for MD020 *)

(** The line is one or more [#], a part without [#], a character other than
    a backslash, and one or more [#] up to its end. *)
Definition closedAtxLine (line : jsstring) : Prop :=
  exists hashes middle c closing,
    line = hashes ++ middle ++ c :: closing
    /\ hashes <> [] /\ Forall (fun h => h = code "#") hashes
    /\ ~ In (code "#") middle
    /\ c <> 92%N
    /\ closing <> [] /\ Forall (fun h => h = code "#") closing.

(** The line ends in one or more [#] that come right after a character that
    is neither [#] nor whitespace. *)
Definition textThenHashes (line : jsstring) : Prop :=
  exists front c closing,
    line = front ++ c :: closing
    /\ c <> code "#" /\ isSpace c = false
    /\ closing <> [] /\ Forall (fun h => h = code "#") closing.

(** A line of text, an atx heading without space, and a closed atx heading
    without spaces. *)
Definition headingsWithoutSpace : Params.t :=
  Params.mk [] [lit "text"; lit "#tag"; lit "#tag#"] Options.none.

(** A heading whose content ends in a question mark. *)
Definition questionHeading : Params.t :=
  Params.mk
    [headingToken 1 0 1 (lit "# Why?");
     inlineToken 0 1 (lit "# Why?") (lit "Why?");
     closeToken "heading_close"]
    [lit "# Why?"] Options.none.

(** An atx heading and a closed atx heading, each with two spaces inside. *)
Definition spacedHeadings : Params.t :=
  Params.mk
    [headingToken 1 0 1 (lit "#  A"); closeToken "heading_close";
     headingToken 2 2 3 (lit "## B  ##"); closeToken "heading_close"]
    [lit "#  A"; []; lit "## B  ##"] Options.none.

(** * Properties *)

(** ** The matcher decides the language of a regular expression *)

Lemma Lang_nil_inv (r : regex) (s : jsstring) :
  Lang r s -> s = [] -> nullable r = true.
Proof.
  induction 1; intros Hs; simpl; auto; try discriminate.
  - apply app_eq_nil in Hs as [-> ->]. rewrite IHLang1, IHLang2; auto.
  - rewrite IHLang; auto.
  - rewrite IHLang; auto using orb_true_r.
Qed.

Lemma nullable_Lang (r : regex) : nullable r = true -> Lang r [].
Proof.
  induction r; simpl; intros H; try discriminate.
  - constructor.
  - apply andb_prop in H as [H1 H2].
    change (@nil char) with (@nil char ++ []). constructor; auto.
  - apply orb_prop in H as [H | H]; [apply LAltL | apply LAltR]; auto.
  - constructor.
Qed.

Lemma nullable_spec (r : regex) : nullable r = true <-> Lang r [].
Proof.
  split; [apply nullable_Lang | intros H; eapply Lang_nil_inv; eauto].
Qed.

Lemma deriv_sound (c : char) (r : regex) :
  forall s, Lang (deriv c r) s -> Lang r (c :: s).
Proof.
  induction r; simpl; intros s H.
  - inversion H.
  - inversion H.
  - destruct (p c) eqn:Hp; inversion H; subst. constructor; exact Hp.
  - destruct (nullable r1) eqn:Hn.
    + inversion H; subst.
      * inversion H3; subst.
        change (c :: s1 ++ s2) with ((c :: s1) ++ s2). constructor; auto.
      * change (c :: s) with ([] ++ c :: s).
        constructor; [apply nullable_Lang; exact Hn | auto].
    + inversion H; subst.
      change (c :: s1 ++ s2) with ((c :: s1) ++ s2). constructor; auto.
  - inversion H; subst; [apply LAltL | apply LAltR]; auto.
  - inversion H; subst.
    change (c :: s1 ++ s2) with ((c :: s1) ++ s2). constructor; auto.
Qed.

Lemma deriv_complete (c : char) (r : regex) (w : jsstring) :
  Lang r w -> forall t, w = c :: t -> Lang (deriv c r) t.
Proof.
  induction 1; intros t Hw; simpl; try discriminate.
  - injection Hw as Hc Hs; subst. rewrite H. constructor.
  - destruct s1 as [|d s1'].
    + simpl in Hw. subst s2.
      rewrite (Lang_nil_inv _ _ H eq_refl). apply LAltR. auto.
    + simpl in Hw. injection Hw as Hc Hs; subst.
      destruct (nullable r1); [apply LAltL|]; constructor; auto.
  - apply LAltL; auto.
  - apply LAltR; auto.
  - destruct s1 as [|d s1'].
    + simpl in Hw. auto.
    + simpl in Hw. injection Hw as Hc Hs; subst. constructor; auto.
Qed.

Lemma deriv_spec (c : char) (r : regex) (s : jsstring) :
  Lang (deriv c r) s <-> Lang r (c :: s).
Proof.
  split; [apply deriv_sound | intros H; eapply deriv_complete; eauto].
Qed.

Lemma matches_spec (s : jsstring) :
  forall r, matches r s = true <-> Lang r s.
Proof.
  induction s as [|c s IH]; intros r; simpl.
  - apply nullable_spec.
  - rewrite IH. apply deriv_spec.
Qed.

(** Inversion principles for the shapes the patterns are built from. *)

Lemma Lang_Cat_inv (r1 r2 : regex) (s : jsstring) :
  Lang (Cat r1 r2) s <-> exists s1 s2, s = s1 ++ s2 /\ Lang r1 s1 /\ Lang r2 s2.
Proof.
  split.
  - intros H; inversion H; subst; eauto.
  - intros (s1 & s2 & -> & H1 & H2); constructor; auto.
Qed.

Lemma Lang_Alt_inv (r1 r2 : regex) (s : jsstring) :
  Lang (Alt r1 r2) s <-> Lang r1 s \/ Lang r2 s.
Proof.
  split.
  - intros H; inversion H; subst; auto.
  - intros [H | H]; [apply LAltL | apply LAltR]; auto.
Qed.

Lemma Lang_Eps_inv (s : jsstring) : Lang Eps s <-> s = [].
Proof.
  split; [intros H; inversion H; auto | intros ->; constructor].
Qed.

Lemma Lang_Chr_inv (p : char -> bool) (s : jsstring) :
  Lang (Chr p) s <-> exists c, s = [c] /\ p c = true.
Proof.
  split.
  - intros H; inversion H; subst; eauto.
  - intros (c & -> & H); constructor; auto.
Qed.

Lemma Lang_Star_Chr (p : char -> bool) (s : jsstring) :
  Lang (Star (Chr p)) s <-> forallb p s = true.
Proof.
  split.
  - remember (Star (Chr p)) as r eqn:Hr. intros H.
    induction H; try discriminate; auto.
    injection Hr as Hr; subst r.
    apply Lang_Chr_inv in H as (c & -> & Hc). simpl.
    rewrite Hc. apply IHLang2. reflexivity.
  - induction s as [|c s IH]; simpl; intros H.
    + constructor.
    + apply andb_prop in H as [Hc Hs].
      change (c :: s) with ([c] ++ s). constructor; [constructor|]; auto.
Qed.

Lemma Lang_Star_any (s : jsstring) : Lang (Star (Chr anyChar)) s.
Proof.
  apply Lang_Star_Chr. induction s; simpl; auto.
Qed.

Lemma Lang_Plus_Chr (p : char -> bool) (s : jsstring) :
  Lang (Plus (Chr p)) s <-> exists c s', s = c :: s' /\ forallb p (c :: s') = true.
Proof.
  unfold Plus. rewrite Lang_Cat_inv. split.
  - intros (s1 & s2 & -> & H1 & H2).
    apply Lang_Chr_inv in H1 as (c & -> & Hc).
    apply Lang_Star_Chr in H2. exists c, s2. simpl. rewrite Hc, H2. auto.
  - intros (c & s' & -> & H). simpl in H. apply andb_prop in H as [Hc Hs].
    exists [c], s'. split; [reflexivity|].
    split; [constructor; auto | apply Lang_Star_Chr; auto].
Qed.

Lemma Lang_Repeat_Chr (p : char -> bool) (n : nat) (s : jsstring) :
  Lang (Repeat n (Chr p)) s <-> List.length s = n /\ forallb p s = true.
Proof.
  revert s. induction n as [|n IH]; intros s; simpl.
  - rewrite Lang_Eps_inv. split.
    + intros ->. auto.
    + intros [H _]. destruct s; [auto | discriminate].
  - rewrite Lang_Cat_inv. split.
    + intros (s1 & s2 & -> & H1 & H2).
      apply Lang_Chr_inv in H1 as (c & -> & Hc). apply IH in H2 as [Hl Hf].
      simpl. rewrite Hc, Hf, Hl. auto.
    + intros [Hl Hf]. destruct s as [|c s]; [discriminate|].
      simpl in Hl, Hf. apply andb_prop in Hf as [Hc Hs].
      exists [c], s. split; [reflexivity|].
      split; [constructor; auto | apply IH; split; [lia | auto]].
Qed.

(** [re.test(s)], in terms of the language of the body. *)
Lemma test_spec (re : pattern) (s : jsstring) :
  test re s = true <->
  exists pre mid post,
    s = pre ++ mid ++ post /\ Lang (p_body re) mid
    /\ (p_bol re = true -> pre = []) /\ (p_eol re = true -> post = []).
Proof.
  unfold test. rewrite matches_spec, Lang_Cat_inv. split.
  - intros (pre & rest & -> & Hpre & Hrest).
    apply Lang_Cat_inv in Hrest as (mid & post & -> & Hmid & Hpost).
    exists pre, mid, post. split; [reflexivity|]. split; [exact Hmid|]. split.
    + intros Hb. rewrite Hb in Hpre. apply Lang_Eps_inv in Hpre. exact Hpre.
    + intros He. rewrite He in Hpost. apply Lang_Eps_inv in Hpost. exact Hpost.
  - intros (pre & mid & post & -> & Hmid & Hb & He).
    exists pre, (mid ++ post). split; [reflexivity|]. split.
    + destruct (p_bol re); [rewrite Hb by reflexivity; constructor
                           | apply Lang_Star_any].
    + constructor; [exact Hmid|].
      destruct (p_eol re); [rewrite He by reflexivity; constructor
                           | apply Lang_Star_any].
Qed.

(** ** The line classifier *)

Lemma forLines_classify {St : Type}
  (callback : St -> jsstring -> Z -> bool -> bool -> St) (codeLines : list Z)
  (ls : list jsstring) :
  forall lineIndex inFence s,
    forLines callback codeLines ls lineIndex inFence s
    = fold_left (callWith callback) (classify codeLines ls lineIndex inFence) s.
Proof.
  induction ls as [|line rest IH]; intros lineIndex inFence s; simpl.
  - reflexivity.
  - rewrite IH. reflexivity.
Qed.

Lemma classification_classify (params : Params.t) :
  classification params
  = (codeLines <- codeLinesOf (Params.tokens params) ;;
     Ok (classify codeLines (Params.lines params) 0 false)).
Proof.
  unfold classification, forEachLine.
  destruct (codeLinesOf (Params.tokens params)) as [codeLines|]; simpl; auto.
  rewrite forLines_classify. f_equal.
  assert (H : forall l acc,
             fold_left
               (callWith (fun calls line lineIndex inCode onFence =>
                            push calls (mkCtx line lineIndex inCode onFence)))
               l acc = acc ++ l).
  { induction l as [|[a b c d] l IH]; intros acc; simpl.
    - rewrite app_nil_r. reflexivity.
    - rewrite IH. unfold callWith, push. simpl. rewrite <- app_assoc.
      reflexivity. }
  apply H.
Qed.

Lemma fenceCount_cons (line : jsstring) (ls : list jsstring) :
  fenceCount (line :: ls)
  = ((if test re_fence line then 1 else 0) + fenceCount ls)%nat.
Proof.
  unfold fenceCount. simpl. destruct (test re_fence line); reflexivity.
Qed.

Lemma classify_length (codeLines : list Z) (ls : list jsstring) :
  forall lineIndex inFence,
    List.length (classify codeLines ls lineIndex inFence) = List.length ls.
Proof.
  induction ls as [|line rest IH]; intros; simpl; auto.
Qed.

(** The call for line [k]: the fence state it sees is the parity of the
    number of fence lines up to and including line [k]. *)
Lemma classify_nth (codeLines : list Z) (ls : list jsstring) :
  forall (k : nat) lineIndex inFence line,
    nth_error ls k = Some line ->
    nth_error (classify codeLines ls lineIndex inFence) k
    = Some (mkCtx line (lineIndex + Z.of_nat k)
              (xorb inFence (Nat.odd (fenceCount (firstn (S k) ls)))
               || inCodeLines codeLines (lineIndex + Z.of_nat k))
              (test re_fence line)).
Proof.
  induction ls as [|l0 rest IH]; intros k lineIndex inFence line Hk.
  - destruct k; discriminate.
  - destruct k as [|k].
    + simpl in Hk. injection Hk as ->. simpl classify. simpl nth_error.
      rewrite Z.add_0_r. rewrite firstn_cons, firstn_O, fenceCount_cons.
      unfold fenceCount at 1. simpl.
      destruct (test re_fence line), inFence; reflexivity.
    + simpl in Hk. simpl classify. simpl nth_error.
      rewrite (IH k _ _ line Hk).
      replace (lineIndex + 1 + Z.of_nat k) with (lineIndex + Z.of_nat (S k))
        by lia.
      rewrite (firstn_cons (S k) l0 rest), fenceCount_cons.
      destruct (test re_fence l0).
      * change (1 + ?n)%nat with (S n). rewrite Nat.odd_succ.
        rewrite <- Nat.negb_odd.
        destruct inFence, (Nat.odd (fenceCount (firstn (S k) rest)));
          reflexivity.
      * reflexivity.
Qed.

Lemma classify_nth_inv (codeLines : list Z) (ls : list jsstring)
  (lineIndex : Z) (inFence : bool) (k : nat) (c : LineCtx) :
  nth_error (classify codeLines ls lineIndex inFence) k = Some c ->
  exists line, nth_error ls k = Some line.
Proof.
  intros H.
  assert (Hlt : (k < List.length ls)%nat).
  { rewrite <- (classify_length codeLines ls lineIndex inFence).
    apply nth_error_Some. congruence. }
  destruct (nth_error ls k) eqn:E; eauto.
  apply nth_error_None in E. lia.
Qed.

Lemma lineRange_In (a b i : Z) : In i (lineRange a b) <-> a <= i < b.
Proof.
  unfold lineRange. rewrite in_map_iff. split.
  - intros (k & <- & Hk). apply in_seq in Hk. lia.
  - intros H. exists (Z.to_nat (i - a)). split; [lia|]. apply in_seq. lia.
Qed.

Lemma inCodeLines_In (codeLines : list Z) (i : Z) :
  inCodeLines codeLines i = true <-> In i codeLines.
Proof.
  unfold inCodeLines. rewrite existsb_exists. split.
  - intros (x & Hx & E). apply Z.eqb_eq in E. subst. exact Hx.
  - intros H. exists i. split; [exact H | apply Z.eqb_refl].
Qed.

Lemma filterTokens_In {A : Type} `{HasType A} (tokens : list A)
  (typeA : string) (x : A) :
  In x (filterTokens tokens typeA None) <-> In x tokens /\ typeOf x = typeA.
Proof.
  unfold filterTokens. rewrite filter_In, orb_false_r, String.eqb_eq. tauto.
Qed.

Lemma codeLinesOf_fold (toks : list Token.t) :
  forall acc codeLines,
    foldM (fun codeLines token =>
             match Token.lines token with
             | Some (a, b) => Ok (codeLines ++ lineRange a b)
             | None => TypeError
             end) toks acc = Ok codeLines ->
    forall i, In i codeLines <->
              In i acc \/ exists token a b,
                  In token toks /\ Token.lines token = Some (a, b) /\ a <= i < b.
Proof.
  induction toks as [|t toks IH]; intros acc codeLines H i; simpl in H.
  - injection H as <-. split; [auto|]. intros [H | (t & a & b & [] & _)]. exact H.
  - destruct (Token.lines t) as [[a b]|] eqn:El; simpl in H; [|discriminate].
    rewrite (IH _ _ H i), in_app_iff, lineRange_In. split.
    + intros [[Hi | Hi] | (t' & a' & b' & Hin & Hl & Hr)].
      * auto.
      * right. exists t, a, b. simpl. auto.
      * right. exists t', a', b'. simpl. auto.
    + intros [Hi | (t' & a' & b' & [<- | Hin] & Hl & Hr)].
      * auto.
      * rewrite El in Hl. injection Hl as <- <-. auto.
      * right. exists t', a', b'. auto.
Qed.

Lemma codeLinesOf_spec (tokens : list Token.t) (codeLines : list Z) (i : Z) :
  codeLinesOf tokens = Ok codeLines ->
  (inCodeLines codeLines i = true <-> coveredByCodeBlock tokens i).
Proof.
  intros H. unfold codeLinesOf in H.
  rewrite inCodeLines_In, (codeLinesOf_fold _ _ _ H i).
  unfold coveredByCodeBlock. split.
  - intros [[] | (t & a & b & Hin & Hl & Hr)].
    apply filterTokens_In in Hin as [Hin Ht]. exists t, a, b. auto.
  - intros (t & a & b & Hin & Ht & Hl & Hr). right. exists t, a, b.
    split; [apply filterTokens_In; auto | auto].
Qed.

Lemma firstn_S_nth {A : Type} (l : list A) :
  forall (k : nat) (x : A),
    nth_error l k = Some x -> firstn (S k) l = firstn k l ++ [x].
Proof.
  induction l as [|y l IH]; intros k x H.
  - destruct k; discriminate.
  - destruct k as [|k].
    + simpl in H. injection H as ->. reflexivity.
    + simpl in H. rewrite firstn_cons, (IH k x H). reflexivity.
Qed.

Lemma fenceCount_app (l1 l2 : list jsstring) :
  fenceCount (l1 ++ l2) = (fenceCount l1 + fenceCount l2)%nat.
Proof.
  unfold fenceCount. rewrite filter_app, length_app. reflexivity.
Qed.

(** The call for a fence delimiter line, in terms of the fence delimiters
    before it. *)
Lemma classify_fence_line (codeLines : list Z) (ls : list jsstring) (k : nat)
  (line : jsstring) :
  nth_error ls k = Some line ->
  test re_fence line = true ->
  nth_error (classify codeLines ls 0 false) k
  = Some (mkCtx line (Z.of_nat k)
            (Nat.even (fenceCount (firstn k ls))
             || inCodeLines codeLines (Z.of_nat k))
            true).
Proof.
  intros Hk Hf. rewrite (classify_nth _ _ _ _ _ _ Hk), Hf.
  rewrite (firstn_S_nth _ _ _ Hk), fenceCount_app, fenceCount_cons, Hf.
  simpl xorb. unfold fenceCount at 2. simpl List.length.
  rewrite Z.add_0_l.
  rewrite Nat.add_1_r, Nat.odd_succ. reflexivity.
Qed.

(** C3: the classification applies a line's own fence toggle before it
    classifies the line.  A delimiter that opens a fence is reported to the
    callback as inside code; a delimiter that closes a fence is reported as
    inside code only when a code-block token covers its index. *)
Theorem C3_fence_toggle_before_classification
  (params : Params.t) (calls : list LineCtx) :
  classification params = Ok calls ->
  (forall k, opensFence (Params.lines params) k ->
             exists c, nth_error calls k = Some c
                       /\ lc_index c = Z.of_nat k /\ lc_onFence c = true
                       /\ lc_inCode c = true)
  /\ (forall k, closesFence (Params.lines params) k ->
                exists c, nth_error calls k = Some c
                          /\ lc_index c = Z.of_nat k /\ lc_onFence c = true
                          /\ (lc_inCode c = true
                              <-> coveredByCodeBlock (Params.tokens params)
                                    (Z.of_nat k))).
Proof.
  rewrite classification_classify.
  destruct (codeLinesOf (Params.tokens params)) as [codeLines|] eqn:Ecl;
    simpl; [|discriminate].
  intros H. injection H as <-. split.
  - intros k (line & Hk & Hf & Heven).
    eexists. split; [apply classify_fence_line; eauto|].
    simpl. rewrite Heven. auto.
  - intros k (line & Hk & Hf & Hodd).
    eexists. split; [apply classify_fence_line; eauto|].
    simpl. rewrite <- Nat.negb_odd, Hodd. simpl.
    split; [reflexivity|]. split; [reflexivity|].
    apply codeLinesOf_spec. exact Ecl.
Qed.

(** In [fencedBlockTight] the line of index 1 opens the fence and the line of
    index 3 closes it. *)
Lemma C3_fence_toggle_witness :
  (exists c, nth_error
               [mkCtx (lit "text") 0 false false; mkCtx (lit "```") 1 true true;
                mkCtx (lit "code") 2 true false; mkCtx (lit "```") 3 false true;
                mkCtx (lit "more") 4 false false] 1 = Some c
             /\ lc_index c = 1 /\ lc_onFence c = true /\ lc_inCode c = true)
  /\ (exists c, nth_error
               [mkCtx (lit "text") 0 false false; mkCtx (lit "```") 1 true true;
                mkCtx (lit "code") 2 true false; mkCtx (lit "```") 3 false true;
                mkCtx (lit "more") 4 false false] 3 = Some c
             /\ lc_index c = 3 /\ lc_onFence c = true
             /\ (lc_inCode c = true
                 <-> coveredByCodeBlock (Params.tokens fencedBlockTight) 3)).
Proof.
  pose proof (C3_fence_toggle_before_classification fencedBlockTight _ eq_refl)
    as [Hopen Hclose].
  split.
  - apply (Hopen 1%nat). exists (lit "```"). repeat split; reflexivity.
  - apply (Hclose 3%nat). exists (lit "```"). repeat split; reflexivity.
Defined.

(** ** Rules whose callback only tests its arguments *)

Lemma fold_pushIf_flagged (cond : jsstring -> Z -> bool -> bool -> bool)
  (calls : list LineCtx) :
  forall errors,
    fold_left
      (callWith (fun errors line lineIndex inCode onFence =>
                   pushIf (cond line lineIndex inCode onFence) errors
                     (lineIndex + 1)))
      calls errors
    = errors ++ flagged cond calls.
Proof.
  induction calls as [|c calls IH]; intros errors; simpl.
  - unfold flagged. simpl. rewrite app_nil_r. reflexivity.
  - rewrite IH. unfold callWith, flagged, pushIf, push. simpl.
    destruct (cond (lc_line c) (lc_index c) (lc_inCode c) (lc_onFence c)); simpl.
    + rewrite <- app_assoc. reflexivity.
    + reflexivity.
Qed.

Lemma forEachLine_pushIf (cond : jsstring -> Z -> bool -> bool -> bool)
  (params : Params.t) :
  forEachLine params
    (fun errors line lineIndex inCode onFence =>
       pushIf (cond line lineIndex inCode onFence) errors (lineIndex + 1))
    []
  = (codeLines <- codeLinesOf (Params.tokens params) ;;
     Ok (flagged cond (classify codeLines (Params.lines params) 0 false))).
Proof.
  unfold forEachLine.
  destruct (codeLinesOf (Params.tokens params)) as [codeLines|]; simpl; auto.
  rewrite forLines_classify, fold_pushIf_flagged. reflexivity.
Qed.

Lemma In_nth_error_iff {A : Type} (l : list A) (x : A) :
  In x l <-> exists k, nth_error l k = Some x.
Proof.
  split; [apply In_nth_error | intros [k H]; eapply nth_error_In; eauto].
Qed.

Lemma classify_nth0 (codeLines : list Z) (ls : list jsstring) (k : nat)
  (line : jsstring) :
  nth_error ls k = Some line ->
  nth_error (classify codeLines ls 0 false) k
  = Some (mkCtx line (Z.of_nat k)
            (Nat.odd (fenceCount (firstn (S k) ls))
             || inCodeLines codeLines (Z.of_nat k))
            (test re_fence line)).
Proof.
  intros Hk. rewrite (classify_nth _ _ _ _ _ _ Hk), Z.add_0_l. reflexivity.
Qed.

(** Line number [n] is pushed exactly when the condition holds for the line
    of index [n - 1], with the classification that line receives. *)
Lemma flagged_classify_In (cond : jsstring -> Z -> bool -> bool -> bool)
  (codeLines : list Z) (ls : list jsstring) (n : Z) :
  In n (flagged cond (classify codeLines ls 0 false))
  <-> exists (k : nat) line,
        nth_error ls k = Some line /\ n = Z.of_nat k + 1
        /\ cond line (Z.of_nat k)
             (Nat.odd (fenceCount (firstn (S k) ls))
              || inCodeLines codeLines (Z.of_nat k))
             (test re_fence line) = true.
Proof.
  unfold flagged. rewrite in_map_iff. split.
  - intros (c & <- & Hc). apply filter_In in Hc as [Hin Hcond].
    apply In_nth_error_iff in Hin as [k Hk].
    destruct (classify_nth_inv _ _ _ _ _ _ Hk) as [line Hline].
    rewrite (classify_nth0 _ _ _ _ Hline) in Hk. injection Hk as <-.
    cbn [lc_line lc_index lc_inCode lc_onFence] in *.
    exists k, line. auto.
  - intros (k & line & Hline & -> & Hcond).
    eexists. split; [|apply filter_In; split].
    2:{ eapply nth_error_In. apply (classify_nth0 _ _ _ _ Hline). }
    + reflexivity.
    + cbn [lc_line lc_index lc_inCode lc_onFence]. exact Hcond.
Qed.

Lemma fenceCount_firstn_S (ls : list jsstring) (k : nat) (line : jsstring) :
  nth_error ls k = Some line ->
  Nat.odd (fenceCount (firstn (S k) ls))
  = xorb (test re_fence line) (Nat.odd (fenceCount (firstn k ls))).
Proof.
  intros Hk. rewrite (firstn_S_nth _ _ _ Hk), fenceCount_app, fenceCount_cons.
  unfold fenceCount at 2. simpl List.length.
  destruct (test re_fence line).
  - rewrite Nat.add_1_r, Nat.odd_succ, <- Nat.negb_odd. simpl.
    destruct (Nat.odd (fenceCount (firstn k ls))); reflexivity.
  - rewrite Nat.add_0_r. reflexivity.
Qed.

Lemma lineNonEmptyAt_prev (ls : list jsstring) (k : nat) :
  (Z.of_nat k - 1 >=? 0) && lineNonEmptyAt ls (Z.of_nat k - 1) = true
  <-> prevLineNonEmpty ls k.
Proof.
  unfold lineNonEmptyAt, prevLineNonEmpty. split.
  - intros H. apply andb_prop in H as [Hge Hne].
    destruct k as [|p]; [discriminate|].
    replace (Z.to_nat (Z.of_nat (S p) - 1)) with p in Hne by lia.
    destruct (nth_error ls p) as [line|] eqn:E; [|discriminate].
    exists p, line. repeat split; auto. intros ->. discriminate.
  - intros (p & line & -> & Hp & Hne).
    replace (Z.to_nat (Z.of_nat (S p) - 1)) with p by lia. rewrite Hp.
    apply andb_true_intro. split; [rewrite Z.geb_leb; apply Z.leb_le; lia|].
    destruct line; [contradiction | reflexivity].
Qed.

Lemma lineNonEmptyAt_next (ls : list jsstring) (k : nat) :
  (Z.of_nat k + 1 <? Z.of_nat (List.length ls))
  && lineNonEmptyAt ls (Z.of_nat k + 1) = true
  <-> nextLineNonEmpty ls k.
Proof.
  unfold lineNonEmptyAt, nextLineNonEmpty.
  replace (Z.to_nat (Z.of_nat k + 1)) with (S k) by lia. split.
  - intros H. apply andb_prop in H as [_ Hne].
    destruct (nth_error ls (S k)) as [line|] eqn:E; [|discriminate].
    exists line. split; auto. intros ->. discriminate.
  - intros (line & Hn & Hne). rewrite Hn.
    apply andb_true_intro. split.
    + assert (S k < List.length ls)%nat by (apply nth_error_Some; congruence).
      apply Z.ltb_lt. lia.
    + destruct line; [contradiction | reflexivity].
Qed.

Lemma opensFence_iff (ls : list jsstring) (k : nat) (line : jsstring) :
  nth_error ls k = Some line ->
  (opensFence ls k
   <-> test re_fence line = true
       /\ Nat.even (fenceCount (firstn k ls)) = true).
Proof.
  intros Hk. unfold opensFence. split.
  - intros (line' & Hk' & Hf & He). rewrite Hk in Hk'. injection Hk' as <-. auto.
  - intros [Hf He]. exists line. auto.
Qed.

Lemma closesFence_iff (ls : list jsstring) (k : nat) (line : jsstring) :
  nth_error ls k = Some line ->
  (closesFence ls k
   <-> test re_fence line = true
       /\ Nat.even (fenceCount (firstn k ls)) = false).
Proof.
  intros Hk. unfold closesFence. rewrite <- Nat.negb_even. split.
  - intros (line' & Hk' & Hf & He). rewrite Hk in Hk'. injection Hk' as <-.
    apply negb_true_iff in He. auto.
  - intros [Hf He]. exists line. rewrite He. auto.
Qed.

(** ** MD031 *)

(** C2 (amended): MD031 flags a fence delimiter exactly when the adjacent
    line it examines exists and is not empty.  The line examined is the
    previous one for a delimiter classified inside code (it opens a fence, or
    a code-block token covers it) and the next one for a delimiter classified
    outside code (it closes a fence and no code-block token covers it). *)
Theorem C2_MD031_adjacent_line (params : Params.t) (errors : list Z) :
  MD031 params = Ok errors ->
  forall k : nat,
    In (Z.of_nat k + 1) errors
    <-> ((opensFence (Params.lines params) k
          \/ (closesFence (Params.lines params) k
              /\ coveredByCodeBlock (Params.tokens params) (Z.of_nat k)))
         /\ prevLineNonEmpty (Params.lines params) k)
        \/ ((closesFence (Params.lines params) k
             /\ ~ coveredByCodeBlock (Params.tokens params) (Z.of_nat k))
            /\ nextLineNonEmpty (Params.lines params) k).
Proof.
  unfold MD031. rewrite forEachLine_pushIf.
  destruct (codeLinesOf (Params.tokens params)) as [codeLines|] eqn:Ecl;
    simpl; [|discriminate].
  intros H k. injection H as <-.
  rewrite flagged_classify_In.
  rewrite <- (codeLinesOf_spec _ _ (Z.of_nat k) Ecl).
  rewrite <- lineNonEmptyAt_prev, <- lineNonEmptyAt_next.
  destruct (nth_error (Params.lines params) k) as [line|] eqn:Hk.
  - rewrite (opensFence_iff _ _ _ Hk), (closesFence_iff _ _ _ Hk).
    split.
    + intros (k' & line' & Hk' & Heq & Hcond).
      assert (k' = k) by lia. subst k'.
      rewrite Hk in Hk'. injection Hk' as <-.
      rewrite (fenceCount_firstn_S _ _ _ Hk), <- Nat.negb_even in Hcond.
      rewrite <- !andb_assoc in Hcond.
      destruct (test re_fence line),
        (Nat.even (fenceCount (firstn k (Params.lines params)))),
        (inCodeLines codeLines (Z.of_nat k)),
        ((Z.of_nat k - 1 >=? 0)
         && lineNonEmptyAt (Params.lines params) (Z.of_nat k - 1)),
        ((Z.of_nat k + 1 <? Z.of_nat (List.length (Params.lines params)))
         && lineNonEmptyAt (Params.lines params) (Z.of_nat k + 1));
        simpl in Hcond; try discriminate; intuition congruence.
    + intros Hspec. exists k, line. split; [exact Hk|]. split; [reflexivity|].
      rewrite (fenceCount_firstn_S _ _ _ Hk), <- Nat.negb_even.
      rewrite <- !andb_assoc.
      destruct (test re_fence line),
        (Nat.even (fenceCount (firstn k (Params.lines params)))),
        (inCodeLines codeLines (Z.of_nat k)),
        ((Z.of_nat k - 1 >=? 0)
         && lineNonEmptyAt (Params.lines params) (Z.of_nat k - 1)),
        ((Z.of_nat k + 1 <? Z.of_nat (List.length (Params.lines params)))
         && lineNonEmptyAt (Params.lines params) (Z.of_nat k + 1));
        simpl; try reflexivity; exfalso; intuition congruence.
  - split.
    + intros (k' & line' & Hk' & Heq & _).
      assert (k' = k) by lia. subst k'. congruence.
    + unfold opensFence, closesFence.
      intros [[[(l & Hl & _) | [(l & Hl & _) _]] _] | [[(l & Hl & _) _] _]];
        congruence.
Qed.

(** A fenced block without blank lines around it: both delimiters flag. *)
Lemma C2_MD031_adjacent_line_witness :
  MD031 fencedBlockTight = Ok [2; 4]
  /\ (In (Z.of_nat 1 + 1) [2; 4]
      <-> ((opensFence (Params.lines fencedBlockTight) 1
            \/ (closesFence (Params.lines fencedBlockTight) 1
                /\ coveredByCodeBlock (Params.tokens fencedBlockTight)
                     (Z.of_nat 1)))
           /\ prevLineNonEmpty (Params.lines fencedBlockTight) 1)
          \/ ((closesFence (Params.lines fencedBlockTight) 1
               /\ ~ coveredByCodeBlock (Params.tokens fencedBlockTight)
                      (Z.of_nat 1))
              /\ nextLineNonEmpty (Params.lines fencedBlockTight) 1)).
Proof.
  split; [reflexivity|].
  apply (C2_MD031_adjacent_line fencedBlockTight [2; 4]). reflexivity.
Defined.

(** C2 as stated (previous line for a closing delimiter, next line for an
    opening one) fails: in a fenced block with blank lines around it, the
    opening delimiter is followed by a line of code and is not flagged. *)
Lemma C2_MD031_as_stated_counterexample :
  ~ (forall (params : Params.t) (errors : list Z),
        MD031 params = Ok errors ->
        forall k : nat,
          In (Z.of_nat k + 1) errors
          <-> (closesFence (Params.lines params) k
               /\ prevLineNonEmpty (Params.lines params) k)
              \/ (opensFence (Params.lines params) k
                  /\ nextLineNonEmpty (Params.lines params) k)).
Proof.
  intros Hclaim.
  assert (Hrun : MD031 fencedBlockSpaced = Ok []) by reflexivity.
  destruct (Hclaim fencedBlockSpaced [] Hrun 1%nat) as [_ Hflag].
  apply Hflag. right. split.
  - exists (lit "```"). repeat split; reflexivity.
  - exists (lit "code"). split; [reflexivity | discriminate].
Qed.

(** ** MD018 and MD020 *)

Lemma forallb_isChar (a : ascii) (s : jsstring) :
  forallb (isChar a) s = true <-> Forall (fun h => h = code a) s.
Proof.
  rewrite forallb_forall, Forall_forall. unfold isChar.
  split; intros H x Hx; [apply N.eqb_eq | apply N.eqb_eq]; auto.
Qed.

Lemma notHashNorSpace_spec (c : char) :
  notHashNorSpace c = true <-> c <> code "#" /\ isSpace c = false.
Proof.
  unfold notHashNorSpace, isChar. rewrite negb_true_iff, orb_false_iff.
  rewrite N.eqb_neq. tauto.
Qed.

Lemma test_hashNoSpace (line : jsstring) :
  test re_hashNoSpace line = true <-> hashesThenText line.
Proof.
  rewrite test_spec. unfold hashesThenText, re_hashNoSpace.
  cbn [p_bol p_body p_eol]. split.
  - intros (pre & mid & post & -> & Hmid & Hpre & _).
    rewrite Hpre by reflexivity.
    apply Lang_Cat_inv in Hmid as (s1 & s2 & -> & H1 & H2).
    apply Lang_Plus_Chr in H1 as (h & hs & -> & Hh).
    apply Lang_Chr_inv in H2 as (c & -> & Hc).
    apply notHashNorSpace_spec in Hc as [Hc1 Hc2].
    exists (h :: hs), c, post. cbn [app]. rewrite <- app_assoc. cbn [app].
    repeat split; auto; [discriminate | apply forallb_isChar; exact Hh].
  - intros (hashes & c & rest & -> & Hne & Hh & Hc1 & Hc2).
    exists [], (hashes ++ [c]), rest. cbn [app]. rewrite <- app_assoc.
    cbn [app].
    split; [reflexivity|]. split; [|split; [auto | discriminate]].
    apply Lang_Cat_inv. exists hashes, [c].
    split; [reflexivity|]. split.
    + destruct hashes as [|h hs]; [contradiction|].
      apply Lang_Plus_Chr. exists h, hs. split; [reflexivity|].
      apply forallb_isChar. exact Hh.
    + apply Lang_Chr_inv. exists c. split; [reflexivity|].
      apply notHashNorSpace_spec. auto.
Qed.

Lemma test_endHash (line : jsstring) :
  test re_endHash line = true <-> endsInHash line.
Proof.
  rewrite test_spec. unfold endsInHash, re_endHash.
  cbn [p_bol p_body p_eol]. split.
  - intros (pre & mid & post & -> & Hmid & _ & Hpost).
    rewrite Hpost by reflexivity.
    apply Lang_Chr_inv in Hmid as (c & -> & Hc).
    apply N.eqb_eq in Hc. subst c. exists pre. rewrite app_nil_r. reflexivity.
  - intros (front & ->). exists front, [code "#"], [].
    split; [reflexivity|]. split; [|split; [discriminate | auto]].
    constructor. apply N.eqb_refl.
Qed.

Lemma insideCode_spec (params : Params.t) (codeLines : list Z) (k : nat) :
  codeLinesOf (Params.tokens params) = Ok codeLines ->
  (Nat.odd (fenceCount (firstn (S k) (Params.lines params)))
   || inCodeLines codeLines (Z.of_nat k) = true
   <-> insideCode params k).
Proof.
  intros Ecl. unfold insideCode.
  rewrite orb_true_iff, (codeLinesOf_spec _ _ _ Ecl). tauto.
Qed.

(** A rule that goes through [forEachLine] reads the tokens only for their
    code blocks. *)
Lemma forEachLine_tokens {St : Type}
  (callback : St -> jsstring -> Z -> bool -> bool -> St) (s : St)
  (tokens tokens' : list Token.t) (ls : list jsstring)
  (options options' : Options.t) :
  filterTokens tokens "code_block" None = filterTokens tokens' "code_block" None ->
  forEachLine (Params.mk tokens ls options) callback s
  = forEachLine (Params.mk tokens' ls options') callback s.
Proof.
  intros H. unfold forEachLine, codeLinesOf. simpl. rewrite H. reflexivity.
Qed.

(** [forEachLine] returns when the code blocks carry their line ranges. *)
Lemma codeLinesOf_total (tokens : list Token.t) :
  codeBlocksHaveLines tokens -> exists codeLines, codeLinesOf tokens = Ok codeLines.
Proof.
  intros Hall. unfold codeLinesOf.
  assert (Hf : forall t, In t (filterTokens tokens "code_block" None) ->
                         Token.lines t <> None).
  { intros t Hin. apply filterTokens_In in Hin as [Hin Hty]. auto. }
  clear Hall. generalize (@nil Z).
  induction (filterTokens tokens "code_block" None) as [|t ts IH]; intros acc.
  - simpl. eauto.
  - simpl. destruct (Token.lines t) as [[a b]|] eqn:El.
    + simpl. apply IH. intros t' Hin. apply Hf. right. exact Hin.
    + exfalso. apply (Hf t (or_introl eq_refl)). exact El.
Qed.

Lemma forEachLine_total {St : Type} (params : Params.t)
  (callback : St -> jsstring -> Z -> bool -> bool -> St) (s : St) :
  codeBlocksHaveLines (Params.tokens params) ->
  exists s', forEachLine params callback s = Ok s'.
Proof.
  intros Hall. unfold forEachLine.
  destruct (codeLinesOf_total _ Hall) as [codeLines E]. rewrite E.
  simpl. eauto.
Qed.

(** C10: MD018 and MD020 return whenever the code blocks carry their line
    ranges, and depend on the lines and on the code-block tokens only, so
    heading tokens play no part; and MD018 flags every line outside a code
    region that starts with hashes immediately followed by text and does not
    end in a hash, whatever the tokens say about that line. *)
Theorem C10_MD018_MD020_from_line_text :
  (forall params,
      codeBlocksHaveLines (Params.tokens params) ->
      exists errors18 errors20,
        MD018 params = Ok errors18 /\ MD020 params = Ok errors20)
  /\ (forall tokens tokens' ls options options',
         filterTokens tokens "code_block" None
         = filterTokens tokens' "code_block" None ->
         MD018 (Params.mk tokens ls options)
         = MD018 (Params.mk tokens' ls options')
         /\ MD020 (Params.mk tokens ls options)
            = MD020 (Params.mk tokens' ls options'))
  /\ (forall params errors (k : nat) line,
         MD018 params = Ok errors ->
         nth_error (Params.lines params) k = Some line ->
         ~ insideCode params k ->
         hashesThenText line ->
         ~ endsInHash line ->
         In (Z.of_nat k + 1) errors).
Proof.
  split; [|split].
  - intros params Hall. unfold MD018, MD020.
    destruct (forEachLine_total params
                (fun errors line lineIndex inCode (_ : bool) =>
                   pushIf (negb inCode && test re_hashNoSpace line
                           && negb (test re_endHash line))%bool
                     errors (lineIndex + 1)) [] Hall) as [e18 E18].
    destruct (forEachLine_total params
                (fun errors line lineIndex inCode (_ : bool) =>
                   pushIf (negb inCode && test re_closedAtx line
                           && (test re_hashNoSpace line
                               || test re_noSpaceHashEnd line))%bool
                     errors (lineIndex + 1)) [] Hall) as [e20 E20].
    exists e18, e20. split; assumption.
  - intros tokens tokens' ls options options' H. unfold MD018, MD020.
    split; apply forEachLine_tokens; exact H.
  - intros params errors k line Hrun Hk Hout Hstart Hend.
    unfold MD018 in Hrun. rewrite forEachLine_pushIf in Hrun.
    destruct (codeLinesOf (Params.tokens params)) as [codeLines|] eqn:Ecl;
      simpl in Hrun; [|discriminate].
    injection Hrun as <-. apply flagged_classify_In.
    exists k, line. split; [exact Hk|]. split; [reflexivity|].
    rewrite <- (insideCode_spec _ _ _ Ecl) in Hout.
    apply not_true_is_false in Hout. rewrite Hout.
    apply test_hashNoSpace in Hstart. rewrite Hstart.
    rewrite <- test_endHash in Hend. apply not_true_is_false in Hend.
    rewrite Hend. reflexivity.
Qed.

(** A [#hashtag] line inside a paragraph: no heading token, and MD018 flags
    it. *)
Lemma C10_MD018_MD020_witness :
  let tokens :=
    [blockToken "paragraph_open" 0 2 (lit "text");
     inlineToken 0 2 (lit "text") [116; 101; 120; 116; 10; 35; 116; 97; 103]%N;
     closeToken "paragraph_close"] in
  let params := Params.mk tokens [lit "text"; lit "#tag"] Options.none in
  (MD018 params = MD018 (Params.mk [] [lit "text"; lit "#tag"] Options.none)
   /\ MD020 params = MD020 (Params.mk [] [lit "text"; lit "#tag"] Options.none))
  /\ In (Z.of_nat 1 + 1) [2].
Proof.
  intros tokens params.
  destruct C10_MD018_MD020_from_line_text as (_ & Htokens & Hflag).
  split.
  - apply Htokens. reflexivity.
  - apply (Hflag params [2] 1%nat (lit "#tag")).
    + reflexivity.
    + reflexivity.
    + intros [Hfence | (t & a & b & Hin & Hty & _)].
      * discriminate.
      * simpl in Hin. destruct Hin as [<- | [<- | [<- | []]]]; discriminate.
    + exists [code "#"], (code "t"), (lit "ag").
      repeat split; auto; try discriminate.
    + intros (front & Hfront).
      apply (f_equal (@rev char)) in Hfront. rewrite rev_app_distr in Hfront.
      discriminate.
Defined.

(** ** Rules that test each line against one pattern *)

Lemma foldi_pushIf_In (re : pattern) (ls : list jsstring) :
  forall (i : Z) (acc : list Z) (n : Z),
    In n (foldi (fun errors line lineIndex =>
                   pushIf (test re line) errors (lineIndex + 1)) ls i acc)
    <-> In n acc
        \/ exists (k : nat) line,
             nth_error ls k = Some line /\ n = i + Z.of_nat k + 1
             /\ test re line = true.
Proof.
  induction ls as [|l0 ls IH]; intros i acc n; simpl.
  - split; [auto|]. intros [H | (k & line & Hk & _)]; [exact H|].
    destruct k; discriminate.
  - rewrite IH. unfold pushIf, push. split.
    + intros [Hacc | (k & line & Hk & -> & Ht)].
      * destruct (test re l0) eqn:E0; [|auto].
        apply in_app_iff in Hacc as [Hacc | [<- | []]]; [auto|].
        right. exists 0%nat, l0. simpl. repeat split; auto; lia.
      * right. exists (S k), line. simpl. repeat split; auto; lia.
    + intros [Hacc | (k & line & Hk & -> & Ht)].
      * left. destruct (test re l0); [apply in_app_iff|]; auto.
      * destruct k as [|k]; simpl in Hk.
        -- injection Hk as ->. left. rewrite Ht. apply in_app_iff. right.
           simpl. left. lia.
        -- right. exists k, line. repeat split; auto; lia.
Qed.

Lemma eachLineMatching_In (re : pattern) (params : Params.t) :
  exists errors,
    eachLineMatching re params = Ok errors
    /\ forall k : nat,
         In (Z.of_nat k + 1) errors
         <-> exists line,
               nth_error (Params.lines params) k = Some line
               /\ test re line = true.
Proof.
  unfold eachLineMatching. eexists. split; [reflexivity|].
  intros k. rewrite foldi_pushIf_In. split.
  - intros [[] | (k' & line & Hk & Heq & Ht)].
    assert (k' = k) by lia. subst k'. eauto.
  - intros (line & Hk & Ht). right. exists k, line. auto.
Qed.

Lemma dot_Forall (s : jsstring) :
  forallb dot s = true <-> Forall (fun d => isLineTerminator d = false) s.
Proof.
  rewrite forallb_forall, Forall_forall. unfold dot.
  split; intros H x Hx; [apply negb_true_iff | apply negb_true_iff]; auto.
Qed.

(** What the pattern of MD013 tests. *)
Lemma test_lineLength (n : N) (line : jsstring) :
  test (re_lineLength n) line = true <-> spaceAtOrBeyond n line.
Proof.
  rewrite test_spec. unfold spaceAtOrBeyond, re_lineLength.
  cbn [p_bol p_body p_eol]. split.
  - intros (pre & mid & post & -> & Hmid & Hpre & _).
    rewrite Hpre by reflexivity.
    apply Lang_Cat_inv in Hmid as (s1 & s23 & -> & H1 & H23).
    apply Lang_Cat_inv in H23 as (s2 & s3 & -> & H2 & H3).
    apply Lang_Repeat_Chr in H1 as [Hlen H1].
    apply Lang_Star_Chr in H2.
    apply Lang_Chr_inv in H3 as (c & -> & Hc).
    exists (s1 ++ s2), c, post. cbn [app]. rewrite <- !app_assoc. cbn [app].
    split; [reflexivity|]. split; [rewrite length_app; lia|].
    split; [exact Hc|].
    apply dot_Forall. rewrite forallb_app, H1, H2. reflexivity.
  - intros (front & c & rest & -> & Hlen & Hc & Hfront).
    apply dot_Forall in Hfront.
    rewrite <- (firstn_skipn (N.to_nat n) front) in Hfront.
    rewrite forallb_app in Hfront. apply andb_prop in Hfront as [Hf1 Hf2].
    exists [],
      (firstn (N.to_nat n) front ++ skipn (N.to_nat n) front ++ [c]), rest.
    split.
    + cbn [app]. rewrite <- !app_assoc. cbn [app]. rewrite app_assoc.
      rewrite firstn_skipn. reflexivity.
    + split; [|split; [auto | discriminate]].
      apply Lang_Cat_inv. do 2 eexists. split; [reflexivity|]. split.
      * apply Lang_Repeat_Chr. split; [|exact Hf1].
        apply firstn_length_le. exact Hlen.
      * apply Lang_Cat_inv. do 2 eexists. split; [reflexivity|]. split.
        -- apply Lang_Star_Chr. exact Hf2.
        -- constructor. exact Hc.
Qed.

(** C6 (amended): MD013 flags exactly the lines that have a whitespace
    character at or beyond the column of the threshold ([line_length], 80 when
    absent or zero); a longer line with no whitespace from that column on is
    not flagged. *)
Theorem C6_MD013_space_beyond_threshold (params : Params.t) :
  exists errors,
    MD013 params = Ok errors
    /\ forall k : nat,
         In (Z.of_nat k + 1) errors
         <-> exists line,
               nth_error (Params.lines params) k = Some line
               /\ spaceAtOrBeyond
                    (orNum (Options.line_length (Params.options params)) 80)
                    line.
Proof.
  unfold MD013.
  destruct (eachLineMatching_In
              (re_lineLength
                 (orNum (Options.line_length (Params.options params)) 80))
              params) as (errors & Hrun & Hin).
  exists errors. split; [exact Hrun|].
  intros k. rewrite Hin. split.
  - intros (line & Hk & Ht). exists line. split; [exact Hk|].
    apply test_lineLength. exact Ht.
  - intros (line & Hk & Ht). exists line. split; [exact Hk|].
    apply test_lineLength. exact Ht.
Qed.

(** C6 as stated fails: a line of 100 letters is longer than the default
    threshold of 80 and is not flagged, since it holds no whitespace. *)
Lemma C6_MD013_as_stated_counterexample :
  ~ (forall (params : Params.t) (errors : list Z) (k : nat) (line : jsstring),
        MD013 params = Ok errors ->
        nth_error (Params.lines params) k = Some line ->
        (N.to_nat (orNum (Options.line_length (Params.options params)) 80)
         < List.length line)%nat ->
        In (Z.of_nat k + 1) errors).
Proof.
  intros Hclaim.
  pose (params := Params.mk [] [repeat (code "a") 100] Options.none).
  assert (Hrun : MD013 params = Ok []) by (vm_compute; reflexivity).
  apply (Hclaim params [] 0%nat (repeat (code "a") 100) Hrun eq_refl).
  vm_compute. lia.
Qed.

(** ** Numeric options *)

Lemma orNum_zeroAsAbsent (x : option N) (d : N) :
  orNum (zeroAsAbsent x) d = orNum x d.
Proof.
  destruct x as [n|]; simpl; [|reflexivity].
  destruct (N.eqb n 0) eqn:E; simpl; [reflexivity | rewrite E; reflexivity].
Qed.

(** C9: a numeric option set to [0] is treated as an absent option, so the
    default applies.  No rule of the catalog tells the two apart; for MD013
    the value [0] acts as 80, for MD007 as 2, and for each spacing option of
    MD030 as 1. *)
Theorem C9_zero_option_is_default :
  (forall splitNewLine name (r : rule) tokens ls o,
      In (name, r) (rules splitNewLine) ->
      r (Params.mk tokens ls o) = r (Params.mk tokens ls (withoutZeros o)))
  /\ (forall tokens ls o,
         MD013 (Params.mk tokens ls (withLineLength o (Some 0%N)))
         = MD013 (Params.mk tokens ls (withLineLength o None))
         /\ MD013 (Params.mk tokens ls (withLineLength o (Some 0%N)))
            = MD013 (Params.mk tokens ls (withLineLength o (Some 80%N))))
  /\ (forall tokens ls o,
         MD007 (Params.mk tokens ls (withIndent o (Some 0%N)))
         = MD007 (Params.mk tokens ls (withIndent o None))
         /\ MD007 (Params.mk tokens ls (withIndent o (Some 0%N)))
            = MD007 (Params.mk tokens ls (withIndent o (Some 2%N))))
  /\ (forall tokens ls o,
         (MD030 (Params.mk tokens ls (withUlSingle o (Some 0%N)))
          = MD030 (Params.mk tokens ls (withUlSingle o None))
          /\ MD030 (Params.mk tokens ls (withUlSingle o (Some 0%N)))
             = MD030 (Params.mk tokens ls (withUlSingle o (Some 1%N))))
         /\ (MD030 (Params.mk tokens ls (withOlSingle o (Some 0%N)))
             = MD030 (Params.mk tokens ls (withOlSingle o None))
             /\ MD030 (Params.mk tokens ls (withOlSingle o (Some 0%N)))
                = MD030 (Params.mk tokens ls (withOlSingle o (Some 1%N))))
         /\ (MD030 (Params.mk tokens ls (withUlMulti o (Some 0%N)))
             = MD030 (Params.mk tokens ls (withUlMulti o None))
             /\ MD030 (Params.mk tokens ls (withUlMulti o (Some 0%N)))
                = MD030 (Params.mk tokens ls (withUlMulti o (Some 1%N))))
         /\ (MD030 (Params.mk tokens ls (withOlMulti o (Some 0%N)))
             = MD030 (Params.mk tokens ls (withOlMulti o None))
             /\ MD030 (Params.mk tokens ls (withOlMulti o (Some 0%N)))
                = MD030 (Params.mk tokens ls (withOlMulti o (Some 1%N))))).
Proof.
  split; [|repeat split; reflexivity].
  intros splitNewLine name r tokens ls o Hin.
  unfold rules in Hin. cbn [In] in Hin.
  repeat (destruct Hin as [Hin | Hin];
          [injection Hin as _ <-; try reflexivity|]).
  - unfold MD007. cbn [Params.options Params.tokens withoutZeros Options.indent].
    rewrite orNum_zeroAsAbsent. reflexivity.
  - unfold MD013.
    cbn [Params.options Params.tokens withoutZeros Options.line_length].
    rewrite orNum_zeroAsAbsent. reflexivity.
  - unfold MD030.
    cbn [Params.options Params.tokens withoutZeros Options.ul_single
           Options.ol_single Options.ul_multi Options.ol_multi].
    rewrite !orNum_zeroAsAbsent. reflexivity.
  - contradiction.
Qed.

(** MD013 with [line_length] set to 0, on a short line. *)
Lemma C9_zero_option_witness :
  let o := Options.mk None None (Some 0%N) None None None None None in
  MD013 (Params.mk [] [lit "a b c"] o)
  = MD013 (Params.mk [] [lit "a b c"] (withoutZeros o)).
Proof.
  intros o.
  apply (proj1 C9_zero_option_is_default splitLineBreaks "MD013"%string).
  unfold rules. cbn [In]. do 11 right. left. reflexivity.
Defined.

(** ** MD025 *)

Lemma MD025_unfold (params : Params.t) :
  MD025 params
  = Ok (snd (fold_left MD025_step
               (filterTokens (Params.tokens params) "heading_open" None)
               (false, []))).
Proof. reflexivity. Qed.

Lemma MD025_unarmed (hs : list Token.t) (errors : list Z) :
  (forall h, In h hs -> ~ topLevelOnLine1 h) ->
  fold_left MD025_step hs (false, errors) = (false, errors).
Proof.
  induction hs as [|h hs IH]; intros Hno; cbn [fold_left]; [reflexivity|].
  assert (Hh : MD025_step (false, errors) h = (false, errors)).
  { unfold MD025_step.
    destruct (Z.eqb (Token.hLevel h) 1) eqn:E1; [|reflexivity].
    destruct (Z.eqb (Token.lineNumber h) 1) eqn:E2; [|reflexivity].
    exfalso. apply (Hno h (or_introl eq_refl)).
    split; apply Z.eqb_eq; assumption. }
  rewrite Hh. apply IH. intros h' Hin. apply Hno. right. exact Hin.
Qed.

Lemma MD025_armed (hs : list Token.t) :
  forall errors,
    fold_left MD025_step hs (true, errors)
    = (true,
       errors
       ++ map Token.lineNumber
            (filter (fun t => Z.eqb (Token.hLevel t) 1) hs)).
Proof.
  induction hs as [|h hs IH]; intros errors; simpl.
  - rewrite app_nil_r. reflexivity.
  - destruct (Z.eqb (Token.hLevel h) 1) eqn:E1.
    + rewrite IH. unfold push. rewrite <- app_assoc. reflexivity.
    + apply IH.
Qed.

(** C7 (amended): MD025 flags nothing until it has met a level-1 heading
    located on line 1; from then on it flags every later level-1 heading.  A
    document whose level-1 headings all start below line 1 gets no flag. *)
Theorem C7_MD025_after_h1_on_line_1 (params : Params.t) :
  exists errors,
    MD025 params = Ok errors
    /\ ((forall h, In h (filterTokens (Params.tokens params) "heading_open" None)
                   -> ~ topLevelOnLine1 h)
        -> errors = [])
    /\ (forall before h after,
           filterTokens (Params.tokens params) "heading_open" None
           = before ++ h :: after ->
           (forall b, In b before -> ~ topLevelOnLine1 b) ->
           topLevelOnLine1 h ->
           errors
           = map Token.lineNumber
               (filter (fun t => Z.eqb (Token.hLevel t) 1) after)).
Proof.
  rewrite MD025_unfold. eexists. split; [reflexivity|]. split.
  - intros Hno. rewrite (MD025_unarmed _ _ Hno). reflexivity.
  - intros before h after Hhs Hbefore [Hl Hn]. rewrite Hhs.
    rewrite fold_left_app, (MD025_unarmed _ _ Hbefore). simpl.
    rewrite Hl, Hn. simpl.
    rewrite MD025_armed. reflexivity.
Qed.

(** A title on line 1 and two more level-1 headings: both are flagged. *)
Lemma C7_MD025_witness :
  let tokens :=
    [headingToken 1 0 1 (lit "# Title"); closeToken "heading_close";
     headingToken 1 2 3 (lit "# One"); closeToken "heading_close";
     headingToken 2 4 5 (lit "## Sub"); closeToken "heading_close";
     headingToken 1 6 7 (lit "# Two"); closeToken "heading_close"] in
  exists errors,
    MD025 (Params.mk tokens [] Options.none) = Ok errors /\ errors = [3; 7].
Proof.
  intros tokens.
  destruct (C7_MD025_after_h1_on_line_1 (Params.mk tokens [] Options.none))
    as (errors & Hrun & _ & Hafter).
  exists errors. split; [exact Hrun|].
  apply (Hafter [] (headingToken 1 0 1 (lit "# Title"))
           [headingToken 1 2 3 (lit "# One");
            headingToken 2 4 5 (lit "## Sub");
            headingToken 1 6 7 (lit "# Two")]).
  - reflexivity.
  - intros b [].
  - split; reflexivity.
Defined.

(** C7 as stated fails: when the first level-1 heading is on line 3, a second
    level-1 heading on line 5 is neither the first heading nor on line 1, and
    it is not flagged. *)
Lemma C7_MD025_as_stated_counterexample :
  ~ (forall (params : Params.t) (errors : list Z) before h after,
        MD025 params = Ok errors ->
        filterTokens (Params.tokens params) "heading_open" None
        = before ++ h :: after ->
        before <> [] ->
        Token.hLevel h = 1 ->
        Token.lineNumber h <> 1 ->
        In (Token.lineNumber h) errors).
Proof.
  intros Hclaim.
  pose (tokens :=
          [blockToken "paragraph_open" 0 1 (lit "intro");
           inlineToken 0 1 (lit "intro") (lit "intro");
           closeToken "paragraph_close";
           headingToken 1 2 3 (lit "# One"); closeToken "heading_close";
           headingToken 1 4 5 (lit "# Two"); closeToken "heading_close"]).
  apply (Hclaim (Params.mk tokens [] Options.none) []
           [headingToken 1 2 3 (lit "# One")]
           (headingToken 1 4 5 (lit "# Two")) []);
    try reflexivity; discriminate.
Qed.

(** ** MD012 *)

Lemma trimLeft_nil (s : jsstring) : trimLeft s = [] <-> whitespaceOnly s.
Proof.
  unfold whitespaceOnly. induction s as [|c s IH]; simpl.
  - split; auto.
  - destruct (isSpace c) eqn:E.
    + rewrite IH. split; [intros H; constructor; auto|].
      intros H. inversion H; auto.
    + split; [discriminate|]. intros H. inversion H. congruence.
Qed.

Lemma trimLeft_head (s : jsstring) (c : char) (t : jsstring) :
  trimLeft s = c :: t -> isSpace c = false.
Proof.
  induction s as [|d s IH]; simpl; [discriminate|].
  destruct (isSpace d) eqn:E; [exact IH|].
  intros H. injection H as <- _. exact E.
Qed.

Lemma trim_nil (s : jsstring) : trim s = [] <-> whitespaceOnly s.
Proof.
  unfold trim, trimRight. rewrite <- trimLeft_nil. split.
  - intros H. apply (f_equal (@rev char)) in H. rewrite rev_involutive in H.
    simpl in H. apply trimLeft_nil in H. unfold whitespaceOnly in H.
    apply Forall_rev in H. rewrite rev_involutive in H.
    destruct (trimLeft s) as [|c t] eqn:E; [reflexivity|].
    apply trimLeft_head in E. inversion H. congruence.
  - intros ->. reflexivity.
Qed.

Lemma MD012_unfold (params : Params.t) :
  MD012 params
  = (st <- forEachLine params MD012_callback (lit "-", []) ;; Ok (snd st)).
Proof. reflexivity. Qed.

(** A line is pushed when it and the line handed over by the previous call
    are blank and the line is outside code. *)
Lemma MD012_fold_In (calls : list LineCtx) :
  forall (prev : jsstring) (errors : list Z) (n : Z),
    In n (snd (fold_left (callWith MD012_callback) calls (prev, errors)))
    <-> In n errors
        \/ exists (k : nat) c p,
             nth_error calls k = Some c
             /\ nth_error (prev :: map (fun c => trim (lc_line c)) calls) k
                = Some p
             /\ n = lc_index c + 1 /\ lc_inCode c = false
             /\ trim (lc_line c) = [] /\ p = [].
Proof.
  induction calls as [|c0 calls IH]; intros prev errors n.
  - simpl. split; [auto|]. intros [H | (k & c & p & Hk & _)]; [exact H|].
    destruct k; discriminate.
  - cbn [fold_left]. unfold callWith at 2. unfold MD012_callback at 2.
    rewrite IH. unfold pushIf, push. split.
    + intros [Hacc | (k & c & p & Hk & Hp & Hn & Hc & Ht & Hpn)].
      * destruct (negb (lc_inCode c0)
                  && Nat.eqb (List.length (trim (lc_line c0))) 0
                  && Nat.eqb (List.length prev) 0)%bool eqn:E; [|auto].
        apply in_app_iff in Hacc as [Hacc | [<- | []]]; [auto|].
        apply andb_prop in E as [E E3]. apply andb_prop in E as [E1 E2].
        apply negb_true_iff in E1. apply Nat.eqb_eq in E2, E3.
        apply length_zero_iff_nil in E2, E3.
        right. exists 0%nat, c0, prev. simpl. repeat split; auto.
      * right. exists (S k), c, p. simpl. repeat split; auto.
    + intros [Hacc | (k & c & p & Hk & Hp & Hn & Hc & Ht & Hpn)].
      * left. destruct (negb (lc_inCode c0)
                        && Nat.eqb (List.length (trim (lc_line c0))) 0
                        && Nat.eqb (List.length prev) 0)%bool;
          [apply in_app_iff|]; auto.
      * destruct k as [|k].
        -- simpl in Hk, Hp. injection Hk as ->. injection Hp as ->.
           left. rewrite Hc, Ht, Hpn. simpl. apply in_app_iff. right.
           simpl. auto.
        -- right. exists k, c, p. simpl in Hk, Hp. repeat split; auto.
Qed.

(** Which lines MD012 flags: the blank lines outside code that follow a
    blank line. *)
Lemma MD012_In (params : Params.t) (errors : list Z) :
  MD012 params = Ok errors ->
  forall k : nat,
    In (Z.of_nat k + 1) errors
    <-> exists p line prev,
          k = S p /\ nth_error (Params.lines params) k = Some line
          /\ nth_error (Params.lines params) p = Some prev
          /\ whitespaceOnly line /\ whitespaceOnly prev
          /\ ~ insideCode params k.
Proof.
  rewrite MD012_unfold. unfold forEachLine.
  destruct (codeLinesOf (Params.tokens params)) as [codeLines|] eqn:Ecl;
    simpl; [|discriminate].
  intros H k. injection H as <-.
  rewrite forLines_classify, MD012_fold_In. split.
  - intros [[] | (k' & c & pv & Hk & Hp & Hn & Hc & Ht & Hpn)].
    destruct (classify_nth_inv _ _ _ _ _ _ Hk) as [line Hline].
    rewrite (classify_nth0 _ _ _ _ Hline) in Hk. injection Hk as <-.
    cbv beta match delta [lc_line lc_index lc_inCode lc_onFence] in *.
    assert (k' = k) by lia. subst k'.
    assert (Hout : ~ insideCode params k).
    { intros Hin. apply (insideCode_spec _ _ _ Ecl) in Hin.
      exact (eq_true_false_abs _ Hin Hc). }
    destruct k as [|p].
    + simpl in Hp. injection Hp as <-. discriminate.
    + simpl in Hp. rewrite nth_error_map in Hp.
      destruct (nth_error (classify codeLines (Params.lines params) 0 false) p)
        as [cp|] eqn:Ecp; [|discriminate].
      destruct (classify_nth_inv _ _ _ _ _ _ Ecp) as [prev Hprev].
      rewrite (classify_nth0 _ _ _ _ Hprev) in Ecp. injection Ecp as <-.
      simpl in Hp. injection Hp as <-.
      exists p, line, prev.
      split; [reflexivity|]. split; [exact Hline|]. split; [exact Hprev|].
      split; [apply trim_nil; exact Ht|].
      split; [apply trim_nil; exact Hpn|].
      exact Hout.
  - intros (p & line & prev & -> & Hline & Hprev & Hws & Hpws & Hout).
    right.
    exists (S p). eexists. exists [].
    split; [apply (classify_nth0 _ _ _ _ Hline)|].
    cbv beta match delta [lc_line lc_index lc_inCode lc_onFence].
    split.
    + simpl. rewrite nth_error_map, (classify_nth0 _ _ _ _ Hprev). simpl.
      f_equal. apply trim_nil. exact Hpws.
    + split; [reflexivity|]. split.
      * rewrite <- (insideCode_spec _ _ _ Ecl) in Hout.
        apply not_true_is_false in Hout. exact Hout.
      * split; [apply trim_nil; exact Hws | reflexivity].
Qed.

(** C8 (amended): when lines 10, 11 and 12 are blank and outside code and
    lines 9 and 13 are not blank, MD012 flags lines 11 and 12 and none of
    lines 9, 10 and 13: each blank line that follows a blank line. *)
Theorem C8_MD012_three_blank_lines (params : Params.t) (errors : list Z) :
  MD012 params = Ok errors ->
  blankOutsideCode params 10 ->
  blankOutsideCode params 11 ->
  blankOutsideCode params 12 ->
  nonBlank params 9 ->
  nonBlank params 13 ->
  forall n : Z, 9 <= n <= 13 -> (In n errors <-> n = 11 \/ n = 12).
Proof.
  intros Hrun (l10 & H10 & Hb10 & Ho10) (l11 & H11 & Hb11 & Ho11)
    (l12 & H12 & Hb12 & Ho12) (l9 & H9 & Hn9) (l13 & H13 & Hn13) n Hn.
  simpl pred in *.
  pose proof (MD012_In params errors Hrun) as Hin.
  assert (Hcases : n = 9 \/ n = 10 \/ n = 11 \/ n = 12 \/ n = 13) by lia.
  destruct Hcases as [-> | [-> | [-> | [-> | ->]]]].
  - change 9 with (Z.of_nat 8 + 1). rewrite Hin. split; [|lia].
    intros (p & line & prev & Hk & Hline & _ & Hws & _). exfalso.
    rewrite H9 in Hline. injection Hline as <-. auto.
  - change 10 with (Z.of_nat 9 + 1). rewrite Hin. split; [|lia].
    intros (p & line & prev & Hk & _ & Hprev & _ & Hws & _). exfalso.
    injection Hk as <-. rewrite H9 in Hprev. injection Hprev as <-. auto.
  - change 11 with (Z.of_nat 10 + 1) at 1. rewrite Hin. split; [auto|].
    intros _. exists 9%nat, l11, l10. repeat split; auto.
  - change 12 with (Z.of_nat 11 + 1) at 1. rewrite Hin. split; [auto|].
    intros _. exists 10%nat, l12, l11. repeat split; auto.
  - change 13 with (Z.of_nat 12 + 1). rewrite Hin. split; [|lia].
    intros (p & line & prev & Hk & Hline & _ & Hws & _). exfalso.
    rewrite H13 in Hline. injection Hline as <-. auto.
Qed.

Lemma threeBlankLines_blank (n : nat) :
  (10 <= n <= 12)%nat -> blankOutsideCode threeBlankLines n.
Proof.
  intros Hn. assert (Hcases : n = 10%nat \/ n = 11%nat \/ n = 12%nat) by lia.
  destruct Hcases as [-> | [-> | ->]]; exists []; (split; [reflexivity|]);
    (split; [constructor|]);
    (intros [Hfence | (t & a & b & [] & _)]; discriminate).
Qed.

(** Three empty lines between text: lines 11 and 12 are flagged. *)
Lemma C8_MD012_witness :
  MD012 threeBlankLines = Ok [11; 12]
  /\ (In 10 [11; 12] <-> 10 = 11 \/ 10 = 12)
  /\ (In 11 [11; 12] <-> 11 = 11 \/ 11 = 12).
Proof.
  split; [reflexivity|].
  assert (H : forall n : Z,
             9 <= n <= 13 -> (In n [11; 12] <-> n = 11 \/ n = 12));
    [|split; apply H; lia].
  apply (C8_MD012_three_blank_lines threeBlankLines [11; 12]).
  - reflexivity.
  - apply threeBlankLines_blank. lia.
  - apply threeBlankLines_blank. lia.
  - apply threeBlankLines_blank. lia.
  - exists (lit "9"). split; [reflexivity|].
    intros Hws. inversion Hws. discriminate.
  - exists (lit "13"). split; [reflexivity|].
    intros Hws. inversion Hws. discriminate.
Defined.

(** C8 as stated fails: with lines 10 to 12 empty, line 11 is flagged as
    well as line 12. *)
Lemma C8_MD012_as_stated_counterexample :
  ~ (forall (params : Params.t) (errors : list Z),
        MD012 params = Ok errors ->
        blankOutsideCode params 10 ->
        blankOutsideCode params 11 ->
        blankOutsideCode params 12 ->
        nonBlank params 9 ->
        nonBlank params 13 ->
        forall n : Z, 9 <= n <= 13 -> (In n errors <-> n = 12)).
Proof.
  intros Hclaim.
  assert (H11 : In 11 [11; 12] <-> 11 = 12).
  { apply (Hclaim threeBlankLines [11; 12]).
    - reflexivity.
    - apply threeBlankLines_blank. lia.
    - apply threeBlankLines_blank. lia.
    - apply threeBlankLines_blank. lia.
    - exists (lit "9"). split; [reflexivity|].
      intros Hws. inversion Hws. discriminate.
    - exists (lit "13"). split; [reflexivity|].
      intros Hws. inversion Hws. discriminate.
    - lia. }
  destruct H11 as [H11 _]. discriminate H11. simpl. auto.
Qed.

(** ** [flattenLists]: the order of the output *)

Lemma map_splice {A B : Type} (f : A -> B) (i : nat) (x : A) (l : list A) :
  map f (splice i x l) = splice i (f x) (map f l).
Proof.
  unfold splice. rewrite map_app, firstn_map. simpl. rewrite skipn_map.
  reflexivity.
Qed.

Lemma splice_length {A : Type} (i : nat) (x : A) (l : list A) :
  List.length (splice i x l) = S (List.length l).
Proof.
  unfold splice. rewrite <- (firstn_skipn i l) at 3.
  rewrite !length_app. simpl. lia.
Qed.

Lemma splice_snoc {A : Type} (i : nat) (x y : A) (l : list A) :
  (i <= List.length l)%nat -> splice i x (l ++ [y]) = splice i x l ++ [y].
Proof.
  intros Hi. unfold splice.
  rewrite firstn_app, skipn_app.
  replace (i - List.length l)%nat with O by lia. simpl.
  rewrite app_nil_r, <- app_assoc. reflexivity.
Qed.

Lemma splice_end {A : Type} (x : A) (l : list A) :
  splice (List.length l) x l = l ++ [x].
Proof.
  unfold splice. rewrite firstn_all, skipn_all. reflexivity.
Qed.

(** A new element at the end stays at the end when the pending lists close. *)
Lemma completeOpens_snoc (filterBy : option bool) (pend : list ListDesc.t) :
  forall (opens : list Token.t) (t : Token.t),
    Forall (fun p => (insertOf p <= List.length opens)%nat) pend ->
    completeOpens filterBy (opens ++ [t]) pend
    = completeOpens filterBy opens pend ++ [t].
Proof.
  induction pend as [|p pend IH]; intros opens t Hb; simpl; [reflexivity|].
  inversion Hb as [|? ? Hp Hrest]; subst.
  destruct (keeps filterBy (ListDesc.ordered p)).
  - rewrite splice_snoc by exact Hp. apply IH.
    eapply Forall_impl; [|exact Hrest]. intros q Hq. cbv beta in *.
    rewrite splice_length. lia.
  - apply IH. exact Hrest.
Qed.

Lemma pendingOk_bounds (st : FlatState) :
  pendingOk st ->
  Forall (fun p => (insertOf p <= List.length (map ListDesc.open (fl_lists st)))%nat)
    (pending st).
Proof.
  unfold pendingOk. intros H. eapply Forall_impl; [|exact H].
  intros p [Hp _]. rewrite length_map. exact Hp.
Qed.

(** One step of the loop, seen through [completeOpens]: only a list-open token
    that passes the filter adds to the completed output, at its end. *)
Lemma flattenStep_opens (filterBy : option bool) (st st' : FlatState)
  (t : Token.t) :
  flattenStep filterBy st t = Ok st' ->
  pendingOk st ->
  pendingOk st'
  /\ completeOpens filterBy (map ListDesc.open (fl_lists st')) (pending st')
     = completeOpens filterBy (map ListDesc.open (fl_lists st)) (pending st)
       ++ (if keptOpen filterBy t then [t] else []).
Proof.
  destruct st as [lists stack current lastWithLines].
  unfold flattenStep, keptOpen.
  destruct (isListOpen t) eqn:Eopen.
  - (* a list opens *)
    intros H Hok. injection H as <-. split.
    + unfold pendingOk, pending in *. cbn [fl_current fl_stack fl_lists] in *.
      cbn [flat_map] in *. constructor; [|exact Hok].
      cbn [app]. unfold insertOf, isOrderedOpen. simpl. auto.
    + pose proof (pendingOk_bounds _ Hok) as Hb.
      unfold pending in *. cbn [fl_current fl_stack fl_lists] in *.
      cbn [flat_map app completeOpens ListDesc.ordered ListDesc.open].
      unfold insertOf at 1. cbn [ListDesc.insert].
      fold (isOrderedOpen t). cbn [andb].
      destruct (keeps filterBy (isOrderedOpen t)).
      * rewrite <- (length_map ListDesc.open lists), splice_end.
        apply completeOpens_snoc. exact Hb.
      * rewrite app_nil_r. reflexivity.
  - destruct (isListClose t) eqn:Eclose.
    + (* a list closes *)
      destruct current as [cur|]; [|discriminate].
      destruct lastWithLines as [lastTok|]; [|discriminate].
      destruct (lines1 lastTok) as [l1|]; [|discriminate].
      cbn [bind andb]. intros H Hok. injection H as <-.
      unfold pendingOk, pending in *. cbn [fl_current fl_stack fl_lists] in *.
      cbn [flat_map app] in Hok. inversion Hok as [|? ? [Hcur Hord] Hrest]; subst.
      fold (insertOf cur).
      assert (Hpend :
                flat_map (fun o => match o with Some d => [d] | None => [] end)
                  (match stack with top :: _ => top | [] => None end :: tl stack)
                = flat_map (fun o : option ListDesc.t =>
                              match o with Some d => [d] | None => [] end)
                    stack).
      { destruct stack; reflexivity. }
      rewrite Hpend. split.
      * eapply Forall_impl; [|exact Hrest]. intros q [Hq Hqo]. split; [|exact Hqo].
        destruct (keeps filterBy (ListDesc.ordered cur));
          [rewrite splice_length; lia | exact Hq].
      * rewrite app_nil_r. cbn [flat_map app completeOpens].
        destruct (keeps filterBy (ListDesc.ordered cur)); [|reflexivity].
        rewrite map_splice. reflexivity.
    + destruct (String.eqb (Token.type t) "list_item_open").
      * (* an item *)
        destruct current as [cur|]; [|discriminate].
        intros H Hok. injection H as <-.
        unfold pendingOk, pending in *. cbn [fl_current fl_stack fl_lists] in *.
        cbn [flat_map app] in *.
        inversion Hok as [|? ? [Hcur Hord] Hrest]; subst. split.
        -- constructor; [|exact Hrest]. split; assumption.
        -- rewrite app_nil_r. reflexivity.
      * (* any other token *)
        intros H Hok.
        assert (Hst : fl_lists st' = lists /\ fl_stack st' = stack
                      /\ fl_current st' = current).
        { destruct (Token.lines t); injection H as <-; auto. }
        destruct Hst as (Hl & Hs & Hc).
        unfold pendingOk, pending in *. cbn [fl_current fl_stack fl_lists] in *.
        rewrite Hl, Hs, Hc, app_nil_r. auto.
Qed.

Lemma flattenRun_opens (filterBy : option bool) (tokens : list Token.t) :
  forall st st',
    foldM (flattenStep filterBy) tokens st = Ok st' ->
    pendingOk st ->
    pendingOk st'
    /\ completeOpens filterBy (map ListDesc.open (fl_lists st')) (pending st')
       = completeOpens filterBy (map ListDesc.open (fl_lists st)) (pending st)
         ++ filter (keptOpen filterBy) tokens.
Proof.
  induction tokens as [|t tokens IH]; intros st st' Hrun Hok; simpl in Hrun.
  - injection Hrun as <-. rewrite app_nil_r. auto.
  - destruct (flattenStep filterBy st t) as [st1|] eqn:Estep; [|discriminate].
    simpl in Hrun.
    destruct (flattenStep_opens _ _ _ _ Estep Hok) as [Hok1 Hstep].
    destruct (IH _ _ Hrun Hok1) as [Hok' Hrest].
    split; [exact Hok'|].
    rewrite Hrest, Hstep, <- app_assoc. simpl.
    destruct (keptOpen filterBy t); reflexivity.
Qed.

(** The number of pending descriptors follows the nesting depth. *)
Lemma flattenRun_depth (filterBy : option bool) (tokens : list Token.t) :
  forall st st' d,
    foldM (flattenStep filterBy) tokens st = Ok st' ->
    listDepth tokens (List.length (pending st)) = Some d ->
    List.length (pending st') = d.
Proof.
  induction tokens as [|t tokens IH]; intros st st' d Hrun Hd; simpl in *.
  - injection Hrun as <-. injection Hd as <-. reflexivity.
  - destruct (flattenStep filterBy st t) as [st1|] eqn:Estep; [|discriminate].
    simpl in Hrun. apply (IH _ _ _ Hrun). clear IH Hrun.
    destruct st as [lists stack current lw]. unfold flattenStep in Estep.
    destruct (isListOpen t).
    + injection Estep as <-. exact Hd.
    + destruct (isListClose t).
      * destruct current as [cur|]; [|discriminate].
        destruct lw as [lastTok|]; [|discriminate].
        destruct (lines1 lastTok); [|discriminate].
        simpl in Estep. injection Estep as <-.
        unfold pending in *. destruct stack; simpl in *; exact Hd.
      * destruct (String.eqb (Token.type t) "list_item_open").
        -- destruct current as [cur|]; [|discriminate].
           injection Estep as <-. exact Hd.
        -- destruct (Token.lines t); injection Estep as <-; exact Hd.
Qed.

(** At any point of the scan, closing the lists that are still open would
    give the open tokens in document order. *)
Lemma flattenRun_document_order (filterBy : option bool)
  (tokens : list Token.t) (st : FlatState) :
  flattenRun filterBy tokens = Ok st ->
  completeOpens filterBy (map ListDesc.open (fl_lists st)) (pending st)
  = filter (keptOpen filterBy) tokens.
Proof.
  unfold flattenRun. intros Hrun.
  assert (Hok : pendingOk (mkFlat [] [] None None)) by constructor.
  destruct (flattenRun_opens _ _ _ _ Hrun Hok) as [_ Hopens].
  exact Hopens.
Qed.

(** The flat sequence lists the descriptors in the order of their open tokens
    in the document. *)
Lemma flattenLists_opens (tokens : list Token.t) (filterBy : option bool)
  (lists : list ListDesc.t) :
  flattenLists tokens filterBy = Ok lists ->
  listsClosed tokens ->
  map ListDesc.open lists = filter (keptOpen filterBy) tokens.
Proof.
  unfold flattenLists, flattenRun, listsClosed. intros Hrun Hclosed.
  destruct (foldM (flattenStep filterBy) tokens (mkFlat [] [] None None))
    as [st|] eqn:Efold; [|discriminate].
  simpl in Hrun. injection Hrun as <-.
  assert (Hok : pendingOk (mkFlat [] [] None None)) by constructor.
  destruct (flattenRun_opens _ _ _ _ Efold Hok) as [_ Hopens].
  pose proof (flattenRun_depth _ _ _ _ _ Efold Hclosed) as Hlen.
  apply length_zero_iff_nil in Hlen. rewrite Hlen in Hopens.
  exact Hopens.
Qed.

(** ** [flattenLists]: filtering *)

Lemma firstn_splice {A : Type} (k i : nat) (x : A) (l : list A) :
  (k <= i)%nat -> (i <= List.length l)%nat ->
  firstn k (splice i x l) = firstn k l.
Proof.
  intros Hk Hi. unfold splice. rewrite firstn_app, length_firstn.
  replace (k - Nat.min i (List.length l))%nat with O by lia.
  rewrite firstn_O, app_nil_r, firstn_firstn.
  replace (Nat.min k i) with k by lia. reflexivity.
Qed.

Lemma filter_splice {A : Type} (p : A -> bool) (i : nat) (x : A) (l : list A) :
  filter p (splice i x l)
  = if p x then splice (List.length (filter p (firstn i l))) x (filter p l)
    else filter p l.
Proof.
  assert (Hf : filter p l = filter p (firstn i l) ++ filter p (skipn i l))
    by (rewrite <- filter_app, firstn_skipn; reflexivity).
  unfold splice at 1. rewrite filter_app. simpl.
  destruct (p x); [|symmetry; exact Hf].
  rewrite Hf. unfold splice.
  rewrite firstn_app, Nat.sub_diag, firstn_O, app_nil_r, firstn_all.
  rewrite skipn_app, Nat.sub_diag, skipn_all. reflexivity.
Qed.

Lemma relStack_length (b : bool) (listsN : list ListDesc.t) (bound : nat)
  (sN sB : list (option ListDesc.t)) :
  relStack b listsN bound sN sB -> List.length sN = List.length sB.
Proof.
  induction 1; simpl; auto.
Qed.

Lemma relStack_mono (b : bool) (listsN : list ListDesc.t) (bound bound' : nat)
  (sN sB : list (option ListDesc.t)) :
  relStack b listsN bound sN sB -> (bound <= bound')%nat ->
  relStack b listsN bound' sN sB.
Proof.
  induction 1; intros Hle.
  - constructor.
  - constructor. auto.
  - constructor; [assumption | lia | assumption].
Qed.

Lemma relStack_splice (b : bool) (listsN : list ListDesc.t) (i : nat)
  (x : ListDesc.t) (bound : nat) (sN sB : list (option ListDesc.t)) :
  relStack b listsN bound sN sB ->
  (bound <= i)%nat -> (i <= List.length listsN)%nat ->
  relStack b (splice i x listsN) bound sN sB.
Proof.
  induction 1 as [bound | bound sN sB H IH | bound dN dB sN sB Hd Hle H IH];
    intros Hb Hi.
  - constructor.
  - constructor. auto.
  - constructor; [|assumption | apply IH; lia].
    destruct Hd as (H1 & H2 & H3 & H4 & H5 & H6).
    repeat split; auto.
    rewrite firstn_splice by lia. exact H6.
Qed.

(** One step keeps the two runs related. *)
Lemma flattenStep_filter (b : bool) (stN stB : FlatState) (t : Token.t) :
  relState b stN stB ->
  relResult (relState b) (flattenStep None stN t) (flattenStep (Some b) stB t).
Proof.
  destruct stN as [listsN stackN currentN lwN].
  destruct stB as [listsB stackB currentB lwB].
  unfold relState. cbn [fl_lists fl_lastWithLines fl_current fl_stack].
  intros (Hl & Hlw & Hrs). subst lwB.
  unfold flattenStep.
  destruct (isListOpen t).
  - (* a list opens *)
    cbn [relResult fl_lists fl_lastWithLines fl_current fl_stack].
    split; [exact Hl|]. split; [reflexivity|].
    constructor; [|cbn [insertOf ListDesc.insert]; unfold insertOf; simpl; lia
                  |unfold insertOf; cbn [ListDesc.insert];
                   exact Hrs].
    pose proof (relStack_length _ _ _ _ _ Hrs) as Hlen.
    simpl in Hlen. injection Hlen as Hlen.
    unfold relDesc, insertOf. cbn. rewrite Hlen.
    repeat split; auto.
    rewrite firstn_all, Hl. reflexivity.
  - destruct (isListClose t).
    + (* a list closes *)
      inversion Hrs as [| ? sN sB Hrest | ? dN dB sN sB Hd Hle Hrest]; subst.
      * exact I.
      * destruct lwN as [lastTok|]; [|exact I].
        destruct (lines1 lastTok) as [l1|]; [|exact I].
        cbn [bind relResult keeps fl_lists fl_lastWithLines fl_current fl_stack].
        destruct Hd as (H1 & H2 & H3 & H4 & H5 & H6).
        fold (insertOf dN). fold (insertOf dB).
        rewrite H1, H2, H3, H4.
        split; [|split; [reflexivity|]].
        -- rewrite filter_splice. unfold sameKind at 1. cbn [ListDesc.ordered].
           rewrite H6. reflexivity.
        -- rewrite splice_length.
           apply relStack_mono with (bound := insertOf dN); [|lia].
           apply relStack_splice; [|lia|exact Hle].
           inversion Hrest as [| ? sN' sB' Hr | ? dN' dB' sN' sB' Hd' Hle' Hr];
             subst; cbn [tl].
           ++ constructor. constructor.
           ++ constructor. exact Hr.
           ++ constructor; assumption.
    + destruct (String.eqb (Token.type t) "list_item_open").
      * (* an item *)
        inversion Hrs as [| ? sN sB Hrest | ? dN dB sN sB Hd Hle Hrest]; subst.
        -- exact I.
        -- cbn [relResult fl_lists fl_lastWithLines fl_current fl_stack].
           split; [reflexivity|]. split; [reflexivity|].
           destruct Hd as (H1 & H2 & H3 & H4 & H5 & H6).
           constructor; [| exact Hle | exact Hrest].
           unfold relDesc, insertOf in *. cbn.
           rewrite H3. repeat split; auto.
      * (* any other token *)
        destruct (Token.lines t);
          cbn [relResult fl_lists fl_lastWithLines fl_current fl_stack];
          auto.
Qed.

Lemma flattenRun_filter (b : bool) (tokens : list Token.t) :
  forall stN stB,
    relState b stN stB ->
    relResult (relState b) (foldM (flattenStep None) tokens stN)
      (foldM (flattenStep (Some b)) tokens stB).
Proof.
  induction tokens as [|t tokens IH]; intros stN stB Hrel; simpl.
  - exact Hrel.
  - pose proof (flattenStep_filter b stN stB t Hrel) as Hstep.
    destruct (flattenStep None stN t) as [stN1|],
             (flattenStep (Some b) stB t) as [stB1|];
      simpl in *; try contradiction; auto.
Qed.

(** Filtering by kind selects from the unfiltered output and keeps its
    order. *)
Lemma flattenLists_filter (tokens : list Token.t) (b : bool) :
  flattenLists tokens (Some b)
  = (lists <- flattenLists tokens None ;; Ok (filter (sameKind b) lists)).
Proof.
  unfold flattenLists, flattenRun.
  assert (Hinit : relState b (mkFlat [] [] None None) (mkFlat [] [] None None)).
  { repeat split. simpl. constructor. constructor. }
  pose proof (flattenRun_filter b tokens _ _ Hinit) as Hrun.
  destruct (foldM (flattenStep None) tokens (mkFlat [] [] None None))
    as [stN|],
    (foldM (flattenStep (Some b)) tokens (mkFlat [] [] None None)) as [stB|];
    simpl in *; try contradiction; auto.
  destruct Hrun as (Hl & _). rewrite Hl. reflexivity.
Qed.

Lemma map_eq_app_cons {A B : Type} (f : A -> B) (l : list A) (xs : list B)
  (y : B) (ys : list B) :
  map f l = xs ++ y :: ys ->
  exists l1 d l2,
    l = l1 ++ d :: l2 /\ map f l1 = xs /\ f d = y /\ map f l2 = ys.
Proof.
  intros H. apply map_eq_app in H as (l1 & l2' & -> & H1 & H2).
  apply map_eq_cons in H2 as (d & l2 & -> & Hd & H2).
  exists l1, d, l2. auto.
Qed.

(** C5: the flat sequence holds the descriptors in the order in which their
    lists open in the document: of two lists, the one that opens first comes
    first, which puts a list before the lists nested inside it and keeps
    sibling lists in document order.  For any token sequence, also one that
    leaves lists open, putting the open lists back at the positions they
    recorded gives the document order.  The sequence under a filter is the
    unfiltered sequence restricted to the lists of that kind, in the same
    relative order. *)
Theorem C5_flattenLists_order :
  (forall tokens filterBy st,
      flattenRun filterBy tokens = Ok st ->
      completeOpens filterBy (map ListDesc.open (fl_lists st)) (pending st)
      = filter (keptOpen filterBy) tokens)
  /\ (forall tokens filterBy lists,
      flattenLists tokens filterBy = Ok lists ->
      listsClosed tokens ->
      map ListDesc.open lists = filter (keptOpen filterBy) tokens
      /\ forall before A between B after,
          tokens = before ++ A :: between ++ B :: after ->
          keptOpen filterBy A = true ->
          keptOpen filterBy B = true ->
          exists l1 dA l2 dB l3,
            lists = l1 ++ dA :: l2 ++ dB :: l3
            /\ ListDesc.open dA = A /\ ListDesc.open dB = B
            /\ map ListDesc.open l1 = filter (keptOpen filterBy) before
            /\ map ListDesc.open l2 = filter (keptOpen filterBy) between)
  /\ (forall tokens b,
         flattenLists tokens (Some b)
         = (lists <- flattenLists tokens None ;;
            Ok (filter (sameKind b) lists))).
Proof.
  split; [intros tokens filterBy st; apply flattenRun_document_order|].
  split; [|apply flattenLists_filter].
  intros tokens filterBy lists Hrun Hclosed.
  pose proof (flattenLists_opens _ _ _ Hrun Hclosed) as Hopens.
  split; [exact Hopens|].
  intros before A between B after -> HA HB.
  rewrite filter_app in Hopens. simpl in Hopens. rewrite HA in Hopens.
  rewrite filter_app in Hopens. simpl in Hopens. rewrite HB in Hopens.
  apply map_eq_app_cons in Hopens as (l1 & dA & rest & -> & H1 & HdA & Hrest).
  apply map_eq_app_cons in Hrest as (l2 & dB & l3 & -> & H2 & HdB & _).
  exists l1, dA, l2, dB, l3. auto.
Qed.

Lemma nestedListsTokens_closed : listsClosed nestedListsTokens.
Proof. reflexivity. Qed.

Lemma nestedListsFlat_spec :
  flattenLists nestedListsTokens None = Ok nestedListsFlat.
Proof. vm_compute. reflexivity. Qed.

(** The three lists of [nestedListsTokens] come out outer, nested, second; the
    filter for unordered lists keeps the outer and the second. *)
Lemma C5_flattenLists_witness :
  map (fun d => Token.lineNumber (ListDesc.open d)) nestedListsFlat = [1; 2; 5]
  /\ map ListDesc.open nestedListsFlat
     = filter (keptOpen None) nestedListsTokens
  /\ flattenLists nestedListsTokens (Some false)
     = Ok (filter (sameKind false) nestedListsFlat).
Proof.
  destruct C5_flattenLists_order as (_ & Horder & Hfilter).
  split; [vm_compute; reflexivity|]. split.
  - apply (Horder nestedListsTokens None nestedListsFlat).
    + exact nestedListsFlat_spec.
    + exact nestedListsTokens_closed.
  - rewrite (Hfilter nestedListsTokens false), nestedListsFlat_spec.
    reflexivity.
Defined.

(** ** The order of the reported line numbers *)

Lemma ascendingUpTo_nil (m : Z) : ascendingUpTo m [].
Proof. split; constructor. Qed.

Lemma ascendingUpTo_mono (m m' : Z) (l : list Z) :
  ascendingUpTo m l -> m <= m' -> ascendingUpTo m' l.
Proof.
  intros [Hs Hb] Hle. split; [exact Hs|].
  eapply Forall_impl; [|exact Hb]. intros x Hx. cbv beta in *. lia.
Qed.

Lemma StronglySorted_snoc (l : list Z) (x : Z) :
  StronglySorted Z.le l -> Forall (fun y => y <= x) l ->
  StronglySorted Z.le (l ++ [x]).
Proof.
  induction l as [|a l IH]; intros Hs Hb; simpl.
  - constructor; constructor.
  - inversion Hs as [|? ? Hs' Ha]; subst. inversion Hb as [|? ? Hax Hb']; subst.
    constructor; [apply IH; assumption|].
    apply Forall_app. split; [exact Ha|]. constructor; [exact Hax | constructor].
Qed.

Lemma ascendingUpTo_push (m x : Z) (l : list Z) :
  ascendingUpTo m l -> m <= x -> ascendingUpTo x (push l x).
Proof.
  intros H Hle. apply ascendingUpTo_mono with (m' := x) in H; [|exact Hle].
  destruct H as [Hs Hb]. unfold push. split.
  - apply StronglySorted_snoc; assumption.
  - apply Forall_app. split; [exact Hb|]. constructor; [lia | constructor].
Qed.

Lemma ascendingUpTo_pushIf (b : bool) (m x : Z) (l : list Z) :
  ascendingUpTo m l -> m <= x -> ascendingUpTo x (pushIf b l x).
Proof.
  intros H Hle. unfold pushIf. destruct b.
  - apply ascendingUpTo_push with (m := m); assumption.
  - apply ascendingUpTo_mono with (m := m); assumption.
Qed.

Lemma ascendingUpTo_ascending (m : Z) (l : list Z) :
  ascendingUpTo m l -> ascending l.
Proof.
  intros [Hs _]. apply StronglySorted_Sorted. exact Hs.
Qed.

(** A scan whose callback keeps [errors] ascending and within the lines
    seen. *)
Lemma forLines_ascending {St : Type} (errs : St -> list Z)
  (callback : St -> jsstring -> Z -> bool -> bool -> St) (codeLines : list Z) :
  (forall s line i inCode onFence,
      ascendingUpTo i (errs s) ->
      ascendingUpTo (i + 1) (errs (callback s line i inCode onFence))) ->
  forall ls i inFence s,
    ascendingUpTo i (errs s) ->
    ascendingUpTo (i + Z.of_nat (List.length ls))
      (errs (forLines callback codeLines ls i inFence s)).
Proof.
  intros Hcb. induction ls as [|line ls IH]; intros i inFence s Hs.
  - simpl. rewrite Z.add_0_r. exact Hs.
  - cbn [forLines List.length].
    replace (i + Z.of_nat (S (List.length ls)))
      with (i + 1 + Z.of_nat (List.length ls)) by lia.
    apply IH. apply Hcb. exact Hs.
Qed.

Lemma forEachLine_ascending {St : Type} (errs : St -> list Z)
  (callback : St -> jsstring -> Z -> bool -> bool -> St) (params : Params.t)
  (s s' : St) :
  (forall s line i inCode onFence,
      ascendingUpTo i (errs s) ->
      ascendingUpTo (i + 1) (errs (callback s line i inCode onFence))) ->
  errs s = [] ->
  forEachLine params callback s = Ok s' ->
  ascending (errs s').
Proof.
  intros Hcb Hs Hrun. unfold forEachLine in Hrun.
  destruct (codeLinesOf (Params.tokens params)) as [codeLines|];
    simpl in Hrun; [|discriminate].
  injection Hrun as <-.
  eapply ascendingUpTo_ascending.
  apply forLines_ascending; [exact Hcb|].
  rewrite Hs. apply ascendingUpTo_nil.
Qed.

Lemma foldi_ascending (cond : jsstring -> bool) (ls : list jsstring) :
  forall i errors,
    ascendingUpTo i errors ->
    ascendingUpTo (i + Z.of_nat (List.length ls))
      (foldi (fun errors line lineIndex =>
                pushIf (cond line) errors (lineIndex + 1)) ls i errors).
Proof.
  induction ls as [|line ls IH]; intros i errors He.
  - simpl. rewrite Z.add_0_r. exact He.
  - cbn [foldi List.length].
    replace (i + Z.of_nat (S (List.length ls)))
      with (i + 1 + Z.of_nat (List.length ls)) by lia.
    apply IH. apply ascendingUpTo_pushIf with (m := i); [exact He | lia].
Qed.

Lemma eachLineMatching_ascending (re : pattern) (params : Params.t)
  (errors : list Z) :
  eachLineMatching re params = Ok errors -> ascending errors.
Proof.
  unfold eachLineMatching. intros H. injection H as <-.
  eapply ascendingUpTo_ascending. apply foldi_ascending.
  apply ascendingUpTo_nil.
Qed.

(** Every rule that scans the lines reports in ascending order. *)
Lemma lineRules_ascending (name : string) (r : rule) (params : Params.t)
  (errors : list Z) :
  In (name, r) lineRules -> r params = Ok errors -> ascending errors.
Proof.
  unfold lineRules. cbn [In]. intros Hin Hrun.
  repeat (destruct Hin as [Hin | Hin]; [injection Hin as _ <-|]);
    try contradiction.
  - (* MD009 *) exact (eachLineMatching_ascending _ _ _ Hrun).
  - (* MD010 *) exact (eachLineMatching_ascending _ _ _ Hrun).
  - (* MD012 *)
    rewrite MD012_unfold in Hrun.
    destruct (forEachLine params MD012_callback (lit "-", [])) as [st|] eqn:E;
      simpl in Hrun; [|discriminate].
    injection Hrun as <-.
    apply (forEachLine_ascending snd _ _ _ _) with (3 := E); [|reflexivity].
    intros [prev errs] line i inCode onFence He. simpl in *.
    apply ascendingUpTo_pushIf with (m := i); [exact He | lia].
  - (* MD013 *) exact (eachLineMatching_ascending _ _ _ Hrun).
  - (* MD018 *)
    apply (forEachLine_ascending (fun e => e) _ _ _ _) with (3 := Hrun);
      [|reflexivity].
    intros errs line i inCode onFence He.
    apply ascendingUpTo_pushIf with (m := i); [exact He | lia].
  - (* MD020 *)
    apply (forEachLine_ascending (fun e => e) _ _ _ _) with (3 := Hrun);
      [|reflexivity].
    intros errs line i inCode onFence He.
    apply ascendingUpTo_pushIf with (m := i); [exact He | lia].
  - (* MD031 *)
    apply (forEachLine_ascending (fun e => e) _ _ _ _) with (3 := Hrun);
      [|reflexivity].
    intros errs line i inCode onFence He.
    apply ascendingUpTo_pushIf with (m := i); [exact He | lia].
  - (* MD032 *)
    unfold MD032 in Hrun.
    match type of Hrun with
    | bind ?m _ = _ => destruct m as [st|] eqn:E
    end; simpl in Hrun; [|discriminate].
    injection Hrun as <-.
    apply (forEachLine_ascending errors32 _ _ _ _) with (3 := E); [|reflexivity].
    intros [il prev errs] line i inCode onFence He. cbn [errors32] in He.
    destruct (negb inCode || onFence)%bool; cbn [errors32].
    + destruct (test re_listMarker (trim line) && negb il
                && negb (test_emptyOrLeadingSpace prev))%bool.
      * apply ascendingUpTo_push with (m := i); [exact He | lia].
      * destruct (negb (test re_listMarker (trim line)) && il
                  && negb (test_emptyOrLeadingSpace line))%bool.
        -- apply ascendingUpTo_mono with (m := i); [|lia].
           apply ascendingUpTo_push with (m := i); [exact He | lia].
        -- apply ascendingUpTo_mono with (m := i); [exact He | lia].
    + apply ascendingUpTo_mono with (m := i); [exact He | lia].
Qed.

(** Rules that walk the tokens and report the line number of the token at
    hand. *)

Lemma StronglySorted_map_filter {A : Type} (g : A -> Z) (p : A -> bool)
  (l : list A) :
  StronglySorted Z.le (map g l) -> StronglySorted Z.le (map g (filter p l)).
Proof.
  induction l as [|a l IH]; simpl; intros H; [constructor|].
  inversion H as [|? ? Hs Ha]; subst.
  destruct (p a); simpl; [|auto].
  constructor; [auto|].
  apply Forall_forall. intros x Hx. apply in_map_iff in Hx as (y & <- & Hy).
  apply filter_In in Hy as [Hy _].
  rewrite Forall_forall in Ha. apply Ha. apply in_map. exact Hy.
Qed.

Lemma ascending_StronglySorted (l : list Z) :
  ascending l -> StronglySorted Z.le l.
Proof.
  apply Sorted_StronglySorted. intros x y z. apply Z.le_trans.
Qed.

Lemma foldM_ascendingUpTo {St A : Type} (errs : St -> list Z) (g : A -> Z)
  (step : St -> A -> result St) :
  (forall s t s',
      step s t = Ok s' ->
      ascendingUpTo (g t) (errs s) -> ascendingUpTo (g t) (errs s')) ->
  forall ts s s' m,
    StronglySorted Z.le (map g ts) ->
    Forall (fun t => m <= g t) ts ->
    ascendingUpTo m (errs s) ->
    foldM step ts s = Ok s' ->
    exists m', ascendingUpTo m' (errs s').
Proof.
  intros Hstep. induction ts as [|t ts IH]; intros s s' m Hsorted Hm Hs Hrun.
  - simpl in Hrun. injection Hrun as <-. eauto.
  - simpl in Hrun, Hsorted.
    destruct (step s t) as [s1|] eqn:E1; simpl in Hrun; [|discriminate].
    inversion Hsorted as [|? ? Hs' Ht]; subst.
    inversion Hm as [|? ? Hmt Hm']; subst.
    apply (IH s1 s' (g t)); auto.
    + apply Forall_forall. intros x Hx. rewrite Forall_forall in Ht.
      apply Ht. apply in_map. exact Hx.
    + apply (Hstep _ _ _ E1). apply ascendingUpTo_mono with (m := m); assumption.
Qed.

Lemma foldM_ascending {St A : Type} (errs : St -> list Z) (g : A -> Z)
  (step : St -> A -> result St) (ts : list A) (s s' : St) :
  (forall s t s',
      step s t = Ok s' ->
      ascendingUpTo (g t) (errs s) -> ascendingUpTo (g t) (errs s')) ->
  StronglySorted Z.le (map g ts) ->
  errs s = [] ->
  foldM step ts s = Ok s' ->
  ascending (errs s').
Proof.
  intros Hstep Hsorted Hs Hrun.
  destruct ts as [|t ts].
  - simpl in Hrun. injection Hrun as <-. rewrite Hs. constructor.
  - destruct (foldM_ascendingUpTo errs g step Hstep (t :: ts) s s' (g t))
      as [m' Hm']; auto.
    + simpl in Hsorted. inversion Hsorted as [|? ? _ Ht]; subst.
      constructor; [lia|].
      apply Forall_forall. intros x Hx. rewrite Forall_forall in Ht.
      apply Ht. apply in_map. exact Hx.
    + rewrite Hs. apply ascendingUpTo_nil.
    + eapply ascendingUpTo_ascending. exact Hm'.
Qed.

Lemma foldM_Ok {St A : Type} (step : St -> A -> St) (ts : list A) :
  forall s, foldM (fun s t => Ok (step s t)) ts s = Ok (fold_left step ts s).
Proof.
  induction ts as [|t ts IH]; intros s; simpl; auto.
Qed.

Lemma fold_left_ascending {St A : Type} (errs : St -> list Z) (g : A -> Z)
  (step : St -> A -> St) (ts : list A) (s : St) :
  (forall s t,
      ascendingUpTo (g t) (errs s) -> ascendingUpTo (g t) (errs (step s t))) ->
  StronglySorted Z.le (map g ts) ->
  errs s = [] ->
  ascending (errs (fold_left step ts s)).
Proof.
  intros Hstep Hsorted Hs.
  apply (foldM_ascending errs g (fun s t => Ok (step s t)) ts s); auto.
  - intros s0 t s0' H. injection H as <-. apply Hstep.
  - apply foldM_Ok.
Qed.

(** The loop of [forEachHeading], with its variable [heading]. *)
Lemma forEachHeading_fold_ascending {St : Type} (errs : St -> list Z)
  (callback : St -> Token.t -> jsstring -> St) :
  (forall s h content,
      ascendingUpTo (Token.lineNumber h) (errs s) ->
      ascendingUpTo (Token.lineNumber h) (errs (callback s h content))) ->
  forall ts heading s m,
    StronglySorted Z.le (map Token.lineNumber (filter isHeadingOpen ts)) ->
    Forall (fun t => m <= Token.lineNumber t) (filter isHeadingOpen ts) ->
    ascendingUpTo m (errs s) ->
    (forall h, heading = Some h -> Token.lineNumber h = m) ->
    exists m',
      ascendingUpTo m'
        (errs (snd (fold_left
                      (fun (st : option Token.t * St) token =>
                         let '(heading, s) := st in
                         if String.eqb (Token.type token) "heading_open"
                         then (Some token, s)
                         else if String.eqb (Token.type token) "heading_close"
                         then (None, s)
                         else if String.eqb (Token.type token) "inline" then
                           match heading with
                           | Some h =>
                               (heading, callback s h (Token.content token))
                           | None => st
                           end
                         else st)
                      ts (heading, s)))).
Proof.
  intros Hcb. induction ts as [|t ts IH]; intros heading s m Hsorted Hm Hs Hh.
  - simpl. eauto.
  - cbn [fold_left]. cbn [filter] in Hsorted, Hm. unfold isHeadingOpen in *.
    destruct (String.eqb (Token.type t) "heading_open").
    + simpl in Hsorted.
      inversion Hsorted as [|? ? Hs' Ht]; subst.
      inversion Hm as [|? ? Hmt Hm']; subst.
      apply (IH _ _ (Token.lineNumber t)); auto.
      * apply Forall_forall. intros x Hx. rewrite Forall_forall in Ht.
        apply Ht. apply in_map. exact Hx.
      * apply ascendingUpTo_mono with (m := m); assumption.
      * intros h Hh'. injection Hh' as <-. reflexivity.
    + destruct (String.eqb (Token.type t) "heading_close").
      * apply (IH _ _ m); auto. discriminate.
      * destruct (String.eqb (Token.type t) "inline").
        -- destruct heading as [h|].
           ++ apply (IH _ _ m); auto.
              rewrite <- (Hh h eq_refl). apply Hcb.
              rewrite (Hh h eq_refl). exact Hs.
           ++ apply (IH _ _ m); auto.
        -- apply (IH _ _ m); auto.
Qed.

Lemma StronglySorted_head_bound {A : Type} (g : A -> Z) (l : list A) :
  StronglySorted Z.le (map g l) ->
  Forall (fun t => match l with [] => 0 | h :: _ => g h end <= g t) l.
Proof.
  destruct l as [|h l]; [constructor|]. simpl. intros H.
  inversion H as [|? ? _ Ht]; subst. constructor; [lia|].
  apply Forall_forall. intros x Hx. rewrite Forall_forall in Ht.
  apply Ht. apply in_map. exact Hx.
Qed.

Lemma forEachHeading_ascending {St : Type} (errs : St -> list Z)
  (callback : St -> Token.t -> jsstring -> St) (params : Params.t) (s : St) :
  (forall s h content,
      ascendingUpTo (Token.lineNumber h) (errs s) ->
      ascendingUpTo (Token.lineNumber h) (errs (callback s h content))) ->
  StronglySorted Z.le
    (map Token.lineNumber (filter isHeadingOpen (Params.tokens params))) ->
  errs s = [] ->
  ascending (errs (forEachHeading params callback s)).
Proof.
  intros Hcb Hsorted Hs. unfold forEachHeading.
  destruct (forEachHeading_fold_ascending errs callback Hcb
              (Params.tokens params) None s _ Hsorted
              (StronglySorted_head_bound _ _ Hsorted))
    as [m' Hm'].
  - rewrite Hs. apply ascendingUpTo_nil.
  - discriminate.
  - eapply ascendingUpTo_ascending. exact Hm'.
Qed.

(** The output of [flattenLists] opens in ascending order when the tokens
    do. *)
Lemma StronglySorted_app_cons_inv {A : Type} (R : A -> A -> Prop)
  (a : list A) (x : A) (b : list A) :
  StronglySorted R (a ++ x :: b) -> StronglySorted R (a ++ b).
Proof.
  induction a as [|a0 a IH]; simpl; intros H.
  - inversion H; assumption.
  - inversion H as [|? ? Hs Ha]; subst. constructor; [auto|].
    apply Forall_app in Ha as [Ha1 Ha2]. inversion Ha2; subst.
    apply Forall_app. auto.
Qed.

Lemma completeOpens_sorted (filterBy : option bool) (pend : list ListDesc.t) :
  forall opens,
    StronglySorted Z.le
      (map Token.lineNumber (completeOpens filterBy opens pend)) ->
    StronglySorted Z.le (map Token.lineNumber opens).
Proof.
  induction pend as [|p pend IH]; intros opens H; simpl in H; [exact H|].
  apply IH in H. destruct (keeps filterBy (ListDesc.ordered p)); [|exact H].
  rewrite map_splice in H. unfold splice in H.
  apply StronglySorted_app_cons_inv in H. rewrite firstn_skipn in H. exact H.
Qed.

Lemma filter_sub {A : Type} (p q : A -> bool) (l : list A) :
  (forall x, p x = true -> q x = true) -> filter p l = filter p (filter q l).
Proof.
  intros Hpq. induction l as [|x l IH]; simpl; [reflexivity|].
  destruct (p x) eqn:Ep.
  - rewrite (Hpq x Ep). simpl. rewrite Ep, IH. reflexivity.
  - destruct (q x); simpl; [rewrite Ep|]; exact IH.
Qed.

Lemma flattenLists_sorted (tokens : list Token.t) (filterBy : option bool)
  (lists : list ListDesc.t) :
  flattenLists tokens filterBy = Ok lists ->
  StronglySorted Z.le (map Token.lineNumber (filter isListOpen tokens)) ->
  StronglySorted Z.le
    (map (fun d => Token.lineNumber (ListDesc.open d)) lists).
Proof.
  unfold flattenLists, flattenRun. intros Hrun Hsorted.
  destruct (foldM (flattenStep filterBy) tokens (mkFlat [] [] None None))
    as [st|] eqn:Efold; [|discriminate].
  simpl in Hrun. injection Hrun as <-.
  assert (Hok : pendingOk (mkFlat [] [] None None)) by constructor.
  destruct (flattenRun_opens _ _ _ _ Efold Hok) as [_ Hopens].
  simpl in Hopens.
  rewrite <- map_map.
  apply (completeOpens_sorted filterBy (pending st)).
  rewrite Hopens, (filter_sub (keptOpen filterBy) isListOpen).
  - apply StronglySorted_map_filter. exact Hsorted.
  - unfold keptOpen. intros x Hx. apply andb_prop in Hx as [Hx _]. exact Hx.
Qed.

Lemma StronglySorted_map_pred {A : Type} (g : A -> Z) (l : list A) :
  StronglySorted Z.le (map g l) ->
  StronglySorted Z.le (map (fun t => g t - 1) l).
Proof.
  induction l as [|a l IH]; simpl; intros H; [constructor|].
  inversion H as [|? ? Hs Ha]; subst. constructor; [auto|].
  apply Forall_forall. intros x Hx. apply in_map_iff in Hx as (y & <- & Hy).
  rewrite Forall_forall in Ha. specialize (Ha (g y) (in_map g l y Hy)). lia.
Qed.

Lemma fold_pushIf_same (A : Type) (cond : A -> bool) (n : Z) (xs : list A) :
  forall errors,
    ascendingUpTo n errors ->
    ascendingUpTo n
      (fold_left (fun errors x => pushIf (cond x) errors n) xs errors).
Proof.
  induction xs as [|x xs IH]; intros errors He; simpl; [exact He|].
  apply IH. apply ascendingUpTo_pushIf with (m := n); [exact He | lia].
Qed.

Lemma carriesLineNumber_type (ty : string) (t : Token.t) :
  existsb (String.eqb ty) reportedTypes = true ->
  String.eqb (Token.type t) ty = true ->
  carriesLineNumber t = true.
Proof.
  intros Hty Ht. apply String.eqb_eq in Ht. unfold carriesLineNumber.
  rewrite Ht. exact Hty.
Qed.

Lemma filterTokens_sorted (tokens : list Token.t) (ty : string)
  (tb : option string) :
  existsb (String.eqb ty) reportedTypes = true ->
  match tb with
  | Some b => existsb (String.eqb b) reportedTypes = true
  | None => True
  end ->
  StronglySorted Z.le (reportedLineNumbers tokens) ->
  StronglySorted Z.le (map Token.lineNumber (filterTokens tokens ty tb)).
Proof.
  intros Hty Htb Hsorted. unfold filterTokens.
  rewrite (filter_sub _ carriesLineNumber).
  - apply StronglySorted_map_filter. exact Hsorted.
  - intros t Ht. apply orb_prop in Ht as [Ht | Ht].
    + exact (carriesLineNumber_type ty t Hty Ht).
    + destruct tb as [b|]; [|discriminate].
      exact (carriesLineNumber_type b t Htb Ht).
Qed.

Lemma filter_type_sorted (ty : string) (tokens : list Token.t) :
  existsb (String.eqb ty) reportedTypes = true ->
  StronglySorted Z.le (reportedLineNumbers tokens) ->
  StronglySorted Z.le
    (map Token.lineNumber
       (filter (fun t => String.eqb (Token.type t) ty) tokens)).
Proof.
  intros Hty Hsorted. rewrite (filter_sub _ carriesLineNumber).
  - apply StronglySorted_map_filter. exact Hsorted.
  - intros t Ht. exact (carriesLineNumber_type ty t Hty Ht).
Qed.

Lemma isListOpen_sorted (tokens : list Token.t) :
  StronglySorted Z.le (reportedLineNumbers tokens) ->
  StronglySorted Z.le (map Token.lineNumber (filter isListOpen tokens)).
Proof.
  intros Hsorted. rewrite (filter_sub _ carriesLineNumber).
  - apply StronglySorted_map_filter. exact Hsorted.
  - intros t Ht. unfold isListOpen in Ht. apply orb_prop in Ht as [Ht | Ht].
    + exact (carriesLineNumber_type "bullet_list_open" t eq_refl Ht).
    + exact (carriesLineNumber_type "ordered_list_open" t eq_refl Ht).
Qed.

(** The loop of MD028: only a blockquote opening adds to [errors]. *)
Lemma MD028_fold_ascending (ts : list Token.t) :
  forall (prev : option string) (errors : list Z) (m : Z),
    StronglySorted Z.le (map Token.lineNumber (filter isBlockquoteOpen ts)) ->
    Forall (fun t => m <= Token.lineNumber t - 1) (filter isBlockquoteOpen ts) ->
    ascendingUpTo m errors ->
    exists m',
      ascendingUpTo m'
        (snd (fold_left
                (fun (st : option string * list Z) token =>
                   let '(prevType, errors) := st in
                   (Some (Token.type token),
                    pushIf (String.eqb (Token.type token) "blockquote_open"
                            && match prevType with
                               | Some ty => String.eqb ty "blockquote_close"
                               | None => false
                               end)%bool
                      errors (Token.lineNumber token - 1)))
                ts (prev, errors))).
Proof.
  induction ts as [|t ts IH]; intros prev errors m Hsorted Hm He.
  - simpl. eauto.
  - cbn [fold_left]. cbn [filter] in Hsorted, Hm. unfold isBlockquoteOpen in *.
    destruct (String.eqb (Token.type t) "blockquote_open").
    + simpl in Hsorted.
      inversion Hsorted as [|? ? Hs' Ht]; subst.
      inversion Hm as [|? ? Hmt Hm']; subst.
      apply (IH _ _ (Token.lineNumber t - 1)); auto.
      * apply Forall_forall. intros x Hx. rewrite Forall_forall in Ht.
        specialize (Ht _ (in_map Token.lineNumber _ _ Hx)). lia.
      * apply ascendingUpTo_pushIf with (m := m); assumption.
    + apply (IH _ _ m); auto.
Qed.

(** Every rule that reports the line number of the token at hand reports in
    ascending order when those tokens come in ascending order. *)
Lemma tokenRules_ascending (splitNewLine : jsstring -> list jsstring)
  (name : string) (r : rule) (params : Params.t) (errors : list Z) :
  In (name, r) (tokenRules splitNewLine) ->
  ascending (reportedLineNumbers (Params.tokens params)) ->
  r params = Ok errors ->
  ascending errors.
Proof.
  unfold tokenRules. cbn [In]. intros Hin Hasc Hrun.
  apply ascending_StronglySorted in Hasc.
  pose proof (filterTokens_sorted (Params.tokens params) "heading_open" None
                eq_refl I Hasc) as Hheadings.
  pose proof (filter_type_sorted "heading_open" (Params.tokens params)
                eq_refl Hasc) as Hopen.
  pose proof (isListOpen_sorted _ Hasc) as Hlists.
  repeat (destruct Hin as [Hin | Hin]; [injection Hin as _ <-|]);
    try contradiction.
  - (* MD001 *)
    unfold MD001 in Hrun. injection Hrun as <-.
    apply (fold_left_ascending snd Token.lineNumber);
      [|exact Hheadings|reflexivity].
    intros [prev errs] t He. cbn [snd] in *.
    apply ascendingUpTo_pushIf with (m := Token.lineNumber t); [exact He | lia].
  - (* MD002 *)
    unfold MD002 in Hrun. injection Hrun as <-.
    destruct (find isHeadingOpen (Params.tokens params)) as [t|];
      [|constructor].
    unfold pushIf, push. destruct (negb (Z.eqb (Token.hLevel t) 1)); simpl;
      repeat constructor.
  - (* MD003 *)
    unfold MD003 in Hrun.
    match type of Hrun with
    | bind ?m _ = _ => destruct m as [style|]
    end; simpl in Hrun; [|discriminate].
    apply (foldM_ascending (fun e => e) Token.lineNumber) with (4 := Hrun);
      [|exact Hheadings|reflexivity].
    intros errs t errs' H He.
    destruct (headingStyleFor t); simpl in H; [|discriminate].
    injection H as <-.
    apply ascendingUpTo_pushIf with (m := Token.lineNumber t); [exact He | lia].
  - (* MD006 *)
    unfold MD006 in Hrun.
    destruct (flattenLists (Params.tokens params) (Some false)) as [lists|] eqn:E;
      simpl in Hrun; [|discriminate].
    injection Hrun as <-.
    apply (fold_left_ascending (fun e => e)
             (fun d => Token.lineNumber (ListDesc.open d)));
      [|exact (flattenLists_sorted _ _ _ E Hlists)|reflexivity].
    intros errs d He.
    apply ascendingUpTo_pushIf
      with (m := Token.lineNumber (ListDesc.open d)); [exact He | lia].
  - (* MD007 *)
    unfold MD007 in Hrun.
    destruct (flattenLists (Params.tokens params) (Some false)) as [lists|] eqn:E;
      simpl in Hrun; [|discriminate].
    injection Hrun as <-.
    apply (fold_left_ascending snd
             (fun d => Token.lineNumber (ListDesc.open d)));
      [|exact (flattenLists_sorted _ _ _ E Hlists)|reflexivity].
    intros [prev errs] d He. cbn [snd] in *.
    apply ascendingUpTo_pushIf
      with (m := Token.lineNumber (ListDesc.open d)); [exact He | lia].
  - (* MD011 *)
    unfold MD011 in Hrun. injection Hrun as <-.
    apply (fold_left_ascending (fun e => e) Token.lineNumber);
      [|exact (filterTokens_sorted _ "inline" None eq_refl I Hasc)|reflexivity].
    intros errs t He.
    apply (fold_pushIf_same _
             (fun child => test re_reversedLink (Child.content child))).
    exact He.
  - (* MD014 *)
    unfold MD014 in Hrun. injection Hrun as <-.
    apply (fold_left_ascending (fun e => e) Token.lineNumber);
      [|exact (filterTokens_sorted _ "code_block" (Some "fence"%string)
                 eq_refl eq_refl Hasc)
       |reflexivity].
    intros errs t He.
    apply ascendingUpTo_pushIf with (m := Token.lineNumber t); [exact He | lia].
  - (* MD019 *)
    unfold MD019, eachHeading in Hrun.
    apply (foldM_ascending (fun e => e) Token.lineNumber) with (4 := Hrun);
      [|exact Hheadings|reflexivity].
    intros errs t errs' H He.
    destruct (headingStyleFor t); simpl in H; [|discriminate].
    injection H as <-.
    apply ascendingUpTo_pushIf with (m := Token.lineNumber t); [exact He | lia].
  - (* MD021 *)
    unfold MD021, eachHeading in Hrun.
    apply (foldM_ascending (fun e => e) Token.lineNumber) with (4 := Hrun);
      [|exact Hheadings|reflexivity].
    intros errs t errs' H He.
    destruct (headingStyleFor t); simpl in H; [|discriminate].
    injection H as <-.
    apply ascendingUpTo_pushIf with (m := Token.lineNumber t); [exact He | lia].
  - (* MD023 *)
    unfold MD023 in Hrun. injection Hrun as <-.
    apply (fold_left_ascending (fun e => e) Token.lineNumber);
      [|exact Hheadings|reflexivity].
    intros errs t He.
    apply ascendingUpTo_pushIf with (m := Token.lineNumber t); [exact He | lia].
  - (* MD024 *)
    unfold MD024 in Hrun. injection Hrun as <-.
    apply (forEachHeading_ascending snd); [|exact Hopen|reflexivity].
    intros [known errs] h content He. cbn [snd] in *.
    destruct (negb (existsb (jsstring_eqb content) known)); cbn [snd];
      [exact He|].
    apply ascendingUpTo_push with (m := Token.lineNumber h); [exact He | lia].
  - (* MD025 *)
    rewrite MD025_unfold in Hrun. injection Hrun as <-.
    apply (fold_left_ascending snd Token.lineNumber);
      [|exact Hheadings|reflexivity].
    intros [has errs] t He. unfold MD025_step. cbn [snd] in *.
    destruct (Z.eqb (Token.hLevel t) 1); [|exact He].
    destruct has; cbn [snd].
    + apply ascendingUpTo_push with (m := Token.lineNumber t); [exact He | lia].
    + destruct (Z.eqb (Token.lineNumber t) 1); exact He.
  - (* MD026 *)
    unfold MD026 in Hrun. injection Hrun as <-.
    apply (forEachHeading_ascending (fun e => e)); [|exact Hopen|reflexivity].
    intros errs h content He.
    apply ascendingUpTo_pushIf with (m := Token.lineNumber h); [exact He | lia].
  - (* MD028 *)
    unfold MD028 in Hrun. injection Hrun as <-.
    pose proof (filter_type_sorted "blockquote_open" (Params.tokens params)
                  eq_refl Hasc) as Hbq.
    destruct (MD028_fold_ascending (Params.tokens params) None []
                (match filter isBlockquoteOpen (Params.tokens params) with
                 | [] => 0
                 | h :: _ => Token.lineNumber h
                 end - 1) Hbq) as [m' Hm'].
    + pose proof (StronglySorted_head_bound Token.lineNumber _ Hbq) as Hb.
      eapply Forall_impl; [|exact Hb]. intros t Ht. cbv beta in *.
      unfold isBlockquoteOpen. lia.
    + apply ascendingUpTo_nil.
    + eapply ascendingUpTo_ascending. exact Hm'.
Qed.

(** The content lines of one inline token, reported from [base] on. *)
Lemma foldi_offsets_ascending (cond : jsstring -> Z -> bool) (base : Z)
  (ls : list jsstring) :
  forall (offset : Z) (errors : list Z),
    ascendingUpTo (base + offset - 1) errors ->
    ascendingUpTo (base + offset + Z.of_nat (List.length ls) - 1)
      (foldi (fun errors line offset =>
                pushIf (cond line offset) errors (base + offset))
             ls offset errors).
Proof.
  induction ls as [|line ls IH]; intros offset errors He.
  - simpl. rewrite Z.add_0_r. exact He.
  - cbn [foldi List.length].
    replace (base + offset + Z.of_nat (S (List.length ls)) - 1)
      with (base + (offset + 1) + Z.of_nat (List.length ls) - 1) by lia.
    apply IH.
    replace (base + (offset + 1) - 1) with (base + offset) by lia.
    apply ascendingUpTo_pushIf with (m := base + offset - 1); [exact He | lia].
Qed.

(** The loop of MD027. *)
Lemma MD027_fold_ascending (splitNewLine : jsstring -> list jsstring)
  (ts : list Token.t) :
  forall (inBlockquote : bool) (errors : list Z) (m : Z),
    inlinesInSequence splitNewLine ts ->
    Forall (fun t => m <= Token.lineNumber t - 1) (filter isInline ts) ->
    ascendingUpTo m errors ->
    exists m',
      ascendingUpTo m'
        (snd (fold_left
                (fun (st : bool * list Z) token =>
                   let '(inBlockquote, errors) := st in
                   if String.eqb (Token.type token) "blockquote_open" then
                     (true, errors)
                   else if String.eqb (Token.type token) "blockquote_close"
                   then (false, errors)
                   else if (String.eqb (Token.type token) "inline"
                            && inBlockquote)%bool then
                     (inBlockquote,
                      foldi (fun errors line offset =>
                               pushIf (test re_leadingSpace line
                                       || (Z.eqb offset 0
                                           && test re_quoteTwoSpaces
                                                (Token.line token)))%bool
                                 errors (Token.lineNumber token + offset))
                            (splitNewLine (Token.content token)) 0 errors)
                   else st)
                ts (inBlockquote, errors))).
Proof.
  unfold inlinesInSequence.
  induction ts as [|t ts IH]; intros inBlockquote errors m Hseq Hm He.
  - simpl. eauto.
  - cbn [fold_left]. cbn [filter] in Hseq, Hm. unfold isInline in *.
    destruct (String.eqb (Token.type t) "blockquote_open") eqn:Eopen.
    + apply String.eqb_eq in Eopen. rewrite Eopen in Hseq, Hm.
      simpl in Hseq, Hm. apply (IH _ _ m); auto.
    + destruct (String.eqb (Token.type t) "blockquote_close") eqn:Eclose.
      * apply String.eqb_eq in Eclose. rewrite Eclose in Hseq, Hm.
        simpl in Hseq, Hm. apply (IH _ _ m); auto.
      * destruct (String.eqb (Token.type t) "inline") eqn:Einline.
        -- inversion Hseq as [|? ? Hseq' Ht]; subst.
           inversion Hm as [|? ? Hmt Hm']; subst.
           destruct inBlockquote; cbn [andb].
           ++ apply (IH _ _
                       (Token.lineNumber t + 0
                        + Z.of_nat (List.length (splitNewLine (Token.content t)))
                        - 1)); auto.
              ** eapply Forall_impl; [|exact Ht]. intros x Hx. cbv beta in *.
                 lia.
              ** apply (foldi_offsets_ascending
                          (fun line offset =>
                             (test re_leadingSpace line
                              || (Z.eqb offset 0
                                  && test re_quoteTwoSpaces (Token.line t)))%bool)).
                 apply ascendingUpTo_mono with (m := m); [exact He | lia].
           ++ apply (IH _ _ m); auto.
        -- cbn [andb]. apply (IH _ _ m); auto.
Qed.

Lemma MD027_ascending (splitNewLine : jsstring -> list jsstring)
  (params : Params.t) (errors : list Z) :
  inlinesInSequence splitNewLine (Params.tokens params) ->
  MD027 splitNewLine params = Ok errors ->
  ascending errors.
Proof.
  intros Hseq Hrun. unfold MD027 in Hrun. injection Hrun as <-.
  destruct (MD027_fold_ascending splitNewLine (Params.tokens params) false []
              (match filter isInline (Params.tokens params) with
               | [] => 0
               | h :: _ => Token.lineNumber h
               end - 1) Hseq) as [m' Hm'].
  - unfold inlinesInSequence in Hseq.
    destruct (filter isInline (Params.tokens params)) as [|h rest];
      [constructor|].
    inversion Hseq as [|? ? _ Hh]; subst. constructor; [lia|].
    eapply Forall_impl; [|exact Hh]. intros x Hx. cbv beta in *. lia.
  - apply ascendingUpTo_nil.
  - eapply ascendingUpTo_ascending. exact Hm'.
Qed.

(** C4 (amended): a rule reports line numbers in the order of its traversal.
    The rules that scan the lines report in ascending order on every input.
    The rules that report the line number of the token at hand report in
    ascending order whenever the tokens of the types they report (headings,
    list openings, inlines, code blocks, blockquote openings) come with
    ascending line numbers.  MD027 reports in ascending order whenever every
    inline token starts after the last content line of the inline tokens
    before it.  Nothing is said of the rules on list items nor of MD022. *)
Theorem C4_ascending_by_traversal :
  (forall name (r : rule) params errors,
      In (name, r) lineRules -> r params = Ok errors -> ascending errors)
  /\ (forall splitNewLine name (r : rule) params errors,
         In (name, r) (tokenRules splitNewLine) ->
         ascending (reportedLineNumbers (Params.tokens params)) ->
         r params = Ok errors ->
         ascending errors)
  /\ (forall splitNewLine params errors,
         inlinesInSequence splitNewLine (Params.tokens params) ->
         MD027 splitNewLine params = Ok errors ->
         ascending errors).
Proof.
  split; [|split].
  - intros name r params errors. apply lineRules_ascending.
  - intros splitNewLine name r params errors. apply tokenRules_ascending.
  - intros splitNewLine params errors. apply MD027_ascending.
Qed.

(** MD032 on a list that follows text at once, MD025 on a document with
    three level-1 headings, and MD027 on a blockquote of two lines. *)
Lemma C4_ascending_witness :
  ascending [2; 2]
  /\ ascending [3; 7]
  /\ ascending [1; 2].
Proof.
  destruct C4_ascending_by_traversal as (Hlines & Htokens & Hquote).
  split; [|split].
  - apply (Hlines "MD032"%string MD032
             (Params.mk [] [lit "text"; lit "- a"; lit "more"] Options.none)).
    + unfold lineRules. cbn [In]. do 7 right. left. reflexivity.
    + reflexivity.
  - apply (Htokens splitLineBreaks "MD025"%string MD025
             (Params.mk
                [headingToken 1 0 1 (lit "# Title"); closeToken "heading_close";
                 headingToken 1 2 3 (lit "# One"); closeToken "heading_close";
                 headingToken 1 6 7 (lit "# Two"); closeToken "heading_close"]
                [] Options.none)).
    + unfold tokenRules. cbn [In]. do 11 right. left. reflexivity.
    + vm_compute. repeat constructor; discriminate.
    + reflexivity.
  - apply (Hquote splitLineBreaks quoteWithSpaces).
    + unfold inlinesInSequence. simpl. repeat constructor.
    + reflexivity.
Defined.

(** C4 as stated fails: in an ordered list numbered 1, 2 with a nested list
    numbered 1, 2, MD029 (style "one") reports the outer item on line 4
    before the nested item on line 3. *)
Lemma C4_ascending_as_stated_counterexample :
  ~ (forall splitNewLine name (r : rule) params errors,
        In (name, r) (rules splitNewLine) ->
        r params = Ok errors ->
        ascending errors).
Proof.
  intros Hclaim.
  assert (H : ascending [4; 3]).
  { apply (Hclaim splitLineBreaks "MD029"%string MD029 nestedOrderedLists).
    - unfold rules. cbn [In]. do 24 right. left. reflexivity.
    - reflexivity. }
  inversion H as [|? ? _ Hhd]; subst. inversion Hhd; subst. lia.
Qed.

(** MD022 itself can report out of order: the heading [# ===] directly under
    a paragraph is reported by its line number 2, and then its text, which
    looks like an underline, by its 0-based line index 1. *)
Lemma MD022_headingOfEquals :
  MD022 splitLineBreaks headingOfEquals = Ok [2; 1].
Proof. reflexivity. Qed.

(** ** A list item that is a bare marker *)

(** C1: MD030 fails on a list item line without whitespace after its marker.
    On the document of a paragraph, a blank line and the bare marker [-], the
    marker pattern does not match the line of the item, and MD030, which
    reads group 1 of the match without testing it, throws under every
    configuration; MD004 and MD005 return on the same document and report
    nothing. *)
Theorem C1_MD030_throws_on_bare_marker :
  test re_markerSpaces (lit "-") = false
  /\ (forall options,
         MD030 (Params.mk (Params.tokens listWithBareMarker)
                  (Params.lines listWithBareMarker) options)
         = TypeError)
  /\ MD004 listWithBareMarker = Ok []
  /\ MD005 listWithBareMarker = Ok [].
Proof.
  split; [reflexivity|]. split; [|split; reflexivity].
  intros options. reflexivity.
Qed.

(** * Further properties of the helpers and of the rules *)

(** ** [forEachLine] *)

Lemma Lang_Text (t s : jsstring) : Lang (Text t) s <-> s = t.
Proof.
  revert s. induction t as [|c t IH]; intros s; simpl.
  - apply Lang_Eps_inv.
  - rewrite Lang_Cat_inv. split.
    + intros (s1 & s2 & -> & H1 & H2).
      apply Lang_Chr_inv in H1 as (d & -> & Hd). apply N.eqb_eq in Hd.
      apply IH in H2. subst. reflexivity.
    + intros ->. exists [c], t. split; [reflexivity|]. split.
      * constructor. apply N.eqb_refl.
      * apply IH. reflexivity.
Qed.

Lemma test_fence (line : jsstring) :
  test re_fence line = true <-> fenceLine line.
Proof.
  rewrite test_spec. unfold fenceLine, startsWith, re_fence.
  cbn [p_bol p_body p_eol]. split.
  - intros (pre & mid & post & -> & Hmid & Hpre & _).
    rewrite Hpre by reflexivity. cbn [app].
    apply Lang_Alt_inv in Hmid as [Hmid | Hmid]; apply Lang_Text in Hmid;
      subst mid; [left | right]; exists post; reflexivity.
  - intros [[rest ->] | [rest ->]].
    + exists [], (lit "```"), rest. split; [reflexivity|].
      split; [apply LAltL; apply Lang_Text; reflexivity|].
      split; [auto | discriminate].
    + exists [], (lit "~~~"), rest. split; [reflexivity|].
      split; [apply LAltR; apply Lang_Text; reflexivity|].
      split; [auto | discriminate].
Qed.

(** The callback of [forEachLine] is called once per line, in order, with the
    line, its index, whether it lies in a code region and whether it is a
    fence delimiter. *)
Theorem forEachLine_calls (params : Params.t) (calls : list LineCtx) :
  classification params = Ok calls ->
  List.length calls = List.length (Params.lines params)
  /\ forall (k : nat) line,
       nth_error (Params.lines params) k = Some line ->
       exists c,
         nth_error calls k = Some c
         /\ lc_line c = line /\ lc_index c = Z.of_nat k
         /\ (lc_onFence c = true <-> fenceLine line)
         /\ (lc_inCode c = true <-> insideCode params k).
Proof.
  rewrite classification_classify.
  destruct (codeLinesOf (Params.tokens params)) as [codeLines|] eqn:Ecl;
    simpl; [|discriminate].
  intros H. injection H as <-. split; [apply classify_length|].
  intros k line Hk. eexists. split; [apply (classify_nth0 _ _ _ _ Hk)|].
  cbv beta match delta [lc_line lc_index lc_inCode lc_onFence].
  split; [reflexivity|]. split; [reflexivity|]. split.
  - apply test_fence.
  - apply insideCode_spec. exact Ecl.
Qed.

Lemma forEachLine_calls_witness :
  List.length
    [mkCtx (lit "text") 0 false false; mkCtx (lit "```") 1 true true;
     mkCtx (lit "code") 2 true false; mkCtx (lit "```") 3 false true;
     mkCtx (lit "more") 4 false false]
  = List.length (Params.lines fencedBlockTight).
Proof.
  apply (proj1 (forEachLine_calls fencedBlockTight _ eq_refl)).
Defined.

Lemma codeBlocks_cases (tokens : list Token.t) :
  codeBlocksHaveLines tokens \/ codeBlockWithoutLines tokens.
Proof.
  unfold codeBlocksHaveLines, codeBlockWithoutLines.
  induction tokens as [|t tokens IH].
  - left. intros t [].
  - destruct IH as [IH | (t' & Hin & Hty & Hl)].
    + destruct (String.eqb (Token.type t) "code_block") eqn:Ety.
      * apply String.eqb_eq in Ety.
        destruct (Token.lines t) as [r|] eqn:El.
        -- left. intros t' [<- | Hin] Hty; [congruence | auto].
        -- right. exists t. simpl. auto.
      * apply String.eqb_neq in Ety.
        left. intros t' [<- | Hin] Hty; [contradiction | auto].
    + right. exists t'. simpl. auto.
Qed.

Lemma codeLinesOf_throws (tokens : list Token.t) :
  codeLinesOf tokens = TypeError <-> codeBlockWithoutLines tokens.
Proof.
  unfold codeBlockWithoutLines. split.
  - intros H.
    destruct (codeBlocks_cases tokens) as [Hall | Hbad]; [|exact Hbad].
    destruct (codeLinesOf_total tokens Hall) as [cl Hcl]. congruence.
  - intros (t & Hin & Hty & Hl).
    destruct (codeLinesOf tokens) as [cl|] eqn:E; [|reflexivity].
    exfalso. unfold codeLinesOf in E.
    assert (Hf : In t (filterTokens tokens "code_block" None))
      by (apply filterTokens_In; auto).
    revert E. generalize (@nil Z).
    induction (filterTokens tokens "code_block" None) as [|t' ts IH];
      intros acc E; [contradiction|].
    simpl in E. destruct Hf as [-> | Hf].
    + rewrite Hl in E. discriminate.
    + destruct (Token.lines t') as [[a b]|]; [|discriminate].
      simpl in E. exact (IH Hf _ E).
Qed.

Lemma forEachLine_throws {St : Type} (params : Params.t)
  (callback : St -> jsstring -> Z -> bool -> bool -> St) (s : St) :
  forEachLine params callback s = TypeError
  <-> codeBlockWithoutLines (Params.tokens params).
Proof.
  rewrite <- codeLinesOf_throws. unfold forEachLine.
  destruct (codeLinesOf (Params.tokens params)); simpl; split;
    auto; discriminate.
Qed.

Lemma bind_throws {A B : Type} (m : result A) (f : A -> B) :
  (x <- m ;; Ok (f x)) = TypeError <-> m = TypeError.
Proof.
  destruct m; simpl; split; auto; discriminate.
Qed.

(** The rules that go through [forEachLine] throw exactly when a code-block
    token has no line range; the rules that test each line on its own never
    throw. *)
Theorem lineRules_throw_on_code_block_without_lines :
  (forall name (r : rule) params,
      In (name, r) classifiedLineRules ->
      (r params = TypeError <-> codeBlockWithoutLines (Params.tokens params)))
  /\ (forall name (r : rule) params,
         In (name, r) plainLineRules -> exists errors, r params = Ok errors).
Proof.
  split.
  - intros name r params Hin. unfold classifiedLineRules in Hin. cbn [In] in Hin.
    repeat (destruct Hin as [Hin | Hin]; [injection Hin as _ <-|]);
      try contradiction.
    + rewrite MD012_unfold, bind_throws. apply forEachLine_throws.
    + apply forEachLine_throws.
    + apply forEachLine_throws.
    + apply forEachLine_throws.
    + unfold MD032. rewrite bind_throws. apply forEachLine_throws.
  - intros name r params Hin. unfold plainLineRules in Hin. cbn [In] in Hin.
    repeat (destruct Hin as [Hin | Hin]; [injection Hin as _ <-|]);
      try contradiction; eexists; reflexivity.
Qed.

(** MD018 on a code block that lost its line range, and MD009 on any input. *)
Lemma lineRules_throw_witness :
  (MD018 (Params.mk [Token.mk "code_block" None [] 0 0 [] []] [lit "#a"]
            Options.none) = TypeError
   <-> codeBlockWithoutLines [Token.mk "code_block" None [] 0 0 [] []])
  /\ exists errors, MD009 fencedBlockTight = Ok errors.
Proof.
  destruct lineRules_throw_on_code_block_without_lines as [Hthrow Hplain].
  split.
  - apply (Hthrow "MD018"%string MD018
             (Params.mk [Token.mk "code_block" None [] 0 0 [] []] [lit "#a"]
                Options.none)).
    unfold classifiedLineRules. cbn [In]. right. left. reflexivity.
  - apply (Hplain "MD009"%string). unfold plainLineRules. cbn [In].
    left. reflexivity.
Defined.

(** ** MD009, MD010, MD012, MD018 *)

Lemma test_trailingSpace (line : jsstring) :
  test re_trailingSpace line = true <-> endsInSpace line.
Proof.
  rewrite test_spec. unfold endsInSpace, re_trailingSpace.
  cbn [p_bol p_body p_eol]. split.
  - intros (pre & mid & post & -> & Hmid & _ & Hpost).
    rewrite Hpost by reflexivity.
    apply Lang_Chr_inv in Hmid as (c & -> & Hc).
    exists pre, c. rewrite app_nil_r. auto.
  - intros (front & c & -> & Hc). exists front, [c], [].
    split; [reflexivity|]. split; [constructor; exact Hc|].
    split; [discriminate | auto].
Qed.

Lemma test_tab (line : jsstring) : test re_tab line = true <-> hasTab line.
Proof.
  rewrite test_spec. unfold hasTab, re_tab. cbn [p_bol p_body p_eol]. split.
  - intros (pre & mid & post & -> & Hmid & _ & _).
    apply Lang_Chr_inv in Hmid as (c & -> & Hc). apply N.eqb_eq in Hc. subst c.
    apply in_app_iff. right. left. reflexivity.
  - intros H. apply in_split in H as (pre & post & ->).
    exists pre, [9%N], post. split; [reflexivity|].
    split; [constructor; reflexivity|]. split; discriminate.
Qed.

(** MD009 flags exactly the lines that end in a whitespace character,
    whether or not they lie in a code region. *)
Lemma MD009_In (params : Params.t) :
  exists errors,
    MD009 params = Ok errors
    /\ forall k : nat,
         In (Z.of_nat k + 1) errors
         <-> exists line,
               nth_error (Params.lines params) k = Some line
               /\ endsInSpace line.
Proof.
  destruct (eachLineMatching_In re_trailingSpace params) as (errors & Hrun & Hin).
  exists errors. split; [exact Hrun|]. intros k. rewrite Hin.
  split; intros (line & Hk & Ht); exists line; (split; [exact Hk|]);
    apply test_trailingSpace; exact Ht.
Qed.

(** MD010 flags exactly the lines that hold a tab character. *)
Lemma MD010_In (params : Params.t) :
  exists errors,
    MD010 params = Ok errors
    /\ forall k : nat,
         In (Z.of_nat k + 1) errors
         <-> exists line,
               nth_error (Params.lines params) k = Some line /\ hasTab line.
Proof.
  destruct (eachLineMatching_In re_tab params) as (errors & Hrun & Hin).
  exists errors. split; [exact Hrun|]. intros k. rewrite Hin.
  split; intros (line & Hk & Ht); exists line; (split; [exact Hk|]);
    apply test_tab; exact Ht.
Qed.

(** MD012 flags exactly the blank lines outside code regions whose previous
    line is blank too; every number it reports is the number of a line other
    than the first. *)
Theorem MD012_flags_blank_after_blank (params : Params.t) (errors : list Z) :
  MD012 params = Ok errors ->
  (forall n, In n errors ->
             exists k : nat,
               n = Z.of_nat k + 1
               /\ (1 <= k < List.length (Params.lines params))%nat)
  /\ forall k : nat,
       In (Z.of_nat k + 1) errors
       <-> exists p line prev,
             k = S p /\ nth_error (Params.lines params) k = Some line
             /\ nth_error (Params.lines params) p = Some prev
             /\ whitespaceOnly line /\ whitespaceOnly prev
             /\ ~ insideCode params k.
Proof.
  intros Hrun. split; [|apply MD012_In; exact Hrun].
  intros n Hn. rewrite MD012_unfold in Hrun. unfold forEachLine in Hrun.
  destruct (codeLinesOf (Params.tokens params)) as [codeLines|];
    simpl in Hrun; [|discriminate].
  injection Hrun as <-. rewrite forLines_classify in Hn.
  apply MD012_fold_In in Hn as [[] | (k & c & pv & Hk & Hp & Hn & _ & _ & Hpn)].
  destruct (classify_nth_inv _ _ _ _ _ _ Hk) as [line Hline].
  rewrite (classify_nth0 _ _ _ _ Hline) in Hk.
  assert (Hc : lc_index c = Z.of_nat k) by (injection Hk as <-; reflexivity).
  exists k. split; [lia|]. split.
  - destruct k as [|k]; [|lia]. simpl in Hp. injection Hp as <-. discriminate.
  - apply nth_error_Some. congruence.
Qed.

Lemma MD012_flags_blank_after_blank_witness :
  In (Z.of_nat 10 + 1) [11; 12]
  <-> exists p line prev,
        10%nat = S p
        /\ nth_error (Params.lines threeBlankLines) 10 = Some line
        /\ nth_error (Params.lines threeBlankLines) p = Some prev
        /\ whitespaceOnly line /\ whitespaceOnly prev
        /\ ~ insideCode threeBlankLines 10.
Proof.
  apply (proj2 (MD012_flags_blank_after_blank threeBlankLines [11; 12]
                  eq_refl)).
Defined.

(** MD018 flags exactly the lines outside code regions that start with
    hashes immediately followed by a character that is neither a hash nor
    whitespace, and that do not end in a hash. *)
Lemma MD018_In (params : Params.t) (errors : list Z) :
  MD018 params = Ok errors ->
  forall k : nat,
    In (Z.of_nat k + 1) errors
    <-> exists line,
          nth_error (Params.lines params) k = Some line
          /\ ~ insideCode params k /\ hashesThenText line /\ ~ endsInHash line.
Proof.
  unfold MD018. rewrite forEachLine_pushIf.
  destruct (codeLinesOf (Params.tokens params)) as [codeLines|] eqn:Ecl;
    simpl; [|discriminate].
  intros H k. injection H as <-. rewrite flagged_classify_In.
  split.
  - intros (k' & line & Hk & Heq & Hcond).
    assert (k' = k) by lia. subst k'. exists line. split; [exact Hk|].
    apply andb_prop in Hcond as [Hcond Hend].
    apply andb_prop in Hcond as [Hin Hstart].
    apply negb_true_iff in Hin, Hend.
    split; [|split].
    + rewrite <- (insideCode_spec _ _ _ Ecl). congruence.
    + apply test_hashNoSpace. exact Hstart.
    + rewrite <- test_endHash. congruence.
  - intros (line & Hk & Hout & Hstart & Hend).
    exists k, line. split; [exact Hk|]. split; [reflexivity|].
    rewrite <- (insideCode_spec _ _ _ Ecl) in Hout.
    apply not_true_is_false in Hout. rewrite Hout.
    apply test_hashNoSpace in Hstart. rewrite Hstart.
    rewrite <- test_endHash in Hend. apply not_true_is_false in Hend.
    rewrite Hend. reflexivity.
Qed.

(** ** [indentFor], [headingStyleFor], [unorderedListStyleFor] *)

Lemma trimLeft_app (leading rest : jsstring) :
  whitespaceOnly leading -> noLeadingSpace rest ->
  trimLeft (leading ++ rest) = rest.
Proof.
  intros Hws Hrest. induction Hws as [|c leading Hc Hws IH]; simpl.
  - destruct Hrest as [-> | (c & r & -> & Hc)]; simpl; [reflexivity|].
    rewrite Hc. reflexivity.
  - rewrite Hc. exact IH.
Qed.

Lemma trimLeft_split (s : jsstring) :
  exists leading,
    s = leading ++ trimLeft s /\ whitespaceOnly leading
    /\ noLeadingSpace (trimLeft s).
Proof.
  induction s as [|c s (leading & Hs & Hws & Hrest)]; simpl.
  - exists []. repeat split; [constructor | left; reflexivity].
  - destruct (isSpace c) eqn:Ec.
    + exists (c :: leading). simpl. rewrite <- Hs.
      repeat split; [constructor; assumption | exact Hrest].
    + exists []. repeat split; [constructor|].
      right. exists c, s. auto.
Qed.

(** [indentFor] counts the whitespace characters in front of the first
    character that is not whitespace; on a blank line it is the length of the
    line. *)
Lemma indentFor_spec (token : Token.t) :
  (exists leading rest,
      Token.line token = leading ++ rest /\ whitespaceOnly leading
      /\ noLeadingSpace rest)
  /\ forall leading rest,
       Token.line token = leading ++ rest ->
       whitespaceOnly leading ->
       noLeadingSpace rest ->
       indentFor token = Z.of_nat (List.length leading).
Proof.
  split.
  - destruct (trimLeft_split (Token.line token)) as (leading & Hs & Hws & Hr).
    exists leading, (trimLeft (Token.line token)). auto.
  - intros leading rest Hline Hws Hrest. unfold indentFor.
    rewrite Hline, (trimLeft_app _ _ Hws Hrest), length_app. lia.
Qed.

Lemma test_closedHash (line : jsstring) :
  test re_closedHash line = true <-> closedHashLine line.
Proof.
  rewrite test_spec. unfold closedHashLine, re_closedHash.
  cbn [p_bol p_body p_eol]. split.
  - intros (pre & mid & post & -> & Hmid & _ & Hpost).
    rewrite Hpost by reflexivity. rewrite app_nil_r.
    apply Lang_Cat_inv in Hmid as (s1 & ws & -> & H1 & H2).
    apply Lang_Chr_inv in H1 as (c & -> & Hc). apply N.eqb_eq in Hc. subst c.
    apply Lang_Star_Chr in H2.
    exists pre, ws. split; [reflexivity|].
    apply Forall_forall. rewrite forallb_forall in H2. exact H2.
  - intros (front & ws & -> & Hws). exists front, (code "#" :: ws), [].
    split; [rewrite app_nil_r; reflexivity|]. split.
    + change (code "#" :: ws) with ([code "#"] ++ ws).
      constructor; [constructor; apply N.eqb_refl|].
      apply Lang_Star_Chr. apply forallb_forall.
      unfold whitespaceOnly in Hws. rewrite Forall_forall in Hws. exact Hws.
    + split; [discriminate | auto].
Qed.

(** [headingStyleFor] throws on a token without a line range; otherwise the
    style is setext unless the token spans exactly one line, and on one line
    it is atx_closed exactly when the line ends in a hash followed by
    whitespace only. *)
Theorem headingStyleFor_cases (token : Token.t) :
  (Token.lines token = None -> headingStyleFor token = TypeError)
  /\ (forall l0 l1,
         Token.lines token = Some (l0, l1) -> l1 - l0 <> 1 ->
         headingStyleFor token = Ok "setext"%string)
  /\ (forall l0 l1,
         Token.lines token = Some (l0, l1) -> l1 - l0 = 1 ->
         (closedHashLine (Token.line token) ->
          headingStyleFor token = Ok "atx_closed"%string)
         /\ (~ closedHashLine (Token.line token) ->
             headingStyleFor token = Ok "atx"%string)).
Proof.
  unfold headingStyleFor, lines1, lines0. split; [|split].
  - intros ->. reflexivity.
  - intros l0 l1 -> Hspan. simpl.
    destruct (Z.eqb (l1 - l0) 1) eqn:E; [|reflexivity].
    apply Z.eqb_eq in E. contradiction.
  - intros l0 l1 -> Hspan. simpl. rewrite Hspan. simpl. split.
    + intros H. apply test_closedHash in H. rewrite H. reflexivity.
    + intros H. rewrite <- test_closedHash in H.
      apply not_true_is_false in H. rewrite H. reflexivity.
Qed.

Lemma headingStyleFor_cases_witness :
  headingStyleFor (headingToken 2 0 1 (lit "## Title ## "))
  = Ok "atx_closed"%string
  /\ headingStyleFor (headingToken 1 0 2 (lit "Title")) = Ok "setext"%string.
Proof.
  split.
  - apply (proj1 (proj2 (proj2 (headingStyleFor_cases
                                  (headingToken 2 0 1 (lit "## Title ## "))))
                    0 1 eq_refl eq_refl)).
    exists (lit "## Title #"), (lit " "). split; [reflexivity|].
    repeat constructor.
  - apply (proj1 (proj2 (headingStyleFor_cases
                           (headingToken 1 0 2 (lit "Title")))) 0 2 eq_refl).
    discriminate.
Defined.

(** [unorderedListStyleFor] looks at the first character after the leading
    whitespace: a hyphen gives dash, a plus sign gives plus, and anything
    else, a blank line included, gives asterisk. *)
Lemma unorderedListStyleFor_spec (token : Token.t)
  (leading rest : jsstring) :
  Token.line token = leading ++ rest ->
  whitespaceOnly leading ->
  noLeadingSpace rest ->
  (forall r, rest = code "-" :: r ->
             unorderedListStyleFor token = "dash"%string)
  /\ (forall r, rest = code "+" :: r ->
                unorderedListStyleFor token = "plus"%string)
  /\ (rest = [] \/ (exists c r, rest = c :: r /\ c <> code "-" /\ c <> code "+")
      -> unorderedListStyleFor token = "asterisk"%string).
Proof.
  intros Hline Hws Hrest. unfold unorderedListStyleFor, substr01.
  rewrite Hline, (trimLeft_app _ _ Hws Hrest). split; [|split].
  - intros r ->. reflexivity.
  - intros r ->. reflexivity.
  - intros [-> | (c & r & -> & Hdash & Hplus)]; [reflexivity|].
    cbn [firstn jsstring_eqb lit map list_ascii_of_string].
    apply N.eqb_neq in Hdash, Hplus.
    unfold code in *. rewrite Hdash, Hplus. reflexivity.
Qed.

(** ** Rules over the heading tokens *)

Lemma fold_pushIf_map_filter {A : Type} (c : A -> bool) (g : A -> Z)
  (ts : list A) :
  forall acc,
    fold_left (fun errors t => pushIf (c t) errors (g t)) ts acc
    = acc ++ map g (filter c ts).
Proof.
  induction ts as [|t ts IH]; intros acc; simpl.
  - rewrite app_nil_r. reflexivity.
  - rewrite IH. unfold pushIf, push. destruct (c t); simpl.
    + rewrite <- app_assoc. reflexivity.
    + reflexivity.
Qed.

(** A loop that remembers a summary of the previous element and tests each
    element against it: the elements reported are the second halves of the
    adjacent pairs that pass the test, or the first element against the
    initial summary. *)
Lemma adjacent_fold_In {A P : Type} (summ : A -> P) (cond : P -> A -> bool)
  (g : A -> Z) (ts : list A) :
  forall (p0 : P) (errors : list Z) (n : Z),
    In n (snd (fold_left
                 (fun (st : P * list Z) t =>
                    let '(p, errors) := st in
                    (summ t, pushIf (cond p t) errors (g t)))
                 ts (p0, errors)))
    <-> In n errors
        \/ (exists b post, ts = b :: post /\ cond p0 b = true /\ g b = n)
        \/ (exists pre a b post,
               ts = pre ++ a :: b :: post
               /\ cond (summ a) b = true /\ g b = n).
Proof.
  induction ts as [|t ts IH]; intros p0 errors n.
  - simpl. split; [auto|].
    intros [H | [(b & post & H & _) | (pre & a & b & post & H & _)]];
      [exact H | discriminate | destruct pre; discriminate].
  - cbn [fold_left]. rewrite IH. unfold pushIf, push. split.
    + intros [Hacc | [(b & post & -> & Hc & Hg) | (pre & a & b & post & -> & Hc & Hg)]].
      * destruct (cond p0 t) eqn:E; [|auto].
        apply in_app_iff in Hacc as [Hacc | [<- | []]]; [auto|].
        right. left. exists t, ts. auto.
      * right. right. exists [], t, b, post. auto.
      * right. right. exists (t :: pre), a, b, post. auto.
    + intros [Hacc | [(b & post & Heq & Hc & Hg) | (pre & a & b & post & Heq & Hc & Hg)]].
      * left. destruct (cond p0 t); [apply in_app_iff|]; auto.
      * injection Heq as <- <-. left. rewrite Hc. apply in_app_iff.
        right. left. exact Hg.
      * destruct pre as [|x pre]; simpl in Heq; injection Heq as <- ->.
        -- right. left. exists b, post. auto.
        -- right. right. exists pre, a, b, post. auto.
Qed.

(** MD001 flags a heading exactly when the heading before it has a level
    other than zero and the level rises by more than one from it; the first
    heading is never flagged. *)
Theorem MD001_flags_level_jumps (params : Params.t) :
  exists errors,
    MD001 params = Ok errors
    /\ forall n,
         In n errors
         <-> exists pre a b post,
               headingsOf params = pre ++ a :: b :: post
               /\ Token.hLevel a <> 0
               /\ Token.hLevel a + 1 < Token.hLevel b
               /\ Token.lineNumber b = n.
Proof.
  unfold MD001. eexists. split; [reflexivity|]. intros n.
  rewrite (adjacent_fold_In Token.hLevel
             (fun p t => (negb (Z.eqb p 0) && (Token.hLevel t >? p + 1))%bool)
             Token.lineNumber).
  unfold headingsOf. split.
  - intros [[] | [(b & post & _ & Hc & _) | (pre & a & b & post & Heq & Hc & Hg)]].
    + discriminate.
    + exists pre, a, b, post. apply andb_prop in Hc as [Ha Hb].
      apply negb_true_iff, Z.eqb_neq in Ha. apply Z.gtb_lt in Hb.
      repeat split; auto.
  - intros (pre & a & b & post & Heq & Ha & Hb & Hg).
    right. right. exists pre, a, b, post. split; [exact Heq|].
    split; [|exact Hg]. apply andb_true_intro. split.
    + apply negb_true_iff, Z.eqb_neq. exact Ha.
    + apply Z.gtb_lt. exact Hb.
Qed.

Lemma find_first {A : Type} (p : A -> bool) (pre : list A) (h : A)
  (post : list A) :
  (forall x, In x pre -> p x = false) -> p h = true ->
  find p (pre ++ h :: post) = Some h.
Proof.
  intros Hpre Hh. induction pre as [|x pre IH]; simpl.
  - rewrite Hh. reflexivity.
  - rewrite (Hpre x (or_introl eq_refl)). apply IH.
    intros y Hy. apply Hpre. right. exact Hy.
Qed.

Lemma find_none_all {A : Type} (p : A -> bool) (l : list A) :
  (forall x, In x l -> p x = false) -> find p l = None.
Proof.
  intros H. induction l as [|x l IH]; simpl; [reflexivity|].
  rewrite (H x (or_introl eq_refl)). apply IH.
  intros y Hy. apply H. right. exact Hy.
Qed.

(** MD002 looks at the first heading only: it reports that heading's line
    when its level is not 1, and nothing when the document has no heading. *)
Theorem MD002_checks_first_heading_only (params : Params.t) :
  ((forall t, In t (Params.tokens params) -> isHeadingOpen t = false) ->
   MD002 params = Ok [])
  /\ forall pre h post,
       Params.tokens params = pre ++ h :: post ->
       (forall t, In t pre -> isHeadingOpen t = false) ->
       isHeadingOpen h = true ->
       (Token.hLevel h = 1 -> MD002 params = Ok [])
       /\ (Token.hLevel h <> 1 -> MD002 params = Ok [Token.lineNumber h]).
Proof.
  unfold MD002. split.
  - intros Hno. rewrite (find_none_all _ _ Hno). reflexivity.
  - intros pre h post -> Hpre Hh. rewrite (find_first _ _ _ _ Hpre Hh). split.
    + intros ->. reflexivity.
    + intros Hl. apply Z.eqb_neq in Hl. rewrite Hl. reflexivity.
Qed.

Lemma MD002_checks_first_heading_only_witness :
  MD002 (Params.mk
           [blockToken "paragraph_open" 0 1 (lit "intro");
            closeToken "paragraph_close";
            headingToken 2 2 3 (lit "## Sub"); closeToken "heading_close";
            headingToken 3 4 5 (lit "### Deep"); closeToken "heading_close"]
           [] Options.none)
  = Ok [Token.lineNumber (headingToken 2 2 3 (lit "## Sub"))].
Proof.
  apply (proj2 (MD002_checks_first_heading_only
                  (Params.mk
                     [blockToken "paragraph_open" 0 1 (lit "intro");
                      closeToken "paragraph_close";
                      headingToken 2 2 3 (lit "## Sub");
                      closeToken "heading_close";
                      headingToken 3 4 5 (lit "### Deep");
                      closeToken "heading_close"]
                     [] Options.none))
           [blockToken "paragraph_open" 0 1 (lit "intro");
            closeToken "paragraph_close"]
           (headingToken 2 2 3 (lit "## Sub"))
           [closeToken "heading_close";
            headingToken 3 4 5 (lit "### Deep"); closeToken "heading_close"]).
  - reflexivity.
  - intros t [<- | [<- | []]]; reflexivity.
  - reflexivity.
  - discriminate.
Defined.

Lemma test_leadingSpace (line : jsstring) :
  test re_leadingSpace line = true <-> startsWithSpace line.
Proof.
  rewrite test_spec. unfold startsWithSpace, re_leadingSpace.
  cbn [p_bol p_body p_eol]. split.
  - intros (pre & mid & post & -> & Hmid & Hpre & _).
    rewrite Hpre by reflexivity.
    apply Lang_Chr_inv in Hmid as (c & -> & Hc). exists c, post. auto.
  - intros (c & rest & -> & Hc). exists [], [c], rest.
    split; [reflexivity|]. split; [constructor; exact Hc|].
    split; [auto | discriminate].
Qed.

(** MD023 flags exactly the headings whose line begins with whitespace, and
    never throws. *)
Theorem MD023_flags_indented_headings (params : Params.t) :
  exists errors,
    MD023 params = Ok errors
    /\ forall n,
         In n errors
         <-> exists h,
               In h (headingsOf params) /\ Token.lineNumber h = n
               /\ startsWithSpace (Token.line h).
Proof.
  unfold MD023. eexists. split; [reflexivity|]. intros n.
  rewrite (fold_pushIf_map_filter
             (fun t => test re_leadingSpace (Token.line t)) Token.lineNumber).
  cbn [app]. rewrite in_map_iff. unfold headingsOf. split.
  - intros (h & Hn & Hin). apply filter_In in Hin as [Hin Ht].
    exists h. split; [exact Hin|]. split; [exact Hn|].
    apply test_leadingSpace. exact Ht.
  - intros (h & Hin & Hn & Hs). exists h. split; [exact Hn|].
    apply filter_In. split; [exact Hin|]. apply test_leadingSpace. exact Hs.
Qed.

(** MD028 flags a blockquote opening exactly when the token right before it
    closes a blockquote, and reports the line above the opening. *)
Theorem MD028_flags_quote_after_quote (params : Params.t) :
  exists errors,
    MD028 params = Ok errors
    /\ forall n,
         In n errors
         <-> exists pre a b post,
               Params.tokens params = pre ++ a :: b :: post
               /\ Token.type a = "blockquote_close"%string
               /\ Token.type b = "blockquote_open"%string
               /\ Token.lineNumber b - 1 = n.
Proof.
  unfold MD028. eexists. split; [reflexivity|]. intros n.
  rewrite (adjacent_fold_In (fun t => Some (Token.type t))
             (fun p t =>
                (String.eqb (Token.type t) "blockquote_open"
                 && match p with
                    | Some ty => String.eqb ty "blockquote_close"
                    | None => false
                    end)%bool)
             (fun t => Token.lineNumber t - 1)).
  split.
  - intros [[] | [(b & post & _ & Hc & _) | (pre & a & b & post & Heq & Hc & Hg)]].
    + apply andb_prop in Hc as [_ Hc]. discriminate.
    + apply andb_prop in Hc as [Hb Ha]. apply String.eqb_eq in Ha, Hb.
      exists pre, a, b, post. auto.
  - intros (pre & a & b & post & Heq & Ha & Hb & Hg).
    right. right. exists pre, a, b, post. split; [exact Heq|].
    split; [|exact Hg]. rewrite Ha, Hb. reflexivity.
Qed.

(** The loop of the rules that ask for the style of each heading. *)
Lemma headingFold_In (c : string -> Token.t -> bool) (ts : list Token.t) :
  forall acc errors,
    foldM (fun errors token =>
             s <- headingStyleFor token ;;
             Ok (pushIf (c s token) errors (Token.lineNumber token)))
          ts acc = Ok errors ->
    forall n,
      In n errors
      <-> In n acc
          \/ exists h s,
               In h ts /\ headingStyleFor h = Ok s /\ c s h = true
               /\ Token.lineNumber h = n.
Proof.
  induction ts as [|t ts IH]; intros acc errors Hrun n.
  - simpl in Hrun. injection Hrun as <-. split; [auto|].
    intros [H | (h & s & [] & _)]. exact H.
  - simpl in Hrun.
    destruct (headingStyleFor t) as [s|] eqn:Es; simpl in Hrun; [|discriminate].
    rewrite (IH _ _ Hrun n). unfold pushIf, push. split.
    + intros [Hacc | (h & s' & Hin & Hs & Hc & Hn)].
      * destruct (c s t) eqn:Ec; [|auto].
        apply in_app_iff in Hacc as [Hacc | [<- | []]]; [auto|].
        right. exists t, s. simpl. auto.
      * right. exists h, s'. simpl. auto.
    + intros [Hacc | (h & s' & [<- | Hin] & Hs & Hc & Hn)].
      * left. destruct (c s t); [apply in_app_iff|]; auto.
      * rewrite Es in Hs. injection Hs as <-. left. rewrite Hc.
        apply in_app_iff. right. left. exact Hn.
      * right. exists h, s'. auto.
Qed.

Lemma headingFold_throws (c : string -> Token.t -> bool) (ts : list Token.t) :
  forall acc,
    foldM (fun errors token =>
             s <- headingStyleFor token ;;
             Ok (pushIf (c s token) errors (Token.lineNumber token)))
          ts acc = TypeError
    <-> exists h, In h ts /\ Token.lines h = None.
Proof.
  induction ts as [|t ts IH]; intros acc; simpl.
  - split; [discriminate | intros (h & [] & _)].
  - unfold headingStyleFor at 1, lines1, lines0.
    destruct (Token.lines t) as [[l0 l1]|] eqn:El; cbn [bind].
    + match goal with
      | |- context [bind ?m _] => destruct m as [s|] eqn:Es
      end; [|destruct (Z.eqb (l1 - l0) 1);
             [destruct (test re_closedHash (Token.line t))|]; discriminate].
      cbn [bind]. rewrite IH. split.
      * intros (h & Hin & Hl). exists h. auto.
      * intros (h & [<- | Hin] & Hl); [congruence|]. exists h. auto.
    + split; [|reflexivity]. intros _. exists t. auto.
Qed.

Lemma headingStyleFor_throws (t : Token.t) :
  headingStyleFor t = TypeError <-> Token.lines t = None.
Proof.
  unfold headingStyleFor, lines1, lines0.
  destruct (Token.lines t) as [[l0 l1]|]; simpl.
  - destruct (Z.eqb (l1 - l0) 1);
      [destruct (test re_closedHash (Token.line t))|]; split; discriminate.
  - split; reflexivity.
Qed.

(** MD003, MD019 and MD021 throw exactly when some heading-open token has no
    line range. *)
Theorem headingStyleRules_throw (name : string) (r : rule) (params : Params.t) :
  In (name, r) headingStyleRules ->
  (r params = TypeError <-> headingWithoutLines params).
Proof.
  unfold headingStyleRules, headingWithoutLines, headingsOf. cbn [In].
  intros Hin.
  repeat (destruct Hin as [Hin | Hin]; [injection Hin as _ <-|]);
    try contradiction.
  - unfold MD003.
    destruct (filterTokens (Params.tokens params) "heading_open" None)
      as [|h hs] eqn:Eh.
    + simpl. split; [discriminate | intros (h & [] & _)].
    + destruct (String.eqb
                  (orStr (Options.style (Params.options params)) "consistent")
                  "consistent").
      * destruct (headingStyleFor h) as [s|] eqn:Es; cbn [bind].
        -- apply (headingFold_throws
                    (fun s0 _ => negb (String.eqb s0 s)) (h :: hs)).
        -- split; [|reflexivity]. intros _. exists h.
           split; [left; reflexivity | apply headingStyleFor_throws; exact Es].
      * cbn [bind].
        apply (headingFold_throws
                 (fun s0 _ =>
                    negb (String.eqb s0
                            (orStr (Options.style (Params.options params))
                               "consistent")))
                 (h :: hs)).
  - unfold MD019, eachHeading.
    apply (headingFold_throws
             (fun s t =>
                (String.eqb s "atx" && test re_hashTwoSpaces (Token.line t))%bool)).
  - unfold MD021, eachHeading.
    apply (headingFold_throws
             (fun s t =>
                (String.eqb s "atx_closed"
                 && (test re_hashTwoSpaces (Token.line t)
                     || test re_twoSpacesHashEnd (Token.line t)))%bool)).
Qed.

Lemma headingStyleRules_throw_witness :
  MD019 (Params.mk [Token.mk "heading_open" None (lit "#  a") 1 1 [] []] []
           Options.none) = TypeError
  <-> headingWithoutLines
        (Params.mk [Token.mk "heading_open" None (lit "#  a") 1 1 [] []] []
           Options.none).
Proof.
  apply (headingStyleRules_throw "MD019"%string MD019).
  unfold headingStyleRules. cbn [In]. right. left. reflexivity.
Defined.

(** MD003 flags exactly the headings whose style differs from the effective
    style: the configured one, or the style of the first heading when none
    is configured; under the latter the first heading is never flagged. *)
Theorem MD003_flags_other_styles (params : Params.t) (errors : list Z)
  (first : Token.t) (others : list Token.t) :
  MD003 params = Ok errors ->
  headingsOf params = first :: others ->
  exists style,
    effectiveHeadingStyle params first style
    /\ forall n,
         In n errors
         <-> exists h s,
               In h (headingsOf params) /\ headingStyleFor h = Ok s
               /\ s <> style /\ Token.lineNumber h = n.
Proof.
  unfold MD003, effectiveHeadingStyle, headingsOf. intros Hrun Hh.
  rewrite Hh in *.
  set (configured :=
         orStr (Options.style (Params.options params)) "consistent") in *.
  assert (Hchar :
            forall style,
              foldM (fun errors token =>
                       s <- headingStyleFor token ;;
                       Ok (pushIf (negb (String.eqb s style)) errors
                             (Token.lineNumber token)))
                    (first :: others) [] = Ok errors ->
              forall n,
                In n errors
                <-> exists h s,
                      In h (first :: others) /\ headingStyleFor h = Ok s
                      /\ s <> style /\ Token.lineNumber h = n).
  { intros style Hfold n.
    rewrite (headingFold_In (fun s _ => negb (String.eqb s style)) _ _ _ Hfold).
    split.
    - intros [[] | (h & s & Hin & Hs & Hc & Hn)].
      apply negb_true_iff, String.eqb_neq in Hc. exists h, s. auto.
    - intros (h & s & Hin & Hs & Hc & Hn). right. exists h, s.
      repeat split; auto. apply negb_true_iff, String.eqb_neq. exact Hc. }
  destruct (String.eqb configured "consistent").
  - destruct (headingStyleFor first) as [style|] eqn:Es; cbn [bind] in Hrun;
      [|discriminate].
    exists style. split; [reflexivity|]. apply Hchar. exact Hrun.
  - cbn [bind] in Hrun. exists configured. split; [reflexivity|].
    apply Hchar. exact Hrun.
Qed.

Lemma MD003_flags_other_styles_witness :
  exists style,
    effectiveHeadingStyle
      (Params.mk
         [headingToken 1 0 1 (lit "# A"); closeToken "heading_close";
          headingToken 2 2 3 (lit "## B ##"); closeToken "heading_close"]
         [] Options.none)
      (headingToken 1 0 1 (lit "# A")) style
    /\ forall n,
         In n [3]
         <-> exists h s,
               In h (headingsOf
                       (Params.mk
                          [headingToken 1 0 1 (lit "# A");
                           closeToken "heading_close";
                           headingToken 2 2 3 (lit "## B ##");
                           closeToken "heading_close"]
                          [] Options.none))
               /\ headingStyleFor h = Ok s
               /\ s <> style /\ Token.lineNumber h = n.
Proof.
  apply (MD003_flags_other_styles _ [3] (headingToken 1 0 1 (lit "# A"))
           [headingToken 2 2 3 (lit "## B ##")]); reflexivity.
Defined.

Lemma test_hashTwoSpaces (line : jsstring) :
  test re_hashTwoSpaces line = true <-> hashesThenTwoSpaces line.
Proof.
  rewrite test_spec. unfold hashesThenTwoSpaces, re_hashTwoSpaces.
  cbn [p_bol p_body p_eol]. split.
  - intros (pre & mid & post & -> & Hmid & Hpre & _).
    rewrite Hpre by reflexivity. cbn [app].
    apply Lang_Cat_inv in Hmid as (s1 & s2 & -> & H1 & H2).
    apply Lang_Plus_Chr in H1 as (h & hs & -> & Hh).
    apply Lang_Cat_inv in H2 as (a & b & -> & Ha & Hb).
    apply Lang_Chr_inv in Ha as (c1 & -> & Hc1).
    apply Lang_Chr_inv in Hb as (c2 & -> & Hc2).
    exists (h :: hs), c1, c2, post. rewrite <- app_assoc. cbn [app].
    repeat split; auto; [discriminate | apply forallb_isChar; exact Hh].
  - intros (hashes & c1 & c2 & rest & -> & Hne & Hh & Hc1 & Hc2).
    exists [], (hashes ++ [c1; c2]), rest. cbn [app].
    rewrite <- app_assoc. cbn [app].
    split; [reflexivity|]. split; [|split; [auto | discriminate]].
    apply Lang_Cat_inv. exists hashes, [c1; c2].
    split; [reflexivity|]. split.
    + destruct hashes as [|h hs]; [contradiction|].
      apply Lang_Plus_Chr. exists h, hs. split; [reflexivity|].
      apply forallb_isChar. exact Hh.
    + change [c1; c2] with ([c1] ++ [c2]). constructor; constructor; assumption.
Qed.

Lemma test_twoSpacesHashEnd (line : jsstring) :
  test re_twoSpacesHashEnd line = true <-> twoSpacesThenHashes line.
Proof.
  rewrite test_spec. unfold twoSpacesThenHashes, re_twoSpacesHashEnd.
  cbn [p_bol p_body p_eol]. split.
  - intros (pre & mid & post & -> & Hmid & _ & Hpost).
    rewrite Hpost by reflexivity. rewrite app_nil_r.
    apply Lang_Cat_inv in Hmid as (a & rest & -> & Ha & Hrest).
    apply Lang_Cat_inv in Hrest as (b & hashes & -> & Hb & Hh).
    apply Lang_Chr_inv in Ha as (c1 & -> & Hc1).
    apply Lang_Chr_inv in Hb as (c2 & -> & Hc2).
    apply Lang_Plus_Chr in Hh as (h & hs & -> & Hh).
    exists pre, c1, c2, (h :: hs). cbn [app].
    repeat split; auto; [discriminate | apply forallb_isChar; exact Hh].
  - intros (front & c1 & c2 & hashes & -> & Hne & Hh & Hc1 & Hc2).
    exists front, (c1 :: c2 :: hashes), [].
    split; [rewrite app_nil_r; reflexivity|].
    split; [|split; [discriminate | auto]].
    change (c1 :: c2 :: hashes) with ([c1] ++ [c2] ++ hashes).
    constructor; [constructor; exact Hc1|].
    constructor; [constructor; exact Hc2|].
    destruct hashes as [|h hs]; [contradiction|].
    apply Lang_Plus_Chr. exists h, hs. split; [reflexivity|].
    apply forallb_isChar. exact Hh.
Qed.

(** MD019 flags exactly the atx headings (one line, no closing hashes) whose
    line has two whitespace characters right after the opening hashes. *)
Lemma MD019_In (params : Params.t)
  (errors : list Z) :
  MD019 params = Ok errors ->
  forall n,
    In n errors
    <-> exists h,
          In h (headingsOf params) /\ Token.lineNumber h = n
          /\ headingStyleFor h = Ok "atx"%string
          /\ hashesThenTwoSpaces (Token.line h).
Proof.
  unfold MD019, eachHeading, headingsOf. intros Hrun n.
  rewrite (headingFold_In
             (fun s t =>
                (String.eqb s "atx" && test re_hashTwoSpaces (Token.line t))%bool)
             _ _ _ Hrun).
  split.
  - intros [[] | (h & s & Hin & Hs & Hc & Hn)].
    apply andb_prop in Hc as [Hatx Ht]. apply String.eqb_eq in Hatx. subst s.
    exists h. repeat split; auto. apply test_hashTwoSpaces. exact Ht.
  - intros (h & Hin & Hn & Hs & Ht). right. exists h, "atx"%string.
    repeat split; auto. apply test_hashTwoSpaces in Ht. rewrite Ht. reflexivity.
Qed.

(** MD021 flags exactly the closed atx headings (one line, closing hashes)
    whose line has two whitespace characters right after the opening hashes
    or right before the closing hashes. *)
Lemma MD021_In (params : Params.t)
  (errors : list Z) :
  MD021 params = Ok errors ->
  forall n,
    In n errors
    <-> exists h,
          In h (headingsOf params) /\ Token.lineNumber h = n
          /\ headingStyleFor h = Ok "atx_closed"%string
          /\ (hashesThenTwoSpaces (Token.line h)
              \/ twoSpacesThenHashes (Token.line h)).
Proof.
  unfold MD021, eachHeading, headingsOf. intros Hrun n.
  rewrite (headingFold_In
             (fun s t =>
                (String.eqb s "atx_closed"
                 && (test re_hashTwoSpaces (Token.line t)
                     || test re_twoSpacesHashEnd (Token.line t)))%bool)
             _ _ _ Hrun).
  split.
  - intros [[] | (h & s & Hin & Hs & Hc & Hn)].
    apply andb_prop in Hc as [Hatx Ht]. apply String.eqb_eq in Hatx. subst s.
    exists h. repeat split; auto.
    apply orb_prop in Ht as [Ht | Ht];
      [left; apply test_hashTwoSpaces | right; apply test_twoSpacesHashEnd];
      exact Ht.
  - intros (h & Hin & Hn & Hs & Ht). right. exists h, "atx_closed"%string.
    repeat split; auto. apply andb_true_intro. split; [reflexivity|].
    apply orb_true_iff.
    destruct Ht as [Ht | Ht];
      [left; apply test_hashTwoSpaces | right; apply test_twoSpacesHashEnd];
      exact Ht.
Qed.

(** ** The headings and their content *)

Lemma forEachHeading_fold {St : Type}
  (callback : St -> Token.t -> jsstring -> St) (ts : list Token.t) :
  forall heading s,
    snd (fold_left
           (fun (st : option Token.t * St) token =>
              let '(heading, s) := st in
              if String.eqb (Token.type token) "heading_open"
              then (Some token, s)
              else if String.eqb (Token.type token) "heading_close"
              then (None, s)
              else if String.eqb (Token.type token) "inline" then
                match heading with
                | Some h => (heading, callback s h (Token.content token))
                | None => st
                end
              else st)
           ts (heading, s))
    = fold_left (fun s hc => callback s (fst hc) (snd hc))
        (headingCalls heading ts) s.
Proof.
  induction ts as [|t ts IH]; intros heading s; [reflexivity|].
  cbn [fold_left headingCalls]. unfold isHeadingOpen, isHeadingClose, isInline.
  destruct (String.eqb (Token.type t) "heading_open"); [apply IH|].
  destruct (String.eqb (Token.type t) "heading_close"); [apply IH|].
  destruct (String.eqb (Token.type t) "inline"); [|apply IH].
  destruct heading as [h|]; [|apply IH].
  rewrite IH. reflexivity.
Qed.

Lemma headingCalls_In (ts : list Token.t) :
  forall heading h c,
    In (h, c) (headingCalls heading ts)
    <-> (heading = Some h
         /\ exists mid t post,
              ts = mid ++ t :: post /\ isInline t = true
              /\ Token.content t = c
              /\ forall m, In m mid ->
                           isHeadingOpen m = false /\ isHeadingClose m = false)
        \/ exists t, inlineOfHeading ts h t /\ Token.content t = c.
Proof.
  unfold inlineOfHeading.
  induction ts as [|t ts IH]; intros heading h c.
  - simpl. split; [contradiction|].
    intros [(_ & mid & t & post & Heq & _) | (t & (pre & mid & post & Heq & _) & _)].
    + destruct mid; discriminate.
    + destruct pre; discriminate.
  - cbn [headingCalls].
    destruct (isHeadingOpen t) eqn:Eo; [|destruct (isHeadingClose t) eqn:Ec].
    + (* a heading opens *)
      rewrite IH. split.
      * intros [(Hh & mid & u & post & -> & Hu & Hc & Hmid)
               | (u & (pre & mid & post & -> & Hh & Hu & Hmid) & Hc)].
        -- injection Hh as ->. right. exists u. split; [|exact Hc].
           exists [], mid, post. auto.
        -- right. exists u. split; [|exact Hc].
           exists (t :: pre), mid, post. auto.
      * intros [(_ & mid & u & post & Heq & Hu & Hc & Hmid)
               | (u & (pre & mid & post & Heq & Hh & Hu & Hmid) & Hc)].
        -- destruct mid as [|m mid]; simpl in Heq; injection Heq as <- Heq.
           ++ unfold isInline in Hu. unfold isHeadingOpen in Eo.
              apply String.eqb_eq in Hu, Eo. congruence.
           ++ destruct (Hmid t (or_introl eq_refl)) as [Hm _]. congruence.
        -- destruct pre as [|p pre]; simpl in Heq; injection Heq as <- Heq.
           ++ left. split; [reflexivity|]. exists mid, u, post. auto.
           ++ right. exists u. split; [|exact Hc]. exists pre, mid, post. auto.
    + (* a heading closes *)
      rewrite IH. split.
      * intros [(Hh & _) | (u & (pre & mid & post & -> & Hh & Hu & Hmid) & Hc)];
          [discriminate|].
        right. exists u. split; [|exact Hc]. exists (t :: pre), mid, post. auto.
      * intros [(_ & mid & u & post & Heq & Hu & Hc & Hmid)
               | (u & (pre & mid & post & Heq & Hh & Hu & Hmid) & Hc)].
        -- destruct mid as [|m mid]; simpl in Heq; injection Heq as <- Heq.
           ++ unfold isInline in Hu. unfold isHeadingClose in Ec.
              apply String.eqb_eq in Hu, Ec. congruence.
           ++ destruct (Hmid t (or_introl eq_refl)) as [_ Hm]. congruence.
        -- destruct pre as [|p pre]; simpl in Heq; injection Heq as <- Heq.
           ++ congruence.
           ++ right. exists u. split; [|exact Hc]. exists pre, mid, post. auto.
    + (* neither *)
      assert (Hrest :
                In (h, c) (headingCalls heading ts)
                <-> (heading = Some h
                     /\ exists mid u post,
                          t :: ts = (t :: mid) ++ u :: post
                          /\ isInline u = true /\ Token.content u = c
                          /\ forall m, In m (t :: mid) ->
                                       isHeadingOpen m = false
                                       /\ isHeadingClose m = false)
                    \/ exists u,
                         (exists pre mid post,
                             t :: ts = (t :: pre) ++ h :: mid ++ u :: post
                             /\ isHeadingOpen h = true /\ isInline u = true
                             /\ forall m, In m mid ->
                                          isHeadingOpen m = false
                                          /\ isHeadingClose m = false)
                         /\ Token.content u = c).
      { rewrite IH. split.
        - intros [(Hh & mid & u & post & -> & Hu & Hc & Hmid)
                 | (u & (pre & mid & post & -> & Hh & Hu & Hmid) & Hc)].
          + left. split; [exact Hh|]. exists mid, u, post.
            repeat split; auto; destruct H as [<- | H]; auto; apply Hmid; auto.
          + right. exists u. split; [|exact Hc]. exists pre, mid, post. auto.
        - intros [(Hh & mid & u & post & Heq & Hu & Hc & Hmid)
                 | (u & (pre & mid & post & Heq & Hh & Hu & Hmid) & Hc)].
          + simpl in Heq. injection Heq as ->. left. split; [exact Hh|].
            exists mid, u, post. repeat split; auto; apply Hmid; right; auto.
          + simpl in Heq. injection Heq as ->. right. exists u.
            split; [|exact Hc]. exists pre, mid, post. auto. }
      assert (Hsplit :
                  (heading = Some h
                   /\ exists mid u post,
                        t :: ts = mid ++ u :: post
                        /\ isInline u = true /\ Token.content u = c
                        /\ forall m, In m mid ->
                                     isHeadingOpen m = false
                                     /\ isHeadingClose m = false)
                  \/ (exists u,
                         (exists pre mid post,
                             t :: ts = pre ++ h :: mid ++ u :: post
                             /\ isHeadingOpen h = true /\ isInline u = true
                             /\ forall m, In m mid ->
                                          isHeadingOpen m = false
                                          /\ isHeadingClose m = false)
                         /\ Token.content u = c)
                  <-> (heading = Some h /\ isInline t = true
                       /\ Token.content t = c)
                      \/ ((heading = Some h
                           /\ exists mid u post,
                                t :: ts = (t :: mid) ++ u :: post
                                /\ isInline u = true /\ Token.content u = c
                                /\ forall m, In m (t :: mid) ->
                                             isHeadingOpen m = false
                                             /\ isHeadingClose m = false)
                          \/ exists u,
                               (exists pre mid post,
                                   t :: ts = (t :: pre) ++ h :: mid ++ u :: post
                                   /\ isHeadingOpen h = true
                                   /\ isInline u = true
                                   /\ forall m, In m mid ->
                                                isHeadingOpen m = false
                                                /\ isHeadingClose m = false)
                               /\ Token.content u = c)).
      { split.
        - intros [(Hh & mid & u & post & Heq & Hu & Hc & Hmid)
                 | (u & (pre & mid & post & Heq & Hh & Hu & Hmid) & Hc)].
          + destruct mid as [|m mid]; simpl in Heq; injection Heq as <- Heq.
            * left. auto.
            * right. left. split; [exact Hh|]. exists mid, u, post.
              subst ts. auto.
          + destruct pre as [|p pre]; simpl in Heq; injection Heq as <- Heq.
            * congruence.
            * right. right. exists u. split; [|exact Hc].
              exists pre, mid, post. subst ts. auto.
        - intros [(Hh & Hu & Hc)
                 | [(Hh & mid & u & post & Heq & Hu & Hc & Hmid)
                   | (u & (pre & mid & post & Heq & Hh & Hu & Hmid) & Hc)]].
          + left. split; [exact Hh|]. exists [], t, ts.
            repeat split; auto; contradiction.
          + left. split; [exact Hh|]. exists (t :: mid), u, post. auto.
          + right. exists u. split; [|exact Hc].
            exists (t :: pre), mid, post. auto. }
      rewrite Hsplit. clear Hsplit.
      destruct (isInline t) eqn:Ei.
      * destruct heading as [h0|].
        -- cbn [In]. rewrite Hrest. split.
           ++ intros [Heq | H]; [|right; exact H].
              injection Heq as -> ->. left. auto.
           ++ intros [(Hh & _ & Hc) | H]; [|right; exact H].
              injection Hh as ->. subst c. left. reflexivity.
        -- rewrite Hrest. split; [intros H; right; exact H|].
           intros [(Hh & _) | H]; [discriminate | exact H].
      * rewrite Hrest. split; [intros H; right; exact H|].
        intros [(_ & Hu & _) | H]; [discriminate | exact H].
Qed.

Lemma forEachHeading_headingCalls {St : Type} (params : Params.t)
  (callback : St -> Token.t -> jsstring -> St) (s : St) :
  forEachHeading params callback s
  = fold_left (fun s hc => callback s (fst hc) (snd hc))
      (headingCalls None (Params.tokens params)) s.
Proof.
  apply forEachHeading_fold.
Qed.

(** [forEachHeading] calls its callback, in document order, once for each
    inline token that follows a heading-open token with no heading boundary
    in between, with that heading and the content of the inline token; it
    makes no other call. *)
Theorem forEachHeading_calls {St : Type} (params : Params.t)
  (callback : St -> Token.t -> jsstring -> St) (s : St) :
  forEachHeading params callback s
  = fold_left (fun s hc => callback s (fst hc) (snd hc))
      (headingCalls None (Params.tokens params)) s
  /\ forall h c,
       In (h, c) (headingCalls None (Params.tokens params))
       <-> exists t,
             inlineOfHeading (Params.tokens params) h t
             /\ Token.content t = c.
Proof.
  split; [apply forEachHeading_headingCalls|].
  intros h c. rewrite headingCalls_In. split.
  - intros [(Hh & _) | H]; [discriminate | exact H].
  - intros H. right. exact H.
Qed.

Lemma jsstring_eqb_eq (a b : jsstring) : jsstring_eqb a b = true <-> a = b.
Proof.
  revert b. induction a as [|x a IH]; intros [|y b]; simpl;
    try (split; [discriminate | discriminate]); [split; reflexivity|].
  rewrite andb_true_iff, N.eqb_eq, IH. split.
  - intros [-> ->]. reflexivity.
  - intros H. injection H as -> ->. auto.
Qed.

Lemma existsb_jsstring_In (content : jsstring) (known : list jsstring) :
  existsb (jsstring_eqb content) known = true <-> In content known.
Proof.
  rewrite existsb_exists. split.
  - intros (x & Hin & Heq). apply jsstring_eqb_eq in Heq. subst x. exact Hin.
  - intros H. exists content. split; [exact H | apply jsstring_eqb_eq; reflexivity].
Qed.

Lemma MD024_fold_In (calls : list (Token.t * jsstring)) :
  forall (known : list jsstring) (errors : list Z) (n : Z),
    In n (snd (fold_left
                 (fun s hc =>
                    (fun (st : list jsstring * list Z) heading content =>
                       let '(knownContent, errors) := st in
                       if negb (existsb (jsstring_eqb content) knownContent)
                       then (push knownContent content, errors)
                       else (knownContent,
                             push errors (Token.lineNumber heading)))
                      s (fst hc) (snd hc))
                 calls (known, errors)))
    <-> In n errors
        \/ exists pre h c post,
             calls = pre ++ (h, c) :: post
             /\ (In c known \/ In c (map snd pre))
             /\ Token.lineNumber h = n.
Proof.
  induction calls as [|[h0 c0] calls IH]; intros known errors n.
  - simpl. split; [auto|].
    intros [H | (pre & h & c & post & Heq & _)]; [exact H|].
    destruct pre; discriminate.
  - cbn [fold_left fst snd].
    destruct (existsb (jsstring_eqb c0) known) eqn:Ek; cbn [negb].
    + (* known content: the heading is reported *)
      apply existsb_jsstring_In in Ek. rewrite IH. unfold push.
      rewrite in_app_iff. cbn [In]. split.
      * intros [[H | [H | []]] | (pre & h & c & post & -> & Hc & Hn)].
        -- left. exact H.
        -- right. exists [], h0, c0, calls. auto.
        -- right. exists ((h0, c0) :: pre), h, c, post.
           split; [reflexivity|]. split; [|exact Hn].
           destruct Hc as [Hc | Hc]; [left; exact Hc|]. right. right. exact Hc.
      * intros [H | (pre & h & c & post & Heq & Hc & Hn)]; [auto|].
        destruct pre as [|p pre]; simpl in Heq.
        -- injection Heq as <- <- <-. left. right. left. exact Hn.
        -- injection Heq as <- ->. right. exists pre, h, c, post.
           split; [reflexivity|]. split; [|exact Hn].
           destruct Hc as [Hc | [Hc | Hc]]; auto.
           cbn [snd] in Hc. subst c. left. exact Ek.
    + (* new content: it becomes known *)
      assert (Hnew : ~ In c0 known).
      { intros H. apply existsb_jsstring_In in H. congruence. }
      rewrite IH. unfold push. split.
      * intros [H | (pre & h & c & post & -> & Hc & Hn)]; [auto|].
        right. exists ((h0, c0) :: pre), h, c, post.
        split; [reflexivity|]. split; [|exact Hn].
        destruct Hc as [Hc | Hc]; [|right; right; exact Hc].
        apply in_app_iff in Hc as [Hc | [<- | []]]; [left; exact Hc|].
        right. left. reflexivity.
      * intros [H | (pre & h & c & post & Heq & Hc & Hn)]; [auto|].
        destruct pre as [|p pre]; simpl in Heq.
        -- injection Heq as <- <- <-. destruct Hc as [Hc | []]. contradiction.
        -- injection Heq as <- ->. right. exists pre, h, c, post.
           split; [reflexivity|]. split; [|exact Hn].
           destruct Hc as [Hc | [Hc | Hc]]; auto.
           ++ left. apply in_app_iff. left. exact Hc.
           ++ cbn [snd] in Hc. subst c. left. apply in_app_iff. right.
              left. reflexivity.
Qed.

(** MD024 reports a heading once for each inline token of it whose content
    equals the content handed over by an earlier call, under the same or
    another heading; the first occurrence of a content is never reported. *)
Lemma MD024_In (params : Params.t) :
  exists errors,
    MD024 params = Ok errors
    /\ forall n,
         In n errors
         <-> exists pre h c post,
               headingCalls None (Params.tokens params) = pre ++ (h, c) :: post
               /\ In c (map snd pre)
               /\ Token.lineNumber h = n.
Proof.
  unfold MD024. eexists. split; [reflexivity|]. intros n.
  rewrite forEachHeading_headingCalls, MD024_fold_In. split.
  - intros [[] | (pre & h & c & post & Heq & [[] | Hc] & Hn)].
    exists pre, h, c, post. auto.
  - intros (pre & h & c & post & Heq & Hc & Hn). right.
    exists pre, h, c, post. auto.
Qed.

Lemma test_punctuation (punctuation content : jsstring) :
  test (re_punctuation punctuation) content = true
  <-> endsInOneOf punctuation content.
Proof.
  rewrite test_spec. unfold endsInOneOf, re_punctuation.
  cbn [p_bol p_body p_eol]. split.
  - intros (pre & mid & post & -> & Hmid & _ & Hpost).
    rewrite Hpost by reflexivity. rewrite app_nil_r.
    apply Lang_Chr_inv in Hmid as (c & -> & Hc). exists pre, c.
    split; [reflexivity|]. unfold oneOf in Hc.
    apply existsb_exists in Hc as (x & Hin & Heq). apply N.eqb_eq in Heq.
    subst x. exact Hin.
  - intros (front & p & -> & Hp). exists front, [p], [].
    split; [reflexivity|]. split; [|split; [discriminate | reflexivity]].
    constructor. unfold oneOf. apply existsb_exists. exists p.
    split; [exact Hp | apply N.eqb_refl].
Qed.

(** MD026 reports a heading once for each inline token of it whose content
    ends in one of the punctuation characters, which are those of the option
    or, when it is absent or empty, the six characters [.,;:!?]. *)
Lemma MD026_In (params : Params.t) :
  plainClass (punctuationOf params) ->
  exists errors,
    MD026 params = Ok errors
    /\ forall n,
         In n errors
         <-> exists h c,
               In (h, c) (headingCalls None (Params.tokens params))
               /\ endsInOneOf (punctuationOf params) c
               /\ Token.lineNumber h = n.
Proof.
  intros _. unfold MD026. eexists. split; [reflexivity|]. intros n.
  rewrite forEachHeading_headingCalls.
  rewrite (fold_pushIf_map_filter
             (fun hc : Token.t * jsstring =>
                test (re_punctuation (punctuationOf params)) (snd hc))
             (fun hc => Token.lineNumber (fst hc))).
  cbn [app]. rewrite in_map_iff. split.
  - intros ([h c] & Hn & Hin). apply filter_In in Hin as [Hin Ht].
    exists h, c. cbn [fst snd] in *. split; [exact Hin|].
    split; [apply test_punctuation; exact Ht | exact Hn].
  - intros (h & c & Hin & Hp & Hn). exists (h, c). split; [exact Hn|].
    apply filter_In. split; [exact Hin|]. apply test_punctuation. exact Hp.
Qed.

(** ** The content of inline spans and of code blocks *)

Lemma forallb_neq_notIn (x : char) (s : jsstring) :
  forallb (fun c => negb (N.eqb c x)) s = true <-> ~ In x s.
Proof.
  rewrite forallb_forall. split.
  - intros H Hin. specialize (H x Hin). rewrite N.eqb_refl in H. discriminate.
  - intros H c Hc. apply negb_true_iff, N.eqb_neq. intros ->. contradiction.
Qed.

Lemma test_reversedLink (text : jsstring) :
  test re_reversedLink text = true <-> reversedLink text.
Proof.
  rewrite test_spec. unfold reversedLink, re_reversedLink.
  cbn [p_bol p_body p_eol]. split.
  - intros (pre & mid & post & -> & Hmid & _ & _).
    apply Lang_Cat_inv in Hmid as (s1 & r1 & -> & H1 & Hr1).
    apply Lang_Cat_inv in Hr1 as (s2 & r2 & -> & H2 & Hr2).
    apply Lang_Cat_inv in Hr2 as (s3 & r3 & -> & H3 & Hr3).
    apply Lang_Cat_inv in Hr3 as (s4 & r4 & -> & H4 & Hr4).
    apply Lang_Cat_inv in Hr4 as (s5 & s6 & -> & H5 & H6).
    apply Lang_Chr_inv in H1 as (c1 & -> & Hc1). apply N.eqb_eq in Hc1.
    apply Lang_Chr_inv in H3 as (c3 & -> & Hc3). apply N.eqb_eq in Hc3.
    apply Lang_Chr_inv in H4 as (c4 & -> & Hc4). apply N.eqb_eq in Hc4.
    apply Lang_Chr_inv in H6 as (c6 & -> & Hc6). apply N.eqb_eq in Hc6.
    apply Lang_Plus_Chr in H2 as (a & label & -> & Hlabel).
    apply Lang_Plus_Chr in H5 as (b & target & -> & Htarget).
    subst. exists pre, (a :: label), (b :: target), post.
    split; [cbn [app]; repeat (rewrite <- app_assoc; cbn [app]); reflexivity|].
    split; [discriminate|].
    split; [apply (forallb_neq_notIn 41%N); exact Hlabel|].
    split; [discriminate|].
    apply (forallb_neq_notIn 93%N); exact Htarget.
  - intros (pre & label & target & post & -> & Hl & Hlabel & Ht & Htarget).
    exists pre,
      (code "(" :: label ++ code ")" :: code "[" :: target ++ [code "]"]),
      post.
    split; [cbn [app]; repeat (rewrite <- app_assoc; cbn [app]); reflexivity|].
    split; [|split; discriminate].
    apply Lang_Cat_inv. exists [code "("], (label ++ code ")" :: code "[" :: target ++ [code "]"]).
    split; [reflexivity|]. split; [constructor; reflexivity|].
    apply Lang_Cat_inv. exists label, (code ")" :: code "[" :: target ++ [code "]"]).
    split; [reflexivity|]. split.
    { destruct label as [|a label]; [contradiction|].
      apply Lang_Plus_Chr. exists a, label. split; [reflexivity|].
      apply (forallb_neq_notIn 41%N). exact Hlabel. }
    apply Lang_Cat_inv. exists [code ")"], (code "[" :: target ++ [code "]"]).
    split; [reflexivity|]. split; [constructor; reflexivity|].
    apply Lang_Cat_inv. exists [code "["], (target ++ [code "]"]).
    split; [reflexivity|]. split; [constructor; reflexivity|].
    apply Lang_Cat_inv. exists target, [code "]"].
    split; [reflexivity|]. split; [|constructor; reflexivity].
    destruct target as [|b target]; [contradiction|].
    apply Lang_Plus_Chr. exists b, target. split; [reflexivity|].
    apply (forallb_neq_notIn 93%N). exact Htarget.
Qed.

Lemma fold_fold_pushIf {A B : Type} (sub : A -> list B) (c : B -> bool)
  (g : A -> Z) (ts : list A) :
  forall acc,
    fold_left
      (fun errors t =>
         fold_left (fun errors x => pushIf (c x) errors (g t)) (sub t) errors)
      ts acc
    = acc ++ flat_map (fun t => map (fun _ => g t) (filter c (sub t))) ts.
Proof.
  induction ts as [|t ts IH]; intros acc; cbn [fold_left flat_map].
  - rewrite app_nil_r. reflexivity.
  - rewrite IH, (fold_pushIf_map_filter c (fun _ => g t)), <- app_assoc.
    reflexivity.
Qed.

(** MD011 reports an inline token once for each of its text children whose
    content holds a reversed link; children of other types and tokens other
    than inline ones are not looked at. *)
Theorem MD011_flags_reversed_links (params : Params.t) :
  exists errors,
    MD011 params = Ok errors
    /\ forall n,
         In n errors
         <-> exists t child,
               In t (Params.tokens params) /\ isInline t = true
               /\ In child (Token.children t)
               /\ Child.type child = "text"%string
               /\ reversedLink (Child.content child)
               /\ Token.lineNumber t = n.
Proof.
  unfold MD011. eexists. split; [reflexivity|]. intros n.
  rewrite (fold_fold_pushIf
             (fun t : Token.t => filterTokens (Token.children t) "text" None)
             (fun child => test re_reversedLink (Child.content child))
             Token.lineNumber).
  cbn [app]. rewrite in_flat_map. split.
  - intros (t & Ht & Hn). apply in_map_iff in Hn as (child & Hn & Hc).
    apply filter_In in Hc as [Hc Htest].
    apply filterTokens_In in Ht as [Ht Hty], Hc as [Hc Hcty].
    exists t, child. repeat split; auto.
    + unfold isInline. apply String.eqb_eq. exact Hty.
    + apply test_reversedLink. exact Htest.
  - intros (t & child & Ht & Hty & Hc & Hcty & Hrev & Hn).
    exists t. split.
    + apply filterTokens_In. split; [exact Ht|].
      unfold isInline in Hty. apply String.eqb_eq. exact Hty.
    + apply in_map_iff. exists child. split; [exact Hn|].
      apply filter_In. split; [apply filterTokens_In; auto|].
      apply test_reversedLink. exact Hrev.
Qed.

Lemma test_dollar (line : jsstring) :
  test re_dollar line = true <-> dollarThenSpace line.
Proof.
  rewrite test_spec. unfold dollarThenSpace, re_dollar.
  cbn [p_bol p_body p_eol]. split.
  - intros (pre & mid & post & -> & Hmid & Hpre & _).
    rewrite Hpre by reflexivity.
    apply Lang_Cat_inv in Hmid as (s1 & s2 & -> & H1 & H2).
    apply Lang_Chr_inv in H1 as (d & -> & Hd). apply N.eqb_eq in Hd.
    apply Lang_Chr_inv in H2 as (c & -> & Hc). subst d.
    exists c, post. auto.
  - intros (c & rest & -> & Hc). exists [], [code "$"; c], rest.
    split; [reflexivity|]. split; [|split; [reflexivity | discriminate]].
    change [code "$"; c] with ([code "$"] ++ [c]).
    constructor; constructor; [apply N.eqb_refl | exact Hc].
Qed.

(** MD014 reports exactly the code blocks, indented or fenced, whose content
    is not empty and each of whose non-empty lines starts with a dollar sign
    followed by whitespace, whatever the line splitter; a block made of line
    breaks only is reported as well. *)
Theorem MD014_flags_all_dollar_blocks
  (splitNewLine : jsstring -> list jsstring) (params : Params.t) :
  exists errors,
    MD014 splitNewLine params = Ok errors
    /\ forall n,
         In n errors
         <-> exists t,
               In t (Params.tokens params) /\ isCode t = true
               /\ Token.content t <> []
               /\ (forall line,
                      In line (splitNewLine (Token.content t)) ->
                      line <> [] -> dollarThenSpace line)
               /\ Token.lineNumber t = n.
Proof.
  unfold MD014. eexists. split; [reflexivity|]. intros n.
  rewrite fold_pushIf_map_filter. cbn [app]. rewrite in_map_iff.
  assert (Hne : forall s : jsstring,
             negb (Nat.eqb (List.length s) 0) = true <-> s <> []).
  { intros [|c s]; simpl; split; congruence || discriminate || auto. }
  split.
  - intros (t & Hn & Hin). apply filter_In in Hin as [Hin Hc].
    unfold filterTokens in Hin. apply filter_In in Hin as [Hin Hty].
    apply andb_prop in Hc as [Hcontent Hall].
    exists t. split; [exact Hin|]. split; [exact Hty|].
    split; [apply Hne; exact Hcontent|]. split; [|exact Hn].
    intros line Hline Hl. apply test_dollar.
    rewrite forallb_forall in Hall. apply Hall.
    apply filter_In. split; [exact Hline | apply Hne; exact Hl].
  - intros (t & Hin & Hty & Hcontent & Hall & Hn). exists t.
    split; [exact Hn|]. apply filter_In. split.
    + unfold filterTokens. apply filter_In. split; [exact Hin | exact Hty].
    + apply andb_true_intro. split; [apply Hne; exact Hcontent|].
      apply forallb_forall. intros line Hline.
      apply filter_In in Hline as [Hline Hl]. apply test_dollar.
      apply Hall; [exact Hline | apply Hne; exact Hl].
Qed.

(** ** When [flattenLists] throws *)

Lemma foldM_app {A St : Type} (f : St -> A -> result St) (xs ys : list A) :
  forall s, foldM f (xs ++ ys) s = (s1 <- foldM f xs s ;; foldM f ys s1).
Proof.
  induction xs as [|x xs IH]; intros s; simpl; [reflexivity|].
  destruct (f s x) as [s1|]; simpl; [apply IH | reflexivity].
Qed.

Lemma foldM_throws {A St : Type} (f : St -> A -> result St) (xs : list A) :
  forall s,
    foldM f xs s = TypeError
    <-> exists pre x post s1,
          xs = pre ++ x :: post /\ foldM f pre s = Ok s1 /\ f s1 x = TypeError.
Proof.
  induction xs as [|x xs IH]; intros s; simpl.
  - split; [discriminate|]. intros (pre & y & post & s1 & Heq & _).
    destruct pre; discriminate.
  - destruct (f s x) as [s1|] eqn:Ef; simpl.
    + rewrite IH. split.
      * intros (pre & y & post & s2 & -> & Hpre & Hy).
        exists (x :: pre), y, post, s2. simpl. rewrite Ef. simpl. auto.
      * intros (pre & y & post & s2 & Heq & Hpre & Hy).
        destruct pre as [|p pre]; simpl in *.
        -- injection Heq as <- <-. injection Hpre as <-. congruence.
        -- injection Heq as <- ->. rewrite Ef in Hpre. simpl in Hpre.
           exists pre, y, post, s2. auto.
    + split; [|reflexivity]. intros _. exists [], x, xs, s. simpl. auto.
Qed.

Lemma pending_wellNested (st : FlatState) (ds : list ListDesc.t) :
  fl_current st :: fl_stack st = map Some ds ++ [None] -> pending st = ds.
Proof.
  unfold pending. intros ->. induction ds as [|d ds IH]; simpl; [reflexivity|].
  rewrite IH. reflexivity.
Qed.

Lemma listDepth_cons (t : Token.t) (ts : list Token.t) (d : nat) :
  listDepth (t :: ts) d
  = match listDepth [t] d with
    | Some d1 => listDepth ts d1
    | None => None
    end.
Proof.
  simpl. destruct (isListOpen t); [reflexivity|].
  destruct (isListClose t); [|reflexivity]. destruct d; reflexivity.
Qed.

Lemma listDepth_app (xs ys : list Token.t) :
  forall d,
    listDepth (xs ++ ys) d
    = match listDepth xs d with
      | Some d1 => listDepth ys d1
      | None => None
      end.
Proof.
  induction xs as [|x xs IH]; intros d; [reflexivity|].
  cbn [app]. rewrite (listDepth_cons x (xs ++ ys)), (listDepth_cons x xs).
  destruct (listDepth [x] d); [apply IH | reflexivity].
Qed.

(** A step that succeeds keeps the contexts well nested and follows the
    nesting depth. *)
Lemma flattenStep_shape (filterBy : option bool) (st st' : FlatState)
  (t : Token.t) :
  flattenStep filterBy st t = Ok st' ->
  wellNested st -> linesKnown st ->
  wellNested st' /\ linesKnown st'
  /\ listDepth [t] (List.length (pending st))
     = Some (List.length (pending st'))
  /\ (fl_lastWithLines st' = None
      <-> fl_lastWithLines st = None /\ tracksLines t = false).
Proof.
  destruct st as [lists stack current lw].
  unfold flattenStep, wellNested, linesKnown, tracksLines, isListItem.
  cbn [fl_current fl_stack fl_lastWithLines listDepth].
  intros Hstep (ds & Hds) Hlw.
  rewrite (pending_wellNested (mkFlat lists stack current lw) ds Hds).
  destruct (isListOpen t) eqn:Eopen.
  - injection Hstep as <-. cbn [fl_current fl_stack fl_lastWithLines].
    split; [|split; [exact Hlw|split]].
    + eexists (_ :: ds). cbn [map app]. rewrite <- Hds. reflexivity.
    + erewrite pending_wellNested
        by (cbn [fl_current fl_stack]; rewrite Hds;
            instantiate (1 := _ :: ds); reflexivity).
      reflexivity.
    + cbn [negb andb]. tauto.
  - destruct (isListClose t) eqn:Eclose.
    + destruct current as [cur|]; [|discriminate].
      destruct lw as [lastTok|]; [|discriminate].
      destruct (lines1 lastTok) as [l1|]; [|discriminate].
      cbn [bind] in Hstep. injection Hstep as <-.
      cbn [fl_current fl_stack fl_lastWithLines].
      destruct ds as [|d ds]; cbn [map app] in Hds; [destruct stack; discriminate|].
      injection Hds as _ Hstack.
      assert (Hctx : match stack with top :: _ => top | [] => None end
                     :: tl stack = map Some ds ++ [None]).
      { rewrite Hstack. destruct ds; reflexivity. }
      split; [exists ds; exact Hctx|]. split; [exact Hlw|]. split.
      * erewrite pending_wellNested by (cbn [fl_current fl_stack]; exact Hctx).
        reflexivity.
      * cbn [negb andb]. split; [discriminate | intros [H _]; discriminate].
    + destruct (String.eqb (Token.type t) "list_item_open") eqn:Eitem.
      * destruct current as [cur|]; [|discriminate].
        injection Hstep as <-. cbn [fl_current fl_stack fl_lastWithLines].
        destruct ds as [|d ds]; cbn [map app] in Hds; [destruct stack; discriminate|].
        injection Hds as _ Hstack.
        split; [|split; [exact Hlw|split]].
        -- eexists (_ :: ds). cbn [map app]. rewrite Hstack. reflexivity.
        -- erewrite pending_wellNested
             by (cbn [fl_current fl_stack]; rewrite Hstack;
                 instantiate (1 := _ :: ds); reflexivity).
           reflexivity.
        -- cbn [negb andb]. tauto.
      * cbn [negb andb]. destruct (Token.lines t) as [l|] eqn:El;
          injection Hstep as <-; cbn [fl_current fl_stack fl_lastWithLines].
        -- split; [exists ds; exact Hds|]. split.
           ++ intros u Hu. injection Hu as <-. congruence.
           ++ split.
              ** rewrite (pending_wellNested _ ds) by exact Hds. reflexivity.
              ** split; [discriminate | intros [_ H]; discriminate].
        -- split; [exists ds; exact Hds|]. split; [exact Hlw|]. split.
           ++ rewrite (pending_wellNested _ ds) by exact Hds. reflexivity.
           ++ tauto.
Qed.

Lemma flattenRun_shape (filterBy : option bool) (tokens : list Token.t) :
  forall st st',
    foldM (flattenStep filterBy) tokens st = Ok st' ->
    wellNested st -> linesKnown st ->
    wellNested st' /\ linesKnown st'
    /\ listDepth tokens (List.length (pending st))
       = Some (List.length (pending st'))
    /\ (fl_lastWithLines st' = None
        <-> fl_lastWithLines st = None
            /\ forall u, In u tokens -> tracksLines u = false).
Proof.
  induction tokens as [|t tokens IH]; intros st st' Hrun Hn Hl.
  - simpl in Hrun. injection Hrun as <-. repeat split; auto.
    + intros u [].
    + tauto.
  - cbn [foldM] in Hrun.
    destruct (flattenStep filterBy st t) as [st1|] eqn:Estep; [|discriminate].
    cbn [bind] in Hrun.
    destruct (flattenStep_shape _ _ _ _ Estep Hn Hl) as (Hn1 & Hl1 & Hd1 & Hw1).
    destruct (IH _ _ Hrun Hn1 Hl1) as (Hn' & Hl' & Hd' & Hw').
    split; [exact Hn'|]. split; [exact Hl'|]. split.
    + rewrite listDepth_cons, Hd1. exact Hd'.
    + rewrite Hw', Hw1. split.
      * intros [[H0 Ht] Hrest]. split; [exact H0|].
        intros u [<- | Hu]; auto.
      * intros [H0 Hall]. split; [split; [exact H0|]|]; intros; apply Hall;
          simpl; auto.
Qed.

(** A step throws exactly when a list closes or an item comes while no list
    is open, or a list closes while no token with lines is remembered. *)
Lemma flattenStep_throws (filterBy : option bool) (st : FlatState)
  (t : Token.t) :
  wellNested st -> linesKnown st ->
  flattenStep filterBy st t = TypeError
  <-> ((isListClose t || isListItem t)%bool = true
       /\ isListOpen t = false /\ pending st = [])
      \/ (isListClose t = true /\ isListOpen t = false
          /\ fl_lastWithLines st = None).
Proof.
  destruct st as [lists stack current lw].
  unfold flattenStep, wellNested, linesKnown, isListItem.
  cbn [fl_current fl_stack fl_lastWithLines]. intros (ds & Hds) Hlw.
  rewrite (pending_wellNested (mkFlat lists stack current lw) ds Hds).
  assert (Hcur : current = None <-> ds = []).
  { destruct ds as [|d ds]; cbn [map app] in Hds; injection Hds as -> _;
      split; congruence. }
  destruct (isListOpen t) eqn:Eopen.
  - split; [discriminate|]. intros [(_ & H & _) | (_ & H & _)]; discriminate.
  - destruct (isListClose t) eqn:Eclose; cbn [orb].
    + destruct current as [cur|].
      * destruct lw as [lastTok|].
        -- assert (Hl1 : exists l1, lines1 lastTok = Ok l1).
           { unfold lines1. specialize (Hlw lastTok eq_refl).
             destruct (Token.lines lastTok) as [[a b]|]; [eauto | contradiction]. }
           destruct Hl1 as (l1 & ->). cbn [bind].
           split; [discriminate|].
           intros [(_ & _ & H) | (_ & _ & H)]; [|discriminate].
           apply Hcur in H. discriminate.
        -- split; auto.
      * split; [|reflexivity]. intros _. left. repeat split; auto.
        apply Hcur. reflexivity.
    + destruct (String.eqb (Token.type t) "list_item_open") eqn:Eitem.
      * destruct current as [cur|].
        -- split; [discriminate|].
           intros [(_ & _ & H) | (H & _)]; [|discriminate].
           apply Hcur in H. discriminate.
        -- split; [|reflexivity]. intros _. left. repeat split; auto.
           apply Hcur. reflexivity.
      * split.
        -- destruct (Token.lines t); discriminate.
        -- intros [(H & _) | (H & _)]; discriminate.
Qed.

(** [flattenLists] throws exactly when a list is closed or an item is met
    outside of any list, or a list is closed before any token with a line
    range was met; the filter plays no part in it. *)
Theorem flattenLists_throws_iff (tokens : list Token.t)
  (filterBy : option bool) :
  flattenLists tokens filterBy = TypeError
  <-> outsideAnyList tokens \/ closedBeforeAnyLines tokens.
Proof.
  unfold flattenLists, flattenRun, outsideAnyList, closedBeforeAnyLines.
  rewrite bind_throws.
  assert (Hn0 : wellNested (mkFlat [] [] None None)) by (exists []; reflexivity).
  assert (Hl0 : linesKnown (mkFlat [] [] None None)) by (intros t H; discriminate).
  split.
  - intros H. apply foldM_throws in H as (pre & t & post & s1 & -> & Hpre & Ht).
    destruct (flattenRun_shape _ _ _ _ Hpre Hn0 Hl0) as (Hn1 & Hl1 & Hd1 & Hw1).
    apply (flattenStep_throws _ _ _ Hn1 Hl1) in Ht
      as [(Hty & _ & Hp) | (Hty & _ & Hlw)].
    + left. exists pre, t, post. rewrite Hp in Hd1. auto.
    + right. exists pre, t, post. apply Hw1 in Hlw as [_ Hall]. auto.
  - assert (Hopen : forall t,
               (isListClose t || isListItem t)%bool = true ->
               isListOpen t = false).
    { intros t. unfold isListClose, isListItem, isListOpen.
      destruct (String.eqb (Token.type t) "bullet_list_open") eqn:E1;
        [apply String.eqb_eq in E1; rewrite E1; discriminate|].
      destruct (String.eqb (Token.type t) "ordered_list_open") eqn:E2;
        [apply String.eqb_eq in E2; rewrite E2; discriminate|].
      reflexivity. }
    intros H.
    assert (Hcase :
              exists pre t post,
                tokens = pre ++ t :: post
                /\ forall s1,
                     foldM (flattenStep filterBy) pre (mkFlat [] [] None None)
                     = Ok s1 ->
                     flattenStep filterBy s1 t = TypeError).
    { destruct H as [(pre & t & post & -> & Hty & Hd)
                    | (pre & t & post & -> & Hty & Hall)];
        exists pre, t, post; (split; [reflexivity|]); intros s1 Hpre;
        destruct (flattenRun_shape _ _ _ _ Hpre Hn0 Hl0)
          as (Hn1 & Hl1 & Hd1 & Hw1);
        apply (flattenStep_throws _ _ _ Hn1 Hl1).
      - left. split; [exact Hty|]. split; [apply Hopen; exact Hty|].
        cbn [pending fl_current fl_stack flat_map app List.length] in Hd1.
        rewrite Hd in Hd1. injection Hd1 as Hd1.
        apply length_zero_iff_nil. auto.
      - right. split; [exact Hty|].
        split; [apply Hopen; rewrite Hty; reflexivity|].
        apply Hw1. auto. }
    destruct Hcase as (pre & t & post & -> & Hstep).
    rewrite foldM_app.
    destruct (foldM (flattenStep filterBy) pre (mkFlat [] [] None None))
      as [s1|] eqn:Epre; [|reflexivity].
    cbn [bind foldM]. rewrite (Hstep s1 eq_refl). reflexivity.
Qed.

(** ** The nesting of the flattened lists *)

Lemma completeTagged_snoc (filterBy : option bool) (pend : list ListDesc.t) :
  forall (tagged : list (Token.t * Z)) (x : Token.t * Z),
    Forall (fun p => (insertOf p <= List.length tagged)%nat) pend ->
    completeTagged filterBy (tagged ++ [x]) pend
    = completeTagged filterBy tagged pend ++ [x].
Proof.
  induction pend as [|p pend IH]; intros tagged x Hb; simpl; [reflexivity|].
  inversion Hb as [|? ? Hp Hrest]; subst.
  destruct (keeps filterBy (ListDesc.ordered p)).
  - rewrite splice_snoc by exact Hp. apply IH.
    eapply Forall_impl; [|exact Hrest]. intros q Hq. cbv beta in *.
    rewrite splice_length. lia.
  - apply IH. exact Hrest.
Qed.

Lemma Ok_inj {A : Type} (a b : A) : Ok a = Ok b -> a = b.
Proof.
  intros H. injection H as H. exact H.
Qed.

Lemma pending_push (lists : list ListDesc.t) (stack : list (option ListDesc.t))
  (current : option ListDesc.t) (lw : option Token.t) (d : ListDesc.t) :
  pending (mkFlat lists (current :: stack) (Some d) lw)
  = d :: pending (mkFlat lists stack current lw).
Proof.
  reflexivity.
Qed.

Lemma flattenStep_tagged (filterBy : option bool) (st st' : FlatState)
  (t : Token.t) :
  flattenStep filterBy st t = Ok st' ->
  pendingOk st -> wellNested st ->
  completeTagged filterBy (map tagOf (fl_lists st')) (pending st')
  = completeTagged filterBy (map tagOf (fl_lists st)) (pending st)
    ++ (if keptOpen filterBy t
        then [(t, Z.of_nat (List.length (pending st)))] else []).
Proof.
  destruct st as [lists stack current lastWithLines].
  unfold flattenStep, keptOpen, wellNested.
  cbn [fl_current fl_stack]. intros Hstep Hok (ds & Hds).
  pose proof (pending_wellNested (mkFlat lists stack current lastWithLines)
                ds Hds) as Hpend.
  assert (Hlen : Z.of_nat (List.length (current :: stack)) - 1
                 = Z.of_nat (List.length ds)).
  { rewrite Hds, length_app, length_map. simpl. lia. }
  destruct (isListOpen t) eqn:Eopen.
  - apply Ok_inj in Hstep. subst st'.
    assert (Hb : Forall (fun p => (insertOf p <= List.length (map tagOf lists))%nat)
                   ds).
    { rewrite <- Hpend. eapply Forall_impl; [|exact Hok]. intros p [Hp _].
      rewrite length_map. exact Hp. }
    rewrite pending_push, Hpend.
    cbn [fl_lists completeTagged ListDesc.ordered]. unfold insertOf at 1.
    cbn [ListDesc.insert]. unfold tagOf at 1.
    cbn [ListDesc.open ListDesc.nesting]. rewrite Hlen.
    fold (isOrderedOpen t). cbn [andb].
    destruct (keeps filterBy (isOrderedOpen t)).
    + rewrite <- (length_map tagOf lists), splice_end.
      apply completeTagged_snoc. exact Hb.
    + rewrite app_nil_r. reflexivity.
  - destruct (isListClose t) eqn:Eclose.
    + destruct current as [cur|]; [|discriminate].
      destruct lastWithLines as [lastTok|]; [|discriminate].
      destruct (lines1 lastTok) as [l1|]; [|discriminate].
      cbn [bind andb] in *. apply Ok_inj in Hstep. subst st'.
      destruct ds as [|d ds]; cbn [map app] in Hds;
        [destruct stack; discriminate|].
      injection Hds as Hcur Hstack. subst d.
      assert (Hctx : match stack with top :: _ => top | [] => None end
                     :: tl stack = map Some ds ++ [None]).
      { rewrite Hstack. destruct ds; reflexivity. }
      rewrite Hpend, app_nil_r.
      erewrite pending_wellNested by (cbn [fl_current fl_stack]; exact Hctx).
      cbn [fl_lists completeTagged]. fold (insertOf cur).
      destruct (keeps filterBy (ListDesc.ordered cur)); [|reflexivity].
      rewrite map_splice. reflexivity.
    + cbn [andb]. rewrite app_nil_r.
      destruct (String.eqb (Token.type t) "list_item_open").
      * destruct current as [cur|]; [|discriminate].
        injection Hstep as <-. reflexivity.
      * destruct (Token.lines t); injection Hstep as <-; reflexivity.
Qed.

Lemma opensWithDepth_cons (filterBy : option bool) (t : Token.t)
  (ts : list Token.t) (d d1 : nat) :
  listDepth [t] d = Some d1 ->
  opensWithDepth filterBy (t :: ts) d
  = (if keptOpen filterBy t then [(t, Z.of_nat d)] else [])
    ++ opensWithDepth filterBy ts d1.
Proof.
  unfold keptOpen. cbn [listDepth opensWithDepth].
  destruct (isListOpen t); cbn [andb].
  - intros H. injection H as <-. reflexivity.
  - destruct (isListClose t).
    + destruct d; [discriminate|]. intros H. injection H as <-. reflexivity.
    + intros H. injection H as <-. reflexivity.
Qed.

Lemma flattenRun_tagged (filterBy : option bool) (tokens : list Token.t) :
  forall st st',
    foldM (flattenStep filterBy) tokens st = Ok st' ->
    pendingOk st -> wellNested st -> linesKnown st ->
    completeTagged filterBy (map tagOf (fl_lists st')) (pending st')
    = completeTagged filterBy (map tagOf (fl_lists st)) (pending st)
      ++ opensWithDepth filterBy tokens (List.length (pending st)).
Proof.
  induction tokens as [|t tokens IH]; intros st st' Hrun Hok Hn Hl.
  - simpl in Hrun. injection Hrun as <-. simpl. rewrite app_nil_r. reflexivity.
  - cbn [foldM] in Hrun.
    destruct (flattenStep filterBy st t) as [st1|] eqn:Estep; [|discriminate].
    cbn [bind] in Hrun.
    destruct (flattenStep_opens _ _ _ _ Estep Hok) as [Hok1 _].
    destruct (flattenStep_shape _ _ _ _ Estep Hn Hl) as (Hn1 & Hl1 & Hd1 & _).
    rewrite (IH _ _ Hrun Hok1 Hn1 Hl1),
      (flattenStep_tagged _ _ _ _ Estep Hok Hn),
      (opensWithDepth_cons _ _ _ _ _ Hd1), <- app_assoc.
    reflexivity.
Qed.

Lemma opensWithDepth_In (filterBy : option bool) (tokens : list Token.t) :
  forall (d0 final : nat) (t : Token.t) (n : Z),
    listDepth tokens d0 = Some final ->
    In (t, n) (opensWithDepth filterBy tokens d0)
    <-> exists pre post depth,
          tokens = pre ++ t :: post /\ keptOpen filterBy t = true
          /\ listDepth pre d0 = Some depth /\ n = Z.of_nat depth.
Proof.
  induction tokens as [|x tokens IH]; intros d0 final t n Hd.
  - simpl. split; [contradiction|].
    intros (pre & post & depth & Heq & _). destruct pre; discriminate.
  - rewrite listDepth_cons in Hd.
    destruct (listDepth [x] d0) as [d1|] eqn:Ex; [|discriminate].
    rewrite (opensWithDepth_cons _ _ _ _ _ Ex), in_app_iff, (IH _ _ _ _ Hd).
    split.
    + intros [Hhere | (pre & post & depth & -> & Hk & Hpre & ->)].
      * destruct (keptOpen filterBy x) eqn:Ek; [|contradiction].
        destruct Hhere as [Heq | []]. injection Heq as -> <-.
        exists [], tokens, d0. auto.
      * exists (x :: pre), post, depth. rewrite listDepth_cons, Ex. auto.
    + intros (pre & post & depth & Heq & Hk & Hpre & ->).
      destruct pre as [|p pre]; simpl in Heq; injection Heq as <- ->.
      * left. rewrite Hk. simpl in Hpre. injection Hpre as <-. left.
        reflexivity.
      * right. rewrite listDepth_cons, Ex in Hpre.
        exists pre, post, depth. auto.
Qed.

Lemma flattenLists_tagged (tokens : list Token.t) (filterBy : option bool)
  (lists : list ListDesc.t) :
  flattenLists tokens filterBy = Ok lists ->
  listsClosed tokens ->
  map tagOf lists = opensWithDepth filterBy tokens 0.
Proof.
  unfold flattenLists, flattenRun, listsClosed. intros Hrun Hclosed.
  destruct (foldM (flattenStep filterBy) tokens (mkFlat [] [] None None))
    as [st|] eqn:Efold; [|discriminate].
  cbn [bind] in Hrun. injection Hrun as <-.
  assert (Hok : pendingOk (mkFlat [] [] None None)) by constructor.
  assert (Hn0 : wellNested (mkFlat [] [] None None)) by (exists []; reflexivity).
  assert (Hl0 : linesKnown (mkFlat [] [] None None)) by (intros t H; discriminate).
  pose proof (flattenRun_tagged _ _ _ _ Efold Hok Hn0 Hl0) as Htag.
  pose proof (flattenRun_depth _ _ _ _ _ Efold Hclosed) as Hlen.
  apply length_zero_iff_nil in Hlen. rewrite Hlen in Htag.
  exact Htag.
Qed.

Lemma keptOpen_opensAtDepth (filterBy : option bool) (tokens : list Token.t)
  (t : Token.t) (n : Z) :
  (exists pre post depth,
      tokens = pre ++ t :: post /\ keptOpen filterBy t = true
      /\ listDepth pre 0 = Some depth /\ n = Z.of_nat depth)
  <-> exists depth,
        opensAtDepth tokens t depth
        /\ keeps filterBy (isOrderedOpen t) = true
        /\ n = Z.of_nat depth.
Proof.
  unfold keptOpen, opensAtDepth. split.
  - intros (pre & post & depth & -> & Hk & Hpre & ->).
    apply andb_prop in Hk as [Ho Hk]. exists depth. split; [|auto].
    exists pre, post. auto.
  - intros (depth & (pre & post & -> & Ho & Hpre) & Hk & ->).
    exists pre, post, depth. rewrite Ho, Hk. auto.
Qed.

(** The flat sequence holds, in document order, one descriptor for each
    list-open token that passes the filter, and the nesting of a descriptor
    is the number of lists that are open around its open token. *)
Theorem flattenLists_nesting (tokens : list Token.t) (filterBy : option bool)
  (lists : list ListDesc.t) :
  flattenLists tokens filterBy = Ok lists ->
  listsClosed tokens ->
  map tagOf lists = opensWithDepth filterBy tokens 0
  /\ forall t n,
       In (t, n) (map tagOf lists)
       <-> exists depth,
             opensAtDepth tokens t depth
             /\ keeps filterBy (isOrderedOpen t) = true
             /\ n = Z.of_nat depth.
Proof.
  intros Hrun Hclosed.
  pose proof (flattenLists_tagged _ _ _ Hrun Hclosed) as Htag.
  split; [exact Htag|]. intros t n.
  rewrite Htag, (opensWithDepth_In filterBy tokens 0 0 t n Hclosed).
  apply keptOpen_opensAtDepth.
Qed.

Lemma flattenLists_nesting_witness :
  map tagOf nestedListsFlat = opensWithDepth None nestedListsTokens 0
  /\ forall t n,
       In (t, n) (map tagOf nestedListsFlat)
       <-> exists depth,
             opensAtDepth nestedListsTokens t depth
             /\ keeps None (isOrderedOpen t) = true
             /\ n = Z.of_nat depth.
Proof.
  apply (flattenLists_nesting nestedListsTokens None nestedListsFlat).
  - exact nestedListsFlat_spec.
  - exact nestedListsTokens_closed.
Defined.

(** ** The descriptors and their items *)

Lemma recorded_more (filterBy : option bool) (seen more : list Token.t)
  (d : ListDesc.t) :
  recorded filterBy seen d -> recorded filterBy (seen ++ more) d.
Proof.
  intros (Hi & Ho & Hk & Hitems & t & l0 & Hin & Ht & Hl).
  repeat split; auto. exists t, l0. split; [|auto].
  apply in_app_iff. left. exact Hin.
Qed.

Lemma Forall_splice {A : Type} (P : A -> Prop) (i : nat) (x : A) (l : list A) :
  P x -> Forall P l -> Forall P (splice i x l).
Proof.
  intros Hx Hl. unfold splice. rewrite <- (firstn_skipn i l) in Hl.
  apply Forall_app in Hl as [H1 H2]. apply Forall_app.
  split; [exact H1 | constructor; assumption].
Qed.

Lemma pending_pop (lists lists' : list ListDesc.t)
  (stack : list (option ListDesc.t)) (cur : ListDesc.t)
  (lw lw' : option Token.t) :
  pending (mkFlat lists stack (Some cur) lw)
  = cur :: pending (mkFlat lists' (tl stack)
                      (match stack with top :: _ => top | [] => None end) lw').
Proof.
  unfold pending. cbn [fl_current fl_stack]. destruct stack; reflexivity.
Qed.

Lemma flattenStep_recorded (filterBy : option bool) (seen : list Token.t)
  (st st' : FlatState) (t : Token.t) :
  flattenStep filterBy st t = Ok st' ->
  Forall (recorded filterBy seen) (fl_lists st) ->
  Forall recording (pending st) ->
  remembered seen st ->
  Forall (recorded filterBy (seen ++ [t])) (fl_lists st')
  /\ Forall recording (pending st')
  /\ remembered (seen ++ [t]) st'.
Proof.
  destruct st as [lists stack current lw].
  unfold flattenStep, remembered. cbn [fl_lists fl_lastWithLines].
  intros Hstep Hdone Hpend Hlw.
  assert (Hdone' : Forall (recorded filterBy (seen ++ [t])) lists).
  { eapply Forall_impl; [|exact Hdone]. intros d. apply recorded_more. }
  assert (Hlw' : forall u, lw = Some u ->
                           In u (seen ++ [t]) /\ tracksLines u = true).
  { intros u Hu. destruct (Hlw u Hu) as [Hin Htr]. split; [|exact Htr].
    apply in_app_iff. left. exact Hin. }
  destruct (isListOpen t) eqn:Eopen.
  - apply Ok_inj in Hstep. subst st'. cbn [fl_lists fl_lastWithLines].
    rewrite pending_push. split; [exact Hdone'|]. split; [|exact Hlw'].
    constructor; [|exact Hpend]. split; [reflexivity | constructor].
  - destruct (isListClose t) eqn:Eclose.
    + destruct current as [cur|]; [|discriminate].
      destruct lw as [lastTok|]; [|discriminate].
      destruct (Hlw lastTok eq_refl) as [Hin Htr].
      unfold lines1 in Hstep.
      destruct (Token.lines lastTok) as [[l0 l1]|] eqn:El; [|discriminate].
      cbn [bind] in Hstep. apply Ok_inj in Hstep. subst st'.
      cbn [fl_lists fl_lastWithLines].
      rewrite (pending_pop lists
                 (if keeps filterBy (ListDesc.ordered cur)
                  then splice (match ListDesc.insert cur with
                               | Some i => i | None => O end)
                         (ListDesc.mk (ListDesc.ordered cur) (ListDesc.open cur)
                            (ListDesc.items cur) (ListDesc.nesting cur) l1 None)
                         lists
                  else lists)
                 stack cur (Some lastTok) (Some lastTok)) in Hpend.
      inversion Hpend as [|? ? [Hord Hitems] Hrest]; subst.
      split; [|split; [exact Hrest | exact Hlw']].
      destruct (keeps filterBy (ListDesc.ordered cur)) eqn:Ek; [|exact Hdone'].
      apply Forall_splice; [|exact Hdone'].
      unfold recorded.
      cbn [ListDesc.insert ListDesc.ordered ListDesc.open ListDesc.items
             ListDesc.lastLineIndex].
      repeat split; auto. exists lastTok, l0. split; [|auto].
      apply in_app_iff. left. exact Hin.
    + destruct (String.eqb (Token.type t) "list_item_open") eqn:Eitem.
      * destruct current as [cur|]; [|discriminate].
        apply Ok_inj in Hstep. subst st'. cbn [fl_lists fl_lastWithLines].
        split; [exact Hdone'|]. split; [|exact Hlw'].
        unfold pending in *. cbn [fl_current fl_stack flat_map app] in *.
        inversion Hpend as [|? ? [Hord Hitems] Hrest]; subst.
        constructor; [|exact Hrest]. split; [exact Hord|].
        cbn [ListDesc.items]. unfold push. apply Forall_app.
        split; [exact Hitems|]. constructor; [exact Eitem | constructor].
      * destruct (Token.lines t) as [l|] eqn:El; apply Ok_inj in Hstep;
          subst st'; cbn [fl_lists fl_lastWithLines].
        -- split; [exact Hdone'|]. split; [exact Hpend|].
           intros u Hu. injection Hu as <-. split.
           ++ apply in_app_iff. right. left. reflexivity.
           ++ unfold tracksLines, isListItem.
              rewrite Eopen, Eclose, Eitem, El. reflexivity.
        -- split; [exact Hdone'|]. split; [exact Hpend | exact Hlw'].
Qed.

Lemma flattenRun_recorded (filterBy : option bool) (tokens : list Token.t) :
  forall seen st st',
    foldM (flattenStep filterBy) tokens st = Ok st' ->
    Forall (recorded filterBy seen) (fl_lists st) ->
    Forall recording (pending st) ->
    remembered seen st ->
    Forall (recorded filterBy (seen ++ tokens)) (fl_lists st').
Proof.
  induction tokens as [|t tokens IH]; intros seen st st' Hrun Hd Hp Hr.
  - simpl in Hrun. injection Hrun as <-. rewrite app_nil_r. exact Hd.
  - cbn [foldM] in Hrun.
    destruct (flattenStep filterBy st t) as [st1|] eqn:Estep; [|discriminate].
    cbn [bind] in Hrun.
    destruct (flattenStep_recorded _ _ _ _ _ Estep Hd Hp Hr) as (Hd1 & Hp1 & Hr1).
    change (t :: tokens) with ([t] ++ tokens). rewrite app_assoc.
    apply (IH _ _ _ Hrun Hd1 Hp1 Hr1).
Qed.

(** Every descriptor in the output of [flattenLists] has lost [insert], is
    ordered exactly when its open token opens an ordered list, passes the
    filter, holds list-item tokens only, and ends on the last line of a token
    of the stream that is neither a list boundary nor an item. *)
Theorem flattenLists_descriptors (tokens : list Token.t)
  (filterBy : option bool) (lists : list ListDesc.t) :
  flattenLists tokens filterBy = Ok lists ->
  Forall (recorded filterBy tokens) lists.
Proof.
  unfold flattenLists, flattenRun. intros Hrun.
  destruct (foldM (flattenStep filterBy) tokens (mkFlat [] [] None None))
    as [st|] eqn:Efold; [|discriminate].
  cbn [bind] in Hrun. injection Hrun as <-.
  apply (flattenRun_recorded filterBy tokens [] _ _ Efold).
  - constructor.
  - constructor.
  - intros t H. discriminate.
Qed.

Lemma flattenLists_descriptors_witness :
  Forall (recorded None nestedListsTokens) nestedListsFlat.
Proof.
  apply (flattenLists_descriptors nestedListsTokens None nestedListsFlat).
  exact nestedListsFlat_spec.
Defined.

Lemma isListOpen_not_item (t : Token.t) :
  isListOpen t = true -> isListItem t = false.
Proof.
  unfold isListOpen, isListItem. intros H.
  apply orb_prop in H as [H | H]; apply String.eqb_eq in H; rewrite H;
    reflexivity.
Qed.

Lemma isListClose_not_item (t : Token.t) :
  isListClose t = true -> isListItem t = false.
Proof.
  unfold isListClose, isListItem. intros H.
  apply orb_prop in H as [H | H]; apply String.eqb_eq in H; rewrite H;
    reflexivity.
Qed.

Lemma Permutation_splice {A : Type} (i : nat) (x : A) (l : list A) :
  Permutation (splice i x l) (x :: l).
Proof.
  unfold splice. rewrite <- (firstn_skipn i l) at 3.
  symmetry. apply Permutation_middle.
Qed.

Lemma flattenStep_items (st st' : FlatState) (t : Token.t) :
  flattenStep None st t = Ok st' ->
  Permutation
    (flat_map ListDesc.items (fl_lists st')
     ++ flat_map ListDesc.items (pending st'))
    ((flat_map ListDesc.items (fl_lists st)
      ++ flat_map ListDesc.items (pending st))
     ++ (if isListItem t then [t] else [])).
Proof.
  destruct st as [lists stack current lw].
  unfold flattenStep. cbn [fl_lists keeps]. intros Hstep.
  destruct (isListOpen t) eqn:Eopen.
  - apply Ok_inj in Hstep. subst st'. cbn [fl_lists].
    rewrite pending_push, (isListOpen_not_item t Eopen), app_nil_r.
    reflexivity.
  - destruct (isListClose t) eqn:Eclose.
    + destruct current as [cur|]; [|discriminate].
      destruct lw as [lastTok|]; [|discriminate].
      destruct (lines1 lastTok) as [l1|]; [|discriminate].
      cbn [bind] in Hstep. apply Ok_inj in Hstep. subst st'.
      cbn [fl_lists].
      rewrite (isListClose_not_item t Eclose), app_nil_r.
      set (done := ListDesc.mk (ListDesc.ordered cur) (ListDesc.open cur)
                     (ListDesc.items cur) (ListDesc.nesting cur) l1 None).
      set (i := match ListDesc.insert cur with Some i => i | None => O end).
      rewrite (pending_pop lists (splice i done lists) stack cur
                 (Some lastTok) (Some lastTok)).
      cbn [flat_map].
      rewrite (Permutation_flat_map ListDesc.items
                 (Permutation_splice i done lists)).
      cbn [flat_map]. subst done. cbn [ListDesc.items].
      rewrite <- !app_assoc. apply Permutation_app_swap_app.
    + unfold isListItem.
      destruct (String.eqb (Token.type t) "list_item_open") eqn:Eitem.
      * destruct current as [cur|]; [|discriminate].
        apply Ok_inj in Hstep. subst st'. cbn [fl_lists].
        unfold pending. cbn [fl_current fl_stack flat_map app ListDesc.items].
        unfold push. rewrite <- !app_assoc.
        apply Permutation_app_head, Permutation_app_head.
        apply Permutation_app_comm.
      * rewrite app_nil_r.
        destruct (Token.lines t); apply Ok_inj in Hstep; subst st';
          reflexivity.
Qed.

Lemma flattenRun_items (tokens : list Token.t) :
  forall st st',
    foldM (flattenStep None) tokens st = Ok st' ->
    Permutation
      (flat_map ListDesc.items (fl_lists st')
       ++ flat_map ListDesc.items (pending st'))
      ((flat_map ListDesc.items (fl_lists st)
        ++ flat_map ListDesc.items (pending st))
       ++ filter isListItem tokens).
Proof.
  induction tokens as [|t tokens IH]; intros st st' Hrun.
  - simpl in Hrun. injection Hrun as <-. simpl. rewrite app_nil_r.
    reflexivity.
  - cbn [foldM] in Hrun.
    destruct (flattenStep None st t) as [st1|] eqn:Estep; [|discriminate].
    cbn [bind] in Hrun.
    rewrite (IH _ _ Hrun), (flattenStep_items _ _ _ Estep), <- !app_assoc.
    cbn [filter]. destruct (isListItem t); reflexivity.
Qed.

(** Without a filter, every list-item token of a stream whose lists are all
    closed lands in the items of exactly one descriptor: the items of all
    descriptors together are the list-item tokens of the stream, up to their
    order. *)
Theorem flattenLists_items_partition (tokens : list Token.t)
  (lists : list ListDesc.t) :
  flattenLists tokens None = Ok lists ->
  listsClosed tokens ->
  Permutation (flat_map ListDesc.items lists) (filter isListItem tokens).
Proof.
  unfold flattenLists, flattenRun, listsClosed. intros Hrun Hclosed.
  destruct (foldM (flattenStep None) tokens (mkFlat [] [] None None))
    as [st|] eqn:Efold; [|discriminate].
  cbn [bind] in Hrun. injection Hrun as <-.
  pose proof (flattenRun_items _ _ _ Efold) as Hperm.
  pose proof (flattenRun_depth _ _ _ _ _ Efold Hclosed) as Hlen.
  apply length_zero_iff_nil in Hlen. rewrite Hlen in Hperm.
  cbn [flat_map pending fl_lists fl_current fl_stack app] in Hperm.
  rewrite app_nil_r in Hperm. exact Hperm.
Qed.

Lemma flattenLists_items_partition_witness :
  Permutation (flat_map ListDesc.items nestedListsFlat)
    (filter isListItem nestedListsTokens).
Proof.
  apply (flattenLists_items_partition nestedListsTokens nestedListsFlat).
  - exact nestedListsFlat_spec.
  - exact nestedListsTokens_closed.
Defined.

(** ** The rules on lists *)

Lemma perList_fold (c : Token.t -> Token.t -> bool) (lists : list ListDesc.t) :
  forall acc,
    (foldM (fun errors lst =>
              first <- firstItem lst ;;
              Ok (fold_left
                    (fun errors item =>
                       pushIf (c first item) errors (Token.lineNumber item))
                    (ListDesc.items lst) errors))
           lists acc = TypeError
     <-> exists lst, In lst lists /\ ListDesc.items lst = [])
    /\ forall errors,
         foldM (fun errors lst =>
                  first <- firstItem lst ;;
                  Ok (fold_left
                        (fun errors item =>
                           pushIf (c first item) errors (Token.lineNumber item))
                        (ListDesc.items lst) errors))
               lists acc = Ok errors ->
         forall n,
           In n errors
           <-> In n acc
               \/ exists lst first item,
                    In lst lists
                    /\ hd_error (ListDesc.items lst) = Some first
                    /\ In item (ListDesc.items lst)
                    /\ c first item = true
                    /\ Token.lineNumber item = n.
Proof.
  induction lists as [|lst lists IH]; intros acc.
  - simpl. split.
    + split; [discriminate|]. intros (lst & [] & _).
    + intros errors H n. injection H as <-. split; [auto|].
      intros [H | (lst & _ & _ & [] & _)]. exact H.
  - cbn [foldM]. unfold firstItem at 1 3.
    destruct (ListDesc.items lst) as [|first items] eqn:Eitems.
    + cbn [bind]. split.
      * split; [|reflexivity]. intros _. exists lst. simpl. auto.
      * discriminate.
    + cbn [bind].
      rewrite (fold_pushIf_map_filter (c first) Token.lineNumber).
      destruct (IH (acc ++ map Token.lineNumber
                             (filter (c first) (first :: items))))
        as [IHthrow IHok].
      split.
      * rewrite IHthrow. split.
        -- intros (l & Hl & Hi). exists l. simpl. auto.
        -- intros (l & [<- | Hl] & Hi); [congruence|]. exists l. auto.
      * intros errors Hrun n. rewrite (IHok errors Hrun n), in_app_iff,
          in_map_iff.
        split.
        -- intros [[H | (item & Hn & Hin)] | (l & f & item & Hl & H)].
           ++ left. exact H.
           ++ apply filter_In in Hin as [Hin Hc]. right.
              exists lst, first, item. rewrite Eitems. simpl. auto.
           ++ right. exists l, f, item. simpl. tauto.
        -- intros [H | (l & f & item & [<- | Hl] & Hf & Hin & Hc & Hn)].
           ++ left. left. exact H.
           ++ rewrite Eitems in Hf, Hin. simpl in Hf. injection Hf as <-.
              left. right. exists item. split; [exact Hn|].
              apply filter_In. auto.
           ++ right. exists l, f, item. auto.
Qed.

(** MD005 compares the indent of every item with that of the first item of
    the same list; it throws exactly when some list has no item. *)
Theorem MD005_compares_with_first_item (params : Params.t)
  (lists : list ListDesc.t) :
  flattenLists (Params.tokens params) None = Ok lists ->
  (MD005 params = TypeError
   <-> exists lst, In lst lists /\ ListDesc.items lst = [])
  /\ forall errors,
       MD005 params = Ok errors ->
       forall n,
         In n errors
         <-> exists lst first item,
               In lst lists
               /\ hd_error (ListDesc.items lst) = Some first
               /\ In item (ListDesc.items lst)
               /\ indentFor item <> indentFor first
               /\ Token.lineNumber item = n.
Proof.
  intros Hlists. unfold MD005. rewrite Hlists. cbn [bind].
  destruct (perList_fold
              (fun first item =>
                 negb (Z.eqb (indentFor item) (indentFor first)))
              lists []) as [Hthrow Hok].
  split; [exact Hthrow|]. intros errors Hrun n.
  rewrite (Hok errors Hrun n). split.
  - intros [[] | (lst & first & item & Hl & Hf & Hi & Hc & Hn)].
    apply negb_true_iff, Z.eqb_neq in Hc. exists lst, first, item. auto.
  - intros (lst & first & item & Hl & Hf & Hi & Hc & Hn). right.
    exists lst, first, item. repeat split; auto.
    apply negb_true_iff, Z.eqb_neq. exact Hc.
Qed.

Lemma MD005_compares_with_first_item_witness :
  (MD005 nestedLists = TypeError
   <-> exists lst, In lst nestedListsFlat /\ ListDesc.items lst = [])
  /\ forall errors,
       MD005 nestedLists = Ok errors ->
       forall n,
         In n errors
         <-> exists lst first item,
               In lst nestedListsFlat
               /\ hd_error (ListDesc.items lst) = Some first
               /\ In item (ListDesc.items lst)
               /\ indentFor item <> indentFor first
               /\ Token.lineNumber item = n.
Proof.
  apply (MD005_compares_with_first_item nestedLists nestedListsFlat).
  exact nestedListsFlat_spec.
Defined.

Lemma unorderedListStyleFor_values (item : Token.t) :
  unorderedListStyleFor item = "dash"%string
  \/ unorderedListStyleFor item = "plus"%string
  \/ unorderedListStyleFor item = "asterisk"%string.
Proof.
  unfold unorderedListStyleFor.
  destruct (jsstring_eqb _ _); [auto|].
  destruct (jsstring_eqb _ _); auto.
Qed.

Lemma MD004_fold_fixed (style : string) (lists : list ListDesc.t) :
  String.eqb style "consistent" = false ->
  forall errors,
    foldM
      (fun (st : string * list Z) lst =>
         let '(style, errors) := st in
         style <- (if String.eqb style "consistent" then
                     item <- firstItem lst ;;
                     Ok (unorderedListStyleFor item)
                   else Ok style) ;;
         Ok (style,
             fold_left
               (fun errors item =>
                  pushIf (negb (String.eqb (unorderedListStyleFor item)
                                  style))
                    errors (Token.lineNumber item))
               (ListDesc.items lst) errors))
      lists (style, errors)
    = Ok (style,
          errors
          ++ flat_map
               (fun lst =>
                  map Token.lineNumber
                    (filter (fun item =>
                               negb (String.eqb (unorderedListStyleFor item)
                                       style))
                       (ListDesc.items lst)))
               lists).
Proof.
  intros Hstyle. induction lists as [|lst lists IH]; intros errors.
  - simpl. rewrite app_nil_r. reflexivity.
  - cbn [foldM flat_map]. rewrite Hstyle. cbn [bind].
    rewrite IH, fold_pushIf_map_filter, <- app_assoc. reflexivity.
Qed.

(** MD004 holds the items of all unordered lists, nested ones included, to
    one style: the configured one, or the style of the first item of the
    first unordered list of the document. *)
Theorem MD004_holds_all_lists_to_one_style (params : Params.t)
  (lists : list ListDesc.t) (errors : list Z) :
  flattenLists (Params.tokens params) (Some false) = Ok lists ->
  MD004 params = Ok errors ->
  exists style,
    effectiveListStyle params lists style
    /\ forall n,
         In n errors
         <-> exists lst item,
               In lst lists /\ In item (ListDesc.items lst)
               /\ unorderedListStyleFor item <> style
               /\ Token.lineNumber item = n.
Proof.
  intros Hlists. unfold MD004, effectiveListStyle. rewrite Hlists.
  cbn [bind].
  set (configured :=
         orStr (Options.style (Params.options params)) "consistent").
  assert (Hchar :
            forall style n,
              In n (flat_map
                      (fun lst =>
                         map Token.lineNumber
                           (filter (fun item =>
                                      negb (String.eqb
                                              (unorderedListStyleFor item)
                                              style))
                              (ListDesc.items lst)))
                      lists)
              <-> exists lst item,
                    In lst lists /\ In item (ListDesc.items lst)
                    /\ unorderedListStyleFor item <> style
                    /\ Token.lineNumber item = n).
  { intros style n. rewrite in_flat_map. split.
    - intros (lst & Hl & Hn). apply in_map_iff in Hn as (item & Hn & Hi).
      apply filter_In in Hi as [Hi Hc].
      apply negb_true_iff, String.eqb_neq in Hc. exists lst, item. auto.
    - intros (lst & item & Hl & Hi & Hc & Hn). exists lst.
      split; [exact Hl|]. apply in_map_iff. exists item. split; [exact Hn|].
      apply filter_In. split; [exact Hi|].
      apply negb_true_iff, String.eqb_neq. exact Hc. }
  destruct (String.eqb configured "consistent") eqn:Ec.
  - (* the first item of the first list sets the style *)
    destruct lists as [|first lists].
    + simpl. intros H. injection H as <-. exists configured.
      split; [exact I|]. intros n. split; [contradiction|].
      intros (lst & _ & [] & _).
    + cbn [foldM]. rewrite Ec. unfold firstItem.
      destruct (ListDesc.items first) as [|item items] eqn:Eitems;
        [discriminate|].
      cbn [bind].
      assert (Hfixed :
                String.eqb (unorderedListStyleFor item) "consistent" = false).
      { destruct (unorderedListStyleFor_values item) as [-> | [-> | ->]];
          reflexivity. }
      rewrite (MD004_fold_fixed _ lists Hfixed),
        (fold_pushIf_map_filter
           (fun it => negb (String.eqb (unorderedListStyleFor it)
                              (unorderedListStyleFor item)))
           Token.lineNumber).
      cbn [bind snd app]. intros H. injection H as <-.
      exists (unorderedListStyleFor item). split.
      * exists item. split; reflexivity.
      * intros n. rewrite <- Hchar. cbn [flat_map]. rewrite Eitems.
        reflexivity.
  - rewrite (MD004_fold_fixed _ lists Ec). cbn [bind snd app].
    intros H. injection H as <-. exists configured.
    split; [reflexivity | apply Hchar].
Qed.

Lemma nestedListsBullets_spec :
  flattenLists nestedListsTokens (Some false) = Ok nestedListsBullets.
Proof.
  vm_compute. reflexivity.
Qed.

Lemma MD004_nestedLists : MD004 nestedLists = Ok [5].
Proof.
  vm_compute. reflexivity.
Qed.

Lemma MD004_holds_all_lists_to_one_style_witness :
  exists style,
    effectiveListStyle nestedLists nestedListsBullets style
    /\ forall n,
         In n [5]
         <-> exists lst item,
               In lst nestedListsBullets /\ In item (ListDesc.items lst)
               /\ unorderedListStyleFor item <> style
               /\ Token.lineNumber item = n.
Proof.
  apply (MD004_holds_all_lists_to_one_style nestedLists nestedListsBullets [5]).
  - exact nestedListsBullets_spec.
  - exact MD004_nestedLists.
Defined.

Lemma keptOpen_bullet (t : Token.t) :
  keptOpen (Some false) t = true
  <-> Token.type t = "bullet_list_open"%string.
Proof.
  unfold keptOpen, isListOpen, isOrderedOpen, keeps. split.
  - intros H. apply andb_prop in H as [Ho Hk].
    destruct (String.eqb (Token.type t) "ordered_list_open"); [discriminate|].
    rewrite orb_false_r in Ho. apply String.eqb_eq. exact Ho.
  - intros ->. reflexivity.
Qed.

(** MD006 reports exactly the unordered lists that open outside of any other
    list on a line that starts with whitespace. *)
Lemma MD006_In (params : Params.t)
  (errors : list Z) :
  MD006 params = Ok errors ->
  listsClosed (Params.tokens params) ->
  forall n,
    In n errors
    <-> exists t,
          opensAtDepth (Params.tokens params) t 0
          /\ Token.type t = "bullet_list_open"%string
          /\ indentFor t <> 0
          /\ Token.lineNumber t = n.
Proof.
  unfold MD006. intros Hrun Hclosed n.
  destruct (flattenLists (Params.tokens params) (Some false))
    as [lists|] eqn:Elists; [|discriminate].
  cbn [bind] in Hrun. injection Hrun as <-.
  pose proof (flattenLists_tagged _ _ _ Elists Hclosed) as Htag.
  rewrite fold_pushIf_map_filter. cbn [app]. rewrite in_map_iff.
  assert (Htagged :
            forall t k,
              In (t, k) (map tagOf lists)
              <-> exists depth,
                    opensAtDepth (Params.tokens params) t depth
                    /\ keeps (Some false) (isOrderedOpen t) = true
                    /\ k = Z.of_nat depth).
  { intros t k. rewrite Htag,
      (opensWithDepth_In (Some false) _ 0 0 t k Hclosed).
    apply keptOpen_opensAtDepth. }
  split.
  - intros (lst & Hn & Hin). apply filter_In in Hin as [Hin Hc].
    apply andb_prop in Hc as [Hnest Hind].
    apply Z.eqb_eq in Hnest. apply negb_true_iff, Z.eqb_neq in Hind.
    assert (Ht : In (ListDesc.open lst, 0) (map tagOf lists)).
    { apply in_map_iff. exists lst. unfold tagOf. rewrite Hnest. auto. }
    apply Htagged in Ht as (depth & Hopen & Hk & Hd).
    assert (depth = O) by lia. subst depth.
    exists (ListDesc.open lst). split; [exact Hopen|]. split; [|auto].
    apply keptOpen_bullet. unfold keptOpen.
    destruct Hopen as (pre & post & _ & Ho & _). rewrite Ho, Hk. reflexivity.
  - intros (t & Hopen & Hty & Hind & Hn).
    assert (Ht : In (t, 0) (map tagOf lists)).
    { apply Htagged. exists O. split; [exact Hopen|]. split; [|reflexivity].
      apply keptOpen_bullet in Hty. unfold keptOpen in Hty.
      apply andb_prop in Hty as [_ Hk]. exact Hk. }
    apply in_map_iff in Ht as (lst & Htag' & Hin). unfold tagOf in Htag'.
    injection Htag' as Ho Hnest. exists lst. rewrite Ho.
    split; [exact Hn|]. apply filter_In. split; [exact Hin|].
    rewrite Ho, Hnest. apply andb_true_intro. split; [reflexivity|].
    apply negb_true_iff, Z.eqb_neq. exact Hind.
Qed.

Lemma fold_left_map {A B St : Type} (f : St -> B -> St) (g : A -> B)
  (l : list A) :
  forall s, fold_left (fun s x => f s (g x)) l s = fold_left f (map g l) s.
Proof.
  induction l as [|x l IH]; intros s; simpl; auto.
Qed.

(** MD007 compares the indent of each unordered list with that of the
    unordered list opened before it in the document, nested in it or not,
    and with zero for the first: it reports the list when its indent is
    greater and the difference is not the configured one. *)
Lemma MD007_In (params : Params.t)
  (errors : list Z) :
  MD007 params = Ok errors ->
  listsClosed (Params.tokens params) ->
  forall n,
    In n errors
    <-> (exists b post,
            bulletOpens (Params.tokens params) = b :: post
            /\ 0 < indentFor b
            /\ indentFor b
               <> Z.of_N (orNum (Options.indent (Params.options params)) 2)
            /\ Token.lineNumber b = n)
        \/ (exists pre a b post,
               bulletOpens (Params.tokens params) = pre ++ a :: b :: post
               /\ indentFor a < indentFor b
               /\ indentFor b - indentFor a
                  <> Z.of_N (orNum (Options.indent (Params.options params)) 2)
               /\ Token.lineNumber b = n).
Proof.
  unfold MD007, bulletOpens. intros Hrun Hclosed n.
  destruct (flattenLists (Params.tokens params) (Some false))
    as [lists|] eqn:Elists; [|discriminate].
  cbn [bind] in Hrun. injection Hrun as <-.
  rewrite <- (flattenLists_opens _ _ _ Elists Hclosed).
  set (optionsIndent :=
         Z.of_N (orNum (Options.indent (Params.options params)) 2)).
  rewrite (fold_left_map
             (fun (st : Z * list Z) (t : Token.t) =>
                let '(prevIndent, errors) := st in
                let indent := indentFor t in
                (indent,
                 pushIf ((indent >? prevIndent)
                         && negb (Z.eqb (indent - prevIndent) optionsIndent))%bool
                   errors (Token.lineNumber t)))
             ListDesc.open lists).
  rewrite (adjacent_fold_In indentFor
             (fun p t =>
                ((indentFor t >? p)
                 && negb (Z.eqb (indentFor t - p) optionsIndent))%bool)
             Token.lineNumber).
  split.
  - intros [[] | [(b & post & Heq & Hc & Hn)
                 | (pre & a & b & post & Heq & Hc & Hn)]];
      apply andb_prop in Hc as [Hgt Hne]; apply Z.gtb_lt in Hgt;
      apply negb_true_iff, Z.eqb_neq in Hne.
    + left. exists b, post. rewrite Z.sub_0_r in Hne. auto.
    + right. exists pre, a, b, post. auto.
  - intros [(b & post & Heq & Hgt & Hne & Hn)
           | (pre & a & b & post & Heq & Hgt & Hne & Hn)]; right.
    + left. exists b, post. split; [exact Heq|]. split; [|exact Hn].
      apply andb_true_intro. split; [apply Z.gtb_lt; exact Hgt|].
      apply negb_true_iff, Z.eqb_neq. rewrite Z.sub_0_r. exact Hne.
    + right. exists pre, a, b, post. split; [exact Heq|]. split; [|exact Hn].
      apply andb_true_intro. split; [apply Z.gtb_lt; exact Hgt|].
      apply negb_true_iff, Z.eqb_neq. exact Hne.
Qed.

Lemma indentedLists_closed : listsClosed (Params.tokens indentedLists).
Proof.
  reflexivity.
Qed.

Lemma MD006_indentedLists : MD006 indentedLists = Ok [2].
Proof.
  vm_compute. reflexivity.
Qed.

Lemma MD007_indentedLists : MD007 indentedLists = Ok [2].
Proof.
  vm_compute. reflexivity.
Qed.

Lemma forallb_whitespaceOnly (s : jsstring) :
  forallb isSpace s = true <-> whitespaceOnly s.
Proof.
  unfold whitespaceOnly. rewrite forallb_forall, Forall_forall. tauto.
Qed.

Lemma test_itemPrefix (number : N) (line : jsstring) :
  test (re_itemPrefix number) line = true <-> itemPrefix number line.
Proof.
  rewrite test_spec. unfold itemPrefix, re_itemPrefix.
  cbn [p_bol p_body p_eol]. split.
  - intros (pre & mid & post & -> & Hmid & Hpre & _).
    rewrite Hpre by reflexivity. cbn [app].
    apply Lang_Cat_inv in Hmid as (ws & r1 & -> & Hws & Hr1).
    apply Lang_Cat_inv in Hr1 as (digits & r2 & -> & Hdigits & Hr2).
    apply Lang_Cat_inv in Hr2 as (dot & sp & -> & Hdot & Hsp).
    apply Lang_Star_Chr, forallb_whitespaceOnly in Hws.
    apply Lang_Text in Hdigits. subst digits.
    apply Lang_Chr_inv in Hdot as (c1 & -> & Hc1). apply N.eqb_eq in Hc1.
    apply Lang_Chr_inv in Hsp as (c2 & -> & Hc2). apply N.eqb_eq in Hc2.
    subst. exists ws, post. split; [|exact Hws].
    repeat (rewrite <- app_assoc; cbn [app]). reflexivity.
  - intros (ws & rest & -> & Hws).
    exists [], (ws ++ String_ number ++ [code "."; code " "]), rest.
    split; [cbn [app]; repeat (rewrite <- app_assoc; cbn [app]); reflexivity|].
    split; [|split; [reflexivity | discriminate]].
    apply Lang_Cat_inv. exists ws, (String_ number ++ [code "."; code " "]).
    split; [reflexivity|].
    split; [apply Lang_Star_Chr, forallb_whitespaceOnly; exact Hws|].
    apply Lang_Cat_inv. exists (String_ number), [code "."; code " "].
    split; [reflexivity|]. split; [apply Lang_Text; reflexivity|].
    change [code "."; code " "] with ([code "."] ++ [code " "]).
    constructor; constructor; apply N.eqb_refl.
Qed.

Lemma MD029_items_In (ordered : bool) (items : list Token.t) :
  forall (number : N) (errors : list Z) (n : Z),
    In n (snd (fold_left
                 (fun (st : N * list Z) item =>
                    let '(number, errors) := st in
                    let re := re_itemPrefix number in
                    (if ordered then (number + 1)%N else number,
                     pushIf (negb (test re (Token.line item))) errors
                       (Token.lineNumber item)))
                 items (number, errors)))
    <-> In n errors
        \/ exists (k : nat) item,
             nth_error items k = Some item
             /\ ~ itemPrefix
                    (if ordered then (number + N.of_nat k)%N else number)
                    (Token.line item)
             /\ Token.lineNumber item = n.
Proof.
  induction items as [|item items IH]; intros number errors n.
  - simpl. split; [auto|]. intros [H | (k & it & Hk & _)]; [exact H|].
    destruct k; discriminate.
  - cbn [fold_left]. rewrite IH. unfold pushIf, push. split.
    + intros [H | (k & it & Hk & Hp & Hn)].
      * destruct (negb (test (re_itemPrefix number) (Token.line item))) eqn:Et;
          [|left; exact H].
        apply in_app_iff in H as [H | [<- | []]]; [left; exact H|].
        right. exists O, item. split; [reflexivity|]. split; [|reflexivity].
        apply negb_true_iff in Et. rewrite <- test_itemPrefix.
        replace (if ordered then (number + N.of_nat 0)%N else number)
          with number by (destruct ordered; [simpl; lia | reflexivity]).
        congruence.
      * right. exists (S k), it. split; [exact Hk|]. split; [|exact Hn].
        replace (if ordered then (number + N.of_nat (S k))%N else number)
          with (if ordered
                then ((if ordered then (number + 1)%N else number)
                      + N.of_nat k)%N
                else (if ordered then (number + 1)%N else number))
          by (destruct ordered; [lia | reflexivity]).
        exact Hp.
    + intros [H | (k & it & Hk & Hp & Hn)].
      * left. destruct (negb (test (re_itemPrefix number) (Token.line item)));
          [apply in_app_iff; left; exact H | exact H].
      * destruct k as [|k].
        -- simpl in Hk. injection Hk as <-. left.
           replace (if ordered then (number + N.of_nat 0)%N else number)
             with number in Hp by (destruct ordered; [simpl; lia | reflexivity]).
           rewrite <- test_itemPrefix in Hp. apply not_true_is_false in Hp.
           rewrite Hp. cbn [negb]. apply in_app_iff. right. left. exact Hn.
        -- right. exists k, it. split; [exact Hk|]. split; [|exact Hn].
           replace (if ordered
                    then ((if ordered then (number + 1)%N else number)
                          + N.of_nat k)%N
                    else (if ordered then (number + 1)%N else number))
             with (if ordered then (number + N.of_nat (S k))%N else number)
             by (destruct ordered; [lia | reflexivity]).
           exact Hp.
Qed.

Lemma MD029_lists_In (ordered : bool) (lists : list ListDesc.t) :
  forall (errors : list Z) (n : Z),
    In n (fold_left
            (fun errors lst =>
               snd (fold_left
                      (fun (st : N * list Z) item =>
                         let '(number, errors) := st in
                         let re := re_itemPrefix number in
                         (if ordered then (number + 1)%N else number,
                          pushIf (negb (test re (Token.line item))) errors
                            (Token.lineNumber item)))
                      (ListDesc.items lst) (1%N, errors)))
            lists errors)
    <-> In n errors
        \/ exists lst (k : nat) item,
             In lst lists
             /\ nth_error (ListDesc.items lst) k = Some item
             /\ ~ itemPrefix (if ordered then (1 + N.of_nat k)%N else 1%N)
                    (Token.line item)
             /\ Token.lineNumber item = n.
Proof.
  induction lists as [|lst lists IH]; intros errors n.
  - simpl. split; [auto|]. intros [H | (lst & _ & _ & [] & _)]. exact H.
  - cbn [fold_left]. rewrite IH, MD029_items_In. split.
    + intros [[H | (k & item & Hk & Hp & Hn)] | (l & k & item & Hl & H)].
      * left. exact H.
      * right. exists lst, k, item. simpl. auto.
      * right. exists l, k, item. simpl. tauto.
    + intros [H | (l & k & item & [<- | Hl] & Hk & Hp & Hn)].
      * left. left. exact H.
      * left. right. exists k, item. auto.
      * right. exists l, k, item. auto.
Qed.

(** MD029 reports exactly the items of ordered lists whose line does not
    start, after optional whitespace, with the expected number, a dot and a
    space; the expected number is the position in the list under the style
    "ordered" and 1 under any other style, and the count starts again in
    each list. *)
Theorem MD029_checks_item_numbers (params : Params.t)
  (lists : list ListDesc.t) :
  flattenLists (Params.tokens params) (Some true) = Ok lists ->
  exists errors,
    MD029 params = Ok errors
    /\ forall n,
         In n errors
         <-> exists lst (k : nat) item,
               In lst lists
               /\ nth_error (ListDesc.items lst) k = Some item
               /\ ~ itemPrefix (expectedNumber params k) (Token.line item)
               /\ Token.lineNumber item = n.
Proof.
  intros Hlists. unfold MD029, expectedNumber. rewrite Hlists. cbn [bind].
  eexists. split; [reflexivity|]. intros n.
  rewrite (MD029_lists_In
             (String.eqb
                (orStr (Options.style (Params.options params)) "one")
                "ordered")
             lists [] n).
  split; [intros [[] | H]; exact H | intros H; right; exact H].
Qed.

Lemma numberedListFlat_spec :
  flattenLists (Params.tokens numberedList) (Some true) = Ok numberedListFlat.
Proof.
  vm_compute. reflexivity.
Qed.

Lemma MD029_checks_item_numbers_witness :
  exists errors,
    MD029 numberedList = Ok errors
    /\ forall n,
         In n errors
         <-> exists lst (k : nat) item,
               In lst numberedListFlat
               /\ nth_error (ListDesc.items lst) k = Some item
               /\ ~ itemPrefix (expectedNumber numberedList k)
                      (Token.line item)
               /\ Token.lineNumber item = n.
Proof.
  apply (MD029_checks_item_numbers numberedList numberedListFlat).
  exact numberedListFlat_spec.
Defined.

(** ** The spaces after a list marker *)

Lemma dropWhile_split (p : char -> bool) (s : jsstring) :
  exists taken,
    s = taken ++ dropWhile p s /\ forallb p taken = true
    /\ (dropWhile p s = []
        \/ exists c r, dropWhile p s = c :: r /\ p c = false).
Proof.
  induction s as [|c s (taken & Hs & Ht & Hr)]; simpl.
  - exists []. auto.
  - destruct (p c) eqn:Ec.
    + exists (c :: taken). simpl. rewrite <- Hs, Ec, Ht. auto.
    + exists []. repeat split; auto. right. exists c, s. auto.
Qed.

Lemma dropWhile_app (p : char -> bool) (taken rest : jsstring) :
  forallb p taken = true ->
  (rest = [] \/ exists c r, rest = c :: r /\ p c = false) ->
  dropWhile p (taken ++ rest) = rest.
Proof.
  intros Ht Hr. induction taken as [|c taken IH]; simpl in *.
  - destruct Hr as [-> | (c & r & -> & Hc)]; simpl; [reflexivity|].
    rewrite Hc. reflexivity.
  - apply andb_prop in Ht as [Hc Ht]. rewrite Hc. apply IH. exact Ht.
Qed.

Lemma forallb_notSpace (s : jsstring) :
  forallb notSpace s = true <-> Forall (fun c => isSpace c = false) s.
Proof.
  rewrite forallb_forall, Forall_forall. unfold notSpace.
  split; intros H c Hc; specialize (H c Hc); [apply negb_true_iff in H |
    apply negb_true_iff]; exact H.
Qed.

Lemma execMarkerSpaces_spec (line : jsstring) (n : Z) :
  execMarkerSpaces line = Some n <-> markerThenSpaces n line.
Proof.
  unfold execMarkerSpaces, markerThenSpaces. split.
  - destruct (trimLeft_split line) as (ws & Hline & Hws & _).
    destruct (dropWhile_split notSpace (trimLeft line))
      as (marker & Hmarker & Hm & Hhead).
    destruct (trimLeft_split (dropWhile notSpace (trimLeft line)))
      as (spaces & Hspaces & Hsp & Hrest).
    set (afterIndent := trimLeft line) in *.
    set (afterMarker := dropWhile notSpace afterIndent) in *.
    set (rest := trimLeft afterMarker) in *.
    destruct (Nat.eqb (List.length afterIndent) (List.length afterMarker))
      eqn:E1; [discriminate|].
    destruct (Nat.eqb (List.length afterMarker - List.length rest) 0)
      eqn:E2; [discriminate|].
    intros H. injection H as <-.
    apply Nat.eqb_neq in E1, E2.
    assert (Hlm : List.length afterIndent
                  = (List.length marker + List.length afterMarker)%nat).
    { rewrite Hmarker at 1. apply length_app. }
    assert (Hls : List.length afterMarker
                  = (List.length spaces + List.length rest)%nat).
    { rewrite Hspaces at 1. apply length_app. }
    exists ws, marker, spaces, rest.
    split; [rewrite <- Hspaces, <- Hmarker; exact Hline|].
    split; [exact Hws|].
    split; [intros ->; simpl in Hlm; lia|].
    split; [apply forallb_notSpace; exact Hm|].
    split; [intros ->; simpl in Hls; lia|].
    split; [exact Hsp|]. split; [exact Hrest|].
    f_equal. lia.
  - intros (ws & marker & spaces & rest & -> & Hws & Hmne & Hm & Hsne & Hsp
            & Hrest & ->).
    assert (Hindent : trimLeft (ws ++ marker ++ spaces ++ rest)
                      = marker ++ spaces ++ rest).
    { apply trimLeft_app; [exact Hws|]. right.
      destruct marker as [|c m]; [contradiction|]. inversion Hm; subst.
      exists c, (m ++ spaces ++ rest). auto. }
    rewrite Hindent.
    assert (Hmarker : dropWhile notSpace (marker ++ spaces ++ rest)
                      = spaces ++ rest).
    { apply dropWhile_app; [apply forallb_notSpace; exact Hm|]. right.
      destruct spaces as [|c s]; [contradiction|]. inversion Hsp; subst.
      exists c, (s ++ rest). split; [reflexivity|]. unfold notSpace.
      apply negb_false_iff. assumption. }
    rewrite Hmarker, (trimLeft_app spaces rest Hsp Hrest), !length_app.
    destruct (Nat.eqb _ _) eqn:E1.
    { apply Nat.eqb_eq in E1. destruct marker; [contradiction|].
      simpl in E1. lia. }
    destruct (Nat.eqb (List.length spaces + List.length rest
                       - List.length rest) 0) eqn:E2.
    { apply Nat.eqb_eq in E2. destruct spaces; [contradiction|].
      cbn [List.length] in E2. lia. }
    f_equal. f_equal. lia.
Qed.

Lemma test_markerSpaces (line : jsstring) :
  test re_markerSpaces line = true <-> exists n, markerThenSpaces n line.
Proof.
  rewrite test_spec. unfold markerThenSpaces, re_markerSpaces.
  cbn [p_bol p_body p_eol]. split.
  - intros (pre & mid & post & -> & Hmid & Hpre & _).
    rewrite Hpre by reflexivity. cbn [app].
    apply Lang_Cat_inv in Hmid as (ws & r1 & -> & Hws & Hr1).
    apply Lang_Cat_inv in Hr1 as (marker & spaces & -> & Hmarker & Hspaces).
    apply Lang_Star_Chr, forallb_whitespaceOnly in Hws.
    apply Lang_Plus_Chr in Hmarker as (c & m & -> & Hm).
    apply Lang_Plus_Chr in Hspaces as (d & s & -> & Hs).
    apply forallb_notSpace in Hm. apply forallb_whitespaceOnly in Hs.
    destruct (trimLeft_split post) as (more & Hpost & Hmore & Hrest).
    exists (Z.of_nat (List.length ((d :: s) ++ more))),
      ws, (c :: m), ((d :: s) ++ more), (trimLeft post).
    split.
    { rewrite Hpost at 1. repeat (rewrite <- app_assoc; cbn [app]).
      reflexivity. }
    split; [exact Hws|]. split; [discriminate|]. split; [exact Hm|].
    split; [discriminate|].
    split; [apply Forall_app; split; assumption|].
    split; [exact Hrest | reflexivity].
  - intros (n & ws & marker & spaces & rest & -> & Hws & Hmne & Hm & Hsne
            & Hsp & _ & _).
    exists [], (ws ++ marker ++ spaces), rest.
    split; [cbn [app]; repeat (rewrite <- app_assoc); reflexivity|].
    split; [|split; [reflexivity | discriminate]].
    apply Lang_Cat_inv. exists ws, (marker ++ spaces).
    split; [reflexivity|].
    split; [apply Lang_Star_Chr, forallb_whitespaceOnly; exact Hws|].
    apply Lang_Cat_inv. exists marker, spaces. split; [reflexivity|]. split.
    + destruct marker as [|c m]; [contradiction|].
      apply Lang_Plus_Chr. exists c, m. split; [reflexivity|].
      apply forallb_notSpace. exact Hm.
    + destruct spaces as [|d s]; [contradiction|].
      apply Lang_Plus_Chr. exists d, s. split; [reflexivity|].
      apply forallb_whitespaceOnly. exact Hsp.
Qed.

Lemma execMarkerSpaces_None (line : jsstring) :
  execMarkerSpaces line = None <-> test re_markerSpaces line = false.
Proof.
  rewrite <- not_true_iff_false, test_markerSpaces. split.
  - intros H (n & Hn). apply execMarkerSpaces_spec in Hn. congruence.
  - intros H. destruct (execMarkerSpaces line) as [n|] eqn:E; [|reflexivity].
    exfalso. apply H. exists n. apply execMarkerSpaces_spec. exact E.
Qed.

Lemma MD030_items_fold (expected : Z) (items : list Token.t) :
  forall acc,
    (foldM (fun errors item =>
              match execMarkerSpaces (Token.line item) with
              | Some spaces =>
                  Ok (pushIf (negb (Z.eqb spaces expected)) errors
                        (Token.lineNumber item))
              | None => TypeError
              end)
           items acc = TypeError
     <-> exists item,
           In item items /\ execMarkerSpaces (Token.line item) = None)
    /\ forall errors,
         foldM (fun errors item =>
                  match execMarkerSpaces (Token.line item) with
                  | Some spaces =>
                      Ok (pushIf (negb (Z.eqb spaces expected)) errors
                            (Token.lineNumber item))
                  | None => TypeError
                  end)
               items acc = Ok errors ->
         forall n,
           In n errors
           <-> In n acc
               \/ exists item spaces,
                    In item items
                    /\ execMarkerSpaces (Token.line item) = Some spaces
                    /\ spaces <> expected
                    /\ Token.lineNumber item = n.
Proof.
  induction items as [|item items IH]; intros acc.
  - simpl. split.
    + split; [discriminate|]. intros (item & [] & _).
    + intros errors H n. injection H as <-. split; [auto|].
      intros [H | (item & _ & [] & _)]. exact H.
  - cbn [foldM].
    destruct (execMarkerSpaces (Token.line item)) as [spaces|] eqn:Es.
    + cbn [bind].
      destruct (IH (pushIf (negb (Z.eqb spaces expected)) acc
                      (Token.lineNumber item))) as [IHthrow IHok].
      split.
      * rewrite IHthrow. split.
        -- intros (it & Hin & Hit). exists it. simpl. auto.
        -- intros (it & [<- | Hin] & Hit); [congruence|]. exists it. auto.
      * intros errors Hrun n. rewrite (IHok errors Hrun n).
        unfold pushIf, push. split.
        -- intros [H | (it & sp & Hin & Hsp & Hne & Hn)].
           ++ destruct (negb (Z.eqb spaces expected)) eqn:Ec; [|left; exact H].
              apply in_app_iff in H as [H | [<- | []]]; [left; exact H|].
              right. exists item, spaces. simpl.
              apply negb_true_iff, Z.eqb_neq in Ec. auto.
           ++ right. exists it, sp. simpl. auto.
        -- intros [H | (it & sp & [<- | Hin] & Hsp & Hne & Hn)].
           ++ left. destruct (negb (Z.eqb spaces expected));
                [apply in_app_iff; left; exact H | exact H].
           ++ left. rewrite Es in Hsp. injection Hsp as <-.
              apply Z.eqb_neq in Hne. rewrite Hne. cbn [negb].
              apply in_app_iff. right. left. exact Hn.
           ++ right. exists it, sp. auto.
    + cbn [bind]. split.
      * split; [|reflexivity]. intros _. exists item. simpl. auto.
      * discriminate.
Qed.

Lemma MD030_lists_fold (params : Params.t) (lists : list ListDesc.t) :
  forall acc,
    (foldM (fun errors lst =>
              l0 <- lines0 (ListDesc.open lst) ;;
              let lineCount := ListDesc.lastLineIndex lst - l0 in
              let allSingle :=
                Z.eqb lineCount
                  (Z.of_nat (List.length (ListDesc.items lst))) in
              let expectedSpaces :=
                if ListDesc.ordered lst then
                  (if allSingle
                   then orNum (Options.ol_single (Params.options params)) 1
                   else orNum (Options.ol_multi (Params.options params)) 1)
                else
                  (if allSingle
                   then orNum (Options.ul_single (Params.options params)) 1
                   else orNum (Options.ul_multi (Params.options params)) 1) in
              foldM (fun errors item =>
                       match execMarkerSpaces (Token.line item) with
                       | Some spaces =>
                           Ok (pushIf
                                 (negb (Z.eqb spaces (Z.of_N expectedSpaces)))
                                 errors (Token.lineNumber item))
                       | None => TypeError
                       end)
                    (ListDesc.items lst) errors)
           lists acc = TypeError
     <-> exists lst,
           In lst lists
           /\ (Token.lines (ListDesc.open lst) = None
               \/ exists item,
                    In item (ListDesc.items lst)
                    /\ execMarkerSpaces (Token.line item) = None))
    /\ forall errors,
         foldM (fun errors lst =>
                  l0 <- lines0 (ListDesc.open lst) ;;
                  let lineCount := ListDesc.lastLineIndex lst - l0 in
                  let allSingle :=
                    Z.eqb lineCount
                      (Z.of_nat (List.length (ListDesc.items lst))) in
                  let expectedSpaces :=
                    if ListDesc.ordered lst then
                      (if allSingle
                       then orNum (Options.ol_single (Params.options params)) 1
                       else orNum (Options.ol_multi (Params.options params)) 1)
                    else
                      (if allSingle
                       then orNum (Options.ul_single (Params.options params)) 1
                       else orNum (Options.ul_multi (Params.options params)) 1)
                  in
                  foldM (fun errors item =>
                           match execMarkerSpaces (Token.line item) with
                           | Some spaces =>
                               Ok (pushIf
                                     (negb (Z.eqb spaces
                                              (Z.of_N expectedSpaces)))
                                     errors (Token.lineNumber item))
                           | None => TypeError
                           end)
                        (ListDesc.items lst) errors)
               lists acc = Ok errors ->
         forall n,
           In n errors
           <-> In n acc
               \/ exists lst item spaces,
                    In lst lists /\ In item (ListDesc.items lst)
                    /\ execMarkerSpaces (Token.line item) = Some spaces
                    /\ spaces <> Z.of_N (expectedSpaces params lst)
                    /\ Token.lineNumber item = n.
Proof.
  induction lists as [|lst lists IH]; intros acc.
  - simpl. split.
    + split; [discriminate|]. intros (lst & [] & _).
    + intros errors H n. injection H as <-. split; [auto|].
      intros [H | (lst & _ & _ & [] & _)]. exact H.
  - cbn [foldM]. unfold lines0 at 1 3, expectedSpaces.
    destruct (Token.lines (ListDesc.open lst)) as [[l0 l1]|] eqn:El.
    + cbn [bind]. cbv zeta.
      set (expected :=
             Z.of_N
               (if ListDesc.ordered lst
                then
                  if Z.eqb (ListDesc.lastLineIndex lst - l0)
                       (Z.of_nat (List.length (ListDesc.items lst)))
                  then orNum (Options.ol_single (Params.options params)) 1
                  else orNum (Options.ol_multi (Params.options params)) 1
                else
                  if Z.eqb (ListDesc.lastLineIndex lst - l0)
                       (Z.of_nat (List.length (ListDesc.items lst)))
                  then orNum (Options.ul_single (Params.options params)) 1
                  else orNum (Options.ul_multi (Params.options params)) 1)).
      destruct (MD030_items_fold expected (ListDesc.items lst) acc)
        as [Hthrow Hok].
      destruct (foldM _ (ListDesc.items lst) acc) as [errors1|] eqn:Einner.
      * cbn [bind]. destruct (IH errors1) as [IHthrow IHok].
        cbv zeta in IHthrow, IHok. split.
        -- rewrite IHthrow. split.
           ++ intros (l & Hl & H). exists l. simpl. auto.
           ++ intros (l & [<- | Hl] & H).
              ** destruct H as [H | H]; [congruence|].
                 apply Hthrow in H. discriminate.
              ** exists l. auto.
        -- intros errors Hrun n.
           rewrite (IHok errors Hrun n), (Hok errors1 eq_refl n). split.
           ++ intros [[H | (item & sp & Hin & Hsp & Hne & Hn)]
                     | (l & item & sp & Hl & H)].
              ** left. exact H.
              ** right. exists lst, item, sp. rewrite El. simpl. auto.
              ** right. exists l, item, sp. simpl. tauto.
           ++ intros [H | (l & item & sp & [<- | Hl] & Hin & Hsp & Hne & Hn)].
              ** left. left. exact H.
              ** left. right. exists item, sp. rewrite El in Hne. auto.
              ** right. exists l, item, sp. auto.
      * cbn [bind]. split; [|discriminate].
        split; [|reflexivity]. intros _. exists lst.
        split; [left; reflexivity|]. right. apply Hthrow. reflexivity.
    + cbn [bind]. split; [|discriminate].
      split; [|reflexivity]. intros _. exists lst. simpl. auto.
Qed.

(** MD030 throws exactly when the open token of some list has no line range
    or the line of some item does not match the marker pattern; otherwise it
    reports exactly the items whose marker is followed by a run of
    whitespace of another length than the expected one. *)
Theorem MD030_checks_marker_spaces (params : Params.t)
  (lists : list ListDesc.t) :
  flattenLists (Params.tokens params) None = Ok lists ->
  (MD030 params = TypeError
   <-> exists lst,
         In lst lists
         /\ (Token.lines (ListDesc.open lst) = None
             \/ exists item,
                  In item (ListDesc.items lst)
                  /\ test re_markerSpaces (Token.line item) = false))
  /\ forall errors,
       MD030 params = Ok errors ->
       forall n,
         In n errors
         <-> exists lst item spaces,
               In lst lists /\ In item (ListDesc.items lst)
               /\ markerThenSpaces spaces (Token.line item)
               /\ spaces <> Z.of_N (expectedSpaces params lst)
               /\ Token.lineNumber item = n.
Proof.
  intros Hlists. unfold MD030. rewrite Hlists. cbn [bind]. cbv zeta.
  destruct (MD030_lists_fold params lists []) as [Hthrow Hok].
  cbv zeta in Hthrow, Hok. split.
  - rewrite Hthrow. split.
    + intros (lst & Hl & [H | (item & Hi & Hn)]); exists lst;
        (split; [exact Hl|]); [left; exact H|].
      right. exists item. split; [exact Hi|].
      apply execMarkerSpaces_None. exact Hn.
    + intros (lst & Hl & [H | (item & Hi & Hn)]); exists lst;
        (split; [exact Hl|]); [left; exact H|].
      right. exists item. split; [exact Hi|].
      apply execMarkerSpaces_None. exact Hn.
  - intros errors Hrun n. rewrite (Hok errors Hrun n). split.
    + intros [[] | (lst & item & sp & Hl & Hi & Hsp & Hne & Hn)].
      exists lst, item, sp. apply execMarkerSpaces_spec in Hsp. auto.
    + intros (lst & item & sp & Hl & Hi & Hsp & Hne & Hn). right.
      exists lst, item, sp. apply execMarkerSpaces_spec in Hsp. auto.
Qed.

Lemma indentedListsFlat_spec :
  flattenLists (Params.tokens indentedLists) None = Ok indentedListsFlat.
Proof.
  vm_compute. reflexivity.
Qed.

Lemma MD030_checks_marker_spaces_witness :
  (MD030 indentedLists = TypeError
   <-> exists lst,
         In lst indentedListsFlat
         /\ (Token.lines (ListDesc.open lst) = None
             \/ exists item,
                  In item (ListDesc.items lst)
                  /\ test re_markerSpaces (Token.line item) = false))
  /\ forall errors,
       MD030 indentedLists = Ok errors ->
       forall n,
         In n errors
         <-> exists lst item spaces,
               In lst indentedListsFlat /\ In item (ListDesc.items lst)
               /\ markerThenSpaces spaces (Token.line item)
               /\ spaces <> Z.of_N (expectedSpaces indentedLists lst)
               /\ Token.lineNumber item = n.
Proof.
  apply (MD030_checks_marker_spaces indentedLists indentedListsFlat).
  exact indentedListsFlat_spec.
Defined.

(** ** The lines MD032 reports *)

Lemma MD032_unfold (params : Params.t) :
  MD032 params
  = (st <- forEachLine params MD032_callback (mkMD032 false [] []) ;;
     Ok (errors32 st)).
Proof. reflexivity. Qed.

Lemma forLines_invariant {St : Type} (Inv : Z -> St -> Prop)
  (P : jsstring -> Prop)
  (callback : St -> jsstring -> Z -> bool -> bool -> St) (codeLines : list Z) :
  (forall s line i inCode onFence,
      P line -> 0 <= i -> Inv i s ->
      Inv (i + 1) (callback s line i inCode onFence)) ->
  forall ls i inFence s,
    Forall P ls -> 0 <= i -> Inv i s ->
    Inv (i + Z.of_nat (List.length ls))
      (forLines callback codeLines ls i inFence s).
Proof.
  intros Hstep. induction ls as [|line ls IH]; intros i inFence s HP Hi Hs.
  - simpl. rewrite Z.add_0_r. exact Hs.
  - inversion HP as [|? ? Hline Hrest]; subst. cbn [forLines List.length].
    replace (i + Z.of_nat (S (List.length ls)))
      with (i + 1 + Z.of_nat (List.length ls)) by lia.
    apply IH; [exact Hrest | lia |]. apply Hstep; assumption.
Qed.

Lemma test_listMarker (text : jsstring) :
  test re_listMarker text = true <-> listMarker text.
Proof.
  rewrite test_spec. unfold listMarker, re_listMarker.
  cbn [p_bol p_body p_eol]. split.
  - intros (pre & mid & post & -> & Hmid & Hpre & _).
    rewrite Hpre by reflexivity. cbn [app].
    apply Lang_Cat_inv in Hmid as (marker & sp & -> & Hmarker & Hsp).
    apply Lang_Chr_inv in Hsp as (c & -> & Hc).
    exists marker, c, post. split; [rewrite <- app_assoc; reflexivity|].
    split; [exact Hc|].
    apply Lang_Alt_inv in Hmarker as [Hb | Hd].
    + left. apply Lang_Chr_inv in Hb as (b & -> & Hb). exists b.
      split; [reflexivity|]. unfold oneOf in Hb.
      apply existsb_exists in Hb as (x & Hin & Heq). apply N.eqb_eq in Heq.
      subst x. exact Hin.
    + right. apply Lang_Cat_inv in Hd as (digits & dot & -> & Hdigits & Hdot).
      apply Lang_Chr_inv in Hdot as (d & -> & Hd). apply N.eqb_eq in Hd.
      subst d. apply Lang_Plus_Chr in Hdigits as (d & ds & -> & Hds).
      exists (d :: ds). split; [reflexivity|]. split; [discriminate|].
      apply Forall_forall. rewrite forallb_forall in Hds. exact Hds.
  - intros (marker & c & rest & -> & Hc & Hmarker).
    exists [], (marker ++ [c]), rest.
    split; [cbn [app]; rewrite <- app_assoc; reflexivity|].
    split; [|split; [reflexivity | discriminate]].
    apply Lang_Cat_inv. exists marker, [c]. split; [reflexivity|].
    split; [|constructor; exact Hc].
    apply Lang_Alt_inv. destruct Hmarker as [(b & -> & Hb)
                                            | (digits & -> & Hne & Hds)].
    + left. constructor. unfold oneOf. apply existsb_exists. exists b.
      split; [exact Hb | apply N.eqb_refl].
    + right. apply Lang_Cat_inv. exists digits, [code "."].
      split; [reflexivity|]. split; [|constructor; apply N.eqb_refl].
      destruct digits as [|d ds]; [contradiction|].
      apply Lang_Plus_Chr. exists d, ds. split; [reflexivity|].
      apply forallb_forall. rewrite Forall_forall in Hds. exact Hds.
Qed.

Lemma MD032_callback_range (st : MD032State) (line : jsstring) (i : Z)
  (inCode onFence : bool) :
  0 <= i ->
  (inList st = true -> 1 <= i)
  /\ (forall n, In n (errors32 st) -> 1 <= n <= i) ->
  (inList (MD032_callback st line i inCode onFence) = true -> 1 <= i + 1)
  /\ (forall n,
         In n (errors32 (MD032_callback st line i inCode onFence)) ->
         1 <= n <= i + 1).
Proof.
  destruct st as [inL prev errs]. cbn [inList errors32].
  intros Hi [HinL Herrs]. unfold MD032_callback. split; [intros _; lia|].
  assert (Hold : forall n, In n errs -> 1 <= n <= i + 1).
  { intros n Hn. specialize (Herrs n Hn). lia. }
  destruct (negb inCode || onFence)%bool; cbn [errors32]; [|exact Hold].
  destruct (test re_listMarker (trim line) && negb inL
            && negb (test_emptyOrLeadingSpace prev))%bool.
  - intros n Hn. apply in_app_iff in Hn as [Hn | [<- | []]];
      [apply Hold; exact Hn | lia].
  - destruct (negb (test re_listMarker (trim line)) && inL
              && negb (test_emptyOrLeadingSpace line))%bool eqn:E;
      [|exact Hold].
    apply andb_prop in E as [E _]. apply andb_prop in E as [_ E].
    specialize (HinL E).
    intros n Hn. apply in_app_iff in Hn as [Hn | [<- | []]];
      [apply Hold; exact Hn | lia].
Qed.

Lemma MD032_callback_quiet (st : MD032State) (line : jsstring) (i : Z)
  (inCode onFence : bool) :
  test re_listMarker (trim line) = false ->
  inList st = false /\ errors32 st = [] ->
  inList (MD032_callback st line i inCode onFence) = false
  /\ errors32 (MD032_callback st line i inCode onFence) = [].
Proof.
  destruct st as [inL prev errs]. cbn [inList errors32].
  intros Hline [-> ->]. unfold MD032_callback. rewrite Hline.
  destruct (negb inCode || onFence)%bool; cbn [inList errors32 andb negb];
    auto.
Qed.

(** Every number MD032 reports is the number of a line of the document,
    although one of its two reports pushes a line index; and it reports
    nothing when no line starts, once trimmed, with a list marker. *)
Theorem MD032_reports_lines_of_the_document (params : Params.t)
  (errors : list Z) :
  MD032 params = Ok errors ->
  (forall n, In n errors ->
             1 <= n <= Z.of_nat (List.length (Params.lines params)))
  /\ ((forall line, In line (Params.lines params) ->
                    ~ listMarker (trim line)) ->
      errors = []).
Proof.
  rewrite MD032_unfold. unfold forEachLine.
  destruct (codeLinesOf (Params.tokens params)) as [codeLines|];
    [|discriminate].
  cbn [bind]. intros Hrun. apply Ok_inj in Hrun. subst errors. split.
  - apply (forLines_invariant
             (fun i st =>
                (inList st = true -> 1 <= i)
                /\ forall n, In n (errors32 st) -> 1 <= n <= i)
             (fun _ => True) MD032_callback codeLines
             (fun s line i inCode onFence _ Hi Hs =>
                MD032_callback_range s line i inCode onFence Hi Hs)
             (Params.lines params) 0 false (mkMD032 false [] [])).
    + apply Forall_forall. intros; exact I.
    + lia.
    + cbn [inList errors32]. split; [discriminate | intros n []].
  - intros Hnone.
    apply (forLines_invariant
             (fun (_ : Z) st => inList st = false /\ errors32 st = [])
             (fun line => test re_listMarker (trim line) = false)
             MD032_callback codeLines
             (fun s line i inCode onFence Hline _ Hs =>
                MD032_callback_quiet s line i inCode onFence Hline Hs)
             (Params.lines params) 0 false (mkMD032 false [] [])).
    + apply Forall_forall. intros line Hline.
      apply not_true_is_false. rewrite test_listMarker. apply Hnone.
      exact Hline.
    + lia.
    + split; reflexivity.
Qed.

Lemma MD032_listAfterText : MD032 listAfterText = Ok [2; 2].
Proof.
  vm_compute. reflexivity.
Qed.

Lemma MD032_reports_lines_of_the_document_witness :
  (forall n, In n [2; 2] ->
             1 <= n <= Z.of_nat (List.length (Params.lines listAfterText)))
  /\ ((forall line, In line (Params.lines listAfterText) ->
                    ~ listMarker (trim line)) ->
      [2; 2] = []).
Proof.
  apply (MD032_reports_lines_of_the_document listAfterText [2; 2]).
  exact MD032_listAfterText.
Defined.

(** ** The inline tokens of block quotes *)

Lemma inline_not_quote (t : Token.t) :
  isInline t = true ->
  isBlockquoteOpen t = false /\ isBlockquoteClose t = false.
Proof.
  unfold isInline, isBlockquoteOpen, isBlockquoteClose. intros H.
  apply String.eqb_eq in H. rewrite H. split; reflexivity.
Qed.

Lemma inlineAhead_cons (x : Token.t) (ts : list Token.t) (t : Token.t) :
  inlineAhead (x :: ts) t
  <-> (x = t /\ isInline t = true)
      \/ (isBlockquoteOpen x = false /\ isBlockquoteClose x = false
          /\ inlineAhead ts t).
Proof.
  unfold inlineAhead. split.
  - intros (mid & post & Heq & Ht & Hmid).
    destruct mid as [|m mid]; simpl in Heq; injection Heq as <- ->.
    + left. auto.
    + right. destruct (Hmid x (or_introl eq_refl)) as [Ho Hc].
      split; [exact Ho|]. split; [exact Hc|]. exists mid, post.
      repeat split; auto; apply Hmid; right; assumption.
  - intros [(-> & Ht) | (Ho & Hc & mid & post & -> & Ht & Hmid)].
    + exists [], ts. repeat split; auto; contradiction.
    + exists (x :: mid), post. repeat split; auto;
        destruct H as [<- | H]; auto; apply Hmid; assumption.
Qed.

Lemma inlineInQuote_cons (x : Token.t) (ts : list Token.t) (t : Token.t) :
  inlineInQuote (x :: ts) t
  <-> (isBlockquoteOpen x = true /\ inlineAhead ts t) \/ inlineInQuote ts t.
Proof.
  unfold inlineInQuote. split.
  - intros (pre & q & post & Heq & Hq & Ht).
    destruct pre as [|p pre]; simpl in Heq; injection Heq as <- ->.
    + left. auto.
    + right. exists pre, q, post. auto.
  - intros [(Hx & Ht) | (pre & q & post & -> & Hq & Ht)].
    + exists [], x, ts. auto.
    + exists (x :: pre), q, post. auto.
Qed.

Lemma quotedInlines_In (tokens : list Token.t) :
  forall (inBlockquote : bool) (t : Token.t),
    In t (quotedInlines inBlockquote tokens)
    <-> (inBlockquote = true /\ inlineAhead tokens t)
        \/ inlineInQuote tokens t.
Proof.
  induction tokens as [|x ts IH]; intros inQ t.
  - simpl. split; [contradiction|].
    intros [(_ & mid & post & Heq & _) | (pre & q & post & Heq & _)];
      [destruct mid | destruct pre]; discriminate.
  - cbn [quotedInlines]. rewrite inlineAhead_cons, inlineInQuote_cons.
    destruct (isBlockquoteOpen x) eqn:Eo;
      [|destruct (isBlockquoteClose x) eqn:Ec].
    + rewrite IH. split.
      * intros [(_ & H) | H]; right; auto.
      * intros [(_ & [(-> & Ht) | (Hx & _)]) | [(_ & H) | H]].
        -- apply inline_not_quote in Ht as [Ht _]. congruence.
        -- discriminate.
        -- left. auto.
        -- right. exact H.
    + rewrite IH. split.
      * intros [(Hf & _) | H]; [discriminate | right; right; exact H].
      * intros [(_ & [(-> & Ht) | (_ & Hx & _)]) | [(Hx & _) | H]].
        -- apply inline_not_quote in Ht as [_ Ht]. congruence.
        -- discriminate.
        -- discriminate.
        -- right. exact H.
    + destruct (isInline x && inQ)%bool eqn:Ep.
      * apply andb_prop in Ep as [Hx ->]. cbn [In]. rewrite IH. split.
        -- intros [<- | [(_ & H) | H]].
           ++ left. auto.
           ++ left. auto.
           ++ right. right. exact H.
        -- intros [(_ & [(-> & Ht) | (_ & _ & H)]) | [(Hf & _) | H]].
           ++ left. reflexivity.
           ++ right. left. auto.
           ++ discriminate.
           ++ right. right. exact H.
      * rewrite IH. split.
        -- intros [(Hq & H) | H]; [left | right; right; exact H].
           split; [exact Hq|]. right. auto.
        -- intros [(Hq & [(-> & Ht) | (_ & _ & H)]) | [(Hf & _) | H]].
           ++ rewrite Ht, Hq in Ep. discriminate.
           ++ left. auto.
           ++ discriminate.
           ++ right. exact H.
Qed.

Lemma foldi_offsets_In (c : jsstring -> Z -> bool) (base : Z)
  (ls : list jsstring) :
  forall (offset : Z) (errors : list Z) (n : Z),
    In n (foldi (fun errors line offset =>
                   pushIf (c line offset) errors (base + offset))
                ls offset errors)
    <-> In n errors
        \/ exists (k : nat) line,
             nth_error ls k = Some line
             /\ c line (offset + Z.of_nat k) = true
             /\ n = base + (offset + Z.of_nat k).
Proof.
  induction ls as [|l ls IH]; intros offset errors n.
  - simpl. split; [auto|]. intros [H | (k & line & Hk & _)]; [exact H|].
    destruct k; discriminate.
  - cbn [foldi]. rewrite IH. unfold pushIf, push. split.
    + intros [H | (k & line & Hk & Hc & Hn)].
      * destruct (c l offset) eqn:Ec; [|left; exact H].
        apply in_app_iff in H as [H | [<- | []]]; [left; exact H|].
        right. exists O, l. rewrite Z.add_0_r. auto.
      * right. exists (S k), line.
        replace (offset + Z.of_nat (S k)) with (offset + 1 + Z.of_nat k)
          by lia.
        auto.
    + intros [H | (k & line & Hk & Hc & Hn)].
      * left. destruct (c l offset); [apply in_app_iff; left|]; exact H.
      * destruct k as [|k].
        -- simpl in Hk. injection Hk as <-. rewrite Z.add_0_r in Hc, Hn.
           left. rewrite Hc. apply in_app_iff. right. left. auto.
        -- right. exists k, line.
           replace (offset + 1 + Z.of_nat k) with (offset + Z.of_nat (S k))
             by lia.
           auto.
Qed.

Lemma fold_left_collect {A : Type} (F : A -> list Z -> list Z)
  (P : A -> Z -> Prop) :
  (forall t errors n, In n (F t errors) <-> In n errors \/ P t n) ->
  forall l acc n,
    In n (fold_left (fun errors t => F t errors) l acc)
    <-> In n acc \/ exists t, In t l /\ P t n.
Proof.
  intros HF. induction l as [|t l IH]; intros acc n.
  - simpl. split; [auto|]. intros [H | (t & [] & _)]. exact H.
  - cbn [fold_left]. rewrite IH, HF. split.
    + intros [[H | H] | (u & Hu & H)].
      * left. exact H.
      * right. exists t. simpl. auto.
      * right. exists u. simpl. auto.
    + intros [H | (u & [<- | Hu] & H)].
      * left. left. exact H.
      * left. right. exact H.
      * right. exists u. auto.
Qed.

Lemma MD027_fold (splitNewLine : jsstring -> list jsstring)
  (ts : list Token.t) :
  forall (inBlockquote : bool) (errors : list Z),
    snd (fold_left
           (fun (st : bool * list Z) token =>
              let '(inBlockquote, errors) := st in
              if String.eqb (Token.type token) "blockquote_open" then
                (true, errors)
              else if String.eqb (Token.type token) "blockquote_close" then
                (false, errors)
              else if (String.eqb (Token.type token) "inline"
                       && inBlockquote)%bool then
                (inBlockquote,
                 foldi (fun errors line offset =>
                          pushIf (test re_leadingSpace line
                                  || (Z.eqb offset 0
                                      && test re_quoteTwoSpaces
                                           (Token.line token)))%bool
                            errors (Token.lineNumber token + offset))
                       (splitNewLine (Token.content token)) 0 errors)
              else st)
           ts (inBlockquote, errors))
    = fold_left
        (fun errors token =>
           foldi (fun errors line offset =>
                    pushIf (test re_leadingSpace line
                            || (Z.eqb offset 0
                                && test re_quoteTwoSpaces (Token.line token)))%bool
                      errors (Token.lineNumber token + offset))
                 (splitNewLine (Token.content token)) 0 errors)
        (quotedInlines inBlockquote ts) errors.
Proof.
  induction ts as [|t ts IH]; intros inQ errors; [reflexivity|].
  cbn [fold_left quotedInlines].
  unfold isBlockquoteOpen, isBlockquoteClose, isInline.
  destruct (String.eqb (Token.type t) "blockquote_open"); [apply IH|].
  destruct (String.eqb (Token.type t) "blockquote_close"); [apply IH|].
  destruct (String.eqb (Token.type t) "inline" && inQ)%bool; [|apply IH].
  rewrite IH. reflexivity.
Qed.

Lemma test_quoteTwoSpaces (line : jsstring) :
  test re_quoteTwoSpaces line = true <-> quoteThenTwoSpaces line.
Proof.
  rewrite test_spec. unfold quoteThenTwoSpaces, re_quoteTwoSpaces.
  cbn [p_bol p_body p_eol]. split.
  - intros (pre & mid & post & -> & Hmid & Hpre & _).
    rewrite Hpre by reflexivity. cbn [app].
    apply Lang_Cat_inv in Hmid as (ws & r1 & -> & Hws & Hr1).
    apply Lang_Cat_inv in Hr1 as (q & r2 & -> & Hq & Hr2).
    apply Lang_Cat_inv in Hr2 as (a & b & -> & Ha & Hb).
    apply Lang_Star_Chr, forallb_whitespaceOnly in Hws.
    apply Lang_Chr_inv in Hq as (c0 & -> & Hc0). apply N.eqb_eq in Hc0.
    apply Lang_Chr_inv in Ha as (c1 & -> & Hc1).
    apply Lang_Chr_inv in Hb as (c2 & -> & Hc2).
    subst c0. exists ws, c1, c2, post. split; [|auto].
    repeat (rewrite <- app_assoc; cbn [app]). reflexivity.
  - intros (ws & c1 & c2 & rest & -> & Hws & Hc1 & Hc2).
    exists [], (ws ++ [code ">"; c1; c2]), rest.
    split; [cbn [app]; rewrite <- app_assoc; reflexivity|].
    split; [|split; [reflexivity | discriminate]].
    apply Lang_Cat_inv. exists ws, [code ">"; c1; c2].
    split; [reflexivity|].
    split; [apply Lang_Star_Chr, forallb_whitespaceOnly; exact Hws|].
    change [code ">"; c1; c2] with ([code ">"] ++ [c1] ++ [c2]).
    constructor; [constructor; apply N.eqb_refl|].
    constructor; constructor; assumption.
Qed.

(** MD027 looks at the inline tokens that follow a blockquote-open token
    with no blockquote boundary in between, whatever the nesting: it reports
    the line of each content line that starts with whitespace, and the first
    line when the line of the token has two whitespace characters after
    the [>]. *)
Theorem MD027_flags_spaces_in_quotes
  (splitNewLine : jsstring -> list jsstring) (params : Params.t) :
  exists errors,
    MD027 splitNewLine params = Ok errors
    /\ forall n,
         In n errors
         <-> exists t (k : nat) line,
               inlineInQuote (Params.tokens params) t
               /\ nth_error (splitNewLine (Token.content t)) k = Some line
               /\ (startsWithSpace line
                   \/ (k = O /\ quoteThenTwoSpaces (Token.line t)))
               /\ n = Token.lineNumber t + Z.of_nat k.
Proof.
  unfold MD027. eexists. split; [reflexivity|]. intros n.
  rewrite MD027_fold.
  rewrite (fold_left_collect
             (fun token errors =>
                foldi (fun errors line offset =>
                         pushIf (test re_leadingSpace line
                                 || (Z.eqb offset 0
                                     && test re_quoteTwoSpaces
                                          (Token.line token)))%bool
                           errors (Token.lineNumber token + offset))
                      (splitNewLine (Token.content token)) 0 errors)
             (fun token n =>
                exists (k : nat) line,
                  nth_error (splitNewLine (Token.content token)) k = Some line
                  /\ (startsWithSpace line
                      \/ (k = O /\ quoteThenTwoSpaces (Token.line token)))
                  /\ n = Token.lineNumber token + Z.of_nat k)).
  - split.
    + intros [[] | (t & Ht & k & line & Hk & Hc & Hn)].
      apply quotedInlines_In in Ht as [(Hf & _) | Ht]; [discriminate|].
      exists t, k, line. auto.
    + intros (t & k & line & Ht & Hk & Hc & Hn). right. exists t.
      split; [apply quotedInlines_In; right; exact Ht|].
      exists k, line. auto.
  - intros t errors m.
    rewrite (foldi_offsets_In
               (fun line offset =>
                  (test re_leadingSpace line
                   || (Z.eqb offset 0
                       && test re_quoteTwoSpaces (Token.line t)))%bool)
               (Token.lineNumber t)).
    split.
    + intros [H | (k & line & Hk & Hc & Hn)]; [left; exact H|].
      right. exists k, line. split; [exact Hk|]. rewrite Z.add_0_l in Hc, Hn.
      split; [|exact Hn].
      apply orb_prop in Hc as [Hc | Hc].
      * left. apply test_leadingSpace. exact Hc.
      * right. apply andb_prop in Hc as [Hz Hq]. apply Z.eqb_eq in Hz.
        split; [lia | apply test_quoteTwoSpaces; exact Hq].
    + intros [H | (k & line & Hk & Hc & Hn)]; [left; exact H|].
      right. exists k, line. split; [exact Hk|]. rewrite Z.add_0_l.
      split; [|exact Hn]. apply orb_true_iff.
      destruct Hc as [Hc | (-> & Hq)].
      * left. apply test_leadingSpace. exact Hc.
      * right. apply test_quoteTwoSpaces in Hq. rewrite Hq. reflexivity.
Qed.

(** ** The underlines MD022 reports *)

Lemma test_underline (line : jsstring) :
  test re_underline line = true <-> underlineLine line.
Proof.
  rewrite test_spec. unfold underlineLine, re_underline.
  cbn [p_bol p_body p_eol]. split.
  - intros (pre & mid & post & -> & Hmid & Hpre & Hpost).
    rewrite Hpre, Hpost by reflexivity. cbn [app]. rewrite app_nil_r.
    apply Lang_Cat_inv in Hmid as (marks & ws & -> & Hmarks & Hws).
    apply Lang_Star_Chr, forallb_whitespaceOnly in Hws.
    exists marks, ws. split; [reflexivity|].
    apply Lang_Alt_inv in Hmarks as [H | H];
      apply Lang_Plus_Chr in H as (c & m & -> & Hm);
      apply forallb_isChar in Hm; (split; [discriminate|]); auto.
  - intros (marks & ws & -> & Hne & Hmarks & Hws).
    exists [], (marks ++ ws), [].
    split; [cbn [app]; rewrite app_nil_r; reflexivity|].
    split; [|split; reflexivity].
    apply Lang_Cat_inv. exists marks, ws. split; [reflexivity|].
    split; [|apply Lang_Star_Chr, forallb_whitespaceOnly; exact Hws].
    destruct marks as [|c m]; [contradiction|].
    apply Lang_Alt_inv. destruct Hmarks as [H | H]; [left | right];
      apply Lang_Plus_Chr; exists c, m; (split; [reflexivity|]);
      apply forallb_isChar; exact H.
Qed.

Lemma foldM_throws_stateless {A St : Type} (f : St -> A -> result St)
  (cond : A -> Prop) :
  (forall s x, f s x = TypeError <-> cond x) ->
  forall xs s,
    foldM f xs s = TypeError <-> exists x, In x xs /\ cond x.
Proof.
  intros Hf xs s. rewrite foldM_throws. split.
  - intros (pre & x & post & s1 & -> & _ & Hx). exists x.
    split; [apply in_app_iff; right; left; reflexivity|].
    apply (Hf s1). exact Hx.
  - intros (x & Hin & Hx). revert s.
    induction xs as [|y xs IH]; intros s; [contradiction|].
    destruct (f s y) as [s1|] eqn:Ey.
    + destruct Hin as [-> | Hin].
      * apply (Hf s) in Hx. congruence.
      * destruct (IH Hin s1) as (pre & z & post & s2 & -> & Hpre & Hz).
        exists (y :: pre), z, post, s2. simpl. rewrite Ey. simpl. auto.
    + exists [], y, xs, s. simpl. auto.
Qed.

Lemma MD022_underlines_fold (token : Token.t) (ls : list jsstring) :
  forall (offset : Z) (errors : list Z),
    match Token.lines token with
    | Some (l0, _) =>
        exists errors',
          foldMi (fun errors line offset =>
                    if test re_underline line then
                      l0 <- lines0 token ;; Ok (push errors (l0 + offset))
                    else Ok errors)
                 ls offset errors = Ok errors'
          /\ (forall n, In n errors -> In n errors')
          /\ forall (k : nat) line,
               nth_error ls k = Some line -> test re_underline line = true ->
               In (l0 + (offset + Z.of_nat k)) errors'
    | None =>
        (foldMi (fun errors line offset =>
                   if test re_underline line then
                     l0 <- lines0 token ;; Ok (push errors (l0 + offset))
                   else Ok errors)
                ls offset errors = TypeError
         <-> exists line, In line ls /\ test re_underline line = true)
        /\ forall errors',
             foldMi (fun errors line offset =>
                       if test re_underline line then
                         l0 <- lines0 token ;; Ok (push errors (l0 + offset))
                       else Ok errors)
                    ls offset errors = Ok errors' ->
             errors' = errors
    end.
Proof.
  unfold lines0. destruct (Token.lines token) as [[l0 l1]|].
  - induction ls as [|l ls IH]; intros offset errors.
    + exists errors. simpl. split; [reflexivity|]. split; [auto|].
      intros k line Hk. destruct k; discriminate.
    + cbn [foldMi]. destruct (test re_underline l) eqn:El; cbn [bind].
      * destruct (IH (offset + 1) (push errors (l0 + offset)))
          as (errors' & Hrun & Hkeep & Hall).
        exists errors'. split; [exact Hrun|]. split.
        -- intros n Hn. apply Hkeep. apply in_app_iff. left. exact Hn.
        -- intros [|k] line Hk Hline.
           ++ apply Hkeep. apply in_app_iff. right. left.
              rewrite Z.add_0_r. reflexivity.
           ++ replace (offset + Z.of_nat (S k))
                with (offset + 1 + Z.of_nat k) by lia.
              apply (Hall k line Hk Hline).
      * destruct (IH (offset + 1) errors) as (errors' & Hrun & Hkeep & Hall).
        exists errors'. split; [exact Hrun|]. split; [exact Hkeep|].
        intros [|k] line Hk Hline.
        -- simpl in Hk. injection Hk as <-. congruence.
        -- replace (offset + Z.of_nat (S k))
             with (offset + 1 + Z.of_nat k) by lia.
           apply (Hall k line Hk Hline).
  - induction ls as [|l ls IH]; intros offset errors.
    + simpl. split.
      * split; [discriminate|]. intros (line & [] & _).
      * intros errors' H. injection H as <-. reflexivity.
    + cbn [foldMi]. destruct (test re_underline l) eqn:El; cbn [bind].
      * split; [|discriminate]. split; [|reflexivity]. intros _.
        exists l. simpl. auto.
      * destruct (IH (offset + 1) errors) as [Hthrow Hok]. split.
        -- rewrite Hthrow. split.
           ++ intros (line & Hin & Hline). exists line. simpl. auto.
           ++ intros (line & [<- | Hin] & Hline); [congruence|].
              exists line. auto.
        -- exact Hok.
Qed.

Lemma MD022_step_throws (splitNewLine : jsstring -> list jsstring)
  (st : MD022State) (t : Token.t) :
  MD022_step splitNewLine st t = TypeError <-> needsLines splitNewLine t.
Proof.
  destruct st as [prevHeading prevMax needBlank errors].
  unfold MD022_step, needsLines, isHeadingOpen, isInline.
  destruct (String.eqb (Token.type t) "heading_open") eqn:Eh.
  - unfold lines0. destruct (Token.lines t) as [[l0 l1]|]; cbn [bind].
    + split; [destruct needBlank; discriminate|]. intros [H _]. discriminate.
    + split; [|reflexivity]. intros _. auto.
  - destruct (String.eqb (Token.type t) "heading_close") eqn:Ec.
    + cbn [bind]. apply String.eqb_eq in Ec.
      split.
      * destruct (Token.lines t) as [[l0 l1]|]; discriminate.
      * intros (_ & [H | (H & _)]); [discriminate|].
        apply String.eqb_eq in H. rewrite Ec in H. discriminate.
    + destruct (String.eqb (Token.type t) "inline") eqn:Ei.
      * pose proof (MD022_underlines_fold t
                      (splitNewLine (Token.content t)) 0 errors) as Hfold.
        destruct (Token.lines t) as [[l0 l1]|] eqn:El.
        -- destruct Hfold as (errors' & -> & _). cbn [bind].
           split; [destruct needBlank; discriminate|]. intros [H _].
           discriminate.
        -- destruct Hfold as [Hthrow Hok].
           destruct (foldMi _ (splitNewLine (Token.content t)) 0 errors)
             as [errors'|] eqn:Erun; cbn [bind].
           ++ split; [discriminate|].
              intros (_ & [H | (_ & line & Hin & Hline)]); [discriminate|].
              assert (Hx : @Ok (list Z) errors' = TypeError).
              { apply Hthrow. exists line. split; [exact Hin|].
                apply test_underline. exact Hline. }
              discriminate.
           ++ split; [|reflexivity]. intros _. split; [reflexivity|].
              right. split; [reflexivity|].
              destruct (proj1 Hthrow eq_refl) as (line & Hin & Hline).
              exists line. split; [exact Hin|]. apply test_underline.
              exact Hline.
      * cbn [bind]. split.
        -- destruct (Token.lines t) as [[l0 l1]|]; [destruct needBlank|];
             discriminate.
        -- intros (_ & [H | (H & _)]); discriminate.
Qed.

Lemma MD022_step_keeps (splitNewLine : jsstring -> list jsstring)
  (st st' : MD022State) (t : Token.t) :
  MD022_step splitNewLine st t = Ok st' ->
  (forall n, In n (errors22 st) -> In n (errors22 st'))
  /\ forall l0 l1 (k : nat) line,
       isInline t = true -> Token.lines t = Some (l0, l1) ->
       nth_error (splitNewLine (Token.content t)) k = Some line ->
       test re_underline line = true ->
       In (l0 + Z.of_nat k) (errors22 st').
Proof.
  destruct st as [prevHeading prevMax needBlank errors].
  unfold MD022_step, isInline. cbn [errors22].
  assert (Hpush : forall b (es : list Z) x n,
             In n es -> In n (pushIf b es x)).
  { intros b es x n Hn. unfold pushIf, push. destruct b; [|exact Hn].
    apply in_app_iff. left. exact Hn. }
  destruct (String.eqb (Token.type t) "heading_open") eqn:Eh.
  - unfold lines0. destruct (Token.lines t) as [[l0 l1]|]; cbn [bind];
      [|discriminate].
    intros Hstep. split.
    + destruct needBlank; apply Ok_inj in Hstep; subst st'; cbn [errors22];
        intros n Hn; repeat apply Hpush; exact Hn.
    + intros a b k line Hi. apply String.eqb_eq in Eh, Hi. congruence.
  - destruct (String.eqb (Token.type t) "heading_close") eqn:Ec.
    + cbn [bind]. intros Hstep. split.
      * destruct (Token.lines t) as [[l0 l1]|]; apply Ok_inj in Hstep;
          subst st'; cbn [errors22]; intros n Hn; repeat apply Hpush;
          exact Hn.
      * intros a b k line Hi. apply String.eqb_eq in Ec, Hi. congruence.
    + destruct (String.eqb (Token.type t) "inline") eqn:Ei.
      * pose proof (MD022_underlines_fold t
                      (splitNewLine (Token.content t)) 0 errors) as Hfold.
        destruct (Token.lines t) as [[l0 l1]|] eqn:El.
        -- destruct Hfold as (errors' & -> & Hkeep & Hall). cbn [bind].
           intros Hstep.
           assert (Hin : forall n, In n errors' -> In n (errors22 st')).
           { destruct needBlank; apply Ok_inj in Hstep; subst st';
               cbn [errors22]; intros n Hn; repeat apply Hpush; exact Hn. }
           split.
           ++ intros n Hn. apply Hin, Hkeep. exact Hn.
           ++ intros a b k line _ Hl Hk Hline. injection Hl as <- <-.
              apply Hin. specialize (Hall k line Hk Hline).
              rewrite Z.add_0_l in Hall. exact Hall.
        -- destruct Hfold as [_ Hok].
           destruct (foldMi _ (splitNewLine (Token.content t)) 0 errors)
             as [errors'|] eqn:Erun; cbn [bind]; [|discriminate].
           intros Hstep. apply Ok_inj in Hstep. subst st'. cbn [errors22].
           rewrite (Hok errors' eq_refl). split; [auto|].
           intros a b k line _ Hl. discriminate.
      * cbn [bind]. intros Hstep. split.
        -- destruct (Token.lines t) as [[l0 l1]|]; [destruct needBlank|];
             apply Ok_inj in Hstep; subst st'; cbn [errors22]; intros n Hn;
             repeat apply Hpush; exact Hn.
        -- intros a b k line Hi. discriminate.
Qed.

Lemma MD022_run_keeps (splitNewLine : jsstring -> list jsstring)
  (ts : list Token.t) :
  forall st st',
    foldM (MD022_step splitNewLine) ts st = Ok st' ->
    forall n, In n (errors22 st) -> In n (errors22 st').
Proof.
  induction ts as [|t ts IH]; intros st st' Hrun n Hn.
  - simpl in Hrun. injection Hrun as <-. exact Hn.
  - cbn [foldM] in Hrun.
    destruct (MD022_step splitNewLine st t) as [st1|] eqn:Estep;
      [|discriminate].
    cbn [bind] in Hrun. apply (IH _ _ Hrun).
    apply (proj1 (MD022_step_keeps _ _ _ _ Estep)). exact Hn.
Qed.

(** MD022 throws exactly when a heading-open token, or an inline token whose
    content holds an underline, has no line range; otherwise it reports, for
    every inline token, heading or not, each content line that is a run of
    [-] or of [=], as the first line index of the token plus the offset of
    the line. *)
Theorem MD022_reports_underlines
  (splitNewLine : jsstring -> list jsstring) (params : Params.t) :
  (MD022 splitNewLine params = TypeError
   <-> exists t, In t (Params.tokens params) /\ needsLines splitNewLine t)
  /\ forall errors,
       MD022 splitNewLine params = Ok errors ->
       forall t l0 l1 (k : nat) line,
         In t (Params.tokens params) -> isInline t = true ->
         Token.lines t = Some (l0, l1) ->
         nth_error (splitNewLine (Token.content t)) k = Some line ->
         underlineLine line ->
         In (l0 + Z.of_nat k) errors.
Proof.
  unfold MD022. split.
  - rewrite bind_throws.
    apply (foldM_throws_stateless (MD022_step splitNewLine)
             (needsLines splitNewLine)).
    intros s x. apply MD022_step_throws.
  - intros errors Hrun t l0 l1 k line Hin Hi Hl Hk Hline.
    destruct (foldM (MD022_step splitNewLine) (Params.tokens params)
                (mkMD022 0 (-1) false [])) as [st|] eqn:Efold;
      [|discriminate].
    cbn [bind] in Hrun. apply Ok_inj in Hrun. subst errors.
    apply in_split in Hin as (pre & post & Htokens).
    rewrite Htokens, foldM_app in Efold.
    destruct (foldM (MD022_step splitNewLine) pre (mkMD022 0 (-1) false []))
      as [st1|]; [|discriminate].
    cbn [bind foldM] in Efold.
    destruct (MD022_step splitNewLine st1 t) as [st2|] eqn:Estep;
      [|discriminate].
    cbn [bind] in Efold.
    apply (MD022_run_keeps _ _ _ _ Efold).
    apply (proj2 (MD022_step_keeps _ _ _ _ Estep) l0 l1 k line Hi Hl Hk).
    apply test_underline. exact Hline.
Qed.

(** ** Closed atx headings without space *)

Lemma Forall_hash_last (closing : jsstring) :
  closing <> [] -> Forall (fun h => h = code "#") closing ->
  exists front, closing = front ++ [code "#"].
Proof.
  intros Hne Hall. destruct (exists_last Hne) as (front & x & ->).
  apply Forall_app in Hall as [_ Hx]. inversion Hx; subst.
  exists front. reflexivity.
Qed.

Lemma test_closedAtx (line : jsstring) :
  test re_closedAtx line = true <-> closedAtxLine line.
Proof.
  rewrite test_spec. unfold closedAtxLine, re_closedAtx.
  cbn [p_bol p_body p_eol]. split.
  - intros (pre & mid & post & -> & Hmid & Hpre & Hpost).
    rewrite Hpre, Hpost by reflexivity. cbn [app]. rewrite app_nil_r.
    apply Lang_Cat_inv in Hmid as (hashes & r1 & -> & Hh & Hr1).
    apply Lang_Cat_inv in Hr1 as (middle & r2 & -> & Hm & Hr2).
    apply Lang_Cat_inv in Hr2 as (c1 & closing & -> & Hc & Hcl).
    apply Lang_Plus_Chr in Hh as (h & hs & -> & Hh).
    apply Lang_Star_Chr in Hm.
    apply Lang_Chr_inv in Hc as (c & -> & Hc).
    apply Lang_Plus_Chr in Hcl as (d & ds & -> & Hd).
    exists (h :: hs), middle, c, (d :: ds).
    split; [reflexivity|]. split; [discriminate|].
    split; [apply forallb_isChar; exact Hh|].
    split; [apply (forallb_neq_notIn (code "#")); exact Hm|].
    split; [apply negb_true_iff, N.eqb_neq in Hc; exact Hc|].
    split; [discriminate | apply forallb_isChar; exact Hd].
  - intros (hashes & middle & c & closing & -> & Hne & Hh & Hm & Hc & Hcne
            & Hcl).
    exists [], (hashes ++ middle ++ c :: closing), [].
    split; [cbn [app]; rewrite app_nil_r; reflexivity|].
    split; [|split; reflexivity].
    apply Lang_Cat_inv. exists hashes, (middle ++ c :: closing).
    split; [reflexivity|]. split.
    { destruct hashes as [|h hs]; [contradiction|].
      apply Lang_Plus_Chr. exists h, hs. split; [reflexivity|].
      apply forallb_isChar. exact Hh. }
    apply Lang_Cat_inv. exists middle, (c :: closing).
    split; [reflexivity|]. split.
    { apply Lang_Star_Chr. apply (forallb_neq_notIn (code "#")). exact Hm. }
    apply Lang_Cat_inv. exists [c], closing. split; [reflexivity|]. split.
    { constructor. apply negb_true_iff, N.eqb_neq. exact Hc. }
    destruct closing as [|d ds]; [contradiction|].
    apply Lang_Plus_Chr. exists d, ds. split; [reflexivity|].
    apply forallb_isChar. exact Hcl.
Qed.

Lemma test_noSpaceHashEnd (line : jsstring) :
  test re_noSpaceHashEnd line = true <-> textThenHashes line.
Proof.
  rewrite test_spec. unfold textThenHashes, re_noSpaceHashEnd.
  cbn [p_bol p_body p_eol]. split.
  - intros (pre & mid & post & -> & Hmid & _ & Hpost).
    rewrite Hpost by reflexivity. rewrite app_nil_r.
    apply Lang_Cat_inv in Hmid as (c1 & closing & -> & Hc & Hcl).
    apply Lang_Chr_inv in Hc as (c & -> & Hc).
    apply notHashNorSpace_spec in Hc as [Hc Hs].
    apply Lang_Plus_Chr in Hcl as (d & ds & -> & Hd).
    exists pre, c, (d :: ds). split; [reflexivity|].
    split; [exact Hc|]. split; [exact Hs|].
    split; [discriminate | apply forallb_isChar; exact Hd].
  - intros (front & c & closing & -> & Hc & Hs & Hne & Hcl).
    exists front, (c :: closing), [].
    split; [rewrite app_nil_r; reflexivity|].
    split; [|split; [discriminate | reflexivity]].
    apply Lang_Cat_inv. exists [c], closing. split; [reflexivity|]. split.
    { constructor. apply notHashNorSpace_spec. auto. }
    destruct closing as [|d ds]; [contradiction|].
    apply Lang_Plus_Chr. exists d, ds. split; [reflexivity|].
    apply forallb_isChar. exact Hcl.
Qed.

Lemma closedAtxLine_endsInHash (line : jsstring) :
  closedAtxLine line -> endsInHash line.
Proof.
  intros (hashes & middle & c & closing & -> & _ & _ & _ & _ & Hne & Hcl).
  destruct (Forall_hash_last closing Hne Hcl) as (front & ->).
  exists (hashes ++ middle ++ c :: front).
  repeat (rewrite <- app_assoc; cbn [app]). reflexivity.
Qed.

Lemma MD020_In (params : Params.t) (errors : list Z) :
  MD020 params = Ok errors ->
  forall k : nat,
    In (Z.of_nat k + 1) errors
    <-> exists line,
          nth_error (Params.lines params) k = Some line
          /\ ~ insideCode params k /\ closedAtxLine line
          /\ (hashesThenText line \/ textThenHashes line).
Proof.
  unfold MD020. rewrite forEachLine_pushIf.
  destruct (codeLinesOf (Params.tokens params)) as [codeLines|] eqn:Ecl;
    simpl; [|discriminate].
  intros H k. injection H as <-. rewrite flagged_classify_In.
  split.
  - intros (k' & line & Hk & Heq & Hcond).
    assert (k' = k) by lia. subst k'. exists line. split; [exact Hk|].
    apply andb_prop in Hcond as [Hcond Hspace].
    apply andb_prop in Hcond as [Hin Hclosed].
    apply negb_true_iff in Hin.
    split; [|split].
    + rewrite <- (insideCode_spec _ _ _ Ecl). congruence.
    + apply test_closedAtx. exact Hclosed.
    + apply orb_prop in Hspace as [Hs | Hs];
        [left; apply test_hashNoSpace | right; apply test_noSpaceHashEnd];
        exact Hs.
  - intros (line & Hk & Hout & Hclosed & Hspace).
    exists k, line. split; [exact Hk|]. split; [reflexivity|].
    rewrite <- (insideCode_spec _ _ _ Ecl) in Hout.
    apply not_true_is_false in Hout. rewrite Hout.
    apply test_closedAtx in Hclosed. rewrite Hclosed. cbn [negb andb].
    apply orb_true_iff.
    destruct Hspace as [Hs | Hs];
      [left; apply test_hashNoSpace | right; apply test_noSpaceHashEnd];
      exact Hs.
Qed.

Lemma MD018_MD020_disjoint (params : Params.t) (errors18 errors20 : list Z) :
  MD018 params = Ok errors18 -> MD020 params = Ok errors20 ->
  forall n, In n errors18 -> ~ In n errors20.
Proof.
  unfold MD018, MD020. rewrite !forEachLine_pushIf.
  destruct (codeLinesOf (Params.tokens params)) as [codeLines|];
    simpl; [|discriminate].
  intros H18 H20 n. injection H18 as <-. injection H20 as <-.
  rewrite !flagged_classify_In.
  intros (k & line & Hk & Hn & Hc) (k' & line' & Hk' & Hn' & Hc').
  assert (k' = k) by lia. subst k'. rewrite Hk in Hk'. injection Hk' as <-.
  apply andb_prop in Hc as [_ Hend]. apply negb_true_iff in Hend.
  apply andb_prop in Hc' as [Hc' _]. apply andb_prop in Hc' as [_ Hclosed].
  apply test_closedAtx, closedAtxLine_endsInHash, test_endHash in Hclosed.
  congruence.
Qed.

(** * The rules taken together *)

(** MD009 and MD010 look at the text of every line, inside code or not:
    MD009 reports the lines that end in a whitespace character and MD010
    the lines that hold a tab. *)
Theorem MD009_MD010_flag_by_line_text (params : Params.t) :
  (exists errors,
      MD009 params = Ok errors
      /\ forall k : nat,
           In (Z.of_nat k + 1) errors
           <-> exists line,
                 nth_error (Params.lines params) k = Some line
                 /\ endsInSpace line)
  /\ (exists errors,
         MD010 params = Ok errors
         /\ forall k : nat,
              In (Z.of_nat k + 1) errors
              <-> exists line,
                    nth_error (Params.lines params) k = Some line
                    /\ hasTab line).
Proof.
  split; [apply MD009_In | apply MD010_In].
Qed.

(** MD018 reports the lines outside code that start with hashes directly
    followed by text and do not end in a hash; MD020 reports the lines
    outside code that are closed by hashes and have text directly after the
    opening hashes or directly before the closing ones; no line is reported
    by both. *)
Theorem MD018_MD020_flag_disjoint_lines (params : Params.t)
  (errors18 errors20 : list Z) :
  MD018 params = Ok errors18 ->
  MD020 params = Ok errors20 ->
  (forall k : nat,
      In (Z.of_nat k + 1) errors18
      <-> exists line,
            nth_error (Params.lines params) k = Some line
            /\ ~ insideCode params k /\ hashesThenText line
            /\ ~ endsInHash line)
  /\ (forall k : nat,
         In (Z.of_nat k + 1) errors20
         <-> exists line,
               nth_error (Params.lines params) k = Some line
               /\ ~ insideCode params k /\ closedAtxLine line
               /\ (hashesThenText line \/ textThenHashes line))
  /\ forall n, In n errors18 -> ~ In n errors20.
Proof.
  intros H18 H20. split; [apply MD018_In; exact H18|].
  split; [apply MD020_In; exact H20|].
  apply (MD018_MD020_disjoint params); assumption.
Qed.

Lemma MD018_headingsWithoutSpace : MD018 headingsWithoutSpace = Ok [2].
Proof.
  vm_compute. reflexivity.
Qed.

Lemma MD020_headingsWithoutSpace : MD020 headingsWithoutSpace = Ok [3].
Proof.
  vm_compute. reflexivity.
Qed.

Lemma MD018_MD020_flag_disjoint_lines_witness :
  (forall k : nat,
      In (Z.of_nat k + 1) [2]
      <-> exists line,
            nth_error (Params.lines headingsWithoutSpace) k = Some line
            /\ ~ insideCode headingsWithoutSpace k /\ hashesThenText line
            /\ ~ endsInHash line)
  /\ (forall k : nat,
         In (Z.of_nat k + 1) [3]
         <-> exists line,
               nth_error (Params.lines headingsWithoutSpace) k = Some line
               /\ ~ insideCode headingsWithoutSpace k /\ closedAtxLine line
               /\ (hashesThenText line \/ textThenHashes line))
  /\ forall n, In n [2] -> ~ In n [3].
Proof.
  apply (MD018_MD020_flag_disjoint_lines headingsWithoutSpace [2] [3]).
  - exact MD018_headingsWithoutSpace.
  - exact MD020_headingsWithoutSpace.
Defined.

(** [indentFor] and [unorderedListStyleFor] both look past the leading
    whitespace of the line of a token: the indent is the number of leading
    whitespace characters, and the style is decided by the first character
    after them, a hyphen for dash, a plus sign for plus, and anything else,
    nothing included, for asterisk. *)
Theorem indentFor_unorderedListStyleFor_skip_whitespace (token : Token.t) :
  (exists leading rest,
      Token.line token = leading ++ rest /\ whitespaceOnly leading
      /\ noLeadingSpace rest)
  /\ forall leading rest,
       Token.line token = leading ++ rest ->
       whitespaceOnly leading ->
       noLeadingSpace rest ->
       indentFor token = Z.of_nat (List.length leading)
       /\ (forall r, rest = code "-" :: r ->
                     unorderedListStyleFor token = "dash"%string)
       /\ (forall r, rest = code "+" :: r ->
                     unorderedListStyleFor token = "plus"%string)
       /\ (rest = []
           \/ (exists c r, rest = c :: r /\ c <> code "-" /\ c <> code "+")
           -> unorderedListStyleFor token = "asterisk"%string).
Proof.
  split; [exact (proj1 (indentFor_spec token))|].
  intros leading rest Hline Hws Hrest.
  split; [apply (proj2 (indentFor_spec token) leading rest); assumption|].
  apply (unorderedListStyleFor_spec token leading rest); assumption.
Qed.

Lemma indentFor_unorderedListStyleFor_witness :
  indentFor (blockToken "list_item_open" 1 2 (lit "  + b"))
  = Z.of_nat (List.length (lit "  "))
  /\ unorderedListStyleFor (blockToken "list_item_open" 1 2 (lit "  + b"))
     = "plus"%string.
Proof.
  destruct (proj2 (indentFor_unorderedListStyleFor_skip_whitespace
                     (blockToken "list_item_open" 1 2 (lit "  + b")))
              (lit "  ") (lit "+ b") eq_refl
              ltac:(repeat constructor)
              ltac:(right; exists (code "+"), (lit " b"); split; reflexivity))
    as (Hindent & _ & Hplus & _).
  split; [exact Hindent | exact (Hplus (lit " b") eq_refl)].
Defined.

(** MD019 reports the atx headings with two whitespace characters after the
    opening hashes; MD021 reports the closed atx headings with two
    whitespace characters after the opening hashes or before the closing
    ones. *)
Theorem MD019_MD021_flag_two_spaces (params : Params.t) :
  (forall errors,
      MD019 params = Ok errors ->
      forall n,
        In n errors
        <-> exists h,
              In h (headingsOf params) /\ Token.lineNumber h = n
              /\ headingStyleFor h = Ok "atx"%string
              /\ hashesThenTwoSpaces (Token.line h))
  /\ (forall errors,
         MD021 params = Ok errors ->
         forall n,
           In n errors
           <-> exists h,
                 In h (headingsOf params) /\ Token.lineNumber h = n
                 /\ headingStyleFor h = Ok "atx_closed"%string
                 /\ (hashesThenTwoSpaces (Token.line h)
                     \/ twoSpacesThenHashes (Token.line h))).
Proof.
  split; intros errors Hrun; [apply MD019_In | apply MD021_In]; exact Hrun.
Qed.

Lemma MD019_spacedHeadings : MD019 spacedHeadings = Ok [1].
Proof.
  vm_compute. reflexivity.
Qed.

Lemma MD021_spacedHeadings : MD021 spacedHeadings = Ok [3].
Proof.
  vm_compute. reflexivity.
Qed.

Lemma MD019_MD021_flag_two_spaces_witness :
  (In 1 [1]
   <-> exists h,
         In h (headingsOf spacedHeadings) /\ Token.lineNumber h = 1
         /\ headingStyleFor h = Ok "atx"%string
         /\ hashesThenTwoSpaces (Token.line h))
  /\ (In 3 [3]
      <-> exists h,
            In h (headingsOf spacedHeadings) /\ Token.lineNumber h = 3
            /\ headingStyleFor h = Ok "atx_closed"%string
            /\ (hashesThenTwoSpaces (Token.line h)
                \/ twoSpacesThenHashes (Token.line h))).
Proof.
  split.
  - apply (proj1 (MD019_MD021_flag_two_spaces spacedHeadings) [1]
             MD019_spacedHeadings 1).
  - apply (proj2 (MD019_MD021_flag_two_spaces spacedHeadings) [3]
             MD021_spacedHeadings 3).
Defined.

(** MD024 reports a heading once for each inline token of it whose content
    was handed over before, under the same or another heading; MD026
    reports a heading once for each inline token of it whose content ends
    in one of the punctuation characters, those of the option or, when it
    is absent or empty, the six characters [.,;:!?]. *)
Theorem MD024_MD026_check_heading_content (params : Params.t) :
  (exists errors,
      MD024 params = Ok errors
      /\ forall n,
           In n errors
           <-> exists pre h c post,
                 headingCalls None (Params.tokens params)
                 = pre ++ (h, c) :: post
                 /\ In c (map snd pre)
                 /\ Token.lineNumber h = n)
  /\ (plainClass (punctuationOf params) ->
      exists errors,
        MD026 params = Ok errors
        /\ forall n,
             In n errors
             <-> exists h c,
                   In (h, c) (headingCalls None (Params.tokens params))
                   /\ endsInOneOf (punctuationOf params) c
                   /\ Token.lineNumber h = n).
Proof.
  split; [apply MD024_In | apply MD026_In].
Qed.

Lemma MD024_MD026_check_heading_content_witness :
  exists errors,
    MD026 questionHeading = Ok errors
    /\ forall n,
         In n errors
         <-> exists h c,
               In (h, c) (headingCalls None (Params.tokens questionHeading))
               /\ endsInOneOf (punctuationOf questionHeading) c
               /\ Token.lineNumber h = n.
Proof.
  apply (proj2 (MD024_MD026_check_heading_content questionHeading)).
  unfold plainClass, punctuationOf. cbn.
  repeat constructor; intros H; cbn in H; intuition discriminate.
Defined.

(** MD006 reports the unordered lists that open outside of any other list on
    a line that starts with whitespace; MD007 compares the indent of each
    unordered list with that of the unordered list opened before it in the
    document, nested in it or not, and with zero for the first, and reports
    the list when its indent is greater by another amount than the
    configured one. *)
Theorem MD006_MD007_check_list_indent (params : Params.t) :
  listsClosed (Params.tokens params) ->
  (forall errors,
      MD006 params = Ok errors ->
      forall n,
        In n errors
        <-> exists t,
              opensAtDepth (Params.tokens params) t 0
              /\ Token.type t = "bullet_list_open"%string
              /\ indentFor t <> 0
              /\ Token.lineNumber t = n)
  /\ (forall errors,
         MD007 params = Ok errors ->
         forall n,
           In n errors
           <-> (exists b post,
                   bulletOpens (Params.tokens params) = b :: post
                   /\ 0 < indentFor b
                   /\ indentFor b
                      <> Z.of_N (orNum (Options.indent (Params.options params))
                                   2)
                   /\ Token.lineNumber b = n)
               \/ (exists pre a b post,
                      bulletOpens (Params.tokens params)
                      = pre ++ a :: b :: post
                      /\ indentFor a < indentFor b
                      /\ indentFor b - indentFor a
                         <> Z.of_N (orNum (Options.indent
                                             (Params.options params)) 2)
                      /\ Token.lineNumber b = n)).
Proof.
  intros Hclosed. split; intros errors Hrun;
    [apply MD006_In | apply MD007_In]; assumption.
Qed.

Lemma MD006_MD007_check_list_indent_witness :
  (forall errors,
      MD006 indentedLists = Ok errors ->
      forall n,
        In n errors
        <-> exists t,
              opensAtDepth (Params.tokens indentedLists) t 0
              /\ Token.type t = "bullet_list_open"%string
              /\ indentFor t <> 0
              /\ Token.lineNumber t = n)
  /\ (forall errors,
         MD007 indentedLists = Ok errors ->
         forall n,
           In n errors
           <-> (exists b post,
                   bulletOpens (Params.tokens indentedLists) = b :: post
                   /\ 0 < indentFor b
                   /\ indentFor b
                      <> Z.of_N (orNum (Options.indent
                                          (Params.options indentedLists)) 2)
                   /\ Token.lineNumber b = n)
               \/ (exists pre a b post,
                      bulletOpens (Params.tokens indentedLists)
                      = pre ++ a :: b :: post
                      /\ indentFor a < indentFor b
                      /\ indentFor b - indentFor a
                         <> Z.of_N (orNum (Options.indent
                                             (Params.options indentedLists)) 2)
                      /\ Token.lineNumber b = n)).
Proof.
  apply (MD006_MD007_check_list_indent indentedLists).
  exact indentedLists_closed.
Defined.
